(** * dwv draw controller: a shallow embedding of src/app/drawController.js

    The controller keeps user annotations ("draws") in a Konva scene tree:
    layer -> position groups -> annotation groups -> shape, decorations,
    label -> text.  The embedding has three layers:

    - [JS]: the JavaScript string primitives the source calls
      (concatenation, [indexOf], [substring], [startsWith], number printing);
    - [Konva]: the scene graph as an arena of nodes addressed by reference,
      with the node capabilities the source relies on ([getChildren], [add],
      [remove], [find], [findOne], attribute getters and setters);
    - the functions of drawController.js themselves, written in a small
      state-and-exception monad over the arena. *)

From Stdlib Require Import ZArith String Ascii List Lia Bool DecimalString DecimalZ.
From stdpp Require Import base option list strings gmap.

Local Open Scope string_scope.

(* ===================================================================== *)
(** * JavaScript strings and values *)
(* ===================================================================== *)

Module JS.

  (** [s.length] *)
Definition length (s : string) : nat := String.length s.

  (** Every character of [s] satisfies [p]. *)
Fixpoint all_chars (p : ascii -> bool) (s : string) : bool :=
    match s with
    | EmptyString => true
    | String c s' => p c && all_chars p s'
    end.

  (** [s.startsWith(p)] *)
Definition startsWith (s p : string) : bool := String.prefix p s.

  (** [s.indexOf(needle)], searching from the front; [i] is the offset of
      [s] in the string the search started on.  [-1] when absent. *)
Fixpoint indexOf_from (needle s : string) (i : Z) : Z :=
    if String.prefix needle s then i
    else match s with
         | EmptyString => (-1)%Z
         | String _ s' => indexOf_from needle s' (i + 1)%Z
         end.

Definition indexOf (s needle : string) : Z := indexOf_from needle s 0%Z.

  (** Index arguments of [substring] are clamped to [0, s.length]. *)
Definition clamp (n : Z) (len : nat) : nat :=
    Z.to_nat (Z.min (Z.max n 0) (Z.of_nat len)).

  (** [s.substring(start, end)] and [s.substring(start)] ([end_ = None]):
      both indices are clamped and swapped when [start > end]. *)
Definition substring (s : string) (start : Z) (end_ : option Z) : string :=
    let len := String.length s in
    let a := clamp start len in
    let b := match end_ with None => len | Some e => clamp e len end in
    String.substring (Nat.min a b) (Nat.max a b - Nat.min a b) s.

  (** [s.replace(/ /g, '')]: the string without its space characters. *)
Fixpoint removeSpaces (s : string) : string :=
    match s with
    | EmptyString => EmptyString
    | String c s' =>
        if Ascii.eqb c " " then removeSpaces s' else String c (removeSpaces s')
    end.

  (** [s.split(sep)] for a separator that is one character, given by the
      test [sep]: the pieces between the separators, at least one. *)
Fixpoint splitOn (sep : ascii -> bool) (s : string) : list string :=
    match s with
    | EmptyString => [EmptyString]
    | String c s' =>
        if sep c then EmptyString :: splitOn sep s'
        else match splitOn sep s' with
             | w :: ws => String c w :: ws
             | [] => [String c EmptyString]
             end
    end.

  (** The characters that the class [\s] of a regular expression matches,
      a character of the model being one code unit below 256: tab, line
      feed, vertical tab, form feed, carriage return, space, no-break
      space. *)
Definition isWhitespace (c : ascii) : bool :=
    let n := nat_of_ascii c in
    (Nat.leb 9 n && Nat.leb n 13) || Nat.eqb n 32 || Nat.eqb n 160.

  (** A value read from a position: a number, or [undefined] when the
      component does not exist. *)
Definition value := option Z.

  (** [Number.prototype.toString] on an integer. *)
Definition numberToString (z : Z) : string :=
    NilZero.string_of_int (Z.to_int z).

  (** The string a value contributes to a concatenation ['...' + v]. *)
Definition toString (v : value) : string :=
    match v with
    | Some z => numberToString z
    | None => "undefined"
    end.

End JS.

(* ===================================================================== *)
(** * Position keys (drawController.js, lines 26-49) *)
(* ===================================================================== *)

(** A [Point]: [get(i)] reads the i-th value, [length()] counts them. *)
Definition Point := list Z.

Definition Point_get (p : Point) (i : nat) : JS.value := p !! i.
Definition Point_length (p : Point) : nat := List.length p.

(** [getDrawPositionGroupId(currentPosition)] *)
Definition getDrawPositionGroupId (currentPosition : Point) : string :=
  let sliceNumber := Point_get currentPosition 2 in
  let frameNumber :=
    if Nat.eqb (Point_length currentPosition) 4
    then Point_get currentPosition 3 else Some 0%Z in
  "slice-" ++ JS.toString sliceNumber ++ "_frame-" ++ JS.toString frameNumber.

(** The separator of a key is the underscore; printed values never contain
    one. *)
Definition not_underscore (c : ascii) : bool := negb (Ascii.eqb c "_").

(** The object [{sliceNumber, frameNumber}] returned by
    [getPositionFromGroupId]; both fields are strings. *)
Record SliceFrame := { sliceNumber : string; frameNumber : string }.

(** [getPositionFromGroupId(groupId)], with the warning it may log. *)
Definition getPositionFromGroupId (groupId : string)
  : SliceFrame * list string :=
  let sepIndex := JS.indexOf groupId "_" in
  let warnings :=
    if Z.eqb sepIndex (-1)
    then ["Badly formed PositionGroupId: " ++ groupId] else [] in
  ({| sliceNumber := JS.substring groupId 6 (Some sepIndex);
      frameNumber := JS.substring groupId (sepIndex + 7) None |},
   warnings).

(* ===================================================================== *)
(** * External collaborators *)
(* ===================================================================== *)

(** Functions and types that drawController.js imports from modules outside
    this file: [replaceFlags] (utils/string), [getShadowColour]
    (utils/colour), the [Index] class and [getIndexFromStringId]
    (math/index), [getShapeDisplayName] (tools/drawCommands).  The controller
    only passes values through them, so they are taken as an interface.
    [None] stands for an exception thrown by the collaborator. *)
Class Externals := {
  Quantification : Type;
  replaceFlags : string -> Quantification -> string;
  getShadowColour : string -> string;
  Index : Type;
  Index_length : Index -> nat;
  Index_toStringId : Index -> list nat -> option string;
  getIndexFromStringId : string -> option Index;
  Index_toString : Index -> string;
  getShapeDisplayName : option string -> string
}.

(* ===================================================================== *)
(** * The Konva scene graph *)
(* ===================================================================== *)

(** Nodes live in an arena (a list indexed by reference).  A node is never
    freed: [remove] only unlinks it from its parent, as in Konva, so that a
    command can re-attach it later.

    Modelling assumptions about Konva, which is not part of the repository:
    - every node carries the whole attribute record; the class of a node
      decides which methods it has: a container ([isContainer]) has
      [getChildren], [find], [findOne] and [add], every other node is a
      shape and has [stroke], [fill] and [shadowColor]; calling a method a
      node does not have is a [TypeError];
    - [id()] and [name()] default to the empty string, [visible()] to true,
      [stroke()] and [fill()] to [undefined];
    - a selector string is matched as [Node._isMatch] does ([isMatch]):
      spaces are dropped, the string is cut at the commas, and a node
      matches when it matches one of the pieces;
    - the fixed selectors [.anchor] and [.text] of [getDrawStoreDetails] are
      used on scenes where a node has one name, and compare the whole name;
    - [child.index] is the position of the child in [parent.children]. *)
Module Konva.

(** A reference is an index into the arena. *)
Abbreviation ref := nat.

Section Nodes.
Context `{Ext : Externals}.

    (** The side-channel metadata dwv attaches to a text node. *)
Record Meta := mkMeta {
      textExpr : string;
      quantification : Quantification
    }.

Record Node := mkNode {
      name : string;
      id : string;
      visible : bool;
      className : string;
      closed : bool;
      stroke : option string;
      fill : option string;
      shadowColor : option string;
      text : string;
      meta : option Meta;
      parent : option ref;
      children : list ref
    }.

    (** [new Konva.Group()] *)
Definition Group : Node :=
      mkNode "" "" true "Group" false None None None "" None None [].

Definition with_name (v : string) (n : Node) : Node :=
      mkNode v (id n) (visible n) (className n) (closed n) (stroke n)
        (fill n) (shadowColor n) (text n) (meta n) (parent n) (children n).
Definition with_id (v : string) (n : Node) : Node :=
      mkNode (name n) v (visible n) (className n) (closed n) (stroke n)
        (fill n) (shadowColor n) (text n) (meta n) (parent n) (children n).
Definition with_visible (v : bool) (n : Node) : Node :=
      mkNode (name n) (id n) v (className n) (closed n) (stroke n)
        (fill n) (shadowColor n) (text n) (meta n) (parent n) (children n).
Definition with_stroke (v : option string) (n : Node) : Node :=
      mkNode (name n) (id n) (visible n) (className n) (closed n) v
        (fill n) (shadowColor n) (text n) (meta n) (parent n) (children n).
Definition with_fill (v : option string) (n : Node) : Node :=
      mkNode (name n) (id n) (visible n) (className n) (closed n) (stroke n)
        v (shadowColor n) (text n) (meta n) (parent n) (children n).
Definition with_shadowColor (v : option string) (n : Node) : Node :=
      mkNode (name n) (id n) (visible n) (className n) (closed n) (stroke n)
        (fill n) v (text n) (meta n) (parent n) (children n).
Definition with_text (v : string) (n : Node) : Node :=
      mkNode (name n) (id n) (visible n) (className n) (closed n) (stroke n)
        (fill n) (shadowColor n) v (meta n) (parent n) (children n).
Definition with_meta (v : option Meta) (n : Node) : Node :=
      mkNode (name n) (id n) (visible n) (className n) (closed n) (stroke n)
        (fill n) (shadowColor n) (text n) v (parent n) (children n).
Definition with_parent (v : option ref) (n : Node) : Node :=
      mkNode (name n) (id n) (visible n) (className n) (closed n) (stroke n)
        (fill n) (shadowColor n) (text n) (meta n) v (children n).
Definition with_children (v : list ref) (n : Node) : Node :=
      mkNode (name n) (id n) (visible n) (className n) (closed n) (stroke n)
        (fill n) (shadowColor n) (text n) (meta n) (parent n) v.

    (** The container classes of Konva; a node of any other class is a
        shape. *)
Definition isContainer (n : Node) : bool :=
      existsb (String.eqb (className n))
        ["Stage"; "Layer"; "FastLayer"; "Group"; "Label"; "Transformer"].

    (** [node.nodeType] *)
Definition nodeType (n : Node) : string :=
      if String.eqb (className n) "Stage" then "Stage"
      else if String.eqb (className n) "Layer"
              || String.eqb (className n) "FastLayer" then "Layer"
      else if isContainer n then "Group"
      else "Shape".

    (** [node.hasName(nm)]: [nm] is one of the names of the node, which are
        separated by white space. *)
Definition hasName (nm : string) (n : Node) : bool :=
      if String.eqb nm "" then false
      else if String.eqb (name n) "" then false
      else existsb (String.eqb nm) (JS.splitOn JS.isWhitespace (name n)).

    (** One piece of a selector: [#id], [.name], or a class or node type. *)
Definition matchesOne (sel : string) (n : Node) : bool :=
      match sel with
      | String "#" i => String.eqb (id n) i
      | String "." nm => hasName nm n
      | _ => String.eqb (className n) sel || String.eqb (nodeType n) sel
      end.

    (** [node._isMatch(selector)] for a selector string. *)
Definition isMatch (selector : string) (n : Node) : bool :=
      if String.eqb selector "" then false
      else existsb (fun sel => matchesOne sel n)
             (JS.splitOn (Ascii.eqb ",") (JS.removeSpaces selector)).

    (** [children.splice(child.index, 1)]: drop the child at its position. *)
Fixpoint splice_out (c : ref) (l : list ref) : list ref :=
      match l with
      | [] => []
      | x :: l' => if Nat.eqb x c then l' else x :: splice_out c l'
      end.

    (** The pre-order walk of [_descendants]: every node below [r], parents
        before children, siblings left to right.  [None] when the walk is
        deeper than [fuel] or meets a reference outside the arena. *)
Fixpoint descendants (fuel : nat) (h : list Node) (r : ref)
      : option (list ref) :=
      match fuel with
      | 0 => None
      | S f =>
          match h !! r with
          | None => None
          | Some n =>
              foldr (fun c acc =>
                       match descendants f h c, acc with
                       | Some ds, Some rest => Some (c :: (ds ++ rest)%list)
                       | _, _ => None
                       end)
                    (Some []) (children n)
          end
      end.

    (** A serialised scene, as [Konva.Node.create] receives it: the class
        and attributes of a node (links are ignored) and its children. *)
#[warnings="-register-all"] Inductive Json := JNode (attrs : Node) (kids : list Json).

End Nodes.

End Konva.

(* ===================================================================== *)
(** * State and effects *)
(* ===================================================================== *)

(** What a JavaScript statement can end with besides a value. *)
Inductive exn :=
| TypeError      (* a property read on [undefined] or [null] *)
| ExternalError  (* an exception thrown by an external collaborator *)
| OutOfFuel      (* the walk or loop did not finish within the fuel *)
| DanglingRef.   (* a reference outside the arena: no JavaScript object *)

Inductive result (A : Type) := Ok (a : A) | Throw (e : exn).
Arguments Ok {A} a.
Arguments Throw {A} e.

Section Effects.
Context `{Ext : Externals}.

  (** The arena, the two private fields of [DrawController], and what
      [logger.warn] has printed (oldest first). *)
Record State := mkState {
    heap : list Konva.Node;
    konvaLayer : option Konva.ref;
    currentPosGroupId : option string;
    log : list string
  }.

  (** State passing with exceptions; the state survives an exception, as
      mutations done before a JavaScript [throw] do. *)
Definition M (A : Type) : Type := State -> State * result A.

Definition ret {A} (a : A) : M A := fun s => (s, Ok a).
Definition throw {A} (e : exn) : M A := fun s => (s, Throw e).
Definition bind {A B} (m : M A) (k : A -> M B) : M B :=
    fun s => match m s with
             | (s', Ok a) => k a s'
             | (s', Throw e) => (s', Throw e)
             end.

Definition gets {A} (f : State -> A) : M A := fun s => (s, Ok (f s)).
Definition modify (f : State -> State) : M unit := fun s => (f s, Ok tt).

End Effects.

Notation "'do' x <- m ; k" := (bind m (fun x => k))
  (at level 10, x name, m at level 100, k at level 200).

(* ===================================================================== *)
(** * Konva node operations *)
(* ===================================================================== *)

Section NodeOps.
Context `{Ext : Externals}.

Definition with_heap (h : list Konva.Node) (s : State) : State :=
  mkState h (konvaLayer s) (currentPosGroupId s) (log s).

Fixpoint forM_ {A} (l : list A) (f : A -> M unit) : M unit :=
  match l with
  | [] => ret tt
  | x :: l' => do _ <- f x; forM_ l' f
  end.

Fixpoint foldM {A B} (f : B -> A -> M B) (l : list A) (b : B) : M B :=
  match l with
  | [] => ret b
  | x :: l' => do b' <- f b x; foldM f l' b'
  end.

(** [logger.warn(msg)] *)
Definition warn (msg : string) : M unit :=
  modify (fun s => mkState (heap s) (konvaLayer s) (currentPosGroupId s)
                     (log s ++ [msg])%list).

(** Reading and writing the object behind a reference. *)
Definition getNode (r : Konva.ref) : M Konva.Node :=
  fun s => match heap s !! r with
           | Some n => (s, Ok n)
           | None => (s, Throw DanglingRef)
           end.

Definition setNode (r : Konva.ref) (n : Konva.Node) : M unit :=
  modify (fun s => with_heap (<[r := n]> (heap s)) s).

Definition updNode (r : Konva.ref) (f : Konva.Node -> Konva.Node) : M unit :=
  do n <- getNode r; setNode r (f n).

(** [new Konva.X(attrs)]: a detached node at a fresh reference. *)
Definition newNode (n : Konva.Node) : M Konva.ref :=
  fun s => (with_heap (heap s ++ [n])%list s, Ok (List.length (heap s))).

(** The live child array of the node at [r], read now: [getChildren()] on
    a node that is a container by its declared type (the layer field holds
    a [Konva.Layer]), and the reads of a child array the code holds. *)
Definition Node_getChildren (r : Konva.ref) : M (list Konva.ref) :=
  do n <- getNode r; ret (Konva.children n).

(** The copy [children.filter(p)]. *)
Fixpoint filterNodes (p : Konva.Node -> bool) (l : list Konva.ref)
  : M (list Konva.ref) :=
  match l with
  | [] => ret []
  | c :: l' =>
      do n <- getNode c;
      do rest <- filterNodes p l';
      ret (if p n then c :: rest else rest)
  end.

(** [layer.getChildren(filterFunc)] *)
Definition Node_getChildrenIf (r : Konva.ref) (p : Konva.Node -> bool)
  : M (list Konva.ref) :=
  do cs <- Node_getChildren r; filterNodes p cs.

(** [node.remove()]: unlink from the parent, if any. *)
Definition Node_remove (r : Konva.ref) : M unit :=
  do n <- getNode r;
  match Konva.parent n with
  | None => ret tt
  | Some p =>
      do _ <- updNode p (fun pn =>
                Konva.with_children (Konva.splice_out r (Konva.children pn)) pn);
      updNode r (Konva.with_parent None)
  end.

(** [layer.add(child)]: a child that has a parent is moved
    ([child.moveTo(container)], nothing when it is already there). *)
Definition Node_add (p c : Konva.ref) : M unit :=
  let attach :=
    do _ <- updNode c (Konva.with_parent (Some p));
    updNode p (fun pn => Konva.with_children (Konva.children pn ++ [c])%list pn) in
  do cn <- getNode c;
  match Konva.parent cn with
  | None => attach
  | Some q => if Nat.eqb q p then ret tt else do _ <- Node_remove c; attach
  end.

(** The walk below [r], in the order [find] visits. *)
Definition Node_descendants (fuel : nat) (r : Konva.ref)
  : M (list Konva.ref) :=
  do h <- gets heap;
  match Konva.descendants fuel h r with
  | Some ds => ret ds
  | None => throw OutOfFuel
  end.

(** [layer.find(selector)] for a selector that tests one node. *)
Definition Node_find (fuel : nat) (r : Konva.ref) (p : Konva.Node -> bool)
  : M (list Konva.ref) :=
  do ds <- Node_descendants fuel r; filterNodes p ds.

(** [layer.findOne(selector)]: the first match, or [undefined]. *)
Definition Node_findOne (fuel : nat) (r : Konva.ref) (p : Konva.Node -> bool)
  : M (option Konva.ref) :=
  do found <- Node_find fuel r p; ret (head found).

(** The fixed selectors ['.' + n] and a class name; the test "the
    identifier is [i]". *)
Definition hasName (n : string) (node : Konva.Node) : bool :=
  String.eqb (Konva.name node) n.
Definition hasId (i : string) (node : Konva.Node) : bool :=
  String.eqb (Konva.id node) i.
Definition hasClass (c : string) (node : Konva.Node) : bool :=
  String.eqb (Konva.className node) c.

(** The selector ['#' + i] that [getGroup] and [updateDraw] build from an
    identifier they receive. *)
Definition selectsId (i : string) (node : Konva.Node) : bool :=
  Konva.isMatch ("#" ++ i) node.

(** A method of [Konva.Container] called on the node at [r]: a shape has
    no such method. *)
Definition asContainer (r : Konva.ref) : M unit :=
  do n <- getNode r;
  if Konva.isContainer n then ret tt else throw TypeError.

(** A method of [Konva.Shape] called on the node at [r]: a container has
    no such method. *)
Definition asShape (r : Konva.ref) : M Konva.Node :=
  do n <- getNode r;
  if Konva.isContainer n then throw TypeError else ret n.

(** [node.getChildren()], [node.getChildren(filterFunc)],
    [node.find(selector)], [node.findOne(selector)] and [node.add(child)]
    on a node of any class. *)
Definition Container_getChildren (r : Konva.ref) : M (list Konva.ref) :=
  do _ <- asContainer r; Node_getChildren r.

Definition Container_getChildrenIf (r : Konva.ref) (p : Konva.Node -> bool)
  : M (list Konva.ref) :=
  do _ <- asContainer r; Node_getChildrenIf r p.

Definition Container_find (fuel : nat) (r : Konva.ref)
    (p : Konva.Node -> bool) : M (list Konva.ref) :=
  do _ <- asContainer r; Node_find fuel r p.

Definition Container_add (p c : Konva.ref) : M unit :=
  do _ <- asContainer p; Node_add p c.

(** [label.getText()]: a method of [Konva.Label], which returns
    [this.find('Text')[0]]. *)
Definition Label_getText (fuel : nat) (r : Konva.ref)
  : M (option Konva.ref) :=
  do n <- getNode r;
  if String.eqb (Konva.className n) "Label"
  then Node_findOne fuel r (hasClass "Text")
  else throw TypeError.

(** [node.stroke()], [node.fill()], [node.stroke(v)], [node.fill(v)] and
    [node.shadowColor(v)] on a node of any class. *)
Definition Shape_stroke (r : Konva.ref) : M (option string) :=
  do n <- asShape r; ret (Konva.stroke n).

Definition Shape_fill (r : Konva.ref) : M (option string) :=
  do n <- asShape r; ret (Konva.fill n).

Definition Shape_setStroke (r : Konva.ref) (v : string) : M unit :=
  do _ <- asShape r; updNode r (Konva.with_stroke (Some v)).

Definition Shape_setFill (r : Konva.ref) (v : string) : M unit :=
  do _ <- asShape r; updNode r (Konva.with_fill (Some v)).

Definition Shape_setShadowColor (r : Konva.ref) (v : string) : M unit :=
  do _ <- asShape r; updNode r (Konva.with_shadowColor (Some v)).

(** [layer.draw()]: rendering is outside the model. *)
Definition Node_draw (r : Konva.ref) : M unit := ret tt.

(** [Konva.Node.create(json)]: build the described tree, detached. *)
Fixpoint Node_create (j : Konva.Json) : M Konva.ref :=
  match j with
  | Konva.JNode attrs kids =>
      do r <- newNode (Konva.with_parent None (Konva.with_children [] attrs));
      do _ <- (fix addKids (ks : list Konva.Json) : M unit :=
                 match ks with
                 | [] => ret tt
                 | k :: ks' =>
                     do c <- Node_create k;
                     do _ <- Container_add r c;
                     addKids ks'
                 end) kids;
      ret r
  end.

End NodeOps.

(* ===================================================================== *)
(** * Mutation commands (tools/drawCommands) *)
(* ===================================================================== *)

Section Commands.
Context `{Ext : Externals}.

Inductive CommandKind := DrawGroup | DeleteGroup.

(** What a command captures when it is constructed. *)
Record Command := mkCommand {
  cmd_kind : CommandKind;
  cmd_group : Konva.ref;
  cmd_name : string;
  cmd_layer : option Konva.ref;
  cmd_parent : option Konva.ref
}.

(** The [onExecute] / [onUndo] slots and the executed-callback. *)
Definition Callback : Type := Command -> M unit.

(** Modelled from the spec: the constructors of [DrawGroupCommand] and
    [DeleteGroupCommand], which live in tools/drawCommands.  A command holds
    the group it affects, a name for the undo history, the layer root, and
    the Position Group the group resolves to (its parent when the command is
    made). *)
Definition newCommand (k : CommandKind) (group : Konva.ref) (nm : string)
    (layer : option Konva.ref) : M Command :=
  do g <- getNode group;
  ret (mkCommand k group nm layer (Konva.parent g)).

(** Modelled from the spec: [DrawGroupCommand.execute], which lives in
    tools/drawCommands: "re-parents group under its resolved Position Group
    [...]; invokes onExecute(self)"; the redraw request is outside the
    model. *)
Definition DrawGroupCommand_execute (c : Command) (onExecute : Callback)
  : M unit :=
  do _ <- match cmd_parent c with
          | Some p => Node_add p (cmd_group c)
          | None => ret tt
          end;
  onExecute c.

(** Modelled from the spec: [DeleteGroupCommand.execute], which lives in
    tools/drawCommands: "detaches group from the tree; invokes
    onExecute(self)". *)
Definition DeleteGroupCommand_execute (c : Command) (onExecute : Callback)
  : M unit :=
  do _ <- Node_remove (cmd_group c);
  onExecute c.

End Commands.

(* ===================================================================== *)
(** * drawController.js *)
(* ===================================================================== *)

Section Controller.
Context `{Ext : Externals}.

(** ** Node predicates (lines 57-117) *)

Definition isNodeNameShape (node : Konva.Node) : bool :=
  String.eqb (Konva.name node) "shape".

Definition isNodeNameShapeExtra (node : Konva.Node) : bool :=
  JS.startsWith (Konva.name node) "shape-".

Definition isNodeNameLabel (node : Konva.Node) : bool :=
  String.eqb (Konva.name node) "label".

Definition isPositionNode (node : Konva.Node) : bool :=
  String.eqb (Konva.name node) "position-group".

Definition isNodeWithId (i : string) (node : Konva.Node) : bool :=
  String.eqb (Konva.id node) i.

Definition canNodeChangeColour (node : Konva.Node) : bool :=
  negb (String.eqb (Konva.name node) "anchor")
  && negb (String.eqb (Konva.name node) "label").

(** ** The controller (lines 141-507) *)

(** [this.#konvaLayer.m(...)]: a method call on [null] throws. *)
Definition thisLayer : M Konva.ref :=
  do l <- gets konvaLayer;
  match l with
  | Some r => ret r
  | None => throw TypeError
  end.

(** [node.id() === this.#currentPosGroupId]; an identifier is a string and
    never equals [null]. *)
Definition idIsKey (key : option string) (node : Konva.Node) : bool :=
  match key with
  | Some k => String.eqb (Konva.id node) k
  | None => false
  end.

(** [constructor(konvaLayer)] *)
Definition DrawController (h : list Konva.Node) (layer : Konva.ref) : State :=
  mkState h (Some layer) None [].

(** [getCurrentPosGroup()]; [None] is the [null] it returns. *)
Definition getCurrentPosGroup : M (option Konva.ref) :=
  do layer <- thisLayer;
  do key <- gets currentPosGroupId;
  do posGroups <- Node_getChildrenIf layer (idIsKey key);
  match posGroups with
  | [g] => ret (Some g)
  | [] =>
      do posGroup <- newNode Konva.Group;
      do _ <- updNode posGroup (Konva.with_name "position-group");
      do _ <- updNode posGroup (Konva.with_id (default "" key));
      do _ <- updNode posGroup (Konva.with_visible true);
      do _ <- Node_add layer posGroup;
      ret (Some posGroup)
  | _ =>
      do _ <- warn "Unexpected number of draw position groups.";
      ret None
  end.

(** [reset()] *)
Definition reset : M unit :=
  modify (fun s => mkState (heap s) None (currentPosGroupId s) (log s)).

(** [getGroup(id)] *)
Definition getGroup (fuel : nat) (i : string) : M (option Konva.ref) :=
  do layer <- thisLayer;
  do group <- Node_findOne fuel layer (selectsId i);
  do _ <- match group with
          | None => warn ("Cannot find node with id: " ++ i)
          | Some _ => ret tt
          end;
  ret group.

(** [activateDrawLayer(index, scrollIndex)] *)
Definition activateDrawLayer (index : Index) (scrollIndex : nat) : M unit :=
  let dims := scrollIndex :: seq 3 (Index_length index - 3) in
  do key <- match Index_toStringId index dims with
            | Some k => ret k
            | None => throw ExternalError
            end;
  do _ <- modify (fun s => mkState (heap s) (konvaLayer s) (Some key) (log s));
  do layer <- thisLayer;
  do posGroups <- Node_getChildrenIf layer isPositionNode;
  do _ <- forM_ posGroups (fun g =>
            do n <- getNode g;
            do key <- gets currentPosGroupId;
            let visible := idIsKey key n in
            updNode g (Konva.with_visible visible));
  Node_draw layer.

(** One entry of [getDrawDisplayDetails]. *)
Record DisplayDetails := mkDisplayDetails {
  dd_id : string;
  dd_position : string;
  dd_type : string;
  dd_color : option string;
  dd_meta : option Konva.Meta
}.

(** The body of the inner loop of [getDrawDisplayDetails] (lines 260-289). *)
Definition displayDetailsOf (position : Index) (group : Konva.ref)
  : M DisplayDetails :=
  do shapes <- Container_getChildrenIf group isNodeNameShape;
  do labels <- Container_getChildrenIf group isNodeNameLabel;
  do kids <- match head labels with
             | Some label => Container_getChildren label
             | None => throw TypeError
             end;
  do sh <- match head shapes with
           | Some sh => ret sh
           | None => throw TypeError
           end;
  do shape <- getNode sh;
  let type := Konva.className shape in
  do type <-
    (if String.eqb type "Line" then
       do shapeExtrakids <- Container_getChildrenIf group isNodeNameShapeExtra;
       if Konva.closed shape then ret "Roi"
       else match shapeExtrakids with
            | extra0 :: _ =>
                do e <- getNode extra0;
                let extraName0 := Konva.name e in
                if negb (Z.eqb (JS.indexOf extraName0 "triangle") (-1))
                then ret "Arrow"
                else if negb (Z.eqb (JS.indexOf extraName0 "arc") (-1))
                then ret "Protractor"
                else ret "Ruler"
            | [] => ret type
            end
     else ret type);
  let type := if String.eqb type "Rect" then "Rectangle" else type in
  do g <- getNode group;
  do color <- Shape_stroke sh;
  do text <- match head kids with
             | Some t => getNode t
             | None => throw TypeError
             end;
  ret (mkDisplayDetails (Konva.id g) (Index_toString position) type
         color (Konva.meta text)).

(** [getDrawDisplayDetails()] *)
Definition getDrawDisplayDetails : M (list DisplayDetails) :=
  do layer <- thisLayer;
  do groups <- Node_getChildren layer;
  foldM (fun list_ posGroup =>
           do pg <- getNode posGroup;
           do position <- match getIndexFromStringId (Konva.id pg) with
                          | Some p => ret p
                          | None => throw ExternalError
                          end;
           do collec <- Container_getChildren posGroup;
           foldM (fun list_ group =>
                    do d <- displayDetailsOf position group;
                    ret (list_ ++ [d])%list)
                 collec list_)
        groups [].

(** The value [{meta}] stored per annotation group. *)
Record StoreDetails := mkStoreDetails { sd_meta : option Konva.Meta }.

(** The body of the inner loop of [getDrawStoreDetails] (lines 312-326). *)
Definition storeDetailsOf (fuel : nat) (group : Konva.ref)
    (drawingsDetails : gmap string StoreDetails)
  : M (gmap string StoreDetails) :=
  do anchors <- Container_find fuel group (hasName "anchor");
  do _ <- forM_ anchors Node_remove;
  do texts <- Container_find fuel group (hasName "text");
  do _ <- (if Nat.eqb (List.length texts) 1 then ret tt
           else warn "There should not be more than one text per shape.");
  do text <- match head texts with
             | Some t => getNode t
             | None => throw TypeError
             end;
  do g <- getNode group;
  ret (<[Konva.id g := mkStoreDetails (Konva.meta text)]> drawingsDetails).

(** [getDrawStoreDetails()] *)
Definition getDrawStoreDetails (fuel : nat) : M (gmap string StoreDetails) :=
  do layer <- thisLayer;
  do posGroups <- Node_getChildrenIf layer isPositionNode;
  foldM (fun details posGroup =>
           do posKids <- Container_getChildren posGroup;
           foldM (fun details j =>
                    do posKids <- Node_getChildren posGroup;
                    match posKids !! j with
                    | Some group => storeDetailsOf fuel group details
                    | None => throw TypeError
                    end)
                 (seq 0 (List.length posKids)) details)
        posGroups ∅.

(** The first part of an iteration of [setDrawings] (lines 354-363): the
    live Position Group with the identifier of the incoming one, created
    when there is none. *)
Definition setDrawings_posGroup (statePosGroup : Konva.ref) : M Konva.ref :=
  do layer <- thisLayer;
  do sp <- getNode statePosGroup;
  do found <- Node_getChildrenIf layer (isNodeWithId (Konva.id sp));
  match head found with
  | Some posGroup => ret posGroup
  | None =>
      do posGroup <- newNode
           (Konva.with_visible false
              (Konva.with_name "position-group"
                 (Konva.with_id (Konva.id sp) Konva.Group)));
      do _ <- Node_add layer posGroup;
      ret posGroup
  end.

(** One iteration of the inner loop of [setDrawings] (lines 369-394). *)
Definition setDrawings_group (fuel : nat)
    (drawingsDetails : option (gmap string StoreDetails))
    (cmdCallback exeCallback : Callback)
    (statePosGroup posGroup : Konva.ref) : M unit :=
  do statePosKids <- Node_getChildren statePosGroup;
  do stateGroup <- match head statePosKids with
                   | Some g => ret g
                   | None => throw TypeError
                   end;
  do _ <- Container_add posGroup stateGroup;
  do shapes <- Container_getChildrenIf stateGroup isNodeNameShape;
  do shape <- match head shapes with
              | Some sh => getNode sh
              | None => throw TypeError
              end;
  do layer <- gets konvaLayer;
  do cmd <- newCommand DrawGroup stateGroup (Konva.className shape) layer;
  do _ <- match drawingsDetails with
          | None => ret tt
          | Some dd =>
              do g <- getNode stateGroup;
              do labels <- Container_getChildrenIf stateGroup isNodeNameLabel;
              do text <- match head labels with
                         | Some label => Label_getText fuel label
                         | None => throw TypeError
                         end;
              match dd !! Konva.id g, text with
              | Some details, Some text =>
                  match sd_meta details with
                  | Some m =>
                      do _ <- updNode text (Konva.with_meta (Some m));
                      updNode text
                        (Konva.with_text
                           (replaceFlags (Konva.textExpr m)
                              (Konva.quantification m)))
                  | None =>
                      do _ <- updNode text (Konva.with_meta None);
                      throw TypeError
                  end
              | _, _ => throw TypeError
              end
          end;
  do _ <- DrawGroupCommand_execute cmd cmdCallback;
  exeCallback cmd.

(** [setDrawings(drawings, drawingsDetails, cmdCallback, exeCallback)] *)
Definition setDrawings (fuel : nat) (drawings : Konva.Json)
    (drawingsDetails : option (gmap string StoreDetails))
    (cmdCallback exeCallback : Callback) : M unit :=
  do stateLayer <- Node_create drawings;
  do statePosGroups <- Container_getChildrenIf stateLayer isPositionNode;
  forM_ statePosGroups (fun statePosGroup =>
    do posGroup <- setDrawings_posGroup statePosGroup;
    do statePosKids <- Container_getChildren statePosGroup;
    forM_ (seq 0 (List.length statePosKids)) (fun _ =>
      setDrawings_group fuel drawingsDetails cmdCallback exeCallback
        statePosGroup posGroup)).

(** The argument of [updateDraw]; [ud_meta = None] when [meta] is
    [undefined]. *)
Record DrawDetails := mkDrawDetails {
  ud_id : string;
  ud_color : string;
  ud_meta : option Konva.Meta
}.

(** [updateDraw(drawDetails)] *)
Definition updateDraw (fuel : nat) (drawDetails : DrawDetails) : M unit :=
  do layer <- thisLayer;
  do group <- Node_findOne fuel layer (selectsId (ud_id drawDetails));
  match group with
  | None =>
      warn ("[updateDraw] Cannot find group with id: " ++ ud_id drawDetails)
  | Some group =>
      let color := ud_color drawDetails in
      do shapes <- Container_getChildrenIf group isNodeNameShape;
      do _ <- forM_ shapes (fun sh => Shape_setStroke sh color);
      do shapesExtra <- Container_getChildrenIf group isNodeNameShapeExtra;
      do _ <- forM_ shapesExtra (fun ex =>
                do stroke <- Shape_stroke ex;
                match stroke with
                | Some _ => Shape_setStroke ex color
                | None =>
                    do fill <- Shape_fill ex;
                    match fill with
                    | Some _ => Shape_setFill ex color
                    | None => ret tt
                    end
                end);
      do labels <- Container_getChildrenIf group isNodeNameLabel;
      let shadowColor := getShadowColour color in
      do label <- match head labels with
                  | Some l => ret l
                  | None => throw TypeError
                  end;
      do kids <- Container_getChildren label;
      do _ <- forM_ kids (fun kid =>
                do _ <- Shape_setFill kid color;
                do k <- getNode kid;
                if String.eqb (Konva.className k) "Text" then
                  do _ <- Shape_setShadowColor kid shadowColor;
                  match ud_meta drawDetails with
                  | Some m =>
                      do _ <- updNode kid (Konva.with_meta (Some m));
                      do _ <- updNode kid
                                (Konva.with_text
                                   (replaceFlags (Konva.textExpr m)
                                      (Konva.quantification m)));
                      updNode label
                        (Konva.with_visible
                           (negb (Nat.eqb (JS.length (Konva.textExpr m)) 0)))
                  | None => ret tt
                  end
                else ret tt);
      do layer <- thisLayer;
      Node_draw layer
  end.

(** [deleteDrawGroup(group, cmdCallback, exeCallback)] *)
Definition deleteDrawGroup (group : Konva.ref)
    (cmdCallback exeCallback : Callback) : M unit :=
  do shapes <- Container_getChildrenIf group isNodeNameShape;
  do shapeClass <- match head shapes with
                   | Some sh => do n <- getNode sh; ret (Some (Konva.className n))
                   | None => ret None
                   end;
  let shapeDisplayName := getShapeDisplayName shapeClass in
  do layer <- gets konvaLayer;
  do delcmd <- newCommand DeleteGroup group shapeDisplayName layer;
  do _ <- DeleteGroupCommand_execute delcmd cmdCallback;
  exeCallback delcmd.

(** [deleteDraw(id, cmdCallback, exeCallback)] *)
Definition deleteDraw (fuel : nat) (i : string)
    (cmdCallback exeCallback : Callback) : M bool :=
  do group <- getGroup fuel i;
  match group with
  | None => ret false
  | Some g =>
      do _ <- deleteDrawGroup g cmdCallback exeCallback;
      ret true
  end.

(** The [while (groups.length)] loop of [deleteDraws] over the live child
    array [groups] of the layer; [fuel] bounds the number of tests. *)
Fixpoint deleteDraws_loop (fuel : nat) (layer : Konva.ref)
    (cmdCallback exeCallback : Callback) : M unit :=
  match fuel with
  | 0 => throw OutOfFuel
  | S f =>
      do groups <- Node_getChildren layer;
      match groups with
      | [] => ret tt
      | g :: _ =>
          do _ <- deleteDrawGroup g cmdCallback exeCallback;
          deleteDraws_loop f layer cmdCallback exeCallback
      end
  end.

(** [deleteDraws(cmdCallback, exeCallback)] *)
Definition deleteDraws (fuel : nat) (cmdCallback exeCallback : Callback)
  : M unit :=
  do layer <- thisLayer;
  deleteDraws_loop fuel layer cmdCallback exeCallback.

End Controller.

(* ===================================================================== *)
(** * Reading a scene *)
(* ===================================================================== *)

(** Pure views of the arena, used to state what the controller does. *)
Section Views.
Context `{Ext : Externals}.

(** The node behind [c] exists and satisfies [p]. *)
Definition nodeSat (h : list Konva.Node) (p : Konva.Node -> bool)
    (c : Konva.ref) : bool :=
  match h !! c with
  | Some n => p n
  | None => false
  end.

Definition nodesWhere (h : list Konva.Node) (p : Konva.Node -> bool)
    (l : list Konva.ref) : list Konva.ref :=
  List.filter (nodeSat h p) l.

Definition childrenOf (h : list Konva.Node) (r : Konva.ref)
  : list Konva.ref :=
  match h !! r with
  | Some n => Konva.children n
  | None => []
  end.

Definition idOf (h : list Konva.Node) (r : Konva.ref) : string :=
  match h !! r with
  | Some n => Konva.id n
  | None => ""
  end.

(** The node behind [r] exists and is a container; exists and is a
    shape. *)
Definition containerAt (h : list Konva.Node) (r : Konva.ref) : Prop :=
  nodeSat h Konva.isContainer r = true.

Definition shapeAt (h : list Konva.Node) (r : Konva.ref) : Prop :=
  nodeSat h (fun n => negb (Konva.isContainer n)) r = true.

(** An identifier that holds no selector syntax: no space, which a selector
    drops, and no comma, which cuts a selector. *)
Definition plainId (i : string) : bool :=
  JS.all_chars (fun c => negb (Ascii.eqb c " ") && negb (Ascii.eqb c ",")) i.

(** The direct children of the layer root. *)
Definition layerChildren (s : State) : list Konva.ref :=
  match konvaLayer s with
  | Some l => childrenOf (heap s) l
  | None => []
  end.

(** The Position Groups: direct children with the role position-group. *)
Definition positionGroups (s : State) : list Konva.ref :=
  nodesWhere (heap s) isPositionNode (layerChildren s).

(** The Position Groups with a given identifier. *)
Definition positionGroupsWithId (s : State) (k : string) : list Konva.ref :=
  nodesWhere (heap s) (fun n => isPositionNode n && isNodeWithId k n)
    (layerChildren s).

(** The Position Groups whose visibility flag is set. *)
Definition visiblePositionGroups (s : State) : list Konva.ref :=
  nodesWhere (heap s) (fun n => isPositionNode n && Konva.visible n)
    (layerChildren s).

(** The children of the direct children of the layer, in the order the
    controller visits them: the Annotation Groups of a scene that follows
    the data model. *)
Definition groupsUnder (h : list Konva.Node) (l : list Konva.ref)
  : list Konva.ref :=
  flat_map (childrenOf h) l.

(** Every child reference of the node at [r] points into the arena. *)
Definition closedAt (h : list Konva.Node) (r : Konva.ref) : Prop :=
  exists n, h !! r = Some n
            /\ Forall (fun c => is_Some (h !! c)) (Konva.children n).

(** The structural invariant Konva keeps: the child lists and the parent
    pointers describe the same relation, and a node is listed once. *)
Definition wf_node (h : list Konva.Node) (r : Konva.ref) (n : Konva.Node)
  : bool :=
  forallb (fun c => match h !! c with
                    | Some cn => bool_decide (Konva.parent cn = Some r)
                    | None => false
                    end) (Konva.children n)
  && bool_decide (NoDup (Konva.children n))
  && match Konva.parent n with
     | None => true
     | Some p => bool_decide (r ∈ childrenOf h p)
     end.

Definition wfb (h : list Konva.Node) : bool :=
  forallb (fun r => match h !! r with
                    | Some n => wf_node h r n
                    | None => true
                    end) (seq 0 (List.length h)).

Definition wf (h : list Konva.Node) : Prop := wfb h = true.

(** ** The type classification, in the words of the specification *)

(** The name of a decoration decides between arrow, protractor and ruler. *)
Definition decorationType (decoration : string) : string :=
  if negb (Z.eqb (JS.indexOf decoration "triangle") (-1)) then "Arrow"
  else if negb (Z.eqb (JS.indexOf decoration "arc") (-1)) then "Protractor"
  else "Ruler".

(** Base type = the geometry kind of the shape; a polyline is refined by
    its closed flag and its first decoration; a rectangle is renamed. *)
Definition classify (kind : string) (closed : bool)
    (decorations : list string) : string :=
  if String.eqb kind "Line" then
    if closed then "Roi"
    else match decorations with
         | first :: _ => decorationType first
         | [] => "Line"
         end
  else if String.eqb kind "Rect" then "Rectangle"
  else kind.

(** The classification of the annotation group at [g]: its first child
    named [shape] and the names of its children named [shape-...]. *)
Definition groupType (h : list Konva.Node) (g : Konva.ref) : option string :=
  match head (nodesWhere h isNodeNameShape (childrenOf h g)) with
  | Some sh =>
      match h !! sh with
      | Some shape =>
          Some (classify (Konva.className shape) (Konva.closed shape)
                  (map (fun e => match h !! e with
                                 | Some en => Konva.name en
                                 | None => ""
                                 end)
                       (nodesWhere h isNodeNameShapeExtra (childrenOf h g))))
      | None => None
      end
  | None => None
  end.

(** ** The visibility invariant of Position Groups *)

(** Every Position Group is visible exactly when its identifier is the
    active key. *)
Definition visibleIffActive (s : State) : Prop :=
  forall c n, c ∈ layerChildren s -> heap s !! c = Some n ->
              isPositionNode n = true ->
              Konva.visible n = idIsKey (currentPosGroupId s) n.

End Views.

(* ===================================================================== *)
(** * Statements about [getCurrentPosGroup] *)
(* ===================================================================== *)

Section Statements.
Context `{Ext : Externals}.

(** The direct children of the layer with a given identifier, whatever
    their role: what [getCurrentPosGroup] searches. *)
Definition childrenWithId (s : State) (k : string) : list Konva.ref :=
  nodesWhere (heap s) (isNodeWithId k) (layerChildren s).

(** Two calls in a row return the same node, and after the two calls that
    node is the one Position Group with identifier [k]. *)
Definition sameNodeTwiceAt (s : State) (k : string) : Prop :=
  exists g s1 s2,
    getCurrentPosGroup s = (s1, Ok (Some g))
    /\ getCurrentPosGroup s1 = (s2, Ok (Some g))
    /\ positionGroupsWithId s2 k = [g].

(** Two calls in a row return the same node, the second call changes
    nothing, and afterwards that node is the one Position Group with
    identifier [k]. *)
Definition idempotentAt (s : State) (k : string) : Prop :=
  exists g s1,
    getCurrentPosGroup s = (s1, Ok (Some g))
    /\ getCurrentPosGroup s1 = (s1, Ok (Some g))
    /\ positionGroupsWithId s1 k = [g].

(** The call logs and returns the first Position Group with identifier
    [k]. *)
Definition returnsFirstMatchAt (s : State) (k : string) : Prop :=
  exists g s1,
    getCurrentPosGroup s = (s1, Ok (Some g))
    /\ head (positionGroupsWithId s k) = Some g
    /\ log s1 = (log s ++ ["Unexpected number of draw position groups."])%list.

(** The Position Group that [getCurrentPosGroup] creates under [layer]. *)
Definition newPositionGroup (key : option string) (layer : Konva.ref)
  : Konva.Node :=
  Konva.mkNode "position-group" (default "" key) true "Group" false
    None None None "" None (Some layer) [].

End Statements.

(* ===================================================================== *)
(** * Statements about callbacks and detaching *)
(* ===================================================================== *)

Section Observers.
Context `{Ext : Externals}.

(** A callback that observes: it returns, and leaves the scene and the
    layer field as they are (it may log). *)
Definition observer (cb : Callback) : Prop :=
  forall c s, exists s',
    cb c s = (s', Ok tt)
    /\ heap s' = heap s /\ konvaLayer s' = konvaLayer s
    /\ currentPosGroupId s' = currentPosGroupId s.

(** The arena after [r], a child of [p], is unlinked from [p]. *)
Definition detach (r p : Konva.ref) (h : list Konva.Node)
  : list Konva.Node :=
  alter (Konva.with_parent None) r
    (alter (fun pn =>
              Konva.with_children
                (Konva.splice_out r (Konva.children pn)) pn) p h).

End Observers.

(* ===================================================================== *)
(** * Statements about [updateDraw] *)
(* ===================================================================== *)

Section Repaint.
Context `{Ext : Externals}.

(** A node with its colours forgotten: two nodes with the same image differ
    in stroke, fill and shadow colour at most. *)
Definition unpainted (n : Konva.Node) : Konva.Node :=
  Konva.with_stroke None (Konva.with_fill None (Konva.with_shadowColor None n)).

(** What [updateDraw] with metadata [m] does to the node at [x], colours
    apart: the text nodes of the label get the metadata and the expanded
    text; the label, when it has a text node, gets the visibility "the
    template is not empty". *)
Definition relabel (m : Konva.Meta) (label : Konva.ref)
    (texts : list Konva.ref) (x : Konva.ref) (n : Konva.Node) : Konva.Node :=
  let n1 :=
    if bool_decide (x ∈ texts)
    then Konva.with_text
           (replaceFlags (Konva.textExpr m) (Konva.quantification m))
           (Konva.with_meta (Some m) n)
    else n in
  if bool_decide (x = label) && negb (bool_decide (texts = []))
  then Konva.with_visible (negb (Nat.eqb (JS.length (Konva.textExpr m)) 0)) n1
  else n1.

(** What [updateDraw] needs of the classes around the group [g] and its
    label: the group and the label are containers; the children of the
    group named [shape] or [shape-...] and the children of the label are
    shapes. *)
Definition paintable (h : list Konva.Node) (g label : Konva.ref) : Prop :=
  containerAt h g
  /\ Forall (shapeAt h) (nodesWhere h isNodeNameShape (childrenOf h g))
  /\ Forall (shapeAt h) (nodesWhere h isNodeNameShapeExtra (childrenOf h g))
  /\ containerAt h label
  /\ Forall (shapeAt h) (childrenOf h label).

(** The controller fields and the log are the same in both states, and so
    is the size of the arena. *)
Definition sameFrame (s s' : State) : Prop :=
  konvaLayer s' = konvaLayer s
  /\ currentPosGroupId s' = currentPosGroupId s
  /\ log s' = log s
  /\ List.length (heap s') = List.length (heap s).

(** [s'] is [s] with every node [n] at [x] replaced by [f x n], colours
    apart. *)
Definition changedBy (f : Konva.ref -> Konva.Node -> Konva.Node)
    (s s' : State) : Prop :=
  sameFrame s s'
  /\ forall x n, heap s !! x = Some n ->
       exists n', heap s' !! x = Some n' /\ unpainted n' = unpainted (f x n).

(** [s'] is [s] repainted. *)
Definition repainted (s s' : State) : Prop := changedBy (fun _ n => n) s s'.

End Repaint.

(* ===================================================================== *)
(** * Statements about [getDrawStoreDetails] *)
(* ===================================================================== *)

Section Stored.
Context `{Ext : Externals}.

Definition isText : Konva.Node -> bool := hasName "text".

(** The nodes below [g], in the order [find] visits them. *)
Definition walk (fuel : nat) (h : list Konva.Node) (g : Konva.ref)
  : list Konva.ref :=
  default [] (Konva.descendants fuel h g).


(** The text nodes below a group. *)
Definition textsBelow (fuel : nat) (h : list Konva.Node) (g : Konva.ref)
  : list Konva.ref :=
  nodesWhere h isText (walk fuel h g).

(** [texts[0].meta] *)
Definition firstTextMeta (fuel : nat) (h : list Konva.Node) (g : Konva.ref)
  : option Konva.Meta :=
  match head (textsBelow fuel h g) with
  | Some t => match h !! t with
              | Some tn => Konva.meta tn
              | None => None
              end
  | None => None
  end.





End Stored.

(* ===================================================================== *)
(** * Statements about what an operation may change *)
(* ===================================================================== *)

Section Relations.
Context `{Ext : Externals}.

(** Whatever the outcome of [m], the state after it is related to the
    state before it. *)
Definition always (R : State -> State -> Prop) {A} (m : M A) : Prop :=
  forall s, R s (fst (m s)).

(** A change of a node that keeps its role and identifier, keeps the
    visibility of a Position Group, and adds no child. *)
Definition gentleUpdate (n n' : Konva.Node) : Prop :=
  Konva.name n' = Konva.name n
  /\ Konva.id n' = Konva.id n
  /\ (isPositionNode n = true -> Konva.visible n' = Konva.visible n)
  /\ forall c, c ∈ Konva.children n' -> c ∈ Konva.children n.

(** A change of the scene made of gentle updates, the controller fields
    being kept. *)
Definition gentle (s s' : State) : Prop :=
  konvaLayer s' = konvaLayer s
  /\ currentPosGroupId s' = currentPosGroupId s
  /\ List.length (heap s') = List.length (heap s)
  /\ forall x n, heap s !! x = Some n ->
       exists n', heap s' !! x = Some n' /\ gentleUpdate n n'.

(** A change of the scene that keeps the role, identifier and visibility of
    every node there was, and adds invisible Position Groups only. *)
Definition quiet (s s' : State) : Prop :=
  konvaLayer s' = konvaLayer s
  /\ currentPosGroupId s' = currentPosGroupId s
  /\ (forall x n, heap s !! x = Some n ->
        exists n', heap s' !! x = Some n'
                   /\ Konva.name n' = Konva.name n
                   /\ Konva.id n' = Konva.id n
                   /\ Konva.visible n' = Konva.visible n)
  /\ (forall x n', heap s' !! x = Some n' -> heap s !! x = None ->
        Konva.visible n' = false /\ isPositionNode n' = true).

(** A layer [L] that is allocated and is not its own child. *)
Definition layerReady (L : Konva.ref) (s : State) : Prop :=
  konvaLayer s = Some L
  /\ is_Some (heap s !! L)
  /\ L ∉ childrenOf (heap s) L.

(** From a state whose layer is ready: the layer stays, no node is freed,
    and the only children the layer gains are nodes that did not exist. *)
Definition layerGrows (L : Konva.ref) (s s' : State) : Prop :=
  layerReady L s ->
  konvaLayer s' = Some L
  /\ (forall x, is_Some (heap s !! x) -> is_Some (heap s' !! x))
  /\ (forall c, c ∈ childrenOf (heap s') L ->
        c ∈ childrenOf (heap s) L \/ heap s !! c = None).

(** The arena grew: the nodes there were are untouched, the controller
    fields too. *)
Definition extended (s s' : State) : Prop :=
  konvaLayer s' = konvaLayer s
  /\ currentPosGroupId s' = currentPosGroupId s
  /\ List.length (heap s) <= List.length (heap s')
  /\ (forall x, x < List.length (heap s) -> heap s' !! x = heap s !! x).

(** The layer of a state is ready, when there is one, and its children are
    allocated. *)
Definition layerOK (s : State) : Prop :=
  forall L, konvaLayer s = Some L ->
    closedAt (heap s) L /\ L ∉ childrenOf (heap s) L.

(** An action that reads but never writes. *)
Definition readonly {A} (m : M A) : Prop := forall s, fst (m s) = s.

(** A predicate on nodes that looks at attributes only. *)
Definition attribute_only (p : Konva.Node -> bool) : Prop :=
  forall n cs par, p (Konva.with_children cs n) = p n
                   /\ p (Konva.with_parent par n) = p n.

(** Every child reference of every node points into the arena. *)
Definition closedHeap (h : list Konva.Node) : Prop :=
  forall r n, h !! r = Some n ->
              Forall (fun c => is_Some (h !! c)) (Konva.children n).

(** An update that touches colours only. *)
Definition paints (f : Konva.Node -> Konva.Node) : Prop :=
  forall n, unpainted (f n) = unpainted n.






End Relations.

(* ===================================================================== *)
(** * A sample instance and sample scenes *)
(* ===================================================================== *)

(** Collaborators simple enough to run: identifiers in the style of
    [Index.toStringId] ([#<dim>-<value>] joined by underscores), templates
    without flags, one shadow colour. *)
Definition sample_toStringId (index : list Z) (dims : list nat) : string :=
  String.concat "_"
    (map (fun d => "#" ++ JS.numberToString (Z.of_nat d) ++ "-"
                   ++ JS.toString (index !! d)) dims).

#[export] Instance SampleExternals : Externals := {|
  Quantification := list (string * Z);
  replaceFlags := fun expr _ => expr;
  getShadowColour := fun _ => "#000";
  Index := list Z;
  Index_length := fun i => List.length i;
  Index_toStringId := fun i dims => Some (sample_toStringId i dims);
  getIndexFromStringId := fun _ => Some [];
  Index_toString := fun _ => "(0,0,0)";
  getShapeDisplayName := fun c => default "shape" c
|}.

Definition sample_node (nm i cls : string) (p : option Konva.ref)
    (kids : list Konva.ref) : Konva.Node :=
  Konva.mkNode nm i true cls false None None None "" None p kids.

Definition sample_meta (expr : string) : Konva.Meta :=
  Konva.mkMeta expr [("length", 12%Z)].

(** A layer with two position groups; the first holds one arrow annotation
    (shape, arrow head, label with text and tag, one anchor). *)
Definition sample_heap : list Konva.Node :=
  [ sample_node "" "" "Layer" None [1; 2];
    sample_node "position-group" "#2-0" "Group" (Some 0) [3];
    Konva.with_visible false
      (sample_node "position-group" "#2-1" "Group" (Some 0) []);
    sample_node "arrow-group" "g1" "Group" (Some 1) [4; 5; 6; 9];
    Konva.with_stroke (Some "yellow")
      (sample_node "shape" "" "Line" (Some 3) []);
    Konva.with_stroke (Some "yellow")
      (sample_node "shape-triangle" "" "RegularPolygon" (Some 3) []);
    sample_node "label" "" "Label" (Some 3) [7; 8];
    Konva.with_meta (Some (sample_meta "{length}"))
      (Konva.with_text "12 mm" (sample_node "text" "" "Text" (Some 6) []));
    sample_node "" "" "Tag" (Some 6) [];
    sample_node "anchor" "" "Ellipse" (Some 3) [] ].

Definition sample_state : State := mkState sample_heap (Some 0) (Some "#2-0") [].

(** A layer whose two position groups carry the same identifier. *)
Definition duplicate_heap : list Konva.Node :=
  [ sample_node "" "" "Layer" None [1; 2];
    sample_node "position-group" "#2-0" "Group" (Some 0) [];
    sample_node "position-group" "#2-0" "Group" (Some 0) [] ].

Definition duplicate_state : State :=
  mkState duplicate_heap (Some 0) (Some "#2-0") [].

(** An empty layer, and an incoming scene with one empty position group,
    the one of the active key. *)
Definition empty_state : State :=
  mkState [sample_node "" "" "Layer" None []] (Some 0) (Some "#2-0") [].

Definition incoming_scene : Konva.Json :=
  Konva.JNode (sample_node "" "" "Layer" None [])
    [Konva.JNode (sample_node "position-group" "#2-0" "Group" None []) []].

(** The sample scene with a group in the place of the arrow head: a
    decoration that is a container. *)
Definition grouped_heap : list Konva.Node :=
  <[5 := sample_node "shape-triangle" "" "Group" (Some 3) []]> sample_heap.

Definition grouped_state : State := mkState grouped_heap (Some 0) (Some "#2-0") [].

(** Callbacks that only observe. *)
Definition silent : Callback := fun _ => ret tt.

(** New details for the sample annotation: red, with an empty template. *)
Definition sample_update : DrawDetails :=
  mkDrawDetails "g1" "red" (Some (sample_meta "")).

(* ===================================================================== *)
(** * Statements about colours *)
(* ===================================================================== *)

Section Paint.
Context `{Ext : Externals}.

(** What [updateDraw] with colour [c] and shadow colour [sh] may do to a
    node: replace its stroke by [c] if it had one or if it is named
    [shape], replace its fill by [c], replace its shadow colour by [sh].
    The name, the class and the children stay. *)
Definition paintedNode (c sh : string) (n n' : Konva.Node) : Prop :=
  Konva.name n' = Konva.name n
  /\ Konva.className n' = Konva.className n
  /\ Konva.children n' = Konva.children n
  /\ (Konva.stroke n' = Konva.stroke n
      \/ (Konva.stroke n' = Some c
          /\ (Konva.stroke n <> None \/ isNodeNameShape n = true)))
  /\ (Konva.fill n' = Konva.fill n \/ Konva.fill n' = Some c)
  /\ (Konva.shadowColor n' = Konva.shadowColor n
      \/ Konva.shadowColor n' = Some sh).

Definition paintOnly (c sh : string) (s s' : State) : Prop :=
  forall x n, heap s !! x = Some n ->
    exists n', heap s' !! x = Some n' /\ paintedNode c sh n n'.

(** The colours of a decoration once [updateDraw] has visited it. *)
Definition decorationPainted (c : string) (n : Konva.Node) : Prop :=
  Konva.stroke n = Some c
  \/ (Konva.stroke n = None
      /\ (Konva.fill n = Some c \/ Konva.fill n = None)).

(** The colours of a child of the label once [updateDraw] has visited
    it. *)
Definition labelKidPainted (c sh : string) (n : Konva.Node) : Prop :=
  Konva.fill n = Some c
  /\ (Konva.className n = "Text" -> Konva.shadowColor n = Some sh).

End Paint.

(* ===================================================================== *)
(** * Statements about the display list *)
(* ===================================================================== *)

Section DisplaySpec.
Context `{Ext : Externals}.

(** What [getDrawDisplayDetails] needs of an Annotation Group: it is a
    container, with a child named [shape] that is a shape, and a child named
    [label] that is a container and has a child. *)
Definition displayable (h : list Konva.Node) (g : Konva.ref) : Prop :=
  containerAt h g
  /\ exists sh label t,
       head (nodesWhere h isNodeNameShape (childrenOf h g)) = Some sh
       /\ shapeAt h sh
       /\ head (nodesWhere h isNodeNameLabel (childrenOf h g)) = Some label
       /\ containerAt h label
       /\ head (childrenOf h label) = Some t
       /\ is_Some (h !! t).

(** The entry [d] describes the Annotation Group [g] of the Position Group
    [pg]: identifier of the group, position parsed from the identifier of
    the Position Group, type, stroke of the first shape, metadata of the
    first child of the first label. *)
Definition describes (h : list Konva.Node) (pg g : Konva.ref)
    (d : DisplayDetails) : Prop :=
  dd_id d = idOf h g
  /\ (exists position,
        getIndexFromStringId (idOf h pg) = Some position
        /\ dd_position d = Index_toString position)
  /\ groupType h g = Some (dd_type d)
  /\ (exists sh shape,
        head (nodesWhere h isNodeNameShape (childrenOf h g)) = Some sh
        /\ h !! sh = Some shape /\ dd_color d = Konva.stroke shape)
  /\ (exists label t tn,
        head (nodesWhere h isNodeNameLabel (childrenOf h g)) = Some label
        /\ head (childrenOf h label) = Some t
        /\ h !! t = Some tn /\ dd_meta d = Konva.meta tn).

(** The Annotation Groups with their Position Group, in the order the
    controller visits them. *)
Definition annotationPairs (h : list Konva.Node) (l : list Konva.ref)
  : list (Konva.ref * Konva.ref) :=
  flat_map (fun pg => map (pair pg) (childrenOf h pg)) l.

(** The scene can be displayed: the children of the layer are containers
    and their identifiers parse, and their children are displayable. *)
Definition displayableScene (s : State) : Prop :=
  Forall (fun pg =>
            containerAt (heap s) pg
            /\ is_Some (getIndexFromStringId (idOf (heap s) pg))
            /\ Forall (displayable (heap s)) (childrenOf (heap s) pg))
    (layerChildren s).

End DisplaySpec.

(* ===================================================================== *)
(** * The hierarchy log (drawController.js, lines 126-136) *)
(* ===================================================================== *)

Section HierarchyLog.
Context `{Ext : Externals}.

(** The line feed ['\n']. *)
Definition newline : string := String (ascii_of_nat 10) EmptyString.

(** [getHierarchyLog(layer, prefix)]; [prefix = None] is an omitted
    argument.  [getChildren] is called on every node the recursion meets:
    on a shape this is a [TypeError].  [OutOfFuel] when the tree is deeper
    than [fuel]. *)
Fixpoint getHierarchyLog (fuel : nat) (h : list Konva.Node)
    (layer : Konva.ref) (prefix : option string) : result string :=
  match fuel with
  | 0 => Throw OutOfFuel
  | S f =>
      let prefix := default ""%string prefix in
      match h !! layer with
      | None => Throw DanglingRef
      | Some n =>
          if Konva.isContainer n then
            let kids := Konva.children n in
            let log := (prefix ++ "|__ " ++ Konva.name n ++ ": " ++ Konva.id n
                        ++ newline)%string in
            foldl (fun log kid =>
                     match log with
                     | Ok l =>
                         match getHierarchyLog f h kid
                                 (Some (prefix ++ "    ")%string) with
                         | Ok k => Ok (l ++ k)%string
                         | Throw e => Throw e
                         end
                     | Throw e => Throw e
                     end)
              (Ok log) kids
          else Throw TypeError
      end
  end.

(** The node [r] and the nodes below it with their depth, in the order of
    the walk. *)
Fixpoint walkDepth (fuel : nat) (h : list Konva.Node) (r : Konva.ref)
    (depth : nat) : option (list (Konva.ref * nat)) :=
  match fuel with
  | 0 => None
  | S f =>
      match h !! r with
      | None => None
      | Some n =>
          option_map (cons (r, depth))
            (foldr (fun c acc =>
                      match walkDepth f h c (S depth), acc with
                      | Some ds, Some rest => Some (ds ++ rest)%list
                      | _, _ => None
                      end)
               (Some []) (Konva.children n))
      end
  end.

(** [depth] times four spaces. *)
Fixpoint indent (depth : nat) : string :=
  match depth with
  | 0 => ""%string
  | S d => (indent d ++ "    ")%string
  end.

(** The line of the log for the node [r] at [depth]. *)
Definition hierarchyLine (h : list Konva.Node) (prefix : string)
    (entry : Konva.ref * nat) : string :=
  (prefix ++ indent (snd entry) ++ "|__ " ++ Konva.name (default Konva.Group (h !! fst entry))
   ++ ": " ++ Konva.id (default Konva.Group (h !! fst entry)) ++ newline)%string.

Definition joinLines (l : list string) : string :=
  fold_right String.append ""%string l.

End HierarchyLog.

(* ===================================================================== *)
(** * Statements about the identifiers under the layer *)
(* ===================================================================== *)

Section UniqueIds.
Context `{Ext : Externals}.

(** No two children of the layer have the same identifier. *)
Definition uniqueIds (s : State) : Prop :=
  NoDup (map (idOf (heap s)) (layerChildren s)).

(** The layer [L] is ready, its children exist, and no two of them have the
    same identifier. *)
Definition layerUnique (L : Konva.ref) (s : State) : Prop :=
  layerReady L s
  /\ closedAt (heap s) L
  /\ NoDup (map (idOf (heap s)) (childrenOf (heap s) L)).

Definition keepsUnique (L : Konva.ref) (s s' : State) : Prop :=
  layerUnique L s -> layerUnique L s'.

End UniqueIds.
(* --------------------------------------------------------------------- *)
(** ** String lemmas *)

Section StringFacts.

Lemma append_nil (t : string) : "" ++ t = t.
Proof. reflexivity. Qed.

Lemma append_cons (c : ascii) (s t : string) :
    String c s ++ t = String c (s ++ t).
Proof. reflexivity. Qed.

Lemma append_assoc (s t u : string) : (s ++ t) ++ u = s ++ (t ++ u).
Proof.
    induction s as [|c s IH]; [reflexivity|].
    rewrite !append_cons. now rewrite IH.
Qed.

Lemma prefix_empty (s : string) : String.prefix "" s = true.
Proof. now destruct s. Qed.

Lemma indexOf_from_sep (s rest : string) (i : Z) :
    JS.all_chars not_underscore s = true ->
    JS.indexOf_from "_" (s ++ String "_" rest) i
    = (i + Z.of_nat (String.length s))%Z.
Proof.
    revert i. induction s as [|c s IH]; intros i Hs.
    - rewrite append_nil. cbn. rewrite prefix_empty. lia.
    - cbn in Hs. apply andb_true_iff in Hs as [Hc Hs].
      unfold not_underscore in Hc. apply negb_true_iff in Hc.
      rewrite append_cons. cbn [JS.indexOf_from String.prefix].
      destruct (ascii_dec "_" c) as [<-|_]; [discriminate Hc|].
      rewrite IH by assumption. cbn [String.length]. lia.
Qed.

Lemma substring_0_app (s t : string) :
    String.substring 0 (String.length s) (s ++ t) = s.
Proof.
    induction s as [|c s IH].
    - rewrite append_nil. now destruct t.
    - rewrite append_cons. cbn. now rewrite IH.
Qed.

Lemma substring_drop_app (s t : string) (m : nat) :
    String.substring (String.length s) m (s ++ t) = String.substring 0 m t.
Proof.
    induction s as [|c s IH]; [reflexivity|].
    rewrite append_cons. exact IH.
Qed.

Lemma substring_0_all (s : string) :
    String.substring 0 (String.length s) s = s.
Proof. induction s as [|c s IH]; cbn; [reflexivity|now rewrite IH]. Qed.

Lemma length_append (s t : string) :
    String.length (s ++ t) = String.length s + String.length t.
Proof.
    induction s as [|c s IH]; [reflexivity|].
    rewrite append_cons. cbn. now rewrite IH.
Qed.

Lemma string_of_uint_digits (d : Decimal.uint) :
    JS.all_chars not_underscore (NilEmpty.string_of_uint d) = true.
Proof. induction d; cbn; try reflexivity; assumption. Qed.

Lemma numberToString_no_sep (z : Z) :
    JS.all_chars not_underscore (JS.numberToString z) = true.
Proof.
    unfold JS.numberToString, NilZero.string_of_int.
    destruct (Z.to_int z) as [d|d]; unfold NilZero.string_of_uint;
      destruct d; cbn; try reflexivity; apply string_of_uint_digits.
Qed.

Lemma toString_no_sep (v : JS.value) :
    JS.all_chars not_underscore (JS.toString v) = true.
Proof. destruct v; [apply numberToString_no_sep|reflexivity]. Qed.

  (** Splitting a key of the shape [slice-<s>_frame-<f>] gives the two
      printed values back, without a warning. *)
Lemma key_split (s f : string) :
    JS.all_chars not_underscore s = true ->
    getPositionFromGroupId ("slice-" ++ s ++ "_frame-" ++ f)
    = ({| sliceNumber := s; frameNumber := f |}, []).
Proof.
    intros Hs. unfold getPositionFromGroupId, JS.indexOf.
    set (whole := "slice-" ++ s ++ "_frame-" ++ f).
    assert (Hidx : JS.indexOf_from "_" whole 0
                   = (6 + Z.of_nat (String.length s))%Z).
    { unfold whole. rewrite !append_cons, append_nil.
      cbn [JS.indexOf_from String.prefix].
      repeat (match goal with
              | |- context [ascii_dec ?a ?b] =>
                  destruct (ascii_dec a b); [discriminate|]
              end).
      change ("_frame-" ++ f) with (String "_" ("frame-" ++ f)).
      rewrite indexOf_from_sep by assumption. lia. }
    assert (Hlen : String.length whole
                   = 6 + (String.length s + (7 + String.length f))).
    { unfold whole. rewrite !length_append. reflexivity. }
    rewrite Hidx.
    destruct (Z.eqb_spec (6 + Z.of_nat (String.length s)) (-1)); [lia|].
    f_equal. unfold JS.substring. rewrite Hlen. unfold JS.clamp. f_equal.
    - replace (Nat.min _ _) with (String.length "slice-") by (cbn; lia).
      replace (Nat.max _ _ - _) with (String.length s) by (cbn; lia).
      unfold whole. rewrite substring_drop_app. apply substring_0_app.
    - replace (Nat.min _ _) with (String.length (("slice-" ++ s) ++ "_frame-"))
        by (rewrite !length_append; cbn; lia).
      replace (Nat.max _ _ - _) with (String.length f)
        by (rewrite !length_append; cbn; lia).
      unfold whole.
      replace ("slice-" ++ s ++ "_frame-" ++ f)
        with ((("slice-" ++ s) ++ "_frame-") ++ f)
        by (now rewrite !append_assoc).
      rewrite substring_drop_app. apply substring_0_all.
Qed.

End StringFacts.

(* ===================================================================== *)
(** * The monad and the node operations *)
(* ===================================================================== *)

Section MonadFacts.
Context `{Ext : Externals}.

Lemma bind_ok {A B} (m : M A) (k : A -> M B) s s1 a :
  m s = (s1, Ok a) -> bind m k s = k a s1.
Proof. intros H. unfold bind. now rewrite H. Qed.

Lemma bind_throw {A B} (m : M A) (k : A -> M B) s s1 e :
  m s = (s1, Throw e) -> bind m k s = (s1, Throw e).
Proof. intros H. unfold bind. now rewrite H. Qed.

Lemma bind_inv {A B} (m : M A) (k : A -> M B) s s' b :
  bind m k s = (s', Ok b) ->
  exists a s1, m s = (s1, Ok a) /\ k a s1 = (s', Ok b).
Proof.
  unfold bind. destruct (m s) as [s1 [a|e]]; intros H.
  - now exists a, s1.
  - discriminate.
Qed.

Lemma readonly_ret {A} (a : A) : readonly (ret a).
Proof. now intros s. Qed.

Lemma readonly_throw {A} (e : exn) : readonly (@throw _ A e).
Proof. now intros s. Qed.

Lemma readonly_gets {A} (f : State -> A) : readonly (gets f).
Proof. now intros s. Qed.

Lemma readonly_bind {A B} (m : M A) (k : A -> M B) :
  readonly m -> (forall a, readonly (k a)) -> readonly (bind m k).
Proof.
  intros Hm Hk s. unfold bind. specialize (Hm s).
  destruct (m s) as [s1 [a|e]]; cbn in Hm; subst s1.
  - apply Hk.
  - reflexivity.
Qed.

Lemma readonly_foldM {A B} (f : B -> A -> M B) (l : list A) :
  (forall b x, readonly (f b x)) -> forall b, readonly (foldM f l b).
Proof.
  intros Hf. induction l as [|x l IH]; intros b; cbn [foldM].
  - apply readonly_ret.
  - apply readonly_bind; [apply Hf|apply IH].
Qed.

Lemma readonly_getNode r : readonly (getNode r).
Proof. intros s. unfold getNode. now destruct (heap s !! r). Qed.

Lemma readonly_filterNodes p l : readonly (filterNodes p l).
Proof.
  induction l as [|c l IH]; cbn [filterNodes].
  - apply readonly_ret.
  - apply readonly_bind; [apply readonly_getNode|intros n].
    apply readonly_bind; [apply IH|intros rest]. apply readonly_ret.
Qed.

Lemma readonly_getChildren r : readonly (Node_getChildren r).
Proof.
  apply readonly_bind; [apply readonly_getNode|intros n; apply readonly_ret].
Qed.

Lemma readonly_getChildrenIf r p : readonly (Node_getChildrenIf r p).
Proof.
  apply readonly_bind; [apply readonly_getChildren|intros cs].
  apply readonly_filterNodes.
Qed.

Lemma readonly_thisLayer : readonly thisLayer.
Proof.
  apply readonly_bind; [apply readonly_gets|intros [l|]].
  - apply readonly_ret.
  - apply readonly_throw.
Qed.

Lemma readonly_descendants fuel r : readonly (Node_descendants fuel r).
Proof.
  apply readonly_bind; [apply readonly_gets|intros h].
  destruct (Konva.descendants fuel h r); [apply readonly_ret|apply readonly_throw].
Qed.

Lemma readonly_find fuel r p : readonly (Node_find fuel r p).
Proof.
  apply readonly_bind; [apply readonly_descendants|intros ds].
  apply readonly_filterNodes.
Qed.

Lemma readonly_findOne fuel r p : readonly (Node_findOne fuel r p).
Proof.
  apply readonly_bind; [apply readonly_find|intros ds; apply readonly_ret].
Qed.

(** ** What the reads return *)

Lemma getNode_ok r n s : heap s !! r = Some n -> getNode r s = (s, Ok n).
Proof. intros H. unfold getNode. now rewrite H. Qed.

Lemma getNode_inv r n s s' :
  getNode r s = (s', Ok n) -> s' = s /\ heap s !! r = Some n.
Proof.
  unfold getNode. destruct (heap s !! r); intros H; inversion H; now subst.
Qed.

Lemma nodesWhere_cons h p c l :
  nodesWhere h p (c :: l)
  = if nodeSat h p c then c :: nodesWhere h p l else nodesWhere h p l.
Proof. reflexivity. Qed.

Lemma nodeSat_Some h p c n : h !! c = Some n -> nodeSat h p c = p n.
Proof. intros H. unfold nodeSat. now rewrite H. Qed.

Lemma filterNodes_ok p l s :
  Forall (fun c => is_Some (heap s !! c)) l ->
  filterNodes p l s = (s, Ok (nodesWhere (heap s) p l)).
Proof.
  induction 1 as [|c l [n Hn] Hl IH]; [reflexivity|].
  cbn [filterNodes]. rewrite (bind_ok _ _ _ _ _ (getNode_ok _ _ _ Hn)).
  rewrite (bind_ok _ _ _ _ _ IH). unfold ret.
  now rewrite nodesWhere_cons, (nodeSat_Some _ _ _ _ Hn).
Qed.

Lemma filterNodes_inv p l s s' r :
  filterNodes p l s = (s', Ok r) ->
  s' = s /\ r = nodesWhere (heap s) p l
  /\ Forall (fun c => is_Some (heap s !! c)) l.
Proof.
  revert s' r. induction l as [|c l IH]; intros s' r H.
  - inversion H. now subst.
  - cbn [filterNodes] in H.
    apply bind_inv in H as (n & s1 & Hn & H).
    apply getNode_inv in Hn as [-> Hn].
    apply bind_inv in H as (rest & s2 & Hrest & H).
    apply IH in Hrest as (-> & -> & Hall).
    inversion H; subst. split; [reflexivity|]. split.
    + now rewrite nodesWhere_cons, (nodeSat_Some _ _ _ _ Hn).
    + constructor; [now exists n|assumption].
Qed.

Lemma getChildren_ok r n s :
  heap s !! r = Some n -> Node_getChildren r s = (s, Ok (Konva.children n)).
Proof.
  intros H. unfold Node_getChildren.
  now rewrite (bind_ok _ _ _ _ _ (getNode_ok _ _ _ H)).
Qed.

Lemma getChildren_inv r l s s' :
  Node_getChildren r s = (s', Ok l) ->
  s' = s /\ is_Some (heap s !! r) /\ l = childrenOf (heap s) r.
Proof.
  unfold Node_getChildren. intros H.
  apply bind_inv in H as (n & s1 & Hn & H).
  apply getNode_inv in Hn as [-> Hn]. inversion H; subst.
  unfold childrenOf. rewrite Hn. eauto.
Qed.

Lemma getChildrenIf_ok r p s :
  closedAt (heap s) r ->
  Node_getChildrenIf r p s
  = (s, Ok (nodesWhere (heap s) p (childrenOf (heap s) r))).
Proof.
  intros (n & Hn & Hall). unfold Node_getChildrenIf.
  rewrite (bind_ok _ _ _ _ _ (getChildren_ok _ _ _ Hn)).
  unfold childrenOf. rewrite Hn. now apply filterNodes_ok.
Qed.

Lemma getChildrenIf_inv r p l s s' :
  Node_getChildrenIf r p s = (s', Ok l) ->
  s' = s /\ closedAt (heap s) r
  /\ l = nodesWhere (heap s) p (childrenOf (heap s) r).
Proof.
  unfold Node_getChildrenIf. intros H.
  apply bind_inv in H as (cs & s1 & Hcs & H).
  apply getChildren_inv in Hcs as (-> & [n Hn] & ->).
  apply filterNodes_inv in H as (-> & -> & Hall).
  split; [reflexivity|]. split; [|reflexivity].
  exists n. split; [assumption|]. unfold childrenOf in Hall.
  now rewrite Hn in Hall.
Qed.

Lemma thisLayer_ok l s : konvaLayer s = Some l -> thisLayer s = (s, Ok l).
Proof. intros H. unfold thisLayer, bind, gets. now rewrite H. Qed.

Lemma thisLayer_inv l s s' :
  thisLayer s = (s', Ok l) -> s' = s /\ konvaLayer s = Some l.
Proof.
  unfold thisLayer, bind, gets. destruct (konvaLayer s); intros H;
    inversion H; now subst.
Qed.

Lemma nodesWhere_In h p l c :
  In c (nodesWhere h p l) <-> In c l /\ exists n, h !! c = Some n /\ p n = true.
Proof.
  unfold nodesWhere. rewrite filter_In. unfold nodeSat.
  destruct (h !! c) as [n|]; split; intros [H1 H2]; split; eauto.
  - now destruct H2 as (n' & [= <-] & H2).
  - discriminate.
  - now destruct H2 as (n' & [=] & _).
Qed.

(** ** Methods that a class has or has not *)

Lemma containerAt_Some h r n :
  h !! r = Some n -> containerAt h r <-> Konva.isContainer n = true.
Proof. intros H. unfold containerAt, nodeSat. now rewrite H. Qed.

Lemma shapeAt_Some h r n :
  h !! r = Some n -> shapeAt h r <-> Konva.isContainer n = false.
Proof.
  intros H. unfold shapeAt, nodeSat. rewrite H. apply negb_true_iff.
Qed.

Lemma containerAt_allocated h r : containerAt h r -> is_Some (h !! r).
Proof.
  unfold containerAt, nodeSat. destruct (h !! r); [eauto|discriminate].
Qed.

Lemma shapeAt_allocated h r : shapeAt h r -> is_Some (h !! r).
Proof.
  unfold shapeAt, nodeSat. destruct (h !! r); [eauto|discriminate].
Qed.

Lemma shape_not_container h r : shapeAt h r -> containerAt h r -> False.
Proof.
  unfold shapeAt, containerAt, nodeSat. destruct (h !! r); [|discriminate].
  intros H1 H2. rewrite H2 in H1. discriminate.
Qed.

Lemma readonly_asContainer r : readonly (asContainer r).
Proof.
  apply readonly_bind; [apply readonly_getNode|intros n].
  destruct (Konva.isContainer n); [apply readonly_ret|apply readonly_throw].
Qed.

Lemma readonly_asShape r : readonly (asShape r).
Proof.
  apply readonly_bind; [apply readonly_getNode|intros n].
  destruct (Konva.isContainer n); [apply readonly_throw|apply readonly_ret].
Qed.

Lemma readonly_Container_getChildren r : readonly (Container_getChildren r).
Proof.
  apply readonly_bind; [apply readonly_asContainer|intros _].
  apply readonly_getChildren.
Qed.

Lemma readonly_Container_getChildrenIf r p :
  readonly (Container_getChildrenIf r p).
Proof.
  apply readonly_bind; [apply readonly_asContainer|intros _].
  apply readonly_getChildrenIf.
Qed.

Lemma readonly_Container_find fuel r p : readonly (Container_find fuel r p).
Proof.
  apply readonly_bind; [apply readonly_asContainer|intros _].
  apply readonly_find.
Qed.

Lemma readonly_Label_getText fuel r : readonly (Label_getText fuel r).
Proof.
  apply readonly_bind; [apply readonly_getNode|intros n].
  destruct (String.eqb _ _); [apply readonly_findOne|apply readonly_throw].
Qed.

Lemma readonly_Shape_stroke r : readonly (Shape_stroke r).
Proof.
  apply readonly_bind; [apply readonly_asShape|intros n; apply readonly_ret].
Qed.

Lemma readonly_Shape_fill r : readonly (Shape_fill r).
Proof.
  apply readonly_bind; [apply readonly_asShape|intros n; apply readonly_ret].
Qed.

Lemma asContainer_ok r s :
  containerAt (heap s) r -> asContainer r s = (s, Ok tt).
Proof.
  unfold containerAt, nodeSat, asContainer, bind, getNode.
  destruct (heap s !! r) as [n|]; [|discriminate]. now intros ->.
Qed.

Lemma asContainer_inv r u s s' :
  asContainer r s = (s', Ok u) -> s' = s /\ containerAt (heap s) r.
Proof.
  unfold containerAt, nodeSat, asContainer, bind, getNode.
  destruct (heap s !! r) as [n|]; [|discriminate].
  destruct (Konva.isContainer n); intros H; inversion H. now split.
Qed.

Lemma asContainer_shape r s :
  shapeAt (heap s) r -> asContainer r s = (s, Throw TypeError).
Proof.
  unfold shapeAt, nodeSat, asContainer, bind, getNode.
  destruct (heap s !! r) as [n|]; [|discriminate].
  now destruct (Konva.isContainer n).
Qed.

Lemma asShape_ok r n s :
  heap s !! r = Some n -> Konva.isContainer n = false ->
  asShape r s = (s, Ok n).
Proof.
  intros Hn Hc. unfold asShape.
  rewrite (bind_ok _ _ _ _ _ (getNode_ok _ _ _ Hn)). now rewrite Hc.
Qed.

Lemma asShape_inv r n s s' :
  asShape r s = (s', Ok n) ->
  s' = s /\ heap s !! r = Some n /\ Konva.isContainer n = false.
Proof.
  unfold asShape. intros H. apply bind_inv in H as (n0 & s1 & Hn & H).
  apply getNode_inv in Hn as [-> Hn].
  destruct (Konva.isContainer n0) eqn:E; inversion H; subst. now repeat split.
Qed.

Lemma asShape_container {A} r (k : Konva.Node -> M A) s :
  containerAt (heap s) r -> bind (asShape r) k s = (s, Throw TypeError).
Proof.
  unfold containerAt, nodeSat, asShape, bind, getNode.
  destruct (heap s !! r) as [n|]; [|discriminate]. now intros ->.
Qed.

Lemma Container_getChildren_ok r n s :
  heap s !! r = Some n -> Konva.isContainer n = true ->
  Container_getChildren r s = (s, Ok (Konva.children n)).
Proof.
  intros Hn Hc. unfold Container_getChildren.
  rewrite (bind_ok _ _ _ _ _
             (asContainer_ok _ _ (proj2 (containerAt_Some _ _ _ Hn) Hc))).
  now apply getChildren_ok.
Qed.

Lemma Container_getChildren_inv r l s s' :
  Container_getChildren r s = (s', Ok l) ->
  s' = s /\ containerAt (heap s) r /\ l = childrenOf (heap s) r.
Proof.
  unfold Container_getChildren. intros H.
  apply bind_inv in H as (u & s1 & Hc & H).
  apply asContainer_inv in Hc as [-> Hc].
  apply getChildren_inv in H as (-> & _ & ->). now repeat split.
Qed.

Lemma Container_getChildrenIf_ok r p s :
  containerAt (heap s) r -> closedAt (heap s) r ->
  Container_getChildrenIf r p s
  = (s, Ok (nodesWhere (heap s) p (childrenOf (heap s) r))).
Proof.
  intros Hc Hclosed. unfold Container_getChildrenIf.
  rewrite (bind_ok _ _ _ _ _ (asContainer_ok _ _ Hc)).
  now apply getChildrenIf_ok.
Qed.

Lemma Container_getChildrenIf_inv r p l s s' :
  Container_getChildrenIf r p s = (s', Ok l) ->
  s' = s /\ containerAt (heap s) r /\ closedAt (heap s) r
  /\ l = nodesWhere (heap s) p (childrenOf (heap s) r).
Proof.
  unfold Container_getChildrenIf. intros H.
  apply bind_inv in H as (u & s1 & Hc & H).
  apply asContainer_inv in Hc as [-> Hc].
  apply getChildrenIf_inv in H as (-> & Hclosed & ->). now repeat split.
Qed.

Lemma Shape_stroke_ok r n s :
  heap s !! r = Some n -> Konva.isContainer n = false ->
  Shape_stroke r s = (s, Ok (Konva.stroke n)).
Proof.
  intros Hn Hc. unfold Shape_stroke.
  now rewrite (bind_ok _ _ _ _ _ (asShape_ok _ _ _ Hn Hc)).
Qed.

Lemma Shape_fill_ok r n s :
  heap s !! r = Some n -> Konva.isContainer n = false ->
  Shape_fill r s = (s, Ok (Konva.fill n)).
Proof.
  intros Hn Hc. unfold Shape_fill.
  now rewrite (bind_ok _ _ _ _ _ (asShape_ok _ _ _ Hn Hc)).
Qed.

Lemma Shape_stroke_inv r v s s' :
  Shape_stroke r s = (s', Ok v) ->
  s' = s /\ exists n, heap s !! r = Some n /\ Konva.isContainer n = false
                      /\ v = Konva.stroke n.
Proof.
  unfold Shape_stroke. intros H. apply bind_inv in H as (n & s1 & Hn & H).
  apply asShape_inv in Hn as (-> & Hn & Hc). inversion H; subst. eauto.
Qed.

End MonadFacts.

(* ===================================================================== *)
(** * Position keys *)
(* ===================================================================== *)

(** C6. For every position, [getDrawPositionGroupId] builds the key
    [slice-<s>_frame-<f>], where [s] is the component at index 2 and [f] the
    component at index 3 when the position has length 4 and 0 otherwise, and
    [getPositionFromGroupId] applied to that key gives back the two printed
    values, without a warning. *)
Theorem getDrawPositionGroupId_round_trip (p : Point) :
  let s := Point_get p 2 in
  let f := if Nat.eqb (Point_length p) 4 then Point_get p 3 else Some 0%Z in
  getDrawPositionGroupId p
  = "slice-" ++ JS.toString s ++ "_frame-" ++ JS.toString f
  /\ getPositionFromGroupId (getDrawPositionGroupId p)
     = ({| sliceNumber := JS.toString s; frameNumber := JS.toString f |}, []).
Proof.
  intros s f. split; [reflexivity|].
  unfold getDrawPositionGroupId. fold s. fold f.
  apply key_split, toString_no_sep.
Qed.

(* ===================================================================== *)
(** * Display details *)
(* ===================================================================== *)

Ltac readonly_step :=
  first
    [ apply readonly_ret | apply readonly_throw | apply readonly_gets
    | apply readonly_getNode | apply readonly_getChildren
    | apply readonly_getChildrenIf | apply readonly_thisLayer
    | apply readonly_findOne | apply readonly_find
    | apply readonly_asContainer | apply readonly_asShape
    | apply readonly_Container_getChildren
    | apply readonly_Container_getChildrenIf | apply readonly_Container_find
    | apply readonly_Label_getText
    | apply readonly_Shape_stroke | apply readonly_Shape_fill
    | apply readonly_foldM; intros
    | apply readonly_bind; [|intros]
    | progress cbv zeta
    | match goal with
      | |- readonly (match ?x with _ => _ end) => destruct x
      end ].

Section DisplayDetails.
Context `{Ext : Externals}.

Lemma readonly_displayDetailsOf position group :
  readonly (displayDetailsOf position group).
Proof. unfold displayDetailsOf. repeat readonly_step. Qed.

(** C10. [getDrawDisplayDetails] is a query: whatever the scene, and whether
    it returns the list or stops on an exception, the state after the call
    is the state before it (every node, attribute, link and visibility flag,
    the controller fields and the log). *)
Theorem getDrawDisplayDetails_pure (s : State) :
  fst (getDrawDisplayDetails s) = s.
Proof.
  revert s. change (readonly getDrawDisplayDetails).
  unfold getDrawDisplayDetails.
  repeat first [apply readonly_displayDetailsOf | readonly_step].
Qed.

Lemma readonly_inv {A} (m : M A) s s' r :
  readonly m -> m s = (s', r) -> s' = s.
Proof. intros Hm H. specialize (Hm s). rewrite H in Hm. exact Hm. Qed.

Lemma head_nodesWhere_closed h p l c :
  head (nodesWhere h p l) = Some c -> is_Some (h !! c).
Proof.
  intros H. assert (Hin : In c (nodesWhere h p l)).
  { destruct (nodesWhere h p l); inversion H; subst. now left. }
  apply nodesWhere_In in Hin as (_ & n & Hn & _). now exists n.
Qed.

(** The entry computed for one group carries the classification of the
    specification. *)
Lemma displayDetailsOf_type position group s s' d :
  displayDetailsOf position group s = (s', Ok d) ->
  groupType (heap s) group = Some (dd_type d).
Proof.
  unfold displayDetailsOf. intros H.
  apply bind_inv in H as (shapes & s1 & Hshapes & H).
  apply Container_getChildrenIf_inv in Hshapes as (-> & _ & Hclosed & ->).
  apply bind_inv in H as (labels & s1 & Hlabels & H).
  apply Container_getChildrenIf_inv in Hlabels as (-> & _ & _ & ->).
  apply bind_inv in H as (kids & s1 & Hkids & H).
  assert (s1 = s) as ->.
  { eapply readonly_inv; [|exact Hkids]. repeat readonly_step. }
  clear Hkids.
  apply bind_inv in H as (sh & s1 & Hsh & H).
  unfold groupType.
  destruct (head (nodesWhere (heap s) isNodeNameShape (childrenOf (heap s) group)))
    as [sh0|]; [|discriminate].
  inversion Hsh; subst sh0 s1; clear Hsh.
  apply bind_inv in H as (shape & s1 & Hshape & H).
  apply getNode_inv in Hshape as [-> Hshape]. rewrite Hshape.
  apply bind_inv in H as (type & s1 & Htype & H).
  assert (Hclass : s1 = s
            /\ (if String.eqb type "Rect" then "Rectangle" else type)
               = classify (Konva.className shape) (Konva.closed shape)
                   (map (fun e => match heap s !! e with
                                  | Some en => Konva.name en
                                  | None => ""
                                  end)
                      (nodesWhere (heap s) isNodeNameShapeExtra
                         (childrenOf (heap s) group)))).
  { unfold classify. destruct (String.eqb_spec (Konva.className shape) "Line") as [Hline|Hline].
    - apply bind_inv in Htype as (extras & s2 & Hextras & Htype).
      apply Container_getChildrenIf_inv in Hextras as (-> & _ & _ & ->).
      destruct (Konva.closed shape).
      + inversion Htype; subst. now split.
      + destruct (nodesWhere (heap s) isNodeNameShapeExtra
                    (childrenOf (heap s) group)) as [|extra0 extras].
        * inversion Htype; subst. rewrite Hline. now split.
        * apply bind_inv in Htype as (e & s2 & He & Htype).
          apply getNode_inv in He as [-> He].
          cbn [map]. rewrite He. unfold decorationType.
          destruct (negb (JS.indexOf (Konva.name e) "triangle" =? -1)%Z).
          { inversion Htype; subst. now split. }
          destruct (negb (JS.indexOf (Konva.name e) "arc" =? -1)%Z);
            inversion Htype; subst; now split.
    - inversion Htype; subst. now split. }
  destruct Hclass as [-> Hclass].
  apply bind_inv in H as (g & s1 & Hg & H).
  apply getNode_inv in Hg as [-> Hg].
  apply bind_inv in H as (color & s1 & Hcolor & H).
  apply bind_inv in H as (text & s2 & Htext & H).
  inversion H; subst. cbn [dd_type]. now rewrite Hclass.
Qed.

Lemma displayDetails_inner position collec :
  forall acc s s' l,
    foldM (fun list_ group =>
             do d <- displayDetailsOf position group;
             ret (list_ ++ [d])%list) collec acc s = (s', Ok l) ->
    s' = s
    /\ exists ds, l = (acc ++ ds)%list
       /\ Forall2 (fun d g => groupType (heap s) g = Some (dd_type d)) ds collec.
Proof.
  induction collec as [|g collec IH]; intros acc s s' l H; cbn [foldM] in H.
  - inversion H; subst. split; [reflexivity|]. exists []. split.
    + now rewrite app_nil_r.
    + constructor.
  - apply bind_inv in H as (acc' & s1 & Hstep & H).
    apply bind_inv in Hstep as (d & s2 & Hd & Hstep).
    pose proof (readonly_inv _ _ _ _ (readonly_displayDetailsOf _ _) Hd) as ->.
    inversion Hstep; subst.
    apply IH in H as (-> & ds & -> & Hds).
    split; [reflexivity|]. exists (d :: ds). split.
    + now rewrite <- app_assoc.
    + constructor; [|assumption]. eapply displayDetailsOf_type, Hd.
Qed.

Lemma displayDetails_outer groups :
  forall acc s s' l,
    foldM (fun list_ posGroup =>
             do pg <- getNode posGroup;
             do position <- match getIndexFromStringId (Konva.id pg) with
                            | Some p => ret p
                            | None => throw ExternalError
                            end;
             do collec <- Container_getChildren posGroup;
             foldM (fun list_ group =>
                      do d <- displayDetailsOf position group;
                      ret (list_ ++ [d])%list)
                   collec list_) groups acc s = (s', Ok l) ->
    s' = s
    /\ exists ds, l = (acc ++ ds)%list
       /\ Forall2 (fun d g => groupType (heap s) g = Some (dd_type d))
            ds (groupsUnder (heap s) groups).
Proof.
  induction groups as [|pg groups IH]; intros acc s s' l H; cbn [foldM] in H.
  - inversion H; subst. split; [reflexivity|]. exists []. split.
    + now rewrite app_nil_r.
    + constructor.
  - apply bind_inv in H as (acc' & s1 & Hstep & H).
    apply bind_inv in Hstep as (n & s2 & Hn & Hstep).
    apply getNode_inv in Hn as [-> Hn].
    apply bind_inv in Hstep as (position & s2 & Hpos & Hstep).
    assert (s2 = s) as ->.
    { eapply readonly_inv; [|exact Hpos]. repeat readonly_step. }
    apply bind_inv in Hstep as (collec & s2 & Hcollec & Hstep).
    apply Container_getChildren_inv in Hcollec as (-> & _ & ->).
    apply displayDetails_inner in Hstep as (-> & ds1 & -> & Hds1).
    apply IH in H as (-> & ds2 & -> & Hds2).
    split; [reflexivity|]. exists (ds1 ++ ds2)%list. split.
    + now rewrite <- app_assoc.
    + unfold groupsUnder. cbn [flat_map]. now apply Forall2_app.
Qed.

(** C5. Whenever [getDrawDisplayDetails] returns its list, the entries are,
    in order, those of the groups under the children of the layer, and the
    type of each entry is the classification of the specification: a closed
    ['Line'] is ["Roi"]; an open ['Line'] takes the type of its first
    decoration (["Arrow"] when its name contains ['triangle'], else
    ["Protractor"] when it contains ['arc'], else ["Ruler"]) and stays
    ['Line'] without decoration; ['Rect'] is ["Rectangle"]; any other shape
    keeps its class name. *)
Theorem getDrawDisplayDetails_types (s s' : State) (l : list DisplayDetails) :
  getDrawDisplayDetails s = (s', Ok l) ->
  Forall2 (fun d g => groupType (heap s) g = Some (dd_type d))
    l (groupsUnder (heap s) (layerChildren s)).
Proof.
  unfold getDrawDisplayDetails. intros H.
  apply bind_inv in H as (layer & s1 & Hlayer & H).
  apply thisLayer_inv in Hlayer as [-> Hlayer].
  apply bind_inv in H as (groups & s1 & Hgroups & H).
  apply getChildren_inv in Hgroups as (-> & _ & ->).
  apply displayDetails_outer in H as (-> & ds & -> & Hds).
  unfold layerChildren. now rewrite Hlayer.
Qed.

End DisplayDetails.

(* ===================================================================== *)
(** * Writes *)
(* ===================================================================== *)

(** From here on [++] is the concatenation of lists. *)
Local Open Scope list_scope.

Section WriteFacts.
Context `{Ext : Externals}.

Lemma updNode_ok r f n s :
  heap s !! r = Some n ->
  updNode r f s = (with_heap (<[r := f n]> (heap s)) s, Ok tt).
Proof.
  intros H. unfold updNode.
  now rewrite (bind_ok _ _ _ _ _ (getNode_ok _ _ _ H)).
Qed.

Lemma lookup_snoc (h : list Konva.Node) x : (h ++ [x]) !! List.length h = Some x.
Proof. now rewrite lookup_app_r, Nat.sub_diag by lia. Qed.

Lemma insert_snoc (h : list Konva.Node) x y :
  <[List.length h := y]> (h ++ [x]) = h ++ [y].
Proof.
  rewrite insert_app_r_alt by lia. now rewrite Nat.sub_diag.
Qed.

Lemma lookup_snoc_old (h : list Konva.Node) x r n :
  h !! r = Some n -> (h ++ [x]) !! r = Some n.
Proof. intros H. now apply lookup_app_l_Some. Qed.

Lemma lookup_Some_lt (h : list Konva.Node) r n :
  h !! r = Some n -> r < List.length h.
Proof. intros H. eapply lookup_lt_Some, H. Qed.

(** Attaching a detached node under another node. *)
Lemma Node_add_detached p c pn cn s :
  p <> c -> heap s !! p = Some pn -> heap s !! c = Some cn ->
  Konva.parent cn = None ->
  Node_add p c s
  = (with_heap
       (<[p := Konva.with_children (Konva.children pn ++ [c]) pn]>
          (<[c := Konva.with_parent (Some p) cn]> (heap s))) s, Ok tt).
Proof.
  intros Hne Hp Hc Hpar. unfold Node_add.
  rewrite (bind_ok _ _ _ _ _ (getNode_ok _ _ _ Hc)). rewrite Hpar.
  rewrite (bind_ok _ _ _ _ _ (updNode_ok _ _ _ _ Hc)).
  erewrite updNode_ok.
  2:{ cbn. rewrite list_lookup_insert_ne by congruence. exact Hp. }
  reflexivity.
Qed.

Lemma attribute_only_id k : attribute_only (isNodeWithId k).
Proof. now intros n cs par. Qed.


Lemma attribute_only_position_id k :
  attribute_only (fun n => isPositionNode n && isNodeWithId k n).
Proof. now intros n cs par. Qed.

(** Selecting among old nodes is not affected by a new node and new
    children of the layer. *)
Lemma nodesWhere_grow p h l L ln cs x :
  attribute_only p -> h !! L = Some ln ->
  Forall (fun c => is_Some (h !! c)) l ->
  nodesWhere (<[L := Konva.with_children cs ln]> h ++ [x]) p l
  = nodesWhere h p l.
Proof.
  intros Hp HL. induction 1 as [|c l [n Hn] Hl IH]; [reflexivity|].
  rewrite !nodesWhere_cons, IH.
  assert (Hsat : nodeSat (<[L := Konva.with_children cs ln]> h ++ [x]) p c
                 = nodeSat h p c).
  { rewrite (nodeSat_Some h _ _ _ Hn).
    destruct (decide (c = L)) as [Heq|Hne].
    - subst c. assert (n = ln) as -> by congruence.
      erewrite nodeSat_Some; [exact (proj1 (Hp ln cs None))|].
      apply lookup_app_l_Some, list_lookup_insert_eq.
      eapply lookup_lt_Some, Hn.
    - apply nodeSat_Some, lookup_app_l_Some.
      now rewrite list_lookup_insert_ne by congruence. }
  now rewrite Hsat.
Qed.

Lemma nodesWhere_app h p l1 l2 :
  nodesWhere h p (l1 ++ l2) = nodesWhere h p l1 ++ nodesWhere h p l2.
Proof. unfold nodesWhere. apply List.filter_app. Qed.

Lemma nodesWhere_and_length h p q l :
  List.length (nodesWhere h (fun n => p n && q n) l)
  <= List.length (nodesWhere h q l).
Proof.
  induction l as [|c l IH]; [reflexivity|].
  rewrite !nodesWhere_cons. unfold nodeSat.
  destruct (h !! c) as [n|]; [|exact IH].
  destruct (p n), (q n); cbn; lia.
Qed.

End WriteFacts.

(* ===================================================================== *)
(** * The current Position Group *)
(* ===================================================================== *)

Section CurrentPosGroup.
Context `{Ext : Externals}.

(** One match: it is returned and nothing changes. *)
Lemma getCurrentPosGroup_found s L g :
  konvaLayer s = Some L -> closedAt (heap s) L ->
  nodesWhere (heap s) (idIsKey (currentPosGroupId s)) (childrenOf (heap s) L)
  = [g] ->
  getCurrentPosGroup s = (s, Ok (Some g)).
Proof.
  intros HL Hclosed Hone. unfold getCurrentPosGroup.
  rewrite (bind_ok _ _ _ _ _ (thisLayer_ok _ _ HL)).
  unfold gets at 1. unfold bind at 1.
  rewrite (bind_ok _ _ _ _ _ (getChildrenIf_ok _ _ _ Hclosed)).
  now rewrite Hone.
Qed.

(** No match: a visible Position Group is created at the next free
    reference and appended to the layer. *)
Lemma getCurrentPosGroup_created s L ln :
  konvaLayer s = Some L -> heap s !! L = Some ln ->
  Forall (fun c => is_Some (heap s !! c)) (Konva.children ln) ->
  nodesWhere (heap s) (idIsKey (currentPosGroupId s)) (Konva.children ln)
  = [] ->
  let g := List.length (heap s) in
  getCurrentPosGroup s
  = (with_heap
       (<[L := Konva.with_children (Konva.children ln ++ [g]) ln]> (heap s)
        ++ [newPositionGroup (currentPosGroupId s) L]) s,
     Ok (Some g)).
Proof.
  intros HL Hln Hclosed Hnone g. unfold getCurrentPosGroup.
  rewrite (bind_ok _ _ _ _ _ (thisLayer_ok _ _ HL)).
  unfold gets at 1. unfold bind at 1.
  erewrite bind_ok; [|apply getChildrenIf_ok; now exists ln].
  unfold childrenOf. rewrite Hln, Hnone.
  unfold newNode at 1. unfold bind at 1.
  erewrite bind_ok; [|apply updNode_ok; cbn; apply lookup_snoc].
  cbn [heap with_heap]. rewrite insert_snoc.
  erewrite bind_ok; [|apply updNode_ok; cbn; apply lookup_snoc].
  cbn [heap with_heap]. rewrite insert_snoc.
  erewrite bind_ok; [|apply updNode_ok; cbn; apply lookup_snoc].
  cbn [heap with_heap]. rewrite insert_snoc.
  erewrite bind_ok.
  2:{ apply Node_add_detached with (pn := ln).
      - apply lookup_Some_lt in Hln. lia.
      - cbn. now apply lookup_snoc_old.
      - cbn. apply lookup_snoc.
      - reflexivity. }
  unfold ret. f_equal. unfold with_heap. cbn. f_equal.
  rewrite insert_snoc.
  rewrite insert_app_l by (eapply lookup_lt_Some, Hln). reflexivity.
Qed.

(** Several matches: a warning, and [null]. *)
Lemma getCurrentPosGroup_several s L :
  konvaLayer s = Some L -> closedAt (heap s) L ->
  1 < List.length (nodesWhere (heap s) (idIsKey (currentPosGroupId s))
                     (childrenOf (heap s) L)) ->
  getCurrentPosGroup s
  = (mkState (heap s) (konvaLayer s) (currentPosGroupId s)
       (log s ++ ["Unexpected number of draw position groups."]),
     Ok None).
Proof.
  intros HL Hclosed Hmany. unfold getCurrentPosGroup.
  rewrite (bind_ok _ _ _ _ _ (thisLayer_ok _ _ HL)).
  unfold gets at 1. unfold bind at 1.
  rewrite (bind_ok _ _ _ _ _ (getChildrenIf_ok _ _ _ Hclosed)).
  destruct (nodesWhere _ _ _) as [|g1 [|g2 l]]; cbn in Hmany; try lia.
  reflexivity.
Qed.

(** C2, as the code has it. When more than one direct position-group child
    of the layer has the active key as identifier, [getCurrentPosGroup]
    logs the inconsistency and returns [null]; the scene is unchanged. *)
Theorem getCurrentPosGroup_duplicates_null (s : State) (L : Konva.ref)
    (K : string) :
  konvaLayer s = Some L -> currentPosGroupId s = Some K ->
  closedAt (heap s) L ->
  1 < List.length (positionGroupsWithId s K) ->
  getCurrentPosGroup s
  = (mkState (heap s) (konvaLayer s) (currentPosGroupId s)
       (log s ++ ["Unexpected number of draw position groups."]),
     Ok None).
Proof.
  intros HL HK Hclosed Hmany.
  apply getCurrentPosGroup_several with (L := L); try assumption.
  rewrite HK. unfold positionGroupsWithId, layerChildren in Hmany.
  rewrite HL in Hmany.
  eapply Nat.lt_le_trans; [exact Hmany|].
  apply (nodesWhere_and_length _ isPositionNode (isNodeWithId K)).
Qed.

(** Two calls in a row on a layer in which at most one direct child has
    the active key as identifier, and that child is a Position Group. *)
Lemma getCurrentPosGroup_second_call (s : State) (L : Konva.ref)
    (K : string) :
  konvaLayer s = Some L -> currentPosGroupId s = Some K ->
  closedAt (heap s) L ->
  List.length (childrenWithId s K) <= 1 ->
  childrenWithId s K = positionGroupsWithId s K ->
  idempotentAt s K.
Proof.
  intros HL HK (ln & Hln & Hclosed) Hle Hrole.
  unfold childrenWithId, positionGroupsWithId, layerChildren in *.
  rewrite HL in *. unfold childrenOf in *. rewrite Hln in *.
  destruct (nodesWhere (heap s) (isNodeWithId K) (Konva.children ln))
    as [|g [|g' l]] eqn:Hfound; cbn in Hle; try lia.
  - (* created *)
    pose proof (getCurrentPosGroup_created s L ln HL Hln Hclosed) as Hrun.
    rewrite HK in Hrun. specialize (Hrun Hfound). cbn zeta in Hrun.
    set (g := List.length (heap s)) in *.
    set (s1 := with_heap _ s) in Hrun.
    assert (Hln1 : heap s1 !! L
                   = Some (Konva.with_children (Konva.children ln ++ [g]) ln)).
    { unfold s1. cbn. apply lookup_app_l_Some, list_lookup_insert_eq.
      eapply lookup_lt_Some, Hln. }
    assert (Hg1 : heap s1 !! g = Some (newPositionGroup (Some K) L)).
    { unfold s1. cbn [heap with_heap].
      rewrite lookup_app_r by (rewrite length_insert; unfold g; lia).
      rewrite length_insert. unfold g. now rewrite Nat.sub_diag. }
    assert (Hsel : forall p, attribute_only p ->
              nodesWhere (heap s1) p (Konva.children ln ++ [g])
              = nodesWhere (heap s) p (Konva.children ln)
                ++ (if p (newPositionGroup (Some K) L) then [g] else [])).
    { intros p Hp. rewrite nodesWhere_app. f_equal.
      - unfold s1. cbn. now apply nodesWhere_grow.
      - rewrite nodesWhere_cons, (nodeSat_Some _ _ _ _ Hg1).
        now destruct (p _). }
    exists g, s1. split; [exact Hrun|]. split.
    + apply getCurrentPosGroup_found with (L := L).
      * exact HL.
      * eexists. split; [exact Hln1|].
        cbn [Konva.children Konva.with_children]. apply Forall_app. split.
        -- eapply Forall_impl; [exact Hclosed|]. intros c [n Hn].
           destruct (decide (c = L)) as [->|Hne].
           ++ rewrite Hln1. eauto.
           ++ exists n. unfold s1. cbn [heap with_heap].
              apply lookup_app_l_Some.
              now rewrite list_lookup_insert_ne by congruence.
        -- constructor; [rewrite Hg1; eauto|constructor].
      * unfold childrenOf. rewrite Hln1. cbn [Konva.children Konva.with_children].
        replace (currentPosGroupId s1) with (Some K) by (symmetry; exact HK).
        change (idIsKey (Some K)) with (isNodeWithId K).
        rewrite (Hsel _ (attribute_only_id K)), Hfound.
        cbn. now rewrite String.eqb_refl.
    + unfold positionGroupsWithId, layerChildren.
      replace (konvaLayer s1) with (Some L) by (symmetry; exact HL).
      unfold childrenOf. rewrite Hln1. cbn [Konva.children Konva.with_children].
      rewrite (Hsel _ (attribute_only_position_id K)).
      rewrite <- Hrole. cbn. now rewrite String.eqb_refl.
  - (* found *)
    exists g, s.
    assert (Hrun : getCurrentPosGroup s = (s, Ok (Some g))).
    { apply getCurrentPosGroup_found with (L := L); try assumption.
      - now exists ln.
      - unfold childrenOf. rewrite Hln, HK. exact Hfound. }
    split; [exact Hrun|]. split; [exact Hrun|].
    unfold positionGroupsWithId, layerChildren. rewrite HL.
    unfold childrenOf. rewrite Hln. now rewrite <- Hrole.
Qed.

(** C1, with the precondition the code needs. For every layer in which at
    most one direct child has the active key as identifier, and that child
    (if any) is a Position Group, two calls of [getCurrentPosGroup] in a row
    return the same node, the second call changes nothing (it returns the
    state it was given), and afterwards that node is the one Position Group
    with that identifier. *)
Theorem getCurrentPosGroup_idempotent (s : State) (L : Konva.ref)
    (K : string) :
  konvaLayer s = Some L -> currentPosGroupId s = Some K ->
  closedAt (heap s) L ->
  List.length (childrenWithId s K) <= 1 ->
  childrenWithId s K = positionGroupsWithId s K ->
  idempotentAt s K /\ sameNodeTwiceAt s K.
Proof.
  intros HL HK Hclosed Hle Hrole.
  pose proof (getCurrentPosGroup_second_call s L K HL HK Hclosed Hle Hrole)
    as Hidem.
  split; [exact Hidem|].
  destruct Hidem as (g & s1 & Hrun1 & Hrun2 & Hone). now exists g, s1, s1.
Qed.

End CurrentPosGroup.

(* ===================================================================== *)
(** * Activating a position *)
(* ===================================================================== *)

Section Activate.
Context `{Ext : Externals}.

Lemma with_visible_twice v w n :
  Konva.with_visible v (Konva.with_visible w n) = Konva.with_visible v n.
Proof. reflexivity. Qed.

(** The visibility pass of [activateDrawLayer] (lines 234-241): every node
    of the list gets the flag "my identifier is the key", the others are
    left alone. *)
Lemma visibility_pass K l :
  forall s,
    currentPosGroupId s = Some K ->
    Forall (fun c => is_Some (heap s !! c)) l ->
    exists s',
      forM_ l (fun g =>
                 do n <- getNode g;
                 do key <- gets currentPosGroupId;
                 let visible := idIsKey key n in
                 updNode g (Konva.with_visible visible)) s = (s', Ok tt)
      /\ konvaLayer s' = konvaLayer s
      /\ currentPosGroupId s' = currentPosGroupId s
      /\ log s' = log s
      /\ forall r n, heap s !! r = Some n ->
           heap s' !! r
           = Some (if bool_decide (r ∈ l)
                   then Konva.with_visible (isNodeWithId K n) n else n).
Proof.
  induction l as [|x l IH]; intros s HK Hall.
  - exists s. repeat split; try reflexivity. intros r n Hn. exact Hn.
  - apply Forall_cons in Hall as [[nx Hx] Hall]. cbn [forM_].
    set (s1 := with_heap
                 (<[x := Konva.with_visible (isNodeWithId K nx) nx]> (heap s)) s).
    assert (Hstep : (do n <- getNode x;
                     do key <- gets currentPosGroupId;
                     let visible := idIsKey key n in
                     updNode x (Konva.with_visible visible)) s = (s1, Ok tt)).
    { rewrite (bind_ok _ _ _ _ _ (getNode_ok _ _ _ Hx)).
      unfold gets, bind at 1. rewrite HK. cbn zeta.
      now rewrite (updNode_ok _ _ _ _ Hx). }
    rewrite (bind_ok _ _ _ _ _ Hstep).
    destruct (IH s1) as (s' & Hrun & HL' & HK' & Hlog' & Hheap').
    + exact HK.
    + eapply Forall_impl; [exact Hall|]. intros c [n Hn]. unfold s1.
      cbn [heap with_heap]. apply lookup_lt_is_Some.
      rewrite length_insert. eapply lookup_lt_Some, Hn.
    + exists s'. split; [exact Hrun|]. repeat split; try assumption.
      intros r n Hn. destruct (decide (r = x)) as [->|Hne].
      * assert (n = nx) as -> by congruence.
        rewrite bool_decide_eq_true_2 by (apply list_elem_of_here).
        erewrite Hheap'.
        2:{ unfold s1. cbn [heap with_heap]. apply list_lookup_insert_eq.
            eapply lookup_lt_Some, Hx. }
        now destruct (bool_decide (x ∈ l)).
      * erewrite Hheap'.
        2:{ unfold s1. cbn [heap with_heap].
            rewrite list_lookup_insert_ne by congruence. exact Hn. }
        f_equal. destruct (bool_decide_reflect (r ∈ l)) as [Hin|Hnin].
        -- now rewrite bool_decide_eq_true_2 by (now apply list_elem_of_further).
        -- rewrite bool_decide_eq_false_2; [reflexivity|].
           intros Hin. apply elem_of_cons in Hin as [?|?]; congruence.
Qed.

(** With unique identifiers, at most one Position Group has a given one. *)
Lemma unique_id_at_most_one h K l :
  NoDup (map (idOf h) (nodesWhere h isPositionNode l)) ->
  nodesWhere h (fun n => isPositionNode n && isNodeWithId K n) l = []
  \/ exists g, nodesWhere h (fun n => isPositionNode n && isNodeWithId K n) l
               = [g].
Proof.
  induction l as [|c l IH]; intros Hnd; [now left|].
  rewrite nodesWhere_cons in Hnd. rewrite nodesWhere_cons.
  unfold nodeSat in *. destruct (h !! c) as [n|] eqn:Hc; [|now apply IH].
  destruct (isPositionNode n) eqn:Hpos; cbn [andb]; [|now apply IH].
  cbn [map] in Hnd. apply NoDup_cons in Hnd as [Hnotin Hnd].
  destruct (isNodeWithId K n) eqn:Hid; [|now apply IH].
  right. exists c. f_equal.
  destruct (nodesWhere h (fun n => isPositionNode n && isNodeWithId K n) l)
    as [|g rest] eqn:Hrest; [reflexivity|].
  exfalso. apply Hnotin.
  assert (Hg : In g (nodesWhere h
                       (fun n => isPositionNode n && isNodeWithId K n) l))
    by (rewrite Hrest; now left).
  apply nodesWhere_In in Hg as (Hgl & ng & Hng & Hsat).
  apply andb_true_iff in Hsat as [Hgpos Hgid].
  apply list_elem_of_In, in_map_iff. exists g. split.
  - unfold idOf. rewrite Hng, Hc. unfold isNodeWithId in *.
    apply String.eqb_eq in Hid, Hgid. congruence.
  - apply nodesWhere_In. split; [assumption|]. now exists ng.
Qed.

(** After the pass the visible Position Groups are the Position Groups that
    carry the key. *)
Lemma visible_after_pass (h h' : list Konva.Node) K l :
  Forall (fun c => is_Some (h !! c)) l ->
  (forall r n, h !! r = Some n ->
     h' !! r = Some (if bool_decide (r ∈ nodesWhere h isPositionNode l)
                     then Konva.with_visible (isNodeWithId K n) n else n)) ->
  forall l0, (forall c, In c l0 -> In c l) ->
  nodesWhere h' (fun n => isPositionNode n && Konva.visible n) l0
  = nodesWhere h (fun n => isPositionNode n && isNodeWithId K n) l0
  /\ nodesWhere h' (fun n => isPositionNode n && isNodeWithId K n) l0
     = nodesWhere h (fun n => isPositionNode n && isNodeWithId K n) l0.
Proof.
  intros Hall Hh'. induction l0 as [|c l0 IH]; intros Hsub; [now split|].
  rewrite !nodesWhere_cons.
  destruct IH as [IH1 IH2]; [intros; apply Hsub; now right|].
  rewrite IH1, IH2.
  assert (Hc : In c l) by (apply Hsub; now left).
  rewrite Forall_forall in Hall.
  destruct (Hall c) as [n Hn]; [now apply list_elem_of_In|].
  rewrite !(nodeSat_Some h _ _ _ Hn).
  rewrite !(nodeSat_Some h' _ _ _ (Hh' _ _ Hn)).
  destruct (isPositionNode n) eqn:Hpos.
  - rewrite bool_decide_eq_true_2.
    2:{ apply list_elem_of_In, nodesWhere_In. split; [assumption|]. now exists n. }
    change (isPositionNode (Konva.with_visible (isNodeWithId K n) n))
      with (isPositionNode n).
    rewrite Hpos. now split.
  - rewrite bool_decide_eq_false_2.
    2:{ intros Hin. apply list_elem_of_In, nodesWhere_In in Hin
          as (_ & n' & Hn' & Hsat). congruence. }
    rewrite Hpos. now split.
Qed.

(** C3. Let [activateDrawLayer] compute the key [K], on a layer whose
    Position Groups have pairwise different identifiers.  The call returns;
    if the layer has a Position Group with identifier [K], then exactly one
    Position Group is visible afterwards and its identifier is [K]; if it
    has none, no Position Group is visible afterwards. *)
Theorem activateDrawLayer_one_visible (index : Index) (scrollIndex : nat)
    (K : string) (s : State) (L : Konva.ref) :
  Index_toStringId index (scrollIndex :: seq 3 (Index_length index - 3))
  = Some K ->
  konvaLayer s = Some L -> closedAt (heap s) L ->
  NoDup (map (idOf (heap s)) (positionGroups s)) ->
  exists s',
    activateDrawLayer index scrollIndex s = (s', Ok tt)
    /\ currentPosGroupId s' = Some K
    /\ positionGroupsWithId s' K = positionGroupsWithId s K
    /\ (positionGroupsWithId s K <> [] ->
        exists g, visiblePositionGroups s' = [g] /\ idOf (heap s') g = K)
    /\ (positionGroupsWithId s K = [] -> visiblePositionGroups s' = []).
Proof.
  intros Hkey HL (ln & Hln & Hclosed) Hnd.
  unfold activateDrawLayer. cbn zeta. rewrite Hkey.
  unfold ret at 1, bind at 1. unfold modify at 1, bind at 1.
  set (s0 := mkState (heap s) (konvaLayer s) (Some K) (log s)).
  rewrite (bind_ok _ _ _ _ _ (thisLayer_ok L s0 HL)).
  erewrite bind_ok; [|apply getChildrenIf_ok; now exists ln].
  cbn [heap s0]. unfold childrenOf at 1. rewrite Hln.
  destruct (visibility_pass K (nodesWhere (heap s) isPositionNode
                                 (Konva.children ln)) s0)
    as (s' & Hrun & HL' & HK' & Hlog' & Hheap').
  { reflexivity. }
  { apply Forall_forall. intros c Hc.
    apply list_elem_of_In, nodesWhere_In in Hc as (_ & n & Hn & _). now exists n. }
  rewrite (bind_ok _ _ _ _ _ Hrun). exists s'.
  split; [reflexivity|]. split; [exact HK'|].
  assert (Hkids : layerChildren s' = Konva.children ln).
  { unfold layerChildren. rewrite HL'. cbn [konvaLayer s0]. rewrite HL.
    unfold childrenOf. rewrite (Hheap' _ _ Hln).
    now destruct (bool_decide _). }
  destruct (visible_after_pass (heap s) (heap s') K (Konva.children ln)
              Hclosed Hheap' (Konva.children ln)) as [Hvis Hsame];
    [auto|].
  unfold visiblePositionGroups, positionGroupsWithId, positionGroups in *.
  rewrite Hkids. unfold layerChildren in *. rewrite HL in *.
  unfold childrenOf in *. rewrite Hln in *.
  rewrite Hvis, Hsame. split; [reflexivity|].
  destruct (unique_id_at_most_one (heap s) K (Konva.children ln) Hnd)
    as [Hnone|[g Hone]].
  - rewrite Hnone. split; [congruence|reflexivity].
  - rewrite Hone. split; [|discriminate]. intros _. exists g.
    split; [reflexivity|].
    assert (Hg : In g (nodesWhere (heap s)
                         (fun n => isPositionNode n && isNodeWithId K n)
                         (Konva.children ln))) by (rewrite Hone; now left).
    apply nodesWhere_In in Hg as (_ & n & Hn & Hsat).
    apply andb_true_iff in Hsat as [_ Hid]. apply String.eqb_eq in Hid.
    unfold idOf. rewrite (Hheap' _ _ Hn). now destruct (bool_decide _).
Qed.

End Activate.

(* ===================================================================== *)
(** * Deleting *)
(* ===================================================================== *)

Section Delete.
Context `{Ext : Externals}.

Lemma insert_as_alter (h : list Konva.Node) r n f :
  h !! r = Some n -> <[r := f n]> h = alter f r h.
Proof.
  intros H. apply list_eq. intros i. destruct (decide (i = r)) as [->|Hne].
  - rewrite list_lookup_insert_eq by (eapply lookup_lt_Some, H).
    now rewrite list_lookup_alter_eq, H.
  - now rewrite list_lookup_insert_ne, list_lookup_alter_ne by congruence.
Qed.

Lemma updNode_alter r f s :
  is_Some (heap s !! r) ->
  updNode r f s = (with_heap (alter f r (heap s)) s, Ok tt).
Proof.
  intros [n Hn]. rewrite (updNode_ok _ _ _ _ Hn).
  now rewrite (insert_as_alter _ _ _ _ Hn).
Qed.

Lemma with_heap_heap h s : heap (with_heap h s) = h.
Proof. reflexivity. Qed.

(** [remove] on an attached node. *)
Lemma Node_remove_attached r p n s :
  heap s !! r = Some n -> Konva.parent n = Some p ->
  is_Some (heap s !! p) ->
  Node_remove r s = (with_heap (detach r p (heap s)) s, Ok tt).
Proof.
  intros Hn Hpar Hp. unfold Node_remove.
  rewrite (bind_ok _ _ _ _ _ (getNode_ok _ _ _ Hn)). rewrite Hpar.
  rewrite (bind_ok _ _ _ _ _ (updNode_alter _ _ _ Hp)).
  rewrite updNode_alter.
  - reflexivity.
  - rewrite with_heap_heap. apply lookup_lt_is_Some. rewrite length_alter.
    eapply lookup_lt_Some, Hn.
Qed.

Lemma length_detach r p h : List.length (detach r p h) = List.length h.
Proof. unfold detach. now rewrite !length_alter. Qed.

Lemma splice_out_head c l : Konva.splice_out c (c :: l) = l.
Proof. cbn. now rewrite Nat.eqb_refl. Qed.

Lemma splice_out_subset c l x : x ∈ Konva.splice_out c l -> x ∈ l.
Proof.
  induction l as [|y l IH]; cbn; [easy|].
  destruct (Nat.eqb_spec y c).
  - intros H. now apply list_elem_of_further.
  - intros H. apply elem_of_cons in H as [->|H].
    + apply list_elem_of_here.
    + apply list_elem_of_further, IH, H.
Qed.

(** What [detach] leaves at a reference. *)
Lemma lookup_detach r p h x :
  detach r p h !! x
  = (fun n =>
       let n1 := if decide (x = p)
                 then Konva.with_children
                        (Konva.splice_out r (Konva.children n)) n
                 else n in
       if decide (x = r) then Konva.with_parent None n1 else n1) <$> h !! x.
Proof.
  unfold detach.
  destruct (decide (x = r)) as [Hr|Hr]; destruct (decide (x = p)) as [Hp|Hp].
  - rewrite <- Hr, <- Hp, !list_lookup_alter_eq. now destruct (h !! x).
  - rewrite <- Hr, list_lookup_alter_eq, list_lookup_alter_ne by congruence.
    now destruct (h !! x).
  - rewrite <- Hp, list_lookup_alter_ne, list_lookup_alter_eq by congruence.
    now destruct (h !! x).
  - rewrite !list_lookup_alter_ne by congruence. now destruct (h !! x).
Qed.

Lemma closedHeap_detach r p h : closedHeap h -> closedHeap (detach r p h).
Proof.
  intros Hc x n' Hx. rewrite lookup_detach in Hx.
  destruct (h !! x) as [n|] eqn:Hn; [|discriminate]. cbn in Hx.
  inversion Hx; subst n'; clear Hx.
  assert (Hsub : forall c, c ∈ Konva.children
                    (if decide (x = r)
                     then Konva.with_parent None
                            (if decide (x = p)
                             then Konva.with_children
                                    (Konva.splice_out r (Konva.children n)) n
                             else n)
                     else if decide (x = p)
                          then Konva.with_children
                                 (Konva.splice_out r (Konva.children n)) n
                          else n) -> c ∈ Konva.children n).
  { intros c. repeat case_decide; cbn; eauto using splice_out_subset. }
  apply Forall_forall. intros c Hin. apply Hsub in Hin.
  specialize (Hc _ _ Hn). rewrite Forall_forall in Hc.
  apply lookup_lt_is_Some. rewrite length_detach.
  apply lookup_lt_is_Some. now apply Hc.
Qed.

Lemma newCommand_ok k group nm layer gn s :
  heap s !! group = Some gn ->
  newCommand k group nm layer s
  = (s, Ok (mkCommand k group nm layer (Konva.parent gn))).
Proof.
  intros Hg. unfold newCommand.
  now rewrite (bind_ok _ _ _ _ _ (getNode_ok _ _ _ Hg)).
Qed.

Lemma wf_lookup h r n :
  wf h -> h !! r = Some n -> wf_node h r n = true.
Proof.
  unfold wf, wfb. rewrite forallb_forall. intros Hwf Hn.
  specialize (Hwf r). rewrite Hn in Hwf. apply Hwf, in_seq.
  apply lookup_lt_Some in Hn. lia.
Qed.

Lemma wf_children h r n c :
  wf h -> h !! r = Some n -> c ∈ Konva.children n ->
  exists cn, h !! c = Some cn /\ Konva.parent cn = Some r.
Proof.
  intros Hwf Hn Hc. pose proof (wf_lookup _ _ _ Hwf Hn) as H.
  unfold wf_node in H. apply andb_true_iff in H as [H _].
  apply andb_true_iff in H as [H _]. rewrite forallb_forall in H.
  specialize (H c (proj1 (list_elem_of_In _ _) Hc)).
  destruct (h !! c) as [cn|]; [|discriminate H].
  exists cn. split; [reflexivity|]. now apply bool_decide_eq_true in H.
Qed.

Lemma wf_NoDup h r n : wf h -> h !! r = Some n -> NoDup (Konva.children n).
Proof.
  intros Hwf Hn. pose proof (wf_lookup _ _ _ Hwf Hn) as H.
  unfold wf_node in H. apply andb_true_iff in H as [H _].
  apply andb_true_iff in H as [_ H]. now apply bool_decide_eq_true in H.
Qed.


Lemma wf_closedHeap h : wf h -> closedHeap h.
Proof.
  intros Hwf r n Hn. apply Forall_forall. intros c Hc.
  destruct (wf_children _ _ _ _ Hwf Hn Hc) as (cn & Hcn & _). now exists cn.
Qed.

(** [deleteDrawGroup] on an attached container, with observing callbacks:
    the group is unlinked from its parent. *)
Lemma deleteDrawGroup_attached group p gn cmdCallback exeCallback s :
  observer cmdCallback -> observer exeCallback ->
  closedHeap (heap s) ->
  heap s !! group = Some gn -> Konva.isContainer gn = true ->
  Konva.parent gn = Some p ->
  is_Some (heap s !! p) ->
  exists s',
    deleteDrawGroup group cmdCallback exeCallback s = (s', Ok tt)
    /\ heap s' = detach group p (heap s)
    /\ konvaLayer s' = konvaLayer s
    /\ currentPosGroupId s' = currentPosGroupId s.
Proof.
  intros Hcmd Hexe Hclosed Hg Hcont Hpar Hp. unfold deleteDrawGroup.
  erewrite bind_ok;
    [|apply Container_getChildrenIf_ok;
      [exact (proj2 (containerAt_Some _ _ _ Hg) Hcont)
      |exists gn; split; [exact Hg|exact (Hclosed _ _ Hg)]]].
  set (shapes := nodesWhere _ _ _).
  assert (Hshape : exists cls,
             (match head shapes with
              | Some sh => do n <- getNode sh; ret (Some (Konva.className n))
              | None => ret None
              end) s = (s, Ok cls)).
  { destruct (head shapes) as [sh|] eqn:Hsh; [|now exists None].
    apply head_nodesWhere_closed in Hsh as [n Hn].
    exists (Some (Konva.className n)).
    now rewrite (bind_ok _ _ _ _ _ (getNode_ok _ _ _ Hn)). }
  destruct Hshape as [cls Hshape]. rewrite (bind_ok _ _ _ _ _ Hshape).
  cbn zeta. unfold gets at 1, bind at 1.
  rewrite (bind_ok _ _ _ _ _ (newCommand_ok _ _ _ _ _ _ Hg)).
  set (cmd := mkCommand _ _ _ _ _).
  assert (Hexec : exists s1,
             DeleteGroupCommand_execute cmd cmdCallback s = (s1, Ok tt)
             /\ heap s1 = detach group p (heap s)
             /\ konvaLayer s1 = konvaLayer s
             /\ currentPosGroupId s1 = currentPosGroupId s).
  { unfold DeleteGroupCommand_execute. cbn [cmd cmd_group].
    rewrite (bind_ok _ _ _ _ _ (Node_remove_attached _ _ _ _ Hg Hpar Hp)).
    destruct (Hcmd cmd (with_heap (detach group p (heap s)) s))
      as (s1 & Hrun1 & Hheap1 & Hlayer1 & Hkey1).
    exists s1. split; [exact Hrun1|]. now repeat split. }
  destruct Hexec as (s1 & Hrun1 & Hheap1 & Hlayer1 & Hkey1).
  rewrite (bind_ok _ _ _ _ _ Hrun1).
  destruct (Hexe cmd s1) as (s2 & Hrun2 & Hheap2 & Hlayer2 & Hkey2).
  exists s2. split; [exact Hrun2|].
  rewrite Hheap2, Hheap1, Hlayer2, Hlayer1, Hkey2, Hkey1. now repeat split.
Qed.

(** [deleteDrawGroup] on a shape: [getChildren] is not a function, and
    nothing is deleted. *)
Lemma deleteDrawGroup_shape group cmdCallback exeCallback s :
  shapeAt (heap s) group ->
  deleteDrawGroup group cmdCallback exeCallback s = (s, Throw TypeError).
Proof.
  intros Hsh. unfold deleteDrawGroup, Container_getChildrenIf.
  erewrite bind_throw; [reflexivity|].
  erewrite bind_throw; [reflexivity|]. now apply asContainer_shape.
Qed.

Lemma updNode_layer r f s : konvaLayer (fst (updNode r f s)) = konvaLayer s.
Proof.
  unfold updNode, bind, getNode. now destruct (heap s !! r).
Qed.

Lemma Node_remove_layer r s : konvaLayer (fst (Node_remove r s)) = konvaLayer s.
Proof.
  unfold Node_remove, bind at 1, getNode.
  destruct (heap s !! r) as [n|]; [|reflexivity].
  destruct (Konva.parent n) as [p|]; [|reflexivity].
  unfold bind. pose proof (updNode_layer p
    (fun pn => Konva.with_children
                 (Konva.splice_out r (Konva.children pn)) pn) s) as H1.
  destruct (updNode p _ s) as [s1 [u|e]]; cbn [fst] in H1 |- *;
    [|exact H1].
  now rewrite updNode_layer.
Qed.

(** A [deleteDrawGroup] that returns has kept the layer field. *)
Lemma deleteDrawGroup_layer group cmdCallback exeCallback s s' u :
  observer cmdCallback -> observer exeCallback ->
  deleteDrawGroup group cmdCallback exeCallback s = (s', Ok u) ->
  konvaLayer s' = konvaLayer s.
Proof.
  intros Hcmd Hexe H. unfold deleteDrawGroup in H.
  apply bind_inv in H as (shapes & s1 & Hshapes & H).
  pose proof (readonly_inv _ _ _ _ (readonly_Container_getChildrenIf _ _)
                Hshapes) as ->.
  apply bind_inv in H as (cls & s1 & Hcls & H).
  assert (s1 = s) as ->.
  { eapply readonly_inv; [|exact Hcls].
    destruct (head shapes); repeat readonly_step. }
  cbv zeta in H. apply bind_inv in H as (layer & s1 & Hl & H).
  inversion Hl; subst s1 layer; clear Hl.
  apply bind_inv in H as (cmd & s1 & Hnew & H).
  assert (s1 = s) as ->.
  { eapply readonly_inv; [|exact Hnew]. unfold newCommand.
    repeat readonly_step. }
  apply bind_inv in H as (u1 & s1 & Hexec & H).
  unfold DeleteGroupCommand_execute in Hexec.
  apply bind_inv in Hexec as (u2 & s2 & Hrem & Hexec).
  pose proof (Node_remove_layer (cmd_group cmd) s) as Hl2.
  rewrite Hrem in Hl2. cbn [fst] in Hl2.
  destruct (Hcmd cmd s2) as (s3 & Hrun3 & _ & Hl3 & _).
  rewrite Hrun3 in Hexec. inversion Hexec; subst s3.
  destruct (Hexe cmd s1) as (s4 & Hrun4 & _ & Hl4 & _).
  rewrite Hrun4 in H. inversion H; subst s4. congruence.
Qed.

(** The loop of [deleteDraws] returns only on an empty layer. *)
Lemma deleteDraws_loop_returns cmdCallback exeCallback L :
  observer cmdCallback -> observer exeCallback ->
  forall fuel s s' u,
    deleteDraws_loop fuel L cmdCallback exeCallback s = (s', Ok u) ->
    is_Some (heap s' !! L)
    /\ childrenOf (heap s') L = []
    /\ konvaLayer s' = konvaLayer s.
Proof.
  intros Hcmd Hexe. induction fuel as [|fuel IH]; intros s s' u H;
    [discriminate|].
  cbn [deleteDraws_loop] in H.
  apply bind_inv in H as (groups & s1 & Hgroups & H).
  apply getChildren_inv in Hgroups as (-> & Hal & ->).
  destruct (childrenOf (heap s) L) as [|g groups] eqn:Hkids.
  - inversion H; subst. now repeat split.
  - apply bind_inv in H as (u1 & s1 & Hdel & H).
    apply (deleteDrawGroup_layer _ _ _ _ _ _ Hcmd Hexe) in Hdel.
    apply IH in H as (Hal' & Hempty & Hl). repeat split; try assumption.
    congruence.
Qed.

(** The loop of [deleteDraws] on children that are containers: one more
    test than there are children; every child ends without parent. *)
Lemma deleteDraws_loop_empties cmdCallback exeCallback L :
  observer cmdCallback -> observer exeCallback ->
  forall cs fuel s ln,
    List.length cs < fuel ->
    closedHeap (heap s) ->
    heap s !! L = Some ln -> Konva.children ln = cs -> NoDup cs ->
    (forall c, c ∈ cs ->
       exists cn, heap s !! c = Some cn /\ Konva.parent cn = Some L
                  /\ Konva.isContainer cn = true) ->
    exists s',
      deleteDraws_loop fuel L cmdCallback exeCallback s = (s', Ok tt)
      /\ childrenOf (heap s') L = []
      /\ konvaLayer s' = konvaLayer s
      /\ forall x n, heap s !! x = Some n ->
           exists n', heap s' !! x = Some n'
                      /\ (x ∈ cs \/ Konva.parent n = None ->
                          Konva.parent n' = None).
Proof.
  intros Hcmd Hexe. induction cs as [|g cs IH];
    intros fuel s ln Hfuel Hclosed HL Hkids Hnd Hpar;
    (destruct fuel as [|fuel]; [cbn in Hfuel; lia|]); cbn [deleteDraws_loop];
    rewrite (bind_ok _ _ _ _ _ (getChildren_ok _ _ _ HL)); rewrite Hkids.
  - exists s. unfold childrenOf. rewrite HL, Hkids.
    split; [reflexivity|]. split; [reflexivity|]. split; [reflexivity|].
    intros x n Hn. exists n. split; [exact Hn|].
    intros [Hin|Hnone]; [now apply elem_of_nil in Hin|exact Hnone].
  - destruct (Hpar g) as (gn & Hg & Hgpar & Hgc); [apply list_elem_of_here|].
    destruct (deleteDrawGroup_attached g L gn cmdCallback exeCallback s)
      as (s1 & Hrun & Hheap & Hlayer & _); try assumption; [now exists ln|].
    rewrite (bind_ok _ _ _ _ _ Hrun).
    apply NoDup_cons in Hnd as [Hnotin Hnd].
    assert (HL1 : exists ln1, heap s1 !! L = Some ln1
                              /\ Konva.children ln1 = cs).
    { rewrite Hheap, lookup_detach, HL. cbn.
      eexists. split; [reflexivity|].
      destruct (decide (L = g)), (decide (L = L)); try congruence; cbn;
        now rewrite Hkids, splice_out_head. }
    destruct HL1 as (ln1 & HL1 & Hkids1).
    destruct (IH fuel s1 ln1) as (s' & Hrun' & Hempty & Hlayer' & Hnodes);
      try assumption.
    + cbn in Hfuel. lia.
    + rewrite Hheap. now apply closedHeap_detach.
    + intros c Hc. destruct (Hpar c) as (cn & Hcn & Hcpar & Hcc);
        [now apply list_elem_of_further|].
      assert (c <> g) by (intros ->; contradiction).
      rewrite Hheap, lookup_detach, Hcn. cbn.
      eexists. split; [reflexivity|].
      destruct (decide (c = g)), (decide (c = L)); try congruence; cbn;
        now split.
    + exists s'. split; [exact Hrun'|]. split; [exact Hempty|].
      split; [congruence|].
      intros x n Hn.
      assert (Hn1 : exists n1, heap s1 !! x = Some n1
                /\ (x = g \/ Konva.parent n = None ->
                    Konva.parent n1 = None)).
      { rewrite Hheap, lookup_detach, Hn. cbn. eexists.
        split; [reflexivity|].
        destruct (decide (x = g)) as [->|Hne]; [reflexivity|].
        intros [E|E]; [contradiction|].
        now destruct (decide (x = L)). }
      destruct Hn1 as (n1 & Hn1 & Hp1).
      destruct (Hnodes x n1 Hn1) as (n' & Hn' & Hp').
      exists n'. split; [exact Hn'|].
      intros [Hin|Hnone].
      * apply elem_of_cons in Hin as [->|Hin]; [|now apply Hp'; left].
        apply Hp'. right. apply Hp1. now left.
      * apply Hp'. right. apply Hp1. now right.
Qed.

(** C8. [deleteDraws] repeatedly deletes the first child of the live child
    list of the layer.  With callbacks that only observe: whenever it
    returns, the layer field is what it was and the layer node has no child
    left, so that no Position Group and no Annotation Group remains under
    it.  It does return on a well-formed scene in which the children of the
    layer are containers, as soon as it may test the loop condition once
    more than the layer has children; every former child of the layer is
    then detached (it has no parent). *)
Theorem deleteDraws_removes_all (fuel : nat) (cmdCallback exeCallback : Callback)
    (s : State) (L : Konva.ref) :
  observer cmdCallback -> observer exeCallback ->
  konvaLayer s = Some L ->
  (forall s',
     deleteDraws fuel cmdCallback exeCallback s = (s', Ok tt) ->
     konvaLayer s' = Some L
     /\ is_Some (heap s' !! L)
     /\ childrenOf (heap s') L = []
     /\ layerChildren s' = []
     /\ groupsUnder (heap s') (layerChildren s') = [])
  /\ (wf (heap s) -> is_Some (heap s !! L) ->
      Forall (containerAt (heap s)) (layerChildren s) ->
      List.length (layerChildren s) < fuel ->
      exists s',
        deleteDraws fuel cmdCallback exeCallback s = (s', Ok tt)
        /\ forall c, c ∈ layerChildren s ->
             exists cn, heap s' !! c = Some cn /\ Konva.parent cn = None).
Proof.
  intros Hcmd Hexe HL. split.
  - intros s' H. unfold deleteDraws in H.
    rewrite (bind_ok _ _ _ _ _ (thisLayer_ok _ _ HL)) in H.
    apply (deleteDraws_loop_returns _ _ _ Hcmd Hexe) in H
      as (Hal & Hempty & Hlayer).
    rewrite HL in Hlayer. unfold layerChildren. rewrite Hlayer, Hempty.
    now repeat split.
  - intros Hwf [ln Hln] Hcont Hfuel. unfold deleteDraws.
    rewrite (bind_ok _ _ _ _ _ (thisLayer_ok _ _ HL)).
    unfold layerChildren in Hfuel, Hcont |- *. rewrite HL in Hfuel, Hcont |- *.
    unfold childrenOf in Hfuel, Hcont |- *. rewrite Hln in Hfuel, Hcont |- *.
    destruct (deleteDraws_loop_empties cmdCallback exeCallback L Hcmd Hexe
                (Konva.children ln) fuel s ln)
      as (s' & Hrun & Hempty & Hlayer & Hnodes); try easy.
    + now apply wf_closedHeap.
    + eapply wf_NoDup; eauto.
    + intros c Hc.
      destruct (wf_children _ _ _ _ Hwf Hln Hc) as (cn & Hcn & Hpar).
      exists cn. split; [exact Hcn|]. split; [exact Hpar|].
      rewrite Forall_forall in Hcont.
      exact (proj1 (containerAt_Some _ _ _ Hcn) (Hcont c Hc)).
    + exists s'. split; [exact Hrun|]. intros c Hc.
      destruct (wf_children _ _ _ _ Hwf Hln Hc) as (cn & Hcn & _).
      destruct (Hnodes c cn Hcn) as (cn' & Hcn' & Hp).
      exists cn'. split; [exact Hcn'|]. apply Hp. now left.
Qed.

End Delete.

(* ===================================================================== *)
(** * Updating a drawing *)
(* ===================================================================== *)

Section Update.
Context `{Ext : Externals}.

(** ** The walk *)

Lemma descendants_step h f r n :
  h !! r = Some n ->
  Konva.descendants (S f) h r
  = foldr (fun c acc =>
             match Konva.descendants f h c, acc with
             | Some ds, Some rest => Some (c :: ds ++ rest)
             | _, _ => None
             end) (Some []) (Konva.children n).
Proof. intros H. cbn [Konva.descendants]. now rewrite H. Qed.

(** Every node the walk meets is in the arena. *)
Lemma descendants_allocated h fuel :
  forall r ds, Konva.descendants fuel h r = Some ds ->
               Forall (fun x => is_Some (h !! x)) ds.
Proof.
  induction fuel as [|f IH]; intros r ds H; [discriminate|].
  cbn [Konva.descendants] in H. destruct (h !! r) as [n|]; [|discriminate].
  revert ds H. induction (Konva.children n) as [|c cs IHcs]; intros ds H.
  - inversion H. constructor.
  - cbn [foldr] in H.
    destruct (Konva.descendants f h c) as [dc|] eqn:Hc; [|discriminate].
    destruct (foldr _ _ cs) as [rest|] eqn:Hrest; [|discriminate].
    inversion H; subst ds. constructor.
    + destruct f; [discriminate|]. cbn [Konva.descendants] in Hc.
      destruct (h !! c); [eauto|discriminate].
    + apply Forall_app. split; [eapply IH, Hc|now apply IHcs].
Qed.

Lemma Node_descendants_ok fuel r ds s :
  Konva.descendants fuel (heap s) r = Some ds ->
  Node_descendants fuel r s = (s, Ok ds).
Proof. intros H. unfold Node_descendants, bind, gets. now rewrite H. Qed.

Lemma Node_find_ok fuel r p ds s :
  Konva.descendants fuel (heap s) r = Some ds ->
  Node_find fuel r p s = (s, Ok (nodesWhere (heap s) p ds)).
Proof.
  intros H. unfold Node_find.
  rewrite (bind_ok _ _ _ _ _ (Node_descendants_ok _ _ _ _ H)).
  eapply filterNodes_ok, descendants_allocated, H.
Qed.

Lemma Node_findOne_ok fuel r p ds s :
  Konva.descendants fuel (heap s) r = Some ds ->
  Node_findOne fuel r p s = (s, Ok (head (nodesWhere (heap s) p ds))).
Proof.
  intros H. unfold Node_findOne.
  now rewrite (bind_ok _ _ _ _ _ (Node_find_ok _ _ _ _ _ H)).
Qed.

(** ** Changes, colours apart *)

Lemma sameFrame_refl s : sameFrame s s.
Proof. now repeat split. Qed.

Lemma sameFrame_trans s1 s2 s3 :
  sameFrame s1 s2 -> sameFrame s2 s3 -> sameFrame s1 s3.
Proof.
  intros (? & ? & ? & ?) (? & ? & ? & ?). repeat split; congruence.
Qed.

Lemma repainted_refl s : repainted s s.
Proof. split; [apply sameFrame_refl|]. intros x n H. now exists n. Qed.

Lemma changedBy_trans f g s1 s2 s3 :
  (forall x n n', unpainted n' = unpainted n ->
                  unpainted (g x n') = unpainted (g x n)) ->
  changedBy f s1 s2 -> changedBy g s2 s3 ->
  changedBy (fun x n => g x (f x n)) s1 s3.
Proof.
  intros Hg [Hf1 H1] [Hf2 H2]. split; [eapply sameFrame_trans; eauto|].
  intros x n Hn. destruct (H1 _ _ Hn) as (n1 & Hn1 & E1).
  destruct (H2 _ _ Hn1) as (n2 & Hn2 & E2). exists n2.
  split; [exact Hn2|]. rewrite E2. now apply Hg.
Qed.

Lemma repainted_trans s1 s2 s3 :
  repainted s1 s2 -> repainted s2 s3 -> repainted s1 s3.
Proof. intros H1 H2. apply (changedBy_trans _ _ _ _ _ (fun _ _ _ E => E) H1 H2). Qed.

Lemma changedBy_allocated f s s' x :
  changedBy f s s' -> is_Some (heap s !! x) -> is_Some (heap s' !! x).
Proof.
  intros [(_ & _ & _ & Hlen) _] H. apply lookup_lt_is_Some. rewrite Hlen.
  now apply lookup_lt_is_Some.
Qed.

Lemma updNode_paints r f s :
  paints f -> is_Some (heap s !! r) ->
  exists s', updNode r f s = (s', Ok tt) /\ repainted s s'.
Proof.
  intros Hf Hr. rewrite (updNode_alter _ _ _ Hr). eexists. split; [reflexivity|].
  split.
  - repeat split. cbn. apply length_alter.
  - intros x n Hn. cbn [heap with_heap].
    destruct (decide (r = x)) as [->|Hne].
    + rewrite list_lookup_alter_eq, Hn. cbn. eauto.
    + rewrite list_lookup_alter_ne by assumption. eauto.
Qed.

(** A loop whose rounds repaint. *)
Lemma forM_repaints (body : Konva.ref -> M unit) l :
  (forall x s, is_Some (heap s !! x) ->
               exists s', body x s = (s', Ok tt) /\ repainted s s') ->
  forall s, Forall (fun x => is_Some (heap s !! x)) l ->
            exists s', forM_ l body s = (s', Ok tt) /\ repainted s s'.
Proof.
  intros Hbody. induction l as [|x l IH]; intros s Hall.
  - exists s. split; [reflexivity|apply repainted_refl].
  - apply Forall_cons in Hall as [Hx Hall]. cbn [forM_].
    destruct (Hbody x s Hx) as (s1 & Hrun1 & Hre1).
    rewrite (bind_ok _ _ _ _ _ Hrun1).
    destruct (IH s1) as (s' & Hrun' & Hre').
    + eapply Forall_impl; [exact Hall|]. intros y Hy.
      eapply changedBy_allocated; eauto.
    + exists s'. split; [exact Hrun'|]. eapply repainted_trans; eauto.
Qed.

Lemma repainted_nodesWhere p s s' l :
  (forall n n', unpainted n' = unpainted n -> p n' = p n) ->
  repainted s s' ->
  Forall (fun x => is_Some (heap s !! x)) l ->
  nodesWhere (heap s') p l = nodesWhere (heap s) p l.
Proof.
  intros Hp [_ Hre]. induction 1 as [|x l [n Hn] Hl IH]; [reflexivity|].
  rewrite !nodesWhere_cons, IH. destruct (Hre _ _ Hn) as (n' & Hn' & E).
  now rewrite (nodeSat_Some _ _ _ _ Hn), (nodeSat_Some _ _ _ _ Hn'), (Hp _ _ E).
Qed.

Lemma repainted_children s s' x :
  repainted s s' -> childrenOf (heap s') x = childrenOf (heap s) x.
Proof.
  intros [(_ & _ & _ & Hlen) Hre]. unfold childrenOf.
  destruct (heap s !! x) as [n|] eqn:Hn.
  - destruct (Hre _ _ Hn) as (n' & -> & E).
    exact (f_equal Konva.children E).
  - apply lookup_ge_None in Hn. rewrite <- Hlen in Hn.
    apply lookup_ge_None in Hn. now rewrite Hn.
Qed.

Lemma repainted_closedHeap s s' :
  repainted s s' -> closedHeap (heap s) -> closedHeap (heap s').
Proof.
  intros Hre Hc x n' Hn'.
  assert (Hx : is_Some (heap s !! x)).
  { destruct Hre as [(_ & _ & _ & Hlen) _]. apply lookup_lt_is_Some.
    rewrite <- Hlen. eapply lookup_lt_Some, Hn'. }
  destruct Hx as [n Hn]. pose proof (repainted_children _ _ x Hre) as Hk.
  unfold childrenOf in Hk. rewrite Hn, Hn' in Hk. rewrite Hk.
  eapply Forall_impl; [exact (Hc _ _ Hn)|]. intros c Hc'.
  eapply changedBy_allocated; eauto.
Qed.

(** ** The loops of [updateDraw] *)

Lemma changedBy_weaken f f' s s' :
  (forall x n, unpainted (f x n) = unpainted (f' x n)) ->
  changedBy f s s' -> changedBy f' s s'.
Proof.
  intros Hff [Hframe H]. split; [exact Hframe|]. intros x n Hn.
  destruct (H _ _ Hn) as (n' & Hn' & E). exists n'. split; [exact Hn'|].
  now rewrite E.
Qed.

Lemma relabel_nil m label x n : relabel m label [] x n = n.
Proof.
  unfold relabel.
  rewrite (bool_decide_eq_false_2 (x ∈ [])) by apply not_elem_of_nil.
  rewrite (bool_decide_eq_true_2 ([] = [])) by reflexivity.
  now rewrite andb_false_r.
Qed.

Lemma bool_decide_in_app (x : nat) (l1 l2 : list nat) :
  bool_decide (x ∈ l1 ++ l2) = bool_decide (x ∈ l1) || bool_decide (x ∈ l2).
Proof.
  destruct (bool_decide_reflect (x ∈ l1)) as [H1|H1];
    destruct (bool_decide_reflect (x ∈ l2)) as [H2|H2]; cbn [orb].
  - apply bool_decide_eq_true_2, elem_of_app. now left.
  - apply bool_decide_eq_true_2, elem_of_app. now left.
  - apply bool_decide_eq_true_2, elem_of_app. now right.
  - apply bool_decide_eq_false_2. rewrite elem_of_app. tauto.
Qed.

Lemma bool_decide_app_nil (l1 l2 : list nat) :
  bool_decide (l1 ++ l2 = []) = bool_decide (l1 = []) && bool_decide (l2 = []).
Proof. now destruct l1, l2. Qed.

Lemma bool_decide_in_singleton (x k : nat) :
  bool_decide (x ∈ [k]) = bool_decide (x = k).
Proof.
  apply bool_decide_ext. rewrite elem_of_cons, elem_of_nil. tauto.
Qed.

Lemma relabel_app m label texts1 texts2 x n :
  relabel m label texts2 x (relabel m label texts1 x n)
  = relabel m label (texts1 ++ texts2) x n.
Proof.
  unfold relabel. rewrite bool_decide_in_app, bool_decide_app_nil.
  destruct (bool_decide (x ∈ texts1)), (bool_decide (x ∈ texts2)),
    (bool_decide (x = label)), (bool_decide (texts1 = [])),
    (bool_decide (texts2 = [])); reflexivity.
Qed.

Lemma unpainted_with_text t n n' :
  unpainted n' = unpainted n ->
  unpainted (Konva.with_text t n') = unpainted (Konva.with_text t n).
Proof. intros E. exact (f_equal (Konva.with_text t) E). Qed.

Lemma unpainted_with_meta t n n' :
  unpainted n' = unpainted n ->
  unpainted (Konva.with_meta t n') = unpainted (Konva.with_meta t n).
Proof. intros E. exact (f_equal (Konva.with_meta t) E). Qed.

Lemma unpainted_with_visible t n n' :
  unpainted n' = unpainted n ->
  unpainted (Konva.with_visible t n') = unpainted (Konva.with_visible t n).
Proof. intros E. exact (f_equal (Konva.with_visible t) E). Qed.

Lemma relabel_unpainted m label texts x n n' :
  unpainted n' = unpainted n ->
  unpainted (relabel m label texts x n')
  = unpainted (relabel m label texts x n).
Proof.
  intros E. unfold relabel.
  destruct (bool_decide (x ∈ texts)), (bool_decide (x = label)),
    (bool_decide (texts = [])); cbn [andb negb];
    repeat first [ exact E | apply unpainted_with_visible
                 | apply unpainted_with_text | apply unpainted_with_meta ].
Qed.

Lemma lookup_alter_Some (f : Konva.Node -> Konva.Node) i
    (h : list Konva.Node) j n :
  h !! j = Some n ->
  alter f i h !! j = Some (if decide (i = j) then f n else n).
Proof.
  intros H. destruct (decide (i = j)) as [->|Hne].
  - now rewrite list_lookup_alter_eq, H.
  - now rewrite list_lookup_alter_ne.
Qed.

Lemma paints_stroke c : paints (Konva.with_stroke c).
Proof. now intros n. Qed.

Lemma paints_fill c : paints (Konva.with_fill c).
Proof. now intros n. Qed.

Lemma paints_shadowColor c : paints (Konva.with_shadowColor c).
Proof. now intros n. Qed.

(** One round of the loop over the kids of the label, with new metadata. *)
Lemma kid_round_meta color m label kid s :
  is_Some (heap s !! kid) -> is_Some (heap s !! label) ->
  exists s',
    (do _ <- updNode kid (Konva.with_fill (Some color));
     do k <- getNode kid;
     if String.eqb (Konva.className k) "Text" then
       do _ <- updNode kid
                 (Konva.with_shadowColor (Some (getShadowColour color)));
       do _ <- updNode kid (Konva.with_meta (Some m));
       do _ <- updNode kid
                 (Konva.with_text
                    (replaceFlags (Konva.textExpr m) (Konva.quantification m)));
       updNode label
         (Konva.with_visible
            (negb (Nat.eqb (JS.length (Konva.textExpr m)) 0)))
     else ret tt) s = (s', Ok tt)
    /\ changedBy (relabel m label
                    (nodesWhere (heap s) (hasClass "Text") [kid])) s s'.
Proof.
  intros [nk Hk] [nl Hl].
  rewrite (bind_ok _ _ _ _ _ (updNode_alter _ _ _ (ex_intro _ nk Hk))).
  erewrite bind_ok.
  2:{ apply getNode_ok. rewrite with_heap_heap.
      now rewrite list_lookup_alter_eq, Hk. }
  rewrite nodesWhere_cons, (nodeSat_Some _ _ _ _ Hk).
  change (Konva.className (Konva.with_fill (Some color) nk) =? "Text")%string
    with (hasClass "Text" nk).
  assert (Halloc : forall f i (h : list Konva.Node) j,
             is_Some (h !! j) -> is_Some (alter f i h !! j)).
  { intros f i h j Hj. apply lookup_lt_is_Some. rewrite length_alter.
    now apply lookup_lt_is_Some. }
  destruct (hasClass "Text" nk) eqn:Htext.
  - erewrite bind_ok; [|apply updNode_alter; rewrite with_heap_heap; eauto].
    erewrite bind_ok; [|apply updNode_alter; rewrite !with_heap_heap; eauto 6].
    erewrite bind_ok; [|apply updNode_alter; rewrite !with_heap_heap; eauto 7].
    rewrite updNode_alter by (rewrite !with_heap_heap; eauto 8).
    eexists. split; [reflexivity|]. split.
    + repeat split. cbn. now rewrite !length_alter.
    + intros x n Hn. cbn [heap with_heap]. eexists. split.
      * repeat (eapply lookup_alter_Some). exact Hn.
      * unfold relabel. rewrite bool_decide_in_singleton.
        rewrite (bool_decide_eq_false_2 ([kid] = [])) by discriminate.
        destruct (decide (kid = x)) as [Hkx|Hkx];
          destruct (decide (label = x)) as [Hlx|Hlx];
          [ rewrite !bool_decide_eq_true_2 by congruence
          | rewrite (bool_decide_eq_true_2 (x = kid)),
              (bool_decide_eq_false_2 (x = label)) by congruence
          | rewrite (bool_decide_eq_false_2 (x = kid)),
              (bool_decide_eq_true_2 (x = label)) by congruence
          | rewrite !bool_decide_eq_false_2 by congruence ];
          reflexivity.
  - eexists. split; [reflexivity|]. split.
    + repeat split. cbn. now rewrite !length_alter.
    + intros x n Hn. cbn [heap with_heap]. eexists. split.
      * eapply lookup_alter_Some. exact Hn.
      * unfold nodesWhere. cbn [List.filter]. rewrite relabel_nil.
        now destruct (decide (kid = x)).
Qed.

Lemma changedBy_class f s s' l :
  (forall x n, Konva.className (f x n) = Konva.className n) ->
  changedBy f s s' ->
  Forall (fun x => is_Some (heap s !! x)) l ->
  nodesWhere (heap s') (hasClass "Text") l
  = nodesWhere (heap s) (hasClass "Text") l.
Proof.
  intros Hf [_ H]. induction 1 as [|x l [n Hn] Hl IH]; [reflexivity|].
  rewrite !nodesWhere_cons, IH. destruct (H _ _ Hn) as (n' & Hn' & E).
  rewrite (nodeSat_Some _ _ _ _ Hn), (nodeSat_Some _ _ _ _ Hn').
  unfold hasClass. apply (f_equal Konva.className) in E. cbn in E.
  now rewrite E, Hf.
Qed.

Lemma relabel_class m label texts x n :
  Konva.className (relabel m label texts x n) = Konva.className n.
Proof.
  unfold relabel.
  now destruct (bool_decide (x ∈ texts)), (bool_decide (x = label)),
    (bool_decide (texts = [])).
Qed.

(** The loop over the kids of the label, with new metadata. *)
Lemma kids_loop_meta color m label kids :
  forall s,
    Forall (fun x => is_Some (heap s !! x)) kids ->
    is_Some (heap s !! label) ->
    exists s',
      forM_ kids (fun kid =>
        do _ <- updNode kid (Konva.with_fill (Some color));
        do k <- getNode kid;
        if String.eqb (Konva.className k) "Text" then
          do _ <- updNode kid
                    (Konva.with_shadowColor (Some (getShadowColour color)));
          do _ <- updNode kid (Konva.with_meta (Some m));
          do _ <- updNode kid
                    (Konva.with_text
                       (replaceFlags (Konva.textExpr m)
                          (Konva.quantification m)));
          updNode label
            (Konva.with_visible
               (negb (Nat.eqb (JS.length (Konva.textExpr m)) 0)))
        else ret tt) s = (s', Ok tt)
      /\ changedBy (relabel m label
                      (nodesWhere (heap s) (hasClass "Text") kids)) s s'.
Proof.
  induction kids as [|kid kids IH]; intros s Hall Hlabel.
  - exists s. split; [reflexivity|].
    eapply changedBy_weaken; [|apply repainted_refl].
    intros x n. cbn. now rewrite relabel_nil.
  - apply Forall_cons in Hall as [Hkid Hall]. cbn [forM_].
    destruct (kid_round_meta color m label kid s Hkid Hlabel)
      as (s1 & Hrun1 & Hch1).
    rewrite (bind_ok _ _ _ _ _ Hrun1).
    destruct (IH s1) as (s' & Hrun' & Hch').
    + eapply Forall_impl; [exact Hall|]. intros y Hy.
      eapply changedBy_allocated; eauto.
    + eapply changedBy_allocated; eauto.
    + exists s'. split; [exact Hrun'|].
      rewrite (changedBy_class _ _ _ kids (relabel_class m label _) Hch1 Hall)
        in Hch'.
      pose proof (changedBy_trans _ _ _ _ _
                    (relabel_unpainted m label _) Hch1 Hch') as Hch.
      eapply changedBy_weaken; [|exact Hch].
      intros x n. cbn beta. f_equal.
      change (kid :: kids) with ([kid] ++ kids).
      rewrite nodesWhere_app. apply relabel_app.
Qed.

(** ** Classes stay *)

Lemma isContainer_class n n' :
  Konva.className n' = Konva.className n ->
  Konva.isContainer n' = Konva.isContainer n.
Proof. intros H. unfold Konva.isContainer. now rewrite H. Qed.

Lemma bind_ext_at {A B} (m m' : M A) (k : A -> M B) s :
  m s = m' s -> bind m k s = bind m' k s.
Proof. intros H. unfold bind. now rewrite H. Qed.

Lemma changedBy_isContainer f s s' x n n' :
  (forall x n, Konva.className (f x n) = Konva.className n) ->
  changedBy f s s' -> heap s !! x = Some n -> heap s' !! x = Some n' ->
  Konva.isContainer n' = Konva.isContainer n.
Proof.
  intros Hf [_ H] Hn Hn'. destruct (H _ _ Hn) as (n0 & Hn0 & E).
  assert (n0 = n') as -> by congruence.
  apply isContainer_class. rewrite <- (Hf x n).
  exact (f_equal Konva.className E).
Qed.

Lemma changedBy_shapeAt f s s' x :
  (forall x n, Konva.className (f x n) = Konva.className n) ->
  changedBy f s s' -> shapeAt (heap s) x -> shapeAt (heap s') x.
Proof.
  intros Hf Hch Hx. destruct (shapeAt_allocated _ _ Hx) as [n Hn].
  destruct (changedBy_allocated _ _ _ x Hch (ex_intro _ n Hn)) as [n' Hn'].
  apply (shapeAt_Some _ _ _ Hn'). apply (shapeAt_Some _ _ _ Hn) in Hx.
  now rewrite (changedBy_isContainer _ _ _ _ _ _ Hf Hch Hn Hn').
Qed.

Lemma changedBy_containerAt f s s' x :
  (forall x n, Konva.className (f x n) = Konva.className n) ->
  changedBy f s s' -> containerAt (heap s) x -> containerAt (heap s') x.
Proof.
  intros Hf Hch Hx. destruct (containerAt_allocated _ _ Hx) as [n Hn].
  destruct (changedBy_allocated _ _ _ x Hch (ex_intro _ n Hn)) as [n' Hn'].
  apply (containerAt_Some _ _ _ Hn'). apply (containerAt_Some _ _ _ Hn) in Hx.
  now rewrite (changedBy_isContainer _ _ _ _ _ _ Hf Hch Hn Hn').
Qed.

Lemma repainted_shapes s s' l :
  repainted s s' -> Forall (shapeAt (heap s)) l ->
  Forall (shapeAt (heap s')) l.
Proof.
  intros Hre Hall. eapply Forall_impl; [exact Hall|]. intros x.
  now apply (changedBy_shapeAt _ _ _ _ (fun _ _ => eq_refl) Hre).
Qed.

(** An update that keeps the class keeps the shapes. *)
Lemma updNode_shapeAt r f s s' u x :
  updNode r f s = (s', Ok u) ->
  (forall n, Konva.className (f n) = Konva.className n) ->
  shapeAt (heap s) x -> shapeAt (heap s') x.
Proof.
  intros H Hf Hx. unfold updNode in H.
  apply bind_inv in H as (n & s1 & Hn & H).
  apply getNode_inv in Hn as [-> Hn]. inversion H; subst s'; clear H.
  unfold shapeAt, nodeSat in *. rewrite with_heap_heap.
  destruct (decide (x = r)) as [->|Hne].
  - rewrite list_lookup_insert_eq by (eapply lookup_lt_Some, Hn).
    rewrite Hn in Hx. now rewrite (isContainer_class _ _ (Hf n)).
  - now rewrite list_lookup_insert_ne by congruence.
Qed.

(** On a shape the colour setters are plain updates, and the getters plain
    reads. *)
Lemma Shape_setStroke_shape r v s :
  shapeAt (heap s) r ->
  Shape_setStroke r v s = updNode r (Konva.with_stroke (Some v)) s.
Proof.
  intros Hx. destruct (shapeAt_allocated _ _ Hx) as [n Hn].
  unfold Shape_setStroke.
  now rewrite (bind_ok _ _ _ _ _
                 (asShape_ok _ _ _ Hn (proj1 (shapeAt_Some _ _ _ Hn) Hx))).
Qed.

Lemma Shape_setFill_shape r v s :
  shapeAt (heap s) r ->
  Shape_setFill r v s = updNode r (Konva.with_fill (Some v)) s.
Proof.
  intros Hx. destruct (shapeAt_allocated _ _ Hx) as [n Hn].
  unfold Shape_setFill.
  now rewrite (bind_ok _ _ _ _ _
                 (asShape_ok _ _ _ Hn (proj1 (shapeAt_Some _ _ _ Hn) Hx))).
Qed.

Lemma Shape_setShadowColor_shape r v s :
  shapeAt (heap s) r ->
  Shape_setShadowColor r v s = updNode r (Konva.with_shadowColor (Some v)) s.
Proof.
  intros Hx. destruct (shapeAt_allocated _ _ Hx) as [n Hn].
  unfold Shape_setShadowColor.
  now rewrite (bind_ok _ _ _ _ _
                 (asShape_ok _ _ _ Hn (proj1 (shapeAt_Some _ _ _ Hn) Hx))).
Qed.

(** Two loops whose rounds agree on the states that keep an invariant. *)
Lemma forM_ext_inv {A} (I : State -> Prop) (f g : A -> M unit) l :
  (forall x s, In x l -> I s -> f x s = g x s) ->
  (forall x s s' u, In x l -> I s -> g x s = (s', Ok u) -> I s') ->
  forall s, I s -> forM_ l f s = forM_ l g s.
Proof.
  induction l as [|x l IH]; intros Hfg Hinv s Hs; [reflexivity|].
  cbn [forM_]. unfold bind. rewrite (Hfg x s (or_introl eq_refl) Hs).
  destruct (g x s) as [s1 [u|e]] eqn:Hrun; [|reflexivity].
  apply IH.
  - intros y s0 Hy. apply Hfg. now right.
  - intros y s0 s0' u0 Hy. apply (Hinv y). now right.
  - exact (Hinv x s s1 u (or_introl eq_refl) Hs Hrun).
Qed.

(** The three loops that only paint. *)
Lemma shapes_loop_repaints color l s :
  Forall (fun x => is_Some (heap s !! x)) l ->
  exists s',
    forM_ l (fun sh => updNode sh (Konva.with_stroke (Some color))) s
    = (s', Ok tt) /\ repainted s s'.
Proof.
  apply forM_repaints. intros x s0 Hx.
  apply updNode_paints; [apply paints_stroke|exact Hx].
Qed.

Lemma extras_loop_repaints color l s :
  Forall (fun x => is_Some (heap s !! x)) l ->
  exists s',
    forM_ l (fun ex =>
      do e <- getNode ex;
      match Konva.stroke e, Konva.fill e with
      | Some _, _ => updNode ex (Konva.with_stroke (Some color))
      | None, Some _ => updNode ex (Konva.with_fill (Some color))
      | None, None => ret tt
      end) s = (s', Ok tt) /\ repainted s s'.
Proof.
  apply forM_repaints. intros x s0 [e He].
  rewrite (bind_ok _ _ _ _ _ (getNode_ok _ _ _ He)).
  destruct (Konva.stroke e), (Konva.fill e).
  - apply updNode_paints; [apply paints_stroke|eauto].
  - apply updNode_paints; [apply paints_stroke|eauto].
  - apply updNode_paints; [apply paints_fill|eauto].
  - exists s0. split; [reflexivity|apply repainted_refl].
Qed.

Lemma kids_loop_repaints color l s :
  Forall (fun x => is_Some (heap s !! x)) l ->
  exists s',
    forM_ l (fun kid =>
      do _ <- updNode kid (Konva.with_fill (Some color));
      do k <- getNode kid;
      if String.eqb (Konva.className k) "Text" then
        do _ <- updNode kid
                  (Konva.with_shadowColor (Some (getShadowColour color)));
        ret tt
      else ret tt) s = (s', Ok tt) /\ repainted s s'.
Proof.
  apply forM_repaints. intros x s0 Hx.
  destruct (updNode_paints x _ s0 (paints_fill (Some color)) Hx)
    as (s1 & Hrun1 & Hre1).
  rewrite (bind_ok _ _ _ _ _ Hrun1).
  pose proof (changedBy_allocated _ _ _ x Hre1 Hx) as [k Hk].
  rewrite (bind_ok _ _ _ _ _ (getNode_ok _ _ _ Hk)).
  destruct (String.eqb (Konva.className k) "Text").
  - destruct (updNode_paints x _ s1
                (paints_shadowColor (Some (getShadowColour color)))
                (ex_intro _ k Hk)) as (s2 & Hrun2 & Hre2).
    rewrite (bind_ok _ _ _ _ _ Hrun2). exists s2.
    split; [reflexivity|]. eapply repainted_trans; eauto.
  - exists s1. split; [reflexivity|exact Hre1].
Qed.

(** On shapes, the loops of [updateDraw] are loops of plain updates. *)
Lemma shapes_loop_shapes color l s :
  Forall (shapeAt (heap s)) l ->
  forM_ l (fun sh => Shape_setStroke sh color) s
  = forM_ l (fun sh => updNode sh (Konva.with_stroke (Some color))) s.
Proof.
  apply (forM_ext_inv (fun s => Forall (shapeAt (heap s)) l)).
  - intros x s0 Hx Hall. rewrite Forall_forall in Hall.
    apply Shape_setStroke_shape, Hall. now apply list_elem_of_In.
  - intros x s0 s1 u _ Hall Hrun. eapply Forall_impl; [exact Hall|].
    intros y. now apply (updNode_shapeAt _ _ _ _ _ _ Hrun (fun _ => eq_refl)).
Qed.

Lemma extras_loop_shapes color l s :
  Forall (shapeAt (heap s)) l ->
  forM_ l (fun ex =>
    do stroke <- Shape_stroke ex;
    match stroke with
    | Some _ => Shape_setStroke ex color
    | None =>
        do fill <- Shape_fill ex;
        match fill with
        | Some _ => Shape_setFill ex color
        | None => ret tt
        end
    end) s
  = forM_ l (fun ex =>
      do e <- getNode ex;
      match Konva.stroke e, Konva.fill e with
      | Some _, _ => updNode ex (Konva.with_stroke (Some color))
      | None, Some _ => updNode ex (Konva.with_fill (Some color))
      | None, None => ret tt
      end) s.
Proof.
  apply (forM_ext_inv (fun s => Forall (shapeAt (heap s)) l)).
  - intros x s0 Hx Hall. rewrite Forall_forall in Hall.
    assert (Hsh : shapeAt (heap s0) x) by (apply Hall; now apply list_elem_of_In).
    destruct (shapeAt_allocated _ _ Hsh) as [e He].
    pose proof (proj1 (shapeAt_Some _ _ _ He) Hsh) as Hc.
    rewrite (bind_ok _ _ _ _ _ (Shape_stroke_ok _ _ _ He Hc)).
    rewrite (bind_ok _ _ _ _ _ (getNode_ok _ _ _ He)).
    destruct (Konva.stroke e); [now apply Shape_setStroke_shape|].
    rewrite (bind_ok _ _ _ _ _ (Shape_fill_ok _ _ _ He Hc)).
    destruct (Konva.fill e); [now apply Shape_setFill_shape|reflexivity].
  - intros x s0 s1 u _ Hall Hrun.
    apply bind_inv in Hrun as (e & s2 & He & Hrun).
    apply getNode_inv in He as [-> He].
    eapply Forall_impl; [exact Hall|]. intros y Hy.
    destruct (Konva.stroke e), (Konva.fill e);
      first [ now apply (updNode_shapeAt _ _ _ _ _ _ Hrun (fun _ => eq_refl))
            | inversion Hrun; subst; exact Hy ].
Qed.

Lemma kids_loop_shapes color (meta : option Konva.Meta) label l s :
  Forall (shapeAt (heap s)) l ->
  forM_ l (fun kid =>
    do _ <- Shape_setFill kid color;
    do k <- getNode kid;
    if String.eqb (Konva.className k) "Text" then
      do _ <- Shape_setShadowColor kid (getShadowColour color);
      match meta with
      | Some m =>
          do _ <- updNode kid (Konva.with_meta (Some m));
          do _ <- updNode kid
                    (Konva.with_text
                       (replaceFlags (Konva.textExpr m)
                          (Konva.quantification m)));
          updNode label
            (Konva.with_visible
               (negb (Nat.eqb (JS.length (Konva.textExpr m)) 0)))
      | None => ret tt
      end
    else ret tt) s
  = forM_ l (fun kid =>
      do _ <- updNode kid (Konva.with_fill (Some color));
      do k <- getNode kid;
      if String.eqb (Konva.className k) "Text" then
        do _ <- updNode kid
                  (Konva.with_shadowColor (Some (getShadowColour color)));
        match meta with
        | Some m =>
            do _ <- updNode kid (Konva.with_meta (Some m));
            do _ <- updNode kid
                      (Konva.with_text
                         (replaceFlags (Konva.textExpr m)
                            (Konva.quantification m)));
            updNode label
              (Konva.with_visible
                 (negb (Nat.eqb (JS.length (Konva.textExpr m)) 0)))
        | None => ret tt
        end
      else ret tt) s.
Proof.
  apply (forM_ext_inv (fun s => Forall (shapeAt (heap s)) l)).
  - intros x s0 Hx Hall. rewrite Forall_forall in Hall.
    assert (Hsh : shapeAt (heap s0) x) by (apply Hall; now apply list_elem_of_In).
    rewrite (bind_ext_at _ _ _ _ (Shape_setFill_shape _ color _ Hsh)).
    destruct (updNode x (Konva.with_fill (Some color)) s0) as [s1 [u|e]] eqn:Hrun;
      [|now rewrite !(bind_throw _ _ _ _ _ Hrun)].
    rewrite !(bind_ok _ _ _ _ _ Hrun).
    pose proof (updNode_shapeAt _ _ _ _ _ _ Hrun (fun _ => eq_refl) Hsh) as Hsh1.
    destruct (getNode x s1) as [s2 [k|e]] eqn:Hk;
      [|now rewrite !(bind_throw _ _ _ _ _ Hk)].
    rewrite !(bind_ok _ _ _ _ _ Hk).
    apply getNode_inv in Hk as [-> Hk].
    destruct (String.eqb (Konva.className k) "Text"); [|reflexivity].
    now rewrite (bind_ext_at _ _ _ _
                   (Shape_setShadowColor_shape _ (getShadowColour color) _ Hsh1)).
  - intros x s0 s1 u _ Hall Hrun.
    eapply Forall_impl; [exact Hall|]. intros y Hy.
    apply bind_inv in Hrun as (u1 & s2 & H1 & Hrun).
    pose proof (updNode_shapeAt _ _ _ _ _ y H1 (fun _ => eq_refl) Hy) as Hy2.
    apply bind_inv in Hrun as (k & s3 & Hk & Hrun).
    apply getNode_inv in Hk as [-> Hk].
    destruct (String.eqb (Konva.className k) "Text");
      [|inversion Hrun; subst; exact Hy2].
    apply bind_inv in Hrun as (u2 & s3 & H2 & Hrun).
    pose proof (updNode_shapeAt _ _ _ _ _ y H2 (fun _ => eq_refl) Hy2) as Hy3.
    destruct meta as [m|]; [|inversion Hrun; subst; exact Hy3].
    apply bind_inv in Hrun as (u3 & s4 & H3 & Hrun).
    pose proof (updNode_shapeAt _ _ _ _ _ y H3 (fun _ => eq_refl) Hy3) as Hy4.
    apply bind_inv in Hrun as (u4 & s5 & H4 & Hrun).
    pose proof (updNode_shapeAt _ _ _ _ _ y H4 (fun _ => eq_refl) Hy4) as Hy5.
    exact (updNode_shapeAt _ _ _ _ _ y Hrun (fun _ => eq_refl) Hy5).
Qed.

Lemma closedHeap_closedAt h x : closedHeap h -> is_Some (h !! x) -> closedAt h x.
Proof. intros Hc [n Hn]. exists n. split; [exact Hn|exact (Hc _ _ Hn)]. Qed.

Lemma nodesWhere_allocated h p l :
  Forall (fun x => is_Some (h !! x)) (nodesWhere h p l).
Proof.
  apply Forall_forall. intros x Hx.
  apply list_elem_of_In, nodesWhere_In in Hx as (_ & n & Hn & _). eauto.
Qed.

(** What [updateDraw] does to the scene, colours apart: with metadata the
    label is relabelled, without metadata nothing else changes. *)
Lemma updateDraw_effect fuel d s L ds g label :
  konvaLayer s = Some L -> closedHeap (heap s) ->
  Konva.descendants fuel (heap s) L = Some ds ->
  head (nodesWhere (heap s) (selectsId (ud_id d)) ds) = Some g ->
  head (nodesWhere (heap s) isNodeNameLabel (childrenOf (heap s) g))
  = Some label ->
  paintable (heap s) g label ->
  exists s',
    updateDraw fuel d s = (s', Ok tt)
    /\ match ud_meta d with
       | Some m =>
           changedBy
             (relabel m label
                (nodesWhere (heap s) (hasClass "Text")
                   (childrenOf (heap s) label))) s s'
       | None => repainted s s'
       end.
Proof.
  intros HL Hclosed Hds Hg Hlabel (Hgc & Hshapes & Hextras & Hlc & Hkidsh).
  unfold updateDraw.
  rewrite (bind_ok _ _ _ _ _ (thisLayer_ok _ _ HL)).
  rewrite (bind_ok _ _ _ _ _ (Node_findOne_ok _ _ _ _ _ Hds)), Hg.
  cbn zeta.
  pose proof (head_nodesWhere_closed _ _ _ _ Hg) as Hgalloc.
  pose proof (head_nodesWhere_closed _ _ _ _ Hlabel) as Hlalloc.
  (* shapes *)
  rewrite (bind_ok _ _ _ _ _
             (Container_getChildrenIf_ok _ _ _ Hgc
                (closedHeap_closedAt _ _ Hclosed Hgalloc))).
  rewrite (bind_ext_at _ _ _ _ (shapes_loop_shapes (ud_color d) _ s Hshapes)).
  destruct (shapes_loop_repaints (ud_color d) _ s
              (nodesWhere_allocated (heap s) isNodeNameShape
                 (childrenOf (heap s) g))) as (sa & Hruna & Hrea).
  rewrite (bind_ok _ _ _ _ _ Hruna).
  (* decorations *)
  pose proof (repainted_closedHeap _ _ Hrea Hclosed) as Hcloseda.
  assert (Hgalloc0 : Forall (fun x => is_Some (heap s !! x))
                       (childrenOf (heap s) g)).
  { destruct Hgalloc as [gn Hgn]. unfold childrenOf. rewrite Hgn.
    exact (Hclosed _ _ Hgn). }
  assert (Hextras_a : Forall (shapeAt (heap sa))
                        (nodesWhere (heap sa) isNodeNameShapeExtra
                           (childrenOf (heap sa) g))).
  { rewrite (repainted_children _ _ g Hrea).
    rewrite (repainted_nodesWhere isNodeNameShapeExtra s sa).
    - exact (repainted_shapes _ _ _ Hrea Hextras).
    - intros n n' E. unfold isNodeNameShapeExtra.
      now rewrite (f_equal Konva.name E : Konva.name n' = Konva.name n).
    - exact Hrea.
    - exact Hgalloc0. }
  rewrite (bind_ok _ _ _ _ _
             (Container_getChildrenIf_ok _ _ _
                (changedBy_containerAt _ _ _ _ (fun _ _ => eq_refl) Hrea Hgc)
                (closedHeap_closedAt _ _ Hcloseda
                   (changedBy_allocated _ _ _ _ Hrea Hgalloc)))).
  rewrite (bind_ext_at _ _ _ _
             (extras_loop_shapes (ud_color d) _ sa Hextras_a)).
  destruct (extras_loop_repaints (ud_color d) _ sa
              (nodesWhere_allocated (heap sa) isNodeNameShapeExtra
                 (childrenOf (heap sa) g))) as (sb & Hrunb & Hreb).
  rewrite (bind_ok _ _ _ _ _ Hrunb).
  pose proof (repainted_trans _ _ _ Hrea Hreb) as Hre.
  pose proof (repainted_closedHeap _ _ Hre Hclosed) as Hclosedb.
  (* label *)
  rewrite (bind_ok _ _ _ _ _
             (Container_getChildrenIf_ok _ _ _
                (changedBy_containerAt _ _ _ _ (fun _ _ => eq_refl) Hre Hgc)
                (closedHeap_closedAt _ _ Hclosedb
                   (changedBy_allocated _ _ _ _ Hre Hgalloc)))).
  rewrite (repainted_children _ _ g Hre).
  rewrite (repainted_nodesWhere isNodeNameLabel s sb).
  2:{ intros n n' E. unfold isNodeNameLabel.
      now rewrite (f_equal Konva.name E : Konva.name n' = Konva.name n). }
  2:{ exact Hre. }
  2:{ destruct Hgalloc as [gn Hgn]. unfold childrenOf. rewrite Hgn.
      exact (Hclosed _ _ Hgn). }
  rewrite Hlabel. unfold ret at 1, bind at 1.
  pose proof (changedBy_allocated _ _ _ _ Hre Hlalloc) as [lnb Hlnb].
  rewrite (bind_ok _ _ _ _ _
             (Container_getChildren_ok _ _ _ Hlnb
                (proj1 (containerAt_Some _ _ _ Hlnb)
                   (changedBy_containerAt _ _ _ _ (fun _ _ => eq_refl)
                      Hre Hlc)))).
  assert (Hkids : Konva.children lnb = childrenOf (heap s) label).
  { rewrite <- (repainted_children _ _ label Hre). unfold childrenOf.
    now rewrite Hlnb. }
  rewrite Hkids.
  assert (Hkalloc : Forall (fun x => is_Some (heap sb !! x))
                      (childrenOf (heap s) label)).
  { rewrite <- Hkids. exact (Hclosedb _ _ Hlnb). }
  assert (Hkalloc0 : Forall (fun x => is_Some (heap s !! x))
                       (childrenOf (heap s) label)).
  { destruct Hlalloc as [ln Hln]. unfold childrenOf. rewrite Hln.
    exact (Hclosed _ _ Hln). }
  rewrite (bind_ext_at _ _ _ _
             (kids_loop_shapes (ud_color d) (ud_meta d) label _ sb
                (repainted_shapes _ _ _ Hre Hkidsh))).
  destruct (ud_meta d) as [m|].
  - destruct (kids_loop_meta (ud_color d) m label _ sb Hkalloc
                (ex_intro _ lnb Hlnb)) as (sc & Hrunc & Hchc).
    erewrite bind_ok; [|exact Hrunc].
    assert (HLc : konvaLayer sc = Some L).
    { destruct Hchc as [(-> & _) _]. destruct Hre as [(-> & _) _]. exact HL. }
    rewrite (bind_ok _ _ _ _ _ (thisLayer_ok _ _ HLc)).
    exists sc. split; [reflexivity|].
    rewrite (repainted_nodesWhere (hasClass "Text") s sb) in Hchc.
    + exact (changedBy_trans _ _ _ _ _ (relabel_unpainted m label _) Hre Hchc).
    + intros n n' E. unfold hasClass.
      now rewrite (f_equal Konva.className E
                   : Konva.className n' = Konva.className n).
    + exact Hre.
    + exact Hkalloc0.
  - destruct (kids_loop_repaints (ud_color d) _ sb Hkalloc)
      as (sc & Hrunc & Hrec).
    erewrite bind_ok; [|exact Hrunc].
    assert (HLc : konvaLayer sc = Some L).
    { destruct Hrec as [(-> & _) _]. destruct Hre as [(-> & _) _]. exact HL. }
    rewrite (bind_ok _ _ _ _ _ (thisLayer_ok _ _ HLc)).
    exists sc. split; [reflexivity|]. eapply repainted_trans; eauto.
Qed.

(** C7, with the classes the code needs.  Let the selector ['#' + id] built
    from the details find a group that is a container, whose [shape] and
    [shape-...] children are shapes and whose label is a container with
    shapes as children, one of them a text node.  [updateDraw] returns.
    When the details carry metadata [m], every text node of the label holds
    [m] and the text expanded from its template and quantification
    afterwards, and the label is visible exactly when the template
    [textExpr] of [m] is not empty.  When the details carry no metadata, the
    visibility of the label is what it was. *)
Theorem updateDraw_label_visibility (fuel : nat) (d : DrawDetails)
    (s : State) (L : Konva.ref) (ds : list Konva.ref) (g label : Konva.ref) :
  konvaLayer s = Some L -> closedHeap (heap s) ->
  Konva.descendants fuel (heap s) L = Some ds ->
  head (nodesWhere (heap s) (selectsId (ud_id d)) ds) = Some g ->
  head (nodesWhere (heap s) isNodeNameLabel (childrenOf (heap s) g))
  = Some label ->
  paintable (heap s) g label ->
  let texts := nodesWhere (heap s) (hasClass "Text")
                 (childrenOf (heap s) label) in
  texts <> [] ->
  exists s' ln ln',
    updateDraw fuel d s = (s', Ok tt)
    /\ heap s !! label = Some ln /\ heap s' !! label = Some ln'
    /\ match ud_meta d with
       | Some m =>
           Konva.visible ln' = negb (Nat.eqb (JS.length (Konva.textExpr m)) 0)
           /\ Forall (fun t =>
                        exists tn, heap s' !! t = Some tn
                          /\ Konva.meta tn = Some m
                          /\ Konva.text tn
                             = replaceFlags (Konva.textExpr m)
                                 (Konva.quantification m)) texts
       | None => Konva.visible ln' = Konva.visible ln
       end.
Proof.
  intros HL Hclosed Hds Hg Hlabel Hpaint texts Htexts.
  destruct (updateDraw_effect fuel d s L ds g label HL Hclosed Hds Hg Hlabel
              Hpaint) as (s' & Hrun & Heffect).
  destruct (head_nodesWhere_closed _ _ _ _ Hlabel) as [ln Hln].
  destruct (ud_meta d) as [m|].
  - destruct Heffect as [_ Heffect].
    destruct (Heffect _ _ Hln) as (ln' & Hln' & E).
    exists s', ln, ln'. repeat split; try assumption.
    + apply (f_equal Konva.visible) in E. cbn [unpainted] in E.
      change (Konva.visible ln'
              = Konva.visible (relabel m label texts label ln)) in E.
      rewrite E. unfold relabel.
      rewrite (bool_decide_eq_true_2 (label = label)) by reflexivity.
      rewrite (bool_decide_eq_false_2 (texts = [])) by exact Htexts.
      cbn [andb negb]. reflexivity.
    + apply Forall_forall. intros t Ht.
      assert (Hta : is_Some (heap s !! t)).
      { pose proof (nodesWhere_allocated (heap s) (hasClass "Text")
                      (childrenOf (heap s) label)) as Hall.
        rewrite Forall_forall in Hall. exact (Hall t Ht). }
      destruct Hta as [tn0 Htn0].
      destruct (Heffect _ _ Htn0) as (tn & Htn & Et). exists tn.
      split; [exact Htn|].
      assert (Hrel : relabel m label texts t tn0
                     = (if bool_decide (t = label)
                        then Konva.with_visible
                               (negb (Nat.eqb (JS.length (Konva.textExpr m)) 0))
                        else fun n => n)
                         (Konva.with_text
                            (replaceFlags (Konva.textExpr m)
                               (Konva.quantification m))
                            (Konva.with_meta (Some m) tn0))).
      { unfold relabel. rewrite (bool_decide_eq_true_2 (t ∈ texts)) by exact Ht.
        rewrite (bool_decide_eq_false_2 (texts = [])) by exact Htexts.
        now destruct (bool_decide (t = label)). }
      fold texts in Et. rewrite Hrel in Et. split.
      * apply (f_equal Konva.meta) in Et. cbn [unpainted] in Et.
        change (Konva.meta (unpainted tn)) with (Konva.meta tn) in Et.
        rewrite Et. now destruct (bool_decide (t = label)).
      * apply (f_equal Konva.text) in Et.
        change (Konva.text (unpainted tn)) with (Konva.text tn) in Et.
        rewrite Et. now destruct (bool_decide (t = label)).
  - destruct Heffect as [_ Heffect].
    destruct (Heffect _ _ Hln) as (ln' & Hln' & E).
    exists s', ln, ln'. repeat split; try assumption.
    exact (f_equal Konva.visible E).
Qed.

End Update.

(* ===================================================================== *)
(** * Store details *)
(* ===================================================================== *)

Section Store.
Context `{Ext : Externals}.

(** ** Pruned arenas *)










(** ** Unlinking one anchor *)





Lemma childrenOf_Some h x n : h !! x = Some n -> childrenOf h x = Konva.children n.
Proof. intros H. unfold childrenOf. now rewrite H. Qed.



(** ** Unlinking the anchors found *)

Lemma nodeSat_true h p x :
  nodeSat h p x = true -> exists n, h !! x = Some n /\ p n = true.
Proof. unfold nodeSat. destruct (h !! x) as [n|]; [eauto|discriminate]. Qed.


(** ** The walk of a pruned arena *)






(** ** One Annotation Group *)










(** ** The two loops *)


Lemma storedDetails_snoc fuel h (m : gmap string StoreDetails) g rest :
  foldl (fun m g => <[idOf h g := mkStoreDetails (firstTextMeta fuel h g)]> m)
    (<[idOf h g := mkStoreDetails (firstTextMeta fuel h g)]> m) rest
  = foldl (fun m g => <[idOf h g := mkStoreDetails (firstTextMeta fuel h g)]> m)
      m (g :: rest).
Proof. reflexivity. Qed.













End Store.

(* ===================================================================== *)
(** * The visibility invariant *)
(* ===================================================================== *)

Section Always.
Context `{Ext : Externals}.
Variable R : State -> State -> Prop.
Hypothesis R_refl : forall s, R s s.
Hypothesis R_trans : forall s1 s2 s3, R s1 s2 -> R s2 s3 -> R s1 s3.

Lemma always_readonly {A} (m : M A) : readonly m -> always R m.
Proof. intros Hm s. rewrite Hm. apply R_refl. Qed.

Lemma always_ret {A} (a : A) : always R (ret a).
Proof. intros s. apply R_refl. Qed.

Lemma always_throw {A} (e : exn) : always R (@throw _ A e).
Proof. intros s. apply R_refl. Qed.

(** The continuation may use how the first action ended. *)
Lemma always_bind_run {A B} (m : M A) (k : A -> M B) :
  always R m ->
  (forall a s s', m s = (s', Ok a) -> R s' (fst (k a s'))) ->
  always R (bind m k).
Proof.
  intros Hm Hk s. unfold bind. specialize (Hm s).
  destruct (m s) as [s1 [a|e]] eqn:Hrun; cbn [fst] in Hm.
  - eapply R_trans; [exact Hm|]. eapply Hk, Hrun.
  - exact Hm.
Qed.

Lemma always_bind {A B} (m : M A) (k : A -> M B) :
  always R m -> (forall a, always R (k a)) -> always R (bind m k).
Proof. intros Hm Hk. apply always_bind_run; [exact Hm|]. intros a s s' _. apply Hk. Qed.

Lemma always_forM {A} (f : A -> M unit) (l : list A) :
  (forall x, always R (f x)) -> always R (forM_ l f).
Proof.
  intros Hf. induction l as [|x l IH]; cbn [forM_].
  - apply always_ret.
  - apply always_bind; [apply Hf|intros _; exact IH].
Qed.

Lemma always_foldM {A B} (f : B -> A -> M B) (l : list A) :
  (forall b x, always R (f b x)) -> forall b, always R (foldM f l b).
Proof.
  intros Hf. induction l as [|x l IH]; intros b; cbn [foldM].
  - apply always_ret.
  - apply always_bind; [apply Hf|intros b'; apply IH].
Qed.

End Always.

Section Invariant.
Context `{Ext : Externals}.

(** ** Gentle changes keep the invariant *)

Lemma gentleUpdate_refl n : gentleUpdate n n.
Proof. now repeat split. Qed.

Lemma gentleUpdate_trans n1 n2 n3 :
  gentleUpdate n1 n2 -> gentleUpdate n2 n3 -> gentleUpdate n1 n3.
Proof.
  intros (Hn & Hi & Hv & Hc) (Hn' & Hi' & Hv' & Hc').
  repeat split; try congruence.
  - intros Hpos. rewrite Hv', Hv; [reflexivity|exact Hpos|].
    unfold isPositionNode in *. now rewrite Hn.
  - intros c Hin. now apply Hc, Hc'.
Qed.

Lemma gentle_refl s : gentle s s.
Proof.
  repeat split. intros x n Hn. exists n. split; [exact Hn|].
  apply gentleUpdate_refl.
Qed.

Lemma gentle_trans s1 s2 s3 : gentle s1 s2 -> gentle s2 s3 -> gentle s1 s3.
Proof.
  intros (HL & HK & Hlen & H) (HL' & HK' & Hlen' & H').
  repeat split; try congruence. intros x n Hn.
  destruct (H _ _ Hn) as (n2 & Hn2 & Hu). destruct (H' _ _ Hn2) as (n3 & Hn3 & Hu').
  exists n3. split; [exact Hn3|]. eapply gentleUpdate_trans; eauto.
Qed.

Lemma gentle_allocated s s' x :
  gentle s s' -> is_Some (heap s' !! x) -> is_Some (heap s !! x).
Proof.
  intros (_ & _ & Hlen & _) H. apply lookup_lt_is_Some. rewrite <- Hlen.
  now apply lookup_lt_is_Some.
Qed.

(** The invariant survives a gentle change. *)
Lemma gentle_invariant s s' :
  gentle s s' -> visibleIffActive s -> visibleIffActive s'.
Proof.
  intros Hg Hinv c n' Hc Hn' Hpos.
  pose proof Hg as (HL & HK & Hlen & H).
  unfold layerChildren in *. rewrite HL in Hc. rewrite HK.
  destruct (konvaLayer s) as [L|] eqn:HLs; [|now apply elem_of_nil in Hc].
  unfold childrenOf in Hc.
  destruct (heap s' !! L) as [ln'|] eqn:HL'; [|now apply elem_of_nil in Hc].
  destruct (gentle_allocated _ _ L Hg) as [ln Hln]; [rewrite HL'; eauto|].
  destruct (H _ _ Hln) as (ln2 & Hln2 & (_ & _ & _ & Hsub)).
  assert (ln2 = ln') as -> by congruence.
  destruct (gentle_allocated _ _ c Hg) as [n Hn]; [rewrite Hn'; eauto|].
  destruct (H _ _ Hn) as (n2 & Hn2 & (Hname & Hid & Hvis & _)).
  assert (n2 = n') as -> by congruence.
  assert (Hpos0 : isPositionNode n = true)
    by (unfold isPositionNode in *; now rewrite <- Hname).
  rewrite (Hvis Hpos0).
  assert (Hkey : idIsKey (currentPosGroupId s) n'
                 = idIsKey (currentPosGroupId s) n).
  { unfold idIsKey. destruct (currentPosGroupId s); [|reflexivity].
    now rewrite Hid. }
  rewrite Hkey. apply (Hinv c n); [|exact Hn|exact Hpos0].
  unfold layerChildren. rewrite HLs, (childrenOf_Some _ _ _ Hln).
  now apply Hsub.
Qed.

(** ** The gentle operations *)

Lemma gentle_readonly {A} (m : M A) : readonly m -> always gentle m.
Proof. apply always_readonly, gentle_refl. Qed.

Lemma gentle_ret {A} (a : A) : always gentle (ret a).
Proof. apply always_ret, gentle_refl. Qed.

Lemma gentle_throw {A} (e : exn) : always gentle (@throw _ A e).
Proof. apply always_throw, gentle_refl. Qed.

Lemma gentle_bind_run {A B} (m : M A) (k : A -> M B) :
  always gentle m ->
  (forall a s s', m s = (s', Ok a) -> gentle s' (fst (k a s'))) ->
  always gentle (bind m k).
Proof. apply always_bind_run, gentle_trans. Qed.

Lemma gentle_bind {A B} (m : M A) (k : A -> M B) :
  always gentle m -> (forall a, always gentle (k a)) ->
  always gentle (bind m k).
Proof. apply always_bind, gentle_trans. Qed.

Lemma gentle_forM {A} (f : A -> M unit) (l : list A) :
  (forall x, always gentle (f x)) -> always gentle (forM_ l f).
Proof. apply always_forM; [apply gentle_refl|apply gentle_trans]. Qed.

Lemma gentle_foldM {A B} (f : B -> A -> M B) (l : list A) :
  (forall b x, always gentle (f b x)) ->
  forall b, always gentle (foldM f l b).
Proof. apply always_foldM; [apply gentle_refl|apply gentle_trans]. Qed.

Lemma gentle_warn msg : always gentle (warn msg).
Proof.
  intros s. repeat split. intros x n Hn. exists n. split; [exact Hn|].
  apply gentleUpdate_refl.
Qed.

(** An update that is gentle on the node it meets. *)
Lemma gentle_updNode_at r f s :
  (forall n, heap s !! r = Some n -> gentleUpdate n (f n)) ->
  gentle s (fst (updNode r f s)).
Proof.
  intros Hf. unfold updNode, bind, getNode.
  destruct (heap s !! r) as [n|] eqn:Hn; [|apply gentle_refl].
  cbn [fst setNode modify]. rewrite ?with_heap_heap.
  repeat split; [cbn; apply length_insert|].
  intros x nx Hx. rewrite with_heap_heap.
  destruct (decide (x = r)) as [->|Hne].
  - assert (nx = n) as -> by congruence. exists (f n).
    split; [|now apply Hf].
    apply list_lookup_insert_eq. eapply lookup_lt_Some, Hn.
  - exists nx. split; [|apply gentleUpdate_refl].
    now rewrite list_lookup_insert_ne by congruence.
Qed.

Lemma gentle_updNode r f :
  (forall n, gentleUpdate n (f n)) -> always gentle (updNode r f).
Proof. intros Hf s. apply gentle_updNode_at. intros n _. apply Hf. Qed.

Lemma gentle_remove r : always gentle (Node_remove r).
Proof.
  unfold Node_remove.
  apply gentle_bind; [apply gentle_readonly, readonly_getNode|].
  intros n. destruct (Konva.parent n) as [p|].
  - apply gentle_bind.
    + apply gentle_updNode. intros pn. repeat split; cbn; try reflexivity.
      intros c. apply splice_out_subset.
    + intros _. apply gentle_updNode. intros rn. now repeat split.
  - apply gentle_ret.
Qed.

Lemma gentle_Shape_setStroke r v : always gentle (Shape_setStroke r v).
Proof.
  apply gentle_bind; [apply gentle_readonly, readonly_asShape|intros _].
  apply gentle_updNode. intros n. now repeat split.
Qed.

Lemma gentle_Shape_setFill r v : always gentle (Shape_setFill r v).
Proof.
  apply gentle_bind; [apply gentle_readonly, readonly_asShape|intros _].
  apply gentle_updNode. intros n. now repeat split.
Qed.

Lemma gentle_Shape_setShadowColor r v :
  always gentle (Shape_setShadowColor r v).
Proof.
  apply gentle_bind; [apply gentle_readonly, readonly_asShape|intros _].
  apply gentle_updNode. intros n. now repeat split.
Qed.

Lemma gentle_observer cb c : observer cb -> always gentle (cb c).
Proof.
  intros Hcb s. destruct (Hcb c s) as (s' & Hrun & Hheap & HL & HK).
  rewrite Hrun. cbn [fst]. repeat split; try congruence.
  intros x n Hn. exists n. rewrite Hheap. split; [exact Hn|].
  apply gentleUpdate_refl.
Qed.

End Invariant.

Ltac gentle_step :=
  first
    [ apply gentle_ret
    | apply gentle_throw
    | apply gentle_warn
    | apply gentle_remove
    | apply gentle_Shape_setStroke
    | apply gentle_Shape_setFill
    | apply gentle_Shape_setShadowColor
    | apply gentle_readonly; solve [repeat readonly_step]
    | apply gentle_forM; intros
    | apply gentle_foldM; intros
    | apply gentle_bind; [|intros]
    | progress cbv zeta
    | match goal with
      | |- always gentle (match ?x with _ => _ end) => destruct x
      end ].

Section GentleOperations.
Context `{Ext : Externals}.

Lemma gentle_getGroup fuel i : always gentle (getGroup fuel i).
Proof. unfold getGroup. repeat gentle_step. Qed.

Lemma gentle_getDrawDisplayDetails : always gentle getDrawDisplayDetails.
Proof.
  apply gentle_readonly. unfold getDrawDisplayDetails.
  repeat first [apply readonly_displayDetailsOf | readonly_step].
Qed.

Lemma gentle_storeDetailsOf fuel group details :
  always gentle (storeDetailsOf fuel group details).
Proof. unfold storeDetailsOf. repeat gentle_step. Qed.

Lemma gentle_getDrawStoreDetails fuel : always gentle (getDrawStoreDetails fuel).
Proof.
  unfold getDrawStoreDetails.
  repeat first [apply gentle_storeDetailsOf | gentle_step].
Qed.

Lemma gentle_deleteDrawGroup group cmdCallback exeCallback :
  observer cmdCallback -> observer exeCallback ->
  always gentle (deleteDrawGroup group cmdCallback exeCallback).
Proof.
  intros Hcmd Hexe. unfold deleteDrawGroup, newCommand,
    DeleteGroupCommand_execute.
  repeat first [now apply gentle_observer | gentle_step].
Qed.

Lemma gentle_deleteDraw fuel i cmdCallback exeCallback :
  observer cmdCallback -> observer exeCallback ->
  always gentle (deleteDraw fuel i cmdCallback exeCallback).
Proof.
  intros Hcmd Hexe. unfold deleteDraw.
  repeat first [apply gentle_getGroup | now apply gentle_deleteDrawGroup
               | gentle_step].
Qed.

Lemma gentle_deleteDraws fuel cmdCallback exeCallback :
  observer cmdCallback -> observer exeCallback ->
  always gentle (deleteDraws fuel cmdCallback exeCallback).
Proof.
  intros Hcmd Hexe. unfold deleteDraws.
  apply gentle_bind; [|intros layer].
  { gentle_step. }
  induction fuel as [|fuel IH]; cbn [deleteDraws_loop].
  - gentle_step.
  - repeat first [exact IH | now apply gentle_deleteDrawGroup | gentle_step].
Qed.

(** ** [updateDraw]: only the label changes its visibility *)

Lemma gentle_keeps_label s s' label :
  gentle s s' ->
  nodeSat (heap s) isNodeNameLabel label = true ->
  nodeSat (heap s') isNodeNameLabel label = true.
Proof.
  intros (_ & _ & _ & H) Hsat.
  apply nodeSat_true in Hsat as (n & Hn & Hlabel).
  destruct (H _ _ Hn) as (n' & Hn' & (Hname & _)).
  rewrite (nodeSat_Some _ _ _ _ Hn'). unfold isNodeNameLabel in *.
  now rewrite Hname.
Qed.

(** A step that keeps [label] a label, followed by steps that need it. *)
Lemma gentle_bind_label {A B} label (m : M A) (k : A -> M B) t :
  nodeSat (heap t) isNodeNameLabel label = true ->
  gentle t (fst (m t)) ->
  (forall a t', nodeSat (heap t') isNodeNameLabel label = true ->
                gentle t' (fst (k a t'))) ->
  gentle t (fst (bind m k t)).
Proof.
  intros Hlabel Hm Hk. unfold bind.
  destruct (m t) as [t1 [a|e]]; cbn [fst] in *; [|exact Hm].
  eapply gentle_trans; [exact Hm|]. apply Hk.
  eapply gentle_keeps_label; eauto.
Qed.

Lemma gentle_setVisible_label label v t :
  nodeSat (heap t) isNodeNameLabel label = true ->
  gentle t (fst (updNode label (Konva.with_visible v) t)).
Proof.
  intros Hlabel. apply gentle_updNode_at. intros n Hn.
  rewrite (nodeSat_Some _ _ _ _ Hn) in Hlabel.
  repeat split; try reflexivity; [|now intros c].
  intros Hpos. unfold isNodeNameLabel, isPositionNode in *.
  apply String.eqb_eq in Hlabel, Hpos. congruence.
Qed.

Lemma gentle_kids_loop (d : DrawDetails) label kids :
  forall t,
    nodeSat (heap t) isNodeNameLabel label = true ->
    gentle t
      (fst (forM_ kids (fun kid =>
              do _ <- Shape_setFill kid (ud_color d);
              do k <- getNode kid;
              if String.eqb (Konva.className k) "Text" then
                do _ <- Shape_setShadowColor kid
                          (getShadowColour (ud_color d));
                match ud_meta d with
                | Some m =>
                    do _ <- updNode kid (Konva.with_meta (Some m));
                    do _ <- updNode kid
                              (Konva.with_text
                                 (replaceFlags (Konva.textExpr m)
                                    (Konva.quantification m)));
                    updNode label
                      (Konva.with_visible
                         (negb (Nat.eqb (JS.length (Konva.textExpr m)) 0)))
                | None => ret tt
                end
              else ret tt) t)).
Proof.
  assert (Hplain : forall r f, (forall n, gentleUpdate n (f n)) ->
                     forall t, gentle t (fst (updNode r f t))).
  { intros r f Hf t. now apply gentle_updNode. }
  induction kids as [|kid kids IH]; intros t Hlabel; cbn [forM_].
  - apply gentle_refl.
  - apply (gentle_bind_label label); [exact Hlabel| |intros _ t' Hl'; now apply IH].
    apply (gentle_bind_label label);
      [exact Hlabel|apply gentle_Shape_setFill|].
    intros _ t1 Hl1.
    apply (gentle_bind_label label); [exact Hl1| |].
    { apply gentle_readonly, readonly_getNode. }
    intros k t2 Hl2. destruct (String.eqb (Konva.className k) "Text");
      [|apply gentle_refl].
    apply (gentle_bind_label label);
      [exact Hl2|apply gentle_Shape_setShadowColor|].
    intros _ t3 Hl3. destruct (ud_meta d) as [m|]; [|apply gentle_refl].
    apply (gentle_bind_label label); [exact Hl3|now apply Hplain|].
    intros _ t4 Hl4.
    apply (gentle_bind_label label); [exact Hl4|now apply Hplain|].
    intros _ t5 Hl5. now apply gentle_setVisible_label.
Qed.

Lemma gentle_updateDraw fuel d : always gentle (updateDraw fuel d).
Proof.
  unfold updateDraw.
  apply gentle_bind; [|intros layer].
  { gentle_step. }
  apply gentle_bind; [|intros group].
  { gentle_step. }
  destruct group as [group|]; [|apply gentle_warn]. cbv zeta.
  apply gentle_bind; [|intros shapes].
  { gentle_step. }
  apply gentle_bind; [|intros _].
  { apply gentle_forM; intros sh. apply gentle_Shape_setStroke. }
  apply gentle_bind; [|intros extras].
  { gentle_step. }
  apply gentle_bind; [|intros _].
  { repeat gentle_step. }
  apply gentle_bind_run; [gentle_step|].
  intros labels s s' Hrun.
  apply Container_getChildrenIf_inv in Hrun as (-> & _ & _ & ->).
  destruct (head (nodesWhere (heap s) isNodeNameLabel (childrenOf (heap s) group)))
    as [label|] eqn:Hhead; [|apply gentle_refl].
  assert (Hlabel : nodeSat (heap s) isNodeNameLabel label = true).
  { assert (Hin : In label (nodesWhere (heap s) isNodeNameLabel
                              (childrenOf (heap s) group))).
    { destruct (nodesWhere _ _ _); inversion Hhead; subst. now left. }
    apply nodesWhere_In in Hin as (_ & n & Hn & Hsat).
    now rewrite (nodeSat_Some _ _ _ _ Hn). }
  unfold ret at 1, bind at 1.
  apply (gentle_bind_label label); [exact Hlabel| |].
  { apply gentle_readonly, readonly_Container_getChildren. }
  intros kids t Hl.
  apply (gentle_bind_label label); [exact Hl|now apply gentle_kids_loop|].
  intros _ t' _.
  repeat gentle_step.
Qed.

End GentleOperations.

Section InvariantOperations.
Context `{Ext : Externals}.

(** ** [getCurrentPosGroup] keeps the invariant once a key is active *)

Lemma invariant_log s msgs :
  visibleIffActive s ->
  visibleIffActive (mkState (heap s) (konvaLayer s) (currentPosGroupId s) msgs).
Proof. intros H. exact H. Qed.

Lemma getCurrentPosGroup_keeps_invariant s K :
  currentPosGroupId s = Some K -> visibleIffActive s ->
  visibleIffActive (fst (getCurrentPosGroup s)).
Proof.
  intros HK Hinv.
  destruct (konvaLayer s) as [L|] eqn:HL.
  2:{ unfold getCurrentPosGroup, thisLayer, bind, gets. now rewrite HL. }
  destruct (Node_getChildrenIf L (idIsKey (currentPosGroupId s)) s)
    as [s1 [posGroups|e]] eqn:Hrun.
  2:{ pose proof (readonly_inv _ _ _ _ (readonly_getChildrenIf _ _) Hrun) as ->.
      unfold getCurrentPosGroup.
      rewrite (bind_ok _ _ _ _ _ (thisLayer_ok _ _ HL)).
      unfold gets at 1, bind at 1. now rewrite (bind_throw _ _ _ _ _ Hrun). }
  apply getChildrenIf_inv in Hrun as (-> & Hclosed & ->).
  destruct (nodesWhere (heap s) (idIsKey (currentPosGroupId s))
              (childrenOf (heap s) L)) as [|g [|g' rest]] eqn:Hfound.
  - (* created *)
    destruct Hclosed as (ln & Hln & Hclosed).
    rewrite (childrenOf_Some _ _ _ Hln) in Hfound.
    rewrite (getCurrentPosGroup_created s L ln HL Hln Hclosed Hfound).
    cbn [fst]. intros c n' Hc Hn' Hpos.
    cbn [currentPosGroupId with_heap]. rewrite HK.
    assert (HlnNew : (<[L := Konva.with_children
                              (Konva.children ln ++ [List.length (heap s)]) ln]>
                        (heap s)
                      ++ [newPositionGroup (currentPosGroupId s) L]) !! L
                     = Some (Konva.with_children
                               (Konva.children ln ++ [List.length (heap s)]) ln)).
    { apply lookup_app_l_Some, list_lookup_insert_eq.
      eapply lookup_lt_Some, Hln. }
    unfold layerChildren in Hc. cbn [konvaLayer heap with_heap] in Hc, Hn'.
    rewrite HL in Hc. rewrite (childrenOf_Some _ _ _ HlnNew) in Hc.
    cbn [Konva.children Konva.with_children] in Hc.
    destruct (decide (c < List.length (heap s))) as [Hlt|Hge].
    + (* an old child *)
      assert (Hcin : c ∈ Konva.children ln).
      { apply elem_of_app in Hc as [Hc|Hc]; [exact Hc|].
        apply elem_of_cons in Hc as [->|Hc]; [lia|now apply elem_of_nil in Hc]. }
      destruct (lookup_lt_is_Some_2 (heap s) c Hlt) as [n Hn].
      assert (Hsame : Konva.visible n' = Konva.visible n
                      /\ Konva.id n' = Konva.id n
                      /\ Konva.name n' = Konva.name n).
      { rewrite lookup_app_l in Hn' by (rewrite length_insert; exact Hlt).
        destruct (decide (c = L)) as [->|Hne].
        - rewrite list_lookup_insert_eq in Hn' by exact Hlt.
          assert (n = ln) as -> by congruence. inversion Hn'. now subst.
        - rewrite list_lookup_insert_ne in Hn' by congruence.
          assert (n' = n) as -> by congruence. now repeat split. }
      destruct Hsame as (Hv & Hi & Hnm). rewrite Hv.
      assert (Hkey : idIsKey (Some K) n' = idIsKey (Some K) n)
        by (unfold idIsKey; now rewrite Hi).
      rewrite Hkey, <- HK. apply (Hinv c n); [|exact Hn|].
      * unfold layerChildren. now rewrite HL, (childrenOf_Some _ _ _ Hln).
      * unfold isPositionNode in *. now rewrite <- Hnm.
    + (* the new group *)
      assert (c = List.length (heap s)) as ->.
      { apply lookup_lt_Some in Hn'. rewrite length_app, length_insert in Hn'.
        cbn in Hn'. lia. }
      rewrite lookup_app_r in Hn' by (rewrite length_insert; lia).
      rewrite length_insert, Nat.sub_diag in Hn'. inversion Hn'; subst n'.
      rewrite HK. cbn. now rewrite String.eqb_refl.
  - rewrite (getCurrentPosGroup_found s L g HL Hclosed Hfound). exact Hinv.
  - rewrite (getCurrentPosGroup_several s L HL Hclosed).
    + now apply invariant_log.
    + rewrite Hfound. cbn. lia.
Qed.

(** ** [activateDrawLayer] sets the invariant up *)

Lemma thisLayer_none s : konvaLayer s = None -> thisLayer s = (s, Throw TypeError).
Proof. intros H. unfold thisLayer, bind, gets. now rewrite H. Qed.

Lemma activateDrawLayer_establishes index scrollIndex s :
  (forall L, konvaLayer s = Some L -> closedAt (heap s) L) ->
  visibleIffActive s ->
  visibleIffActive (fst (activateDrawLayer index scrollIndex s)).
Proof.
  intros Hclosed Hinv. unfold activateDrawLayer. cbn zeta.
  destruct (Index_toStringId index _) as [K|]; [|exact Hinv].
  unfold ret at 1, bind at 1. unfold modify at 1, bind at 1.
  set (s0 := mkState (heap s) (konvaLayer s) (Some K) (log s)).
  destruct (konvaLayer s0) as [L|] eqn:HL0.
  2:{ rewrite (bind_throw _ _ _ _ _ (thisLayer_none _ HL0)).
      cbn [fst]. intros c n Hc.
      unfold layerChildren in Hc. rewrite HL0 in Hc.
      now apply elem_of_nil in Hc. }
  assert (HL : konvaLayer s = Some L) by exact HL0.
  destruct (Hclosed L HL) as (ln & Hln & Hkids).
  rewrite (bind_ok _ _ _ _ _ (thisLayer_ok L s0 HL0)).
  erewrite bind_ok; [|apply getChildrenIf_ok; now exists ln].
  cbn [heap s0]. rewrite (childrenOf_Some _ _ _ Hln).
  destruct (visibility_pass K (nodesWhere (heap s) isPositionNode
                                 (Konva.children ln)) s0)
    as (s' & Hrun & HL' & HK' & _ & Hheap').
  { reflexivity. }
  { apply nodesWhere_allocated. }
  rewrite (bind_ok _ _ _ _ _ Hrun). cbn [fst Node_draw ret].
  intros c n' Hc Hn' Hpos. rewrite HK'. cbn [currentPosGroupId s0].
  unfold layerChildren in Hc. rewrite HL', HL0 in Hc.
  assert (HlnNew : childrenOf (heap s') L = Konva.children ln).
  { unfold childrenOf. rewrite (Hheap' _ _ Hln). now destruct (bool_decide _). }
  rewrite HlnNew in Hc.
  rewrite Forall_forall in Hkids. destruct (Hkids c Hc) as [n Hn].
  rewrite (Hheap' _ _ Hn) in Hn'.
  destruct (bool_decide_reflect
              (c ∈ nodesWhere (heap s) isPositionNode (Konva.children ln)))
    as [Hin|Hnin]; inversion Hn'; subst n'; clear Hn'.
  - reflexivity.
  - exfalso. apply Hnin, list_elem_of_In, nodesWhere_In.
    split; [now apply list_elem_of_In|]. now exists n.
Qed.

(** ** [reset] *)

Lemma reset_keeps_invariant s : visibleIffActive (fst (reset s)).
Proof.
  intros c n Hc. unfold layerChildren in Hc. cbn in Hc.
  now apply elem_of_nil in Hc.
Qed.

End InvariantOperations.

(* ===================================================================== *)
(** * Loading a scene *)
(* ===================================================================== *)

Section Quiet.
Context `{Ext : Externals}.

Lemma quiet_refl s : quiet s s.
Proof.
  split; [reflexivity|]. split; [reflexivity|]. split.
  - intros x n Hn. exists n. now repeat split.
  - intros x n' Hn' Hnone. congruence.
Qed.

Lemma quiet_trans s1 s2 s3 : quiet s1 s2 -> quiet s2 s3 -> quiet s1 s3.
Proof.
  intros (HL & HK & Hold & Hnew) (HL' & HK' & Hold' & Hnew').
  split; [congruence|]. split; [congruence|]. split.
  - intros x n Hn. destruct (Hold _ _ Hn) as (n2 & Hn2 & Hnm & Hi & Hv).
    destruct (Hold' _ _ Hn2) as (n3 & Hn3 & Hnm' & Hi' & Hv').
    exists n3. repeat split; congruence.
  - intros x n3 Hn3 Hnone. destruct (heap s2 !! x) as [n2|] eqn:Hn2.
    + destruct (Hnew _ _ Hn2 Hnone) as [Hv Hpos].
      destruct (Hold' _ _ Hn2) as (n3' & Hn3' & Hnm' & _ & Hv').
      assert (n3' = n3) as -> by congruence. split; [congruence|].
      unfold isPositionNode in *. now rewrite Hnm'.
    + exact (Hnew' _ _ Hn3 Hn2).
Qed.

Lemma quiet_readonly {A} (m : M A) : readonly m -> always quiet m.
Proof. apply always_readonly, quiet_refl. Qed.

Lemma quiet_ret {A} (a : A) : always quiet (ret a).
Proof. apply always_ret, quiet_refl. Qed.

Lemma quiet_throw {A} (e : exn) : always quiet (@throw _ A e).
Proof. apply always_throw, quiet_refl. Qed.

Lemma quiet_bind {A B} (m : M A) (k : A -> M B) :
  always quiet m -> (forall a, always quiet (k a)) -> always quiet (bind m k).
Proof. apply always_bind, quiet_trans. Qed.

Lemma quiet_forM {A} (f : A -> M unit) (l : list A) :
  (forall x, always quiet (f x)) -> always quiet (forM_ l f).
Proof. apply always_forM; [apply quiet_refl|apply quiet_trans]. Qed.

(** An update that keeps role, identifier and visibility. *)
Lemma quiet_updNode r f :
  (forall n, Konva.name (f n) = Konva.name n
             /\ Konva.id (f n) = Konva.id n
             /\ Konva.visible (f n) = Konva.visible n) ->
  always quiet (updNode r f).
Proof.
  intros Hf s. unfold updNode, bind, getNode.
  destruct (heap s !! r) as [n|] eqn:Hn; [|apply quiet_refl].
  cbn [fst setNode modify]. split; [reflexivity|]. split; [reflexivity|].
  split; rewrite with_heap_heap.
  - intros x nx Hx. destruct (decide (x = r)) as [->|Hne].
    + assert (nx = n) as -> by congruence. exists (f n).
      split; [|apply Hf].
      apply list_lookup_insert_eq. eapply lookup_lt_Some, Hn.
    + exists nx. rewrite list_lookup_insert_ne by congruence. now repeat split.
  - intros x n' Hn' Hnone. exfalso.
    apply lookup_lt_Some in Hn'. rewrite length_insert in Hn'.
    apply lookup_ge_None in Hnone. lia.
Qed.

(** A new invisible Position Group. *)
Lemma quiet_newNode n :
  Konva.visible n = false -> isPositionNode n = true ->
  always quiet (newNode n).
Proof.
  intros Hv Hpos s. unfold newNode. cbn [fst].
  split; [reflexivity|]. split; [reflexivity|]. split; rewrite with_heap_heap.
  - intros x nx Hx. exists nx. split; [now apply lookup_app_l_Some|].
    now repeat split.
  - intros x n' Hn' Hnone. apply lookup_ge_None in Hnone.
    rewrite lookup_app_r in Hn' by exact Hnone.
    destruct (x - List.length (heap s)) as [|k]; cbn in Hn'; [|discriminate].
    inversion Hn'. now subst.
Qed.

Lemma quiet_remove r : always quiet (Node_remove r).
Proof.
  unfold Node_remove.
  apply quiet_bind; [apply quiet_readonly, readonly_getNode|].
  intros n. destruct (Konva.parent n) as [p|]; [|apply quiet_ret].
  apply quiet_bind; [|intros _]; apply quiet_updNode; intros m;
    now repeat split.
Qed.

Lemma quiet_add p c : always quiet (Node_add p c).
Proof.
  unfold Node_add. cbv zeta.
  assert (Hattach : always quiet
            (do _ <- updNode c (Konva.with_parent (Some p));
             updNode p (fun pn =>
               Konva.with_children (Konva.children pn ++ [c]) pn))).
  { apply quiet_bind; [|intros _]; apply quiet_updNode; intros m;
      now repeat split. }
  apply quiet_bind; [apply quiet_readonly, readonly_getNode|].
  intros cn. destruct (Konva.parent cn) as [q|]; [|exact Hattach].
  destruct (Nat.eqb q p); [apply quiet_ret|].
  apply quiet_bind; [apply quiet_remove|intros _; exact Hattach].
Qed.

Lemma quiet_observer cb c : observer cb -> always quiet (cb c).
Proof.
  intros Hcb s. destruct (Hcb c s) as (s' & Hrun & Hheap & HL & HK).
  rewrite Hrun. cbn [fst]. split; [exact HL|]. split; [exact HK|].
  split; rewrite Hheap.
  - intros x n Hn. exists n. now repeat split.
  - intros x n' Hn' Hnone. congruence.
Qed.

End Quiet.

Ltac quiet_step :=
  first
    [ apply quiet_ret
    | apply quiet_throw
    | apply quiet_add
    | apply quiet_remove
    | apply quiet_readonly; solve [repeat readonly_step]
    | apply quiet_forM; intros
    | apply quiet_bind; [|intros]
    | progress cbv zeta
    | match goal with
      | |- always quiet (match ?x with _ => _ end) => destruct x
      end ].

Section Load.
Context `{Ext : Externals}.

Lemma quiet_setDrawings_posGroup statePosGroup :
  always quiet (setDrawings_posGroup statePosGroup).
Proof.
  unfold setDrawings_posGroup.
  repeat first [ apply quiet_newNode; reflexivity | quiet_step ].
Qed.

Lemma quiet_setDrawings_group fuel drawingsDetails cmdCallback exeCallback
    statePosGroup posGroup :
  observer cmdCallback -> observer exeCallback ->
  always quiet (setDrawings_group fuel drawingsDetails cmdCallback exeCallback
                  statePosGroup posGroup).
Proof.
  intros Hcmd Hexe.
  unfold setDrawings_group, newCommand, DrawGroupCommand_execute.
  repeat first [ now apply quiet_observer
               | apply quiet_updNode; intros; now repeat split
               | quiet_step ].
Qed.

(** Once the incoming scene is deserialised, [setDrawings] changes no
    role, identifier or visibility flag, and the nodes it adds are
    invisible Position Groups. *)
Lemma setDrawings_quiet fuel drawings drawingsDetails cmdCallback exeCallback s :
  observer cmdCallback -> observer exeCallback ->
  quiet (fst (Node_create drawings s))
    (fst (setDrawings fuel drawings drawingsDetails cmdCallback exeCallback s)).
Proof.
  intros Hcmd Hexe. unfold setDrawings, bind at 1.
  destruct (Node_create drawings s) as [s0 [stateLayer|e]]; cbn [fst];
    [|apply quiet_refl].
  revert s0. change (always quiet
    (do statePosGroups <- Container_getChildrenIf stateLayer isPositionNode;
     forM_ statePosGroups (fun statePosGroup =>
       do posGroup <- setDrawings_posGroup statePosGroup;
       do statePosKids <- Container_getChildren statePosGroup;
       forM_ (seq 0 (List.length statePosKids)) (fun _ =>
         setDrawings_group fuel drawingsDetails cmdCallback exeCallback
           statePosGroup posGroup)))).
  repeat first [ apply quiet_setDrawings_posGroup
               | now apply quiet_setDrawings_group
               | quiet_step ].
Qed.

End Load.

(* ===================================================================== *)
(** * The children of the layer while a scene is loaded *)
(* ===================================================================== *)

Section LayerGrows.
Context `{Ext : Externals}.
Variable L : Konva.ref.

Lemma layerGrows_refl s : layerGrows L s s.
Proof.
  intros (HL & Hal & Hself). split; [exact HL|]. split; [auto|].
  intros c Hc. now left.
Qed.

Lemma layerGrows_ready s s' :
  layerGrows L s s' -> layerReady L s -> layerReady L s'.
Proof.
  intros H Hr. pose proof Hr as (HL & Hal & Hself).
  destruct (H Hr) as (HL' & Hkeep & Hkids).
  split; [exact HL'|]. split; [now apply Hkeep|].
  intros Hin. apply Hkids in Hin as [Hin|Hnone]; [now apply Hself|].
  rewrite Hnone in Hal. now destruct Hal.
Qed.

Lemma layerGrows_trans s1 s2 s3 :
  layerGrows L s1 s2 -> layerGrows L s2 s3 -> layerGrows L s1 s3.
Proof.
  intros H12 H23 Hr. pose proof (layerGrows_ready _ _ H12 Hr) as Hr2.
  destruct (H12 Hr) as (HL2 & Hkeep & Hkids).
  destruct (H23 Hr2) as (HL3 & Hkeep' & Hkids').
  split; [exact HL3|]. split; [auto|].
  intros c Hc. apply Hkids' in Hc as [Hc|Hnone].
  - now apply Hkids.
  - right. destruct (heap s1 !! c) as [n|] eqn:E; [|reflexivity].
    assert (Hs : is_Some (heap s2 !! c)) by (apply Hkeep; eauto).
    rewrite Hnone in Hs. now destruct Hs.
Qed.

Lemma layerGrows_readonly {A} (m : M A) :
  readonly m -> always (layerGrows L) m.
Proof. apply always_readonly, layerGrows_refl. Qed.

Lemma layerGrows_ret {A} (a : A) : always (layerGrows L) (ret a).
Proof. apply always_ret, layerGrows_refl. Qed.

Lemma layerGrows_throw {A} (e : exn) : always (layerGrows L) (@throw _ A e).
Proof. apply always_throw, layerGrows_refl. Qed.

Lemma layerGrows_bind_run {A B} (m : M A) (k : A -> M B) :
  always (layerGrows L) m ->
  (forall a s s', m s = (s', Ok a) -> layerGrows L s' (fst (k a s'))) ->
  always (layerGrows L) (bind m k).
Proof. apply always_bind_run, layerGrows_trans. Qed.

Lemma layerGrows_bind {A B} (m : M A) (k : A -> M B) :
  always (layerGrows L) m -> (forall a, always (layerGrows L) (k a)) ->
  always (layerGrows L) (bind m k).
Proof. apply always_bind, layerGrows_trans. Qed.

Lemma layerGrows_forM {A} (f : A -> M unit) (l : list A) :
  (forall x, always (layerGrows L) (f x)) -> always (layerGrows L) (forM_ l f).
Proof. apply always_forM; [apply layerGrows_refl|apply layerGrows_trans]. Qed.

(** The continuation may use that the layer was ready before [m] ran. *)
Lemma layerGrows_bind_ready {A B} (m : M A) (k : A -> M B) :
  always (layerGrows L) m ->
  (forall a s s', layerReady L s -> m s = (s', Ok a) ->
     layerGrows L s' (fst (k a s'))) ->
  always (layerGrows L) (bind m k).
Proof.
  intros Hm Hk s Hr. unfold bind. specialize (Hm s).
  destruct (m s) as [s1 [a|e]] eqn:Hrun; cbn [fst] in Hm |- *.
  - exact (layerGrows_trans _ _ _ Hm (Hk _ _ _ Hr Hrun) Hr).
  - exact (Hm Hr).
Qed.

(** A read at a known state. *)
Lemma layerGrows_after_read {A B} (m : M A) (k : A -> M B) s :
  readonly m ->
  (forall a, m s = (s, Ok a) -> layerGrows L s (fst (k a s))) ->
  layerGrows L s (fst (bind m k s)).
Proof.
  intros Hm Hk. unfold bind. destruct (m s) as [s1 [a|e]] eqn:Hrun;
    pose proof (readonly_inv _ _ _ _ Hm Hrun) as ->; cbn [fst].
  - now apply Hk.
  - apply layerGrows_refl.
Qed.

(** An update of a node that is not the layer, or that gives the layer no
    new child. *)
Lemma layerGrows_updNode r f :
  (r = L -> forall n c, c ∈ Konva.children (f n) -> c ∈ Konva.children n) ->
  always (layerGrows L) (updNode r f).
Proof.
  intros Hf s. unfold updNode, bind, getNode.
  destruct (heap s !! r) as [n|] eqn:Hn; [|apply layerGrows_refl].
  cbn [fst setNode modify]. intros (HL & Hal & Hself).
  split; [exact HL|]. rewrite with_heap_heap. split.
  - intros x Hx. apply lookup_lt_is_Some. rewrite length_insert.
    now apply lookup_lt_is_Some.
  - intros c Hc. left. unfold childrenOf in *.
    destruct (decide (r = L)) as [Heq|Hne].
    + subst r.
      rewrite list_lookup_insert_eq in Hc by (eapply lookup_lt_Some, Hn).
      rewrite Hn. now apply (Hf eq_refl).
    + rewrite list_lookup_insert_ne in Hc by exact Hne. exact Hc.
Qed.

Lemma layerGrows_newNode n : always (layerGrows L) (newNode n).
Proof.
  intros s (HL & [ln Hln] & Hself). unfold newNode. cbn [fst].
  split; [exact HL|]. rewrite with_heap_heap. split.
  - intros x [nx Hx]. exists nx. now apply lookup_app_l_Some.
  - intros c Hc. left. unfold childrenOf in *.
    rewrite (lookup_snoc_old _ _ _ _ Hln) in Hc. now rewrite Hln.
Qed.

Lemma layerGrows_remove r : always (layerGrows L) (Node_remove r).
Proof.
  unfold Node_remove.
  apply layerGrows_bind; [apply layerGrows_readonly, readonly_getNode|].
  intros n. destruct (Konva.parent n) as [p|]; [|apply layerGrows_ret].
  apply layerGrows_bind; [|intros _]; apply layerGrows_updNode;
    intros _ m c; cbn; [apply splice_out_subset|easy].
Qed.

Lemma layerGrows_add p c : p <> L -> always (layerGrows L) (Node_add p c).
Proof.
  intros Hp. unfold Node_add. cbv zeta.
  assert (Hattach : always (layerGrows L)
            (do _ <- updNode c (Konva.with_parent (Some p));
             updNode p (fun pn =>
               Konva.with_children (Konva.children pn ++ [c]) pn))).
  { apply layerGrows_bind; [|intros _]; apply layerGrows_updNode.
    - intros _ m x. cbn. easy.
    - intros E. now destruct Hp. }
  apply layerGrows_bind; [apply layerGrows_readonly, readonly_getNode|].
  intros cn. destruct (Konva.parent cn) as [q|]; [|exact Hattach].
  destruct (Nat.eqb q p); [apply layerGrows_ret|].
  apply layerGrows_bind; [apply layerGrows_remove|intros _; exact Hattach].
Qed.

Lemma layerGrows_observer cb c : observer cb -> always (layerGrows L) (cb c).
Proof.
  intros Hcb s. destruct (Hcb c s) as (s' & Hrun & Hheap & HL & HK).
  rewrite Hrun. cbn [fst]. intros (HLs & Hal & Hself).
  rewrite Hheap, HL. split; [exact HLs|]. split; [auto|].
  intros x Hx. now left.
Qed.

End LayerGrows.

Ltac layerGrows_step :=
  first
    [ apply layerGrows_ret
    | apply layerGrows_throw
    | apply layerGrows_remove
    | apply layerGrows_readonly; solve [repeat readonly_step]
    | apply layerGrows_forM; intros
    | apply layerGrows_bind; [|intros]
    | progress cbv zeta
    | match goal with
      | |- always (layerGrows _) (match ?x with _ => _ end) => destruct x
      end ].

Section LoadLayer.
Context `{Ext : Externals}.

Lemma updNode_inv r f s s' u :
  updNode r f s = (s', Ok u) ->
  exists n, heap s !! r = Some n
            /\ s' = with_heap (<[r := f n]> (heap s)) s.
Proof.
  unfold updNode. intros H. apply bind_inv in H as (n & s1 & Hn & H).
  apply getNode_inv in Hn as [-> Hn]. exists n. split; [exact Hn|].
  unfold setNode, modify in H. now inversion H.
Qed.

Lemma attach_parent p c s s' u :
  (do _ <- updNode c (Konva.with_parent (Some p));
   updNode p (fun pn => Konva.with_children (Konva.children pn ++ [c]) pn)) s
  = (s', Ok u) ->
  exists n, heap s' !! c = Some n /\ Konva.parent n = Some p.
Proof.
  intros H. apply bind_inv in H as (u1 & s1 & H1 & H2).
  apply updNode_inv in H1 as (cn & Hc & ->).
  apply updNode_inv in H2 as (pn & Hp & ->).
  rewrite !with_heap_heap in *.
  assert (Hlt : c < List.length (heap s)) by (eapply lookup_lt_Some, Hc).
  destruct (decide (p = c)) as [E|Hne].
  - subst p. rewrite list_lookup_insert_eq in Hp by exact Hlt.
    inversion Hp; subst pn. eexists. split.
    + apply list_lookup_insert_eq. now rewrite length_insert.
    + reflexivity.
  - eexists. split.
    + rewrite list_lookup_insert_ne by exact Hne.
      apply list_lookup_insert_eq. exact Hlt.
    + reflexivity.
Qed.

(** After [p.add(c)] the parent of [c] is [p]. *)
Lemma Node_add_parent p c s s' u :
  Node_add p c s = (s', Ok u) ->
  exists n, heap s' !! c = Some n /\ Konva.parent n = Some p.
Proof.
  unfold Node_add. cbv zeta. intros H.
  apply bind_inv in H as (cn & s1 & Hc & H).
  apply getNode_inv in Hc as [-> Hc].
  destruct (Konva.parent cn) as [q|] eqn:Hpar.
  - destruct (Nat.eqb_spec q p) as [->|Hne].
    + unfold ret in H. inversion H; subst. now exists cn.
    + apply bind_inv in H as (u1 & s2 & _ & H). now apply attach_parent in H.
  - now apply attach_parent in H.
Qed.

Lemma Container_add_parent p c s s' u :
  Container_add p c s = (s', Ok u) ->
  exists n, heap s' !! c = Some n /\ Konva.parent n = Some p.
Proof.
  unfold Container_add. intros H.
  apply bind_inv in H as (u0 & s1 & Hc & H).
  apply asContainer_inv in Hc as [-> _]. now apply Node_add_parent in H.
Qed.

Lemma layerGrows_Container_add L p c :
  p <> L -> always (layerGrows L) (Container_add p c).
Proof.
  intros Hp. apply layerGrows_bind;
    [apply layerGrows_readonly, readonly_asContainer|intros _].
  now apply layerGrows_add.
Qed.

Lemma layerGrows_setDrawings_posGroup L sp :
  always (layerGrows L) (setDrawings_posGroup sp).
Proof.
  intros s Hr. pose proof Hr as (HL & [ln Hln] & Hself). revert Hr.
  change (layerGrows L s (fst (setDrawings_posGroup sp s))).
  unfold setDrawings_posGroup.
  rewrite (bind_ok _ _ _ _ _ (thisLayer_ok _ _ HL)).
  apply layerGrows_after_read; [apply readonly_getNode|intros spn _].
  apply layerGrows_after_read; [apply readonly_getChildrenIf|intros found _].
  destruct (head found) as [g|]; [apply layerGrows_refl|].
  set (N := Konva.with_visible false _).
  assert (Hlt : L < List.length (heap s)) by (eapply lookup_lt_Some, Hln).
  rewrite (bind_ok _ _ _ _ _
             (eq_refl : newNode N s
                        = (with_heap (heap s ++ [N]) s,
                           Ok (List.length (heap s))))).
  rewrite (bind_ok _ _ _ _ _
             (Node_add_detached L (List.length (heap s)) ln N
                (with_heap (heap s ++ [N]) s)
                ltac:(lia) (lookup_snoc_old _ N _ _ Hln)
                (lookup_snoc _ _) eq_refl)).
  cbn [fst ret]. intros _. split; [exact HL|]. rewrite !with_heap_heap. split.
  - intros x Hx. apply lookup_lt_is_Some.
    rewrite !length_insert, length_app. apply lookup_lt_is_Some in Hx. lia.
  - unfold childrenOf.
    rewrite list_lookup_insert_eq
      by (rewrite length_insert, length_app; lia).
    cbn [Konva.children Konva.with_children]. rewrite Hln.
    intros c Hc. apply elem_of_app in Hc as [Hc|Hc]; [now left|right].
    apply list_elem_of_singleton in Hc as ->. apply lookup_ge_None. lia.
Qed.

Lemma setDrawings_posGroup_not_layer L sp s s' g :
  layerReady L s -> setDrawings_posGroup sp s = (s', Ok g) -> g <> L.
Proof.
  intros (HL & Hal & Hself) H. unfold setDrawings_posGroup in H.
  rewrite (bind_ok _ _ _ _ _ (thisLayer_ok _ _ HL)) in H.
  apply bind_inv in H as (spn & s1 & Hsp & H).
  apply getNode_inv in Hsp as [-> Hsp].
  apply bind_inv in H as (found & s1 & Hf & H).
  apply getChildrenIf_inv in Hf as (-> & _ & ->).
  destruct (head _) as [g'|] eqn:Hhead.
  - unfold ret in H. inversion H; subst. intros ->. apply Hself.
    assert (Hin : In L (nodesWhere (heap s') (isNodeWithId (Konva.id spn))
                          (childrenOf (heap s') L))).
    { destruct (nodesWhere _ _ _); inversion Hhead; subst. now left. }
    apply nodesWhere_In in Hin as [Hin _]. now apply list_elem_of_In.
  - apply bind_inv in H as (g' & s1 & Hnew & H).
    unfold newNode in Hnew. inversion Hnew; subst.
    apply bind_inv in H as (u & s2 & _ & H).
    unfold ret in H. inversion H; subst.
    intros E. apply lookup_lt_is_Some in Hal. lia.
Qed.

Lemma layerGrows_setDrawings_group L fuel drawingsDetails cmdCallback
    exeCallback statePosGroup posGroup :
  observer cmdCallback -> observer exeCallback -> posGroup <> L ->
  always (layerGrows L)
    (setDrawings_group fuel drawingsDetails cmdCallback exeCallback
       statePosGroup posGroup).
Proof.
  intros Hcmd Hexe Hne. unfold setDrawings_group.
  apply layerGrows_bind;
    [apply layerGrows_readonly, readonly_getChildren|intros kids].
  apply layerGrows_bind;
    [destruct (head kids); [apply layerGrows_ret|apply layerGrows_throw]|].
  intros stateGroup.
  apply layerGrows_bind_run; [now apply layerGrows_Container_add|].
  intros u s0 s Hadd. apply Container_add_parent in Hadd as (gn & Hgn & Hpar).
  apply layerGrows_after_read;
    [apply readonly_Container_getChildrenIf|intros shapes _].
  apply layerGrows_after_read;
    [destruct (head shapes); [apply readonly_getNode|apply readonly_throw]|].
  intros shape _.
  apply layerGrows_after_read; [apply readonly_gets|intros layer _].
  apply layerGrows_after_read;
    [unfold newCommand; repeat readonly_step|intros cmd Hrun].
  rewrite (newCommand_ok _ _ _ _ _ _ Hgn) in Hrun.
  inversion Hrun; subst cmd. rewrite Hpar.
  apply layerGrows_bind; [|intros _].
  { destruct drawingsDetails as [dd|]; [|apply layerGrows_ret].
    repeat first [ apply layerGrows_updNode; intros _ ? ?; cbn; easy
                 | layerGrows_step ]. }
  unfold DrawGroupCommand_execute. cbn [cmd_parent cmd_group].
  apply layerGrows_bind; [|intros _; now apply layerGrows_observer].
  apply layerGrows_bind; [now apply layerGrows_add|].
  intros _. now apply layerGrows_observer.
Qed.

Lemma layerGrows_load L fuel drawingsDetails cmdCallback exeCallback
    stateLayer :
  observer cmdCallback -> observer exeCallback ->
  always (layerGrows L)
    (do statePosGroups <- Container_getChildrenIf stateLayer isPositionNode;
     forM_ statePosGroups (fun statePosGroup =>
       do posGroup <- setDrawings_posGroup statePosGroup;
       do statePosKids <- Container_getChildren statePosGroup;
       forM_ (seq 0 (List.length statePosKids)) (fun _ =>
         setDrawings_group fuel drawingsDetails cmdCallback exeCallback
           statePosGroup posGroup))).
Proof.
  intros Hcmd Hexe.
  apply layerGrows_bind;
    [apply layerGrows_readonly, readonly_Container_getChildrenIf|intros sps].
  apply layerGrows_forM. intros sp.
  apply layerGrows_bind_ready; [apply layerGrows_setDrawings_posGroup|].
  intros g s s' Hr Hrun.
  pose proof (setDrawings_posGroup_not_layer _ _ _ _ _ Hr Hrun) as Hne.
  apply layerGrows_bind;
    [apply layerGrows_readonly, readonly_Container_getChildren|intros kids].
  apply layerGrows_forM. intros _. now apply layerGrows_setDrawings_group.
Qed.

End LoadLayer.

(* ===================================================================== *)
(** * Deserialising a scene *)
(* ===================================================================== *)

Section Create.
Context `{Ext : Externals}.

Lemma Json_induction (P : Konva.Json -> Prop) :
  (forall attrs kids, Forall P kids -> P (Konva.JNode attrs kids)) ->
  forall j, P j.
Proof.
  intros H. fix IH 1. intros [attrs kids]. apply H.
  induction kids as [|k ks IHks]; constructor; [apply IH|exact IHks].
Qed.

Lemma extended_refl s : extended s s.
Proof. now repeat split. Qed.

Lemma extended_trans s1 s2 s3 :
  extended s1 s2 -> extended s2 s3 -> extended s1 s3.
Proof.
  intros (HL & HK & Hlen & Hold) (HL' & HK' & Hlen' & Hold').
  split; [congruence|]. split; [congruence|]. split; [lia|].
  intros x Hx. rewrite Hold' by lia. now apply Hold.
Qed.

(** [Konva.Node.create] builds its tree in fresh nodes: the nodes there
    were are untouched, and the root it returns is new and detached. *)
Lemma Node_create_extends j :
  forall s,
    extended s (fst (Node_create j s))
    /\ forall r, snd (Node_create j s) = Ok r ->
         List.length (heap s) <= r
         /\ exists n, heap (fst (Node_create j s)) !! r = Some n
                      /\ Konva.parent n = None.
Proof.
  induction j as [attrs kids IH] using Json_induction. intros s.
  cbn [Node_create].
  set (N0 := Konva.with_parent None (Konva.with_children [] attrs)).
  set (r := List.length (heap s)).
  set (addKids := fix addKids (ks : list Konva.Json) : M unit :=
         match ks with
         | [] => ret tt
         | k :: ks' =>
             do c <- Node_create k; do _ <- Container_add r c; addKids ks'
         end).
  assert (Hloop : forall t,
            extended s t ->
            (exists n, heap t !! r = Some n /\ Konva.parent n = None) ->
            extended s (fst (addKids kids t))
            /\ exists n, heap (fst (addKids kids t)) !! r = Some n
                         /\ Konva.parent n = None).
  assert (Hr0 : r = List.length (heap s)) by reflexivity.
  { induction IH as [|k ks Hk _ IHks]; intros t Hext Hr; cbn [addKids].
    - now split.
    - destruct (Hk t) as (Hext1 & Hc).
      destruct Hr as (rn & Hrn & Hrpar).
      assert (Hrlt : r < List.length (heap t)) by (eapply lookup_lt_Some, Hrn).
      destruct (Node_create k t) as [t1 [c|e]] eqn:Hrun; cbn [fst snd] in *;
        [rewrite (bind_ok _ _ _ _ _ Hrun)|rewrite (bind_throw _ _ _ _ _ Hrun)].
      + destruct (Hc c eq_refl) as (Hge & cn & Hcn & Hcpar).
        pose proof Hext1 as (HL1 & HK1 & Hlen1 & Hold1).
        assert (Hrn1 : heap t1 !! r = Some rn)
          by (rewrite Hold1 by exact Hrlt; exact Hrn).
        destruct (Konva.isContainer rn) eqn:Hrc.
        2:{ assert (Hadd : Container_add r c t1 = (t1, Throw TypeError)).
            { unfold Container_add. apply bind_throw, asContainer_shape.
              now apply (shapeAt_Some _ _ _ Hrn1). }
            rewrite (bind_throw _ _ _ _ _ Hadd). cbn [fst].
            split; [eapply extended_trans; [exact Hext|exact Hext1]|].
            exists rn. split; [exact Hrn1|exact Hrpar]. }
        assert (Hadd : Container_add r c t1
                       = (with_heap
                            (<[r := Konva.with_children
                                      (Konva.children rn ++ [c]) rn]>
                               (<[c := Konva.with_parent (Some r) cn]>
                                  (heap t1))) t1, Ok tt)).
        { unfold Container_add.
          rewrite (bind_ok _ _ _ _ _
                     (asContainer_ok _ _
                        (proj2 (containerAt_Some _ _ _ Hrn1) Hrc))).
          exact (Node_add_detached r c rn cn t1 ltac:(lia) Hrn1 Hcn Hcpar). }
        rewrite (bind_ok _ _ _ _ _ Hadd).
        assert (Hclt : c < List.length (heap t1))
          by (eapply lookup_lt_Some, Hcn).
        apply IHks.
        * destruct Hext as (HLt & HKt & Hlent & Holdt).
          split; [transitivity (konvaLayer t1); [reflexivity|congruence]|].
          split;
            [transitivity (currentPosGroupId t1); [reflexivity|congruence]|].
          rewrite with_heap_heap, !length_insert. split; [lia|].
          intros x Hx. rewrite !list_lookup_insert_ne by lia.
          rewrite Hold1 by lia. now apply Holdt.
        * eexists. split.
          -- rewrite with_heap_heap. apply list_lookup_insert_eq.
             rewrite length_insert. lia.
          -- exact Hrpar.
      + split.
        * eapply extended_trans; [exact Hext|exact Hext1].
        * exists rn. split; [|exact Hrpar].
          destruct Hext1 as (_ & _ & _ & Hold1).
          rewrite Hold1 by exact Hrlt. exact Hrn. }
  rewrite (bind_ok _ _ _ _ _
             (eq_refl : newNode N0 s = (with_heap (heap s ++ [N0]) s, Ok r))).
  assert (Hext0 : extended s (with_heap (heap s ++ [N0]) s)).
  { split; [reflexivity|]. split; [reflexivity|].
    rewrite with_heap_heap, length_app. split; [lia|].
    intros x Hx. now apply lookup_app_l. }
  destruct (Hloop (with_heap (heap s ++ [N0]) s) Hext0) as (Hext & Hr).
  { exists N0. split; [apply lookup_snoc|reflexivity]. }
  destruct (addKids kids (with_heap (heap s ++ [N0]) s)) as [t [u|e]] eqn:Hrun;
    cbn [fst] in Hext, Hr;
    [rewrite (bind_ok _ _ _ _ _ Hrun)|rewrite (bind_throw _ _ _ _ _ Hrun)];
    cbn [fst snd ret].
  - split; [exact Hext|]. intros r' [= <-]. split; [lia|exact Hr].
  - split; [exact Hext|]. intros r' [=].
Qed.

End Create.

Section LoadScene.
Context `{Ext : Externals}.

(** What [setDrawings] leaves under the layer: the Position Groups that
    were there, as visible as before, and the ones it created, invisible. *)
Lemma setDrawings_layer fuel drawings drawingsDetails cmdCallback exeCallback
    s :
  observer cmdCallback -> observer exeCallback ->
  layerOK s -> visibleIffActive s ->
  let s' := fst (setDrawings fuel drawings drawingsDetails cmdCallback
                   exeCallback s) in
  forall c n', c ∈ layerChildren s' -> heap s' !! c = Some n' ->
    isPositionNode n' = true ->
    (is_Some (heap s !! c) ->
       Konva.visible n' = idIsKey (currentPosGroupId s') n')
    /\ (heap s !! c = None -> Konva.visible n' = false).
Proof.
  intros Hcmd Hexe Hok Hinv s'.
  assert (Hsplit : exists s0,
            extended s s0 /\ quiet s0 s' /\ forall L, layerGrows L s0 s').
  { exists (fst (Node_create drawings s)).
    split; [apply Node_create_extends|].
    split; [now apply setDrawings_quiet|].
    intros L. subst s'. unfold setDrawings, bind at 1.
    destruct (Node_create drawings s) as [s0 [stateLayer|e]]; cbn [fst];
      [|apply layerGrows_refl].
    now apply layerGrows_load. }
  destruct Hsplit as (s0 & (HL0 & HK0 & Hlen0 & Hold0)
                         & (HL' & HK' & Hkeep & Hnew) & Hgrows).
  clearbody s'. intros c n' Hc Hn' Hpos. unfold layerChildren in Hc.
  rewrite HL', HL0 in Hc.
  destruct (konvaLayer s) as [L|] eqn:HL; [|now apply elem_of_nil in Hc].
  destruct (Hok L HL) as ((ln & Hln & Hall) & Hself).
  assert (HLlt : L < List.length (heap s)) by (eapply lookup_lt_Some, Hln).
  assert (Hln0 : heap s0 !! L = Some ln) by (rewrite Hold0 by exact HLlt; exact Hln).
  assert (Hready : layerReady L s0).
  { split; [congruence|]. split; [eauto|].
    unfold childrenOf in *. rewrite Hln0. now rewrite Hln in Hself. }
  destruct (Hgrows L Hready) as (_ & _ & Hkids).
  apply Hkids in Hc as [Hc|Hnone].
  - unfold childrenOf in Hc. rewrite Hln0 in Hc.
    rewrite Forall_forall in Hall. destruct (Hall c Hc) as [n Hn].
    assert (Hclt : c < List.length (heap s)) by (eapply lookup_lt_Some, Hn).
    assert (Hn0 : heap s0 !! c = Some n) by (rewrite Hold0 by exact Hclt; exact Hn).
    destruct (Hkeep _ _ Hn0) as (n'' & Hn'' & Hname & Hid & Hvis).
    assert (n'' = n') as -> by congruence.
    split; [intros _|intros Hnone; congruence].
    rewrite Hvis, HK', HK0.
    assert (Hidkey : idIsKey (currentPosGroupId s) n'
                     = idIsKey (currentPosGroupId s) n).
    { unfold idIsKey. now rewrite Hid. }
    rewrite Hidkey. apply (Hinv c n).
    + unfold layerChildren. rewrite HL. unfold childrenOf. now rewrite Hln.
    + exact Hn.
    + unfold isPositionNode in *. now rewrite <- Hname.
  - destruct (Hnew _ _ Hn' Hnone) as [Hvis _].
    split; [|intros _; exact Hvis].
    intros [n Hn]. exfalso.
    assert (Hclt : c < List.length (heap s)) by (eapply lookup_lt_Some, Hn).
    rewrite <- Hold0 in Hn by exact Hclt. congruence.
Qed.

(** ** The visibility invariant, operation by operation *)

(** C4. The operations of the controller and the invariant "a Position Group
    under the layer is visible iff its identifier is the active key", from
    a state where it holds, where the layer (when there is one) is not its
    own child and its children exist, and where the callbacks only observe:
    1. [getCurrentPosGroup] keeps it once a key is active;
    2. [activateDrawLayer], [reset], [getGroup], [getDrawDisplayDetails],
       [getDrawStoreDetails], [updateDraw], [deleteDrawGroup], [deleteDraw]
       and [deleteDraws] keep it;
    3. [setDrawings] keeps it for the Position Groups that were there; a
       Position Group it created is invisible, whatever its identifier. *)
Theorem visibility_invariant_by_operation (fuel : nat) (s : State)
    (cmdCallback exeCallback : Callback) :
  visibleIffActive s ->
  layerOK s ->
  observer cmdCallback -> observer exeCallback ->
  (forall K, currentPosGroupId s = Some K ->
     visibleIffActive (fst (getCurrentPosGroup s)))
  /\ (forall index scrollIndex,
        visibleIffActive (fst (activateDrawLayer index scrollIndex s)))
  /\ visibleIffActive (fst (reset s))
  /\ (forall i, visibleIffActive (fst (getGroup fuel i s)))
  /\ visibleIffActive (fst (getDrawDisplayDetails s))
  /\ visibleIffActive (fst (getDrawStoreDetails fuel s))
  /\ (forall d, visibleIffActive (fst (updateDraw fuel d s)))
  /\ (forall g,
        visibleIffActive (fst (deleteDrawGroup g cmdCallback exeCallback s)))
  /\ (forall i,
        visibleIffActive (fst (deleteDraw fuel i cmdCallback exeCallback s)))
  /\ visibleIffActive (fst (deleteDraws fuel cmdCallback exeCallback s))
  /\ (forall drawings drawingsDetails c n',
        let s' := fst (setDrawings fuel drawings drawingsDetails cmdCallback
                         exeCallback s) in
        c ∈ layerChildren s' -> heap s' !! c = Some n' ->
        isPositionNode n' = true ->
        (is_Some (heap s !! c) ->
           Konva.visible n' = idIsKey (currentPosGroupId s') n')
        /\ (heap s !! c = None -> Konva.visible n' = false)).
Proof.
  intros Hinv Hok Hcmd Hexe.
  assert (Hgentle : forall s', gentle s s' -> visibleIffActive s').
  { intros s' Hg. exact (gentle_invariant _ _ Hg Hinv). }
  split;
    [intros K HK; exact (getCurrentPosGroup_keeps_invariant _ _ HK Hinv)|].
  split.
  { intros index scrollIndex. apply activateDrawLayer_establishes;
      [|exact Hinv]. intros L HL. now apply Hok. }
  split; [apply reset_keeps_invariant|].
  split; [intros i; apply Hgentle, gentle_getGroup|].
  split; [apply Hgentle, gentle_getDrawDisplayDetails|].
  split; [apply Hgentle, gentle_getDrawStoreDetails|].
  split; [intros d; apply Hgentle, gentle_updateDraw|].
  split; [intros g; now apply Hgentle, gentle_deleteDrawGroup|].
  split; [intros i; now apply Hgentle, gentle_deleteDraw|].
  split; [now apply Hgentle, gentle_deleteDraws|].
  intros drawings drawingsDetails c n'.
  now apply setDrawings_layer.
Qed.

End LoadScene.

(* ===================================================================== *)
(** * Position keys: what the parser accepts, and what the keys tell apart *)
(* ===================================================================== *)

Local Open Scope string_scope.

Section KeyEdges.

Lemma indexOf_from_absent (s : string) (i : Z) :
  JS.all_chars not_underscore s = true -> JS.indexOf_from "_" s i = (-1)%Z.
Proof.
  revert i. induction s as [|c s IH]; intros i Hs; [reflexivity|].
  cbn in Hs. apply andb_true_iff in Hs as [Hc Hs].
  unfold not_underscore in Hc. apply negb_true_iff in Hc.
  cbn [JS.indexOf_from String.prefix].
  destruct (ascii_dec "_" c) as [<-|_]; [discriminate Hc|].
  now apply IH.
Qed.

Lemma substring_split (s : string) (k : nat) :
  String.substring 0 k s ++ String.substring k (String.length s - k) s = s.
Proof.
  revert k. induction s as [|c s IH]; intros [|k]; try reflexivity.
  - cbn [String.substring String.length Nat.sub]. rewrite append_nil.
    cbn. now rewrite substring_0_all.
  - cbn [String.substring String.length Nat.sub]. rewrite append_cons.
    now rewrite IH.
Qed.

Lemma length_substring_0 (s : string) (k : nat) :
  String.length (String.substring 0 k s) = Nat.min k (String.length s).
Proof.
  revert k. induction s as [|c s IH]; intros [|k]; try reflexivity.
  cbn [String.substring String.length]. rewrite IH. reflexivity.
Qed.

(** X1. An identifier without underscore: the parser warns and cuts the
    identifier after its first six characters. *)
Theorem getPositionFromGroupId_no_separator (groupId : string) :
  JS.all_chars not_underscore groupId = true ->
  snd (getPositionFromGroupId groupId)
  = ["Badly formed PositionGroupId: " ++ groupId]
  /\ sliceNumber (fst (getPositionFromGroupId groupId))
     ++ frameNumber (fst (getPositionFromGroupId groupId)) = groupId
  /\ String.length (sliceNumber (fst (getPositionFromGroupId groupId)))
     = Nat.min 6 (String.length groupId).
Proof.
  intros Hs. unfold getPositionFromGroupId, JS.indexOf.
  rewrite (indexOf_from_absent _ _ Hs). cbn [fst snd sliceNumber frameNumber].
  split; [reflexivity|].
  unfold JS.substring, JS.clamp.
  set (len := String.length groupId).
  replace (Z.to_nat (Z.min (Z.max 6 0) (Z.of_nat len))) with (Nat.min 6 len)
    by lia.
  replace (Z.to_nat (Z.min (Z.max (-1) 0) (Z.of_nat len))) with 0 by lia.
  replace (Z.to_nat (Z.min (Z.max (-1 + 7) 0) (Z.of_nat len)))
    with (Nat.min 6 len) by lia.
  replace (Nat.min (Nat.min 6 len) 0) with 0 by lia.
  replace (Nat.max (Nat.min 6 len) 0 - 0) with (Nat.min 6 len) by lia.
  replace (Nat.min (Nat.min 6 len) len) with (Nat.min 6 len) by lia.
  replace (Nat.max (Nat.min 6 len) len - Nat.min 6 len)
    with (len - Nat.min 6 len) by lia.
  split.
  - apply substring_split.
  - rewrite length_substring_0. fold len. lia.
Qed.

(** X2. The parser skips six characters before each value, whatever they are:
    the literal prefixes [slice-] and [frame-] are not checked. *)
Theorem getPositionFromGroupId_skips_six (p a q b : string) :
  String.length p = 6 -> String.length q = 6 ->
  JS.all_chars not_underscore (p ++ a) = true ->
  getPositionFromGroupId (p ++ a ++ "_" ++ q ++ b)
  = ({| sliceNumber := a; frameNumber := b |}, []).
Proof.
  intros Hp Hq Hs. unfold getPositionFromGroupId, JS.indexOf.
  set (whole := p ++ a ++ "_" ++ q ++ b).
  assert (Hwhole : whole = (p ++ a) ++ String "_" (q ++ b)).
  { unfold whole. now rewrite append_assoc. }
  assert (Hidx : JS.indexOf_from "_" whole 0
                 = (6 + Z.of_nat (String.length a))%Z).
  { rewrite Hwhole, indexOf_from_sep by assumption.
    rewrite length_append, Hp. lia. }
  assert (Hlen : String.length whole
                 = 6 + (String.length a + (7 + String.length b))).
  { unfold whole. rewrite !length_append, Hp, Hq. reflexivity. }
  rewrite Hidx.
  destruct (Z.eqb_spec (6 + Z.of_nat (String.length a)) (-1)); [lia|].
  f_equal. unfold JS.substring. rewrite Hlen. unfold JS.clamp. f_equal.
  - replace (Nat.min _ _) with (String.length p) by lia.
    replace (Nat.max _ _ - _) with (String.length a) by lia.
    unfold whole. rewrite substring_drop_app. apply substring_0_app.
  - replace (Nat.min _ _) with (String.length (((p ++ a) ++ "_") ++ q))
      by (rewrite !length_append, Hp, Hq; cbn; lia).
    replace (Nat.max _ _ - _) with (String.length b)
      by (rewrite !length_append, Hp, Hq; cbn; lia).
    unfold whole.
    replace (p ++ a ++ "_" ++ q ++ b) with ((((p ++ a) ++ "_") ++ q) ++ b)
      by (now rewrite !append_assoc).
    rewrite substring_drop_app. apply substring_0_all.
Qed.

Lemma to_int_not_nil (z : Z) :
  Z.to_int z <> Decimal.Pos Decimal.Nil /\ Z.to_int z <> Decimal.Neg Decimal.Nil.
Proof.
  split; intros H; pose proof (DecimalZ.of_to z) as Hz; rewrite H in Hz;
    cbn in Hz; subst z; discriminate H.
Qed.

Lemma numberToString_parses (z : Z) :
  NilZero.int_of_string (JS.numberToString z) = Some (Z.to_int z).
Proof.
  unfold JS.numberToString. destruct (to_int_not_nil z) as [H1 H2].
  now apply NilZero.isi.
Qed.

Lemma toString_inj (v w : JS.value) : JS.toString v = JS.toString w -> v = w.
Proof.
  destruct v as [a|], w as [b|]; cbn [JS.toString]; intros H.
  - f_equal. apply DecimalZ.to_int_inj.
    pose proof (numberToString_parses a) as Ha. rewrite H in Ha.
    rewrite numberToString_parses in Ha. now inversion Ha.
  - pose proof (numberToString_parses a) as Ha. rewrite H in Ha.
    discriminate Ha.
  - pose proof (numberToString_parses b) as Hb. rewrite <- H in Hb.
    discriminate Hb.
  - reflexivity.
Qed.

(** X3. Two positions with the same key have the same slice component and the
    same frame component (the one at index 3 of a position of length 4,
    zero otherwise): positions that differ there get different keys. *)
Theorem getDrawPositionGroupId_injective (p q : Point) :
  getDrawPositionGroupId p = getDrawPositionGroupId q ->
  Point_get p 2 = Point_get q 2
  /\ (if Nat.eqb (Point_length p) 4 then Point_get p 3 else Some 0%Z)
     = (if Nat.eqb (Point_length q) 4 then Point_get q 3 else Some 0%Z).
Proof.
  intros H. apply (f_equal getPositionFromGroupId) in H.
  unfold getDrawPositionGroupId in H. cbv zeta in H.
  rewrite !key_split in H by apply toString_no_sep.
  inversion H as [[Hs Hf]]. split; now apply toString_inj.
Qed.

End KeyEdges.

Local Open Scope list_scope.

(* ===================================================================== *)
(** * Missing identifiers, a controller after [reset], no active key *)
(* ===================================================================== *)

Section MissingAndReset.
Context `{Ext : Externals}.

Lemma nodesWhere_never h l : nodesWhere h (idIsKey None) l = [].
Proof.
  induction l as [|c l IH]; [reflexivity|].
  rewrite nodesWhere_cons, IH. unfold nodeSat. now destruct (h !! c).
Qed.

(** Every node the walk meets is a child of a node of the arena. *)
Lemma descendants_child h fuel :
  forall r ds, Konva.descendants fuel h r = Some ds ->
    forall x, x ∈ ds ->
      exists q qn, h !! q = Some qn /\ x ∈ Konva.children qn.
Proof.
  induction fuel as [|f IH]; intros r ds H; [discriminate|].
  cbn [Konva.descendants] in H.
  destruct (h !! r) as [n|] eqn:Hn; [|discriminate].
  remember (Konva.children n) as cs eqn:Hcs.
  assert (Hsub : forall c, c ∈ cs -> c ∈ Konva.children n)
    by (subst cs; auto).
  clear Hcs. revert ds H Hsub.
  induction cs as [|c cs IHcs]; intros ds H Hsub x Hx.
  - inversion H; subst. now apply elem_of_nil in Hx.
  - cbn [foldr] in H.
    destruct (Konva.descendants f h c) as [dc|] eqn:Hc; [|discriminate].
    destruct (foldr _ _ cs) as [rest|] eqn:Hrest; [|discriminate].
    inversion H; subst ds.
    apply elem_of_cons in Hx as [->|Hx].
    + exists r, n. split; [exact Hn|]. apply Hsub, list_elem_of_here.
    + apply elem_of_app in Hx as [Hx|Hx].
      * eapply IH; eassumption.
      * eapply IHcs; [reflexivity| |exact Hx].
        intros c' Hc'. apply Hsub. now apply list_elem_of_further.
Qed.

(** ** The selector built from an identifier *)

Lemma removeSpaces_plain i :
  JS.all_chars (fun c => negb (Ascii.eqb c " ")) i = true ->
  JS.removeSpaces i = i.
Proof.
  induction i as [|c i IH]; [reflexivity|]. cbn [JS.all_chars JS.removeSpaces].
  intros H. apply andb_true_iff in H as [Hc Hi].
  apply negb_true_iff in Hc. rewrite Hc. now rewrite IH.
Qed.

Lemma removeSpaces_no_comma i :
  JS.all_chars (fun c => negb (Ascii.eqb c ",")) i = true ->
  JS.all_chars (fun c => negb (Ascii.eqb c ",")) (JS.removeSpaces i) = true.
Proof.
  induction i as [|c i IH]; [reflexivity|]. cbn [JS.all_chars JS.removeSpaces].
  intros H. apply andb_true_iff in H as [Hc Hi].
  destruct (Ascii.eqb c " "); [now apply IH|].
  cbn [JS.all_chars]. now rewrite Hc, IH.
Qed.

Lemma splitOn_none (sep : ascii -> bool) i :
  JS.all_chars (fun c => negb (sep c)) i = true -> JS.splitOn sep i = [i].
Proof.
  induction i as [|c i IH]; [reflexivity|]. cbn [JS.all_chars JS.splitOn].
  intros H. apply andb_true_iff in H as [Hc Hi].
  apply negb_true_iff in Hc. rewrite Hc. now rewrite IH.
Qed.

Lemma plainId_split i :
  plainId i = true ->
  JS.all_chars (fun c => negb (Ascii.eqb c " ")) i = true
  /\ JS.all_chars (fun c => negb (Ascii.eqb c ",")) i = true.
Proof.
  unfold plainId. induction i as [|c i IH]; [now split|].
  cbn [JS.all_chars]. intros H. apply andb_true_iff in H as [Hc Hi].
  apply andb_true_iff in Hc as [Hc1 Hc2]. destruct (IH Hi) as [H1 H2].
  now rewrite Hc1, Hc2, H1, H2.
Qed.

Lemma all_chars_ext (p q : ascii -> bool) i :
  (forall c, p c = q c) -> JS.all_chars p i = JS.all_chars q i.
Proof.
  intros Hpq. induction i as [|c i IH]; [reflexivity|].
  cbn [JS.all_chars]. now rewrite Hpq, IH.
Qed.

(** The selector ['#' + i] of an identifier without comma compares the
    identifier of the node with [i] without its spaces. *)
Lemma selectsId_no_comma i n :
  JS.all_chars (fun c => negb (Ascii.eqb c ",")) i = true ->
  selectsId i n = hasId (JS.removeSpaces i) n.
Proof.
  intros H. unfold selectsId, Konva.isMatch.
  change (("#" ++ i)%string) with (String "#" i).
  cbn [String.eqb JS.removeSpaces Ascii.eqb Bool.eqb].
  change (JS.removeSpaces (String "#" i))
    with (String "#" (JS.removeSpaces i)).
  rewrite (splitOn_none (Ascii.eqb ",") (String "#" (JS.removeSpaces i))).
  - cbn [existsb Konva.matchesOne]. now rewrite orb_false_r.
  - rewrite (all_chars_ext _ (fun c => negb (Ascii.eqb c ",")))
      by (intros c; now rewrite Ascii.eqb_sym).
    change (negb (Ascii.eqb "#" ",")
            && JS.all_chars (fun c => negb (Ascii.eqb c ","))
                 (JS.removeSpaces i) = true).
    now rewrite (removeSpaces_no_comma _ H).
Qed.

Lemma selectsId_plain i n : plainId i = true -> selectsId i n = hasId i n.
Proof.
  intros H. apply plainId_split in H as [H1 H2].
  now rewrite (selectsId_no_comma _ _ H2), (removeSpaces_plain _ H1).
Qed.

Lemma nodesWhere_ext_pred h (p q : Konva.Node -> bool) l :
  (forall n, p n = q n) -> nodesWhere h p l = nodesWhere h q l.
Proof.
  intros Hpq. induction l as [|c l IH]; [reflexivity|].
  rewrite !nodesWhere_cons, IH. unfold nodeSat.
  destruct (h !! c); [now rewrite Hpq|reflexivity].
Qed.

Lemma getGroup_some fuel i s L ds g rest :
  konvaLayer s = Some L ->
  Konva.descendants fuel (heap s) L = Some ds ->
  nodesWhere (heap s) (selectsId i) ds = g :: rest ->
  getGroup fuel i s = (s, Ok (Some g)).
Proof.
  intros HL Hds Hfound. unfold getGroup.
  rewrite (bind_ok _ _ _ _ _ (thisLayer_ok _ _ HL)).
  rewrite (bind_ok _ _ _ _ _ (Node_findOne_ok _ _ _ _ _ Hds)).
  now rewrite Hfound.
Qed.

Lemma getGroup_none fuel i s L ds :
  konvaLayer s = Some L ->
  Konva.descendants fuel (heap s) L = Some ds ->
  nodesWhere (heap s) (selectsId i) ds = [] ->
  getGroup fuel i s
  = (mkState (heap s) (konvaLayer s) (currentPosGroupId s)
       (log s ++ [("Cannot find node with id: " ++ i)%string]),
     Ok None).
Proof.
  intros HL Hds Hnone. unfold getGroup.
  rewrite (bind_ok _ _ _ _ _ (thisLayer_ok _ _ HL)).
  rewrite (bind_ok _ _ _ _ _ (Node_findOne_ok _ _ _ _ _ Hds)).
  now rewrite Hnone.
Qed.

(** X4. [getGroup] returns the first node below the layer, in the order of the
    walk, that the selector ['#' + id] matches, and leaves the state as it
    is; when the selector matches no node, it returns [undefined] and logs
    one warning.  The selector drops the spaces of the identifier and is
    cut at its commas: for an identifier without comma it matches the nodes
    whose identifier is the given one without its spaces, so for an
    identifier without space and comma the nodes with that identifier. *)
Theorem getGroup_first_match (fuel : nat) (i : string) (s : State)
    (L : Konva.ref) (ds : list Konva.ref) :
  konvaLayer s = Some L ->
  Konva.descendants fuel (heap s) L = Some ds ->
  match nodesWhere (heap s) (selectsId i) ds with
  | g :: _ =>
      getGroup fuel i s = (s, Ok (Some g))
      /\ g ∈ ds /\ (plainId i = true -> idOf (heap s) g = i)
  | [] =>
      getGroup fuel i s
      = (mkState (heap s) (konvaLayer s) (currentPosGroupId s)
           (log s ++ [("Cannot find node with id: " ++ i)%string]),
         Ok None)
  end
  /\ (JS.all_chars (fun c => negb (Ascii.eqb c ",")) i = true ->
      nodesWhere (heap s) (selectsId i) ds
      = nodesWhere (heap s) (hasId (JS.removeSpaces i)) ds)
  /\ (plainId i = true ->
      nodesWhere (heap s) (selectsId i) ds
      = nodesWhere (heap s) (hasId i) ds).
Proof.
  intros HL Hds. split; [|split].
  - destruct (nodesWhere (heap s) (selectsId i) ds) as [|g rest] eqn:Hfound.
    + now apply (getGroup_none fuel i s L ds).
    + split; [now apply (getGroup_some fuel i s L ds g rest)|].
      assert (Hin : In g (nodesWhere (heap s) (selectsId i) ds))
        by (rewrite Hfound; now left).
      apply nodesWhere_In in Hin as (Hin & n & Hn & Hid).
      split; [now apply list_elem_of_In|].
      intros Hplain. rewrite (selectsId_plain _ _ Hplain) in Hid.
      unfold idOf. rewrite Hn. now apply String.eqb_eq.
  - intros Hc. apply nodesWhere_ext_pred. intros n.
    now apply selectsId_no_comma.
  - intros Hplain. apply nodesWhere_ext_pred. intros n.
    now apply selectsId_plain.
Qed.

(** X5. [deleteDraw] with an identifier whose selector matches no node below
    the layer (for an identifier without space and comma: that no node
    below the layer has): [false] and one warning; no callback is called,
    no node changes. *)
Theorem deleteDraw_missing (fuel : nat) (i : string)
    (cmdCallback exeCallback : Callback) (s : State) (L : Konva.ref)
    (ds : list Konva.ref) :
  konvaLayer s = Some L ->
  Konva.descendants fuel (heap s) L = Some ds ->
  nodesWhere (heap s) (selectsId i) ds = []
  \/ (plainId i = true /\ nodesWhere (heap s) (hasId i) ds = []) ->
  deleteDraw fuel i cmdCallback exeCallback s
  = (mkState (heap s) (konvaLayer s) (currentPosGroupId s)
       (log s ++ [("Cannot find node with id: " ++ i)%string]),
     Ok false).
Proof.
  intros HL Hds Hnone. unfold deleteDraw.
  assert (Hnone' : nodesWhere (heap s) (selectsId i) ds = []).
  { destruct Hnone as [Hnone|[Hplain Hnone]]; [exact Hnone|].
    rewrite <- Hnone. apply nodesWhere_ext_pred. intros n.
    now apply selectsId_plain. }
  now rewrite (bind_ok _ _ _ _ _ (getGroup_none _ _ _ _ _ HL Hds Hnone')).
Qed.

(** X6. [deleteDraw] with an identifier whose selector finds a node below the
    layer, in a well formed scene and with callbacks that observe.  When
    the first node found is a container: [true], and that node is unlinked
    from its parent; it keeps its own children, and no other node changes.
    When it is a shape, [group.getChildren] is not a function: the call
    stops on a [TypeError] and nothing is deleted. *)
Theorem deleteDraw_unlinks (fuel : nat) (i : string)
    (cmdCallback exeCallback : Callback) (s : State) (L : Konva.ref)
    (ds : list Konva.ref) (g : Konva.ref) (rest : list Konva.ref) :
  observer cmdCallback -> observer exeCallback ->
  wf (heap s) ->
  konvaLayer s = Some L ->
  Konva.descendants fuel (heap s) L = Some ds ->
  nodesWhere (heap s) (selectsId i) ds = g :: rest ->
  (containerAt (heap s) g ->
   exists s' p gn,
     deleteDraw fuel i cmdCallback exeCallback s = (s', Ok true)
     /\ heap s !! g = Some gn /\ Konva.parent gn = Some p
     /\ g ∈ childrenOf (heap s) p
     /\ heap s' = detach g p (heap s)
     /\ heap s' !! g = Some (Konva.with_parent None
                               (if decide (g = p)
                                then Konva.with_children
                                       (Konva.splice_out g (Konva.children gn))
                                       gn
                                else gn))
     /\ childrenOf (heap s') p = Konva.splice_out g (childrenOf (heap s) p)
     /\ (forall x, x <> g -> x <> p -> heap s' !! x = heap s !! x)
     /\ konvaLayer s' = konvaLayer s
     /\ currentPosGroupId s' = currentPosGroupId s)
  /\ (shapeAt (heap s) g ->
      deleteDraw fuel i cmdCallback exeCallback s = (s, Throw TypeError)).
Proof.
  intros Hcmd Hexe Hwf HL Hds Hfound. split.
  2:{ intros Hsh. unfold deleteDraw.
      rewrite (bind_ok _ _ _ _ _ (getGroup_some _ _ _ _ _ _ _ HL Hds Hfound)).
      now rewrite (bind_throw _ _ _ _ _
                     (deleteDrawGroup_shape g cmdCallback exeCallback s Hsh)). }
  intros Hgc.
  assert (Hin : g ∈ ds).
  { assert (Hin : In g (nodesWhere (heap s) (selectsId i) ds))
      by (rewrite Hfound; now left).
    apply nodesWhere_In in Hin as [Hin _]. now apply list_elem_of_In. }
  destruct (descendants_child _ _ _ _ Hds g Hin) as (p & pn & Hp & Hgp).
  destruct (wf_children _ _ _ _ Hwf Hp Hgp) as (gn & Hg & Hpar).
  destruct (deleteDrawGroup_attached g p gn cmdCallback exeCallback s
              Hcmd Hexe (wf_closedHeap _ Hwf) Hg
              (proj1 (containerAt_Some _ _ _ Hg) Hgc) Hpar
              (ex_intro _ pn Hp))
    as (s' & Hrun & Hheap & Hlayer & Hkey).
  exists s', p, gn. unfold deleteDraw.
  rewrite (bind_ok _ _ _ _ _ (getGroup_some _ _ _ _ _ _ _ HL Hds Hfound)).
  rewrite (bind_ok _ _ _ _ _ Hrun). split; [reflexivity|].
  split; [exact Hg|]. split; [exact Hpar|].
  split; [unfold childrenOf; now rewrite Hp|].
  split; [exact Hheap|]. rewrite Hheap. split.
  { rewrite lookup_detach, Hg. cbn [fmap option_fmap option_map].
    destruct (decide (g = g)) as [_|Hne]; [reflexivity|now destruct Hne]. }
  split.
  { unfold childrenOf. rewrite lookup_detach, Hp.
    cbn [fmap option_fmap option_map].
    destruct (decide (p = p)) as [_|Hne]; [|now destruct Hne].
    now destruct (decide (p = g)). }
  split; [|now split].
  intros x Hxg Hxp. rewrite lookup_detach.
  destruct (heap s !! x) as [n|]; [|reflexivity].
  cbn [fmap option_fmap option_map].
  destruct (decide (x = p)) as [->|_]; [now destruct Hxp|].
  destruct (decide (x = g)) as [->|_]; [now destruct Hxg|reflexivity].
Qed.

(** X7. [updateDraw] with an identifier whose selector matches no node below
    the layer (for an identifier without space and comma: that no node
    below the layer has): one warning, and nothing else changes. *)
Theorem updateDraw_missing (fuel : nat) (d : DrawDetails) (s : State)
    (L : Konva.ref) (ds : list Konva.ref) :
  konvaLayer s = Some L ->
  Konva.descendants fuel (heap s) L = Some ds ->
  nodesWhere (heap s) (selectsId (ud_id d)) ds = []
  \/ (plainId (ud_id d) = true
      /\ nodesWhere (heap s) (hasId (ud_id d)) ds = []) ->
  updateDraw fuel d s
  = (mkState (heap s) (konvaLayer s) (currentPosGroupId s)
       (log s ++ [("[updateDraw] Cannot find group with id: "
                   ++ ud_id d)%string]),
     Ok tt).
Proof.
  intros HL Hds Hnone. unfold updateDraw.
  assert (Hnone' : nodesWhere (heap s) (selectsId (ud_id d)) ds = []).
  { destruct Hnone as [Hnone|[Hplain Hnone]]; [exact Hnone|].
    rewrite <- Hnone. apply nodesWhere_ext_pred. intros n.
    now apply selectsId_plain. }
  rewrite (bind_ok _ _ _ _ _ (thisLayer_ok _ _ HL)).
  rewrite (bind_ok _ _ _ _ _ (Node_findOne_ok _ _ _ _ _ Hds)).
  now rewrite Hnone'.
Qed.

(** X8. After [reset] the nodes, the active key and the log are what they were,
    and every method that reads the layer stops on a [TypeError] without
    changing anything; [activateDrawLayer] stores the new key before it
    stops. *)
Theorem reset_disables (fuel : nat) (s : State) :
  let s0 := fst (reset s) in
  s0 = mkState (heap s) None (currentPosGroupId s) (log s)
  /\ getCurrentPosGroup s0 = (s0, Throw TypeError)
  /\ (forall i, getGroup fuel i s0 = (s0, Throw TypeError))
  /\ getDrawDisplayDetails s0 = (s0, Throw TypeError)
  /\ getDrawStoreDetails fuel s0 = (s0, Throw TypeError)
  /\ (forall d, updateDraw fuel d s0 = (s0, Throw TypeError))
  /\ (forall i cmdCallback exeCallback,
        deleteDraw fuel i cmdCallback exeCallback s0 = (s0, Throw TypeError))
  /\ (forall cmdCallback exeCallback,
        deleteDraws fuel cmdCallback exeCallback s0 = (s0, Throw TypeError))
  /\ (forall index scrollIndex K,
        Index_toStringId index
          (scrollIndex :: seq 3 (Index_length index - 3)) = Some K ->
        activateDrawLayer index scrollIndex s0
        = (mkState (heap s) None (Some K) (log s), Throw TypeError)).
Proof.
  intros s0.
  assert (Hs0 : s0 = mkState (heap s) None (currentPosGroupId s) (log s))
    by reflexivity.
  assert (Hlayer : thisLayer s0 = (s0, Throw TypeError))
    by (apply thisLayer_none; now rewrite Hs0).
  split; [exact Hs0|].
  split; [unfold getCurrentPosGroup; now rewrite (bind_throw _ _ _ _ _ Hlayer)|].
  split; [intros i; unfold getGroup; now rewrite (bind_throw _ _ _ _ _ Hlayer)|].
  split; [unfold getDrawDisplayDetails;
          now rewrite (bind_throw _ _ _ _ _ Hlayer)|].
  split; [unfold getDrawStoreDetails;
          now rewrite (bind_throw _ _ _ _ _ Hlayer)|].
  split; [intros d; unfold updateDraw;
          now rewrite (bind_throw _ _ _ _ _ Hlayer)|].
  split.
  { intros i cmdCallback exeCallback. unfold deleteDraw.
    assert (Hget : getGroup fuel i s0 = (s0, Throw TypeError))
      by (unfold getGroup; now rewrite (bind_throw _ _ _ _ _ Hlayer)).
    now rewrite (bind_throw _ _ _ _ _ Hget). }
  split.
  { intros cmdCallback exeCallback. unfold deleteDraws.
    now rewrite (bind_throw _ _ _ _ _ Hlayer). }
  intros index scrollIndex K HK. unfold activateDrawLayer. cbv zeta.
  rewrite HK. reflexivity.
Qed.

(** X9. Without an active key (the state of a new controller) the search of
    [getCurrentPosGroup] matches nothing: every call adds one more visible
    Position Group, with the empty identifier, and two calls in a row
    return two different nodes. *)
Theorem getCurrentPosGroup_without_key (s : State) (L : Konva.ref) :
  konvaLayer s = Some L -> closedAt (heap s) L ->
  currentPosGroupId s = None ->
  let g1 := List.length (heap s) in
  let g2 := S g1 in
  exists s1 s2,
    getCurrentPosGroup s = (s1, Ok (Some g1))
    /\ getCurrentPosGroup s1 = (s2, Ok (Some g2))
    /\ layerChildren s2 = layerChildren s ++ [g1; g2]
    /\ heap s2 !! g1 = Some (newPositionGroup None L)
    /\ heap s2 !! g2 = Some (newPositionGroup None L).
Proof.
  intros HL (ln & Hln & Hall) HK g1 g2.
  assert (HLlt : L < List.length (heap s)) by (eapply lookup_lt_Some, Hln).
  pose proof (getCurrentPosGroup_created s L ln HL Hln Hall) as Hrun1.
  rewrite HK in Hrun1. specialize (Hrun1 (nodesWhere_never _ _)).
  cbv zeta in Hrun1. fold g1 in Hrun1.
  set (ln1 := Konva.with_children (Konva.children ln ++ [g1]) ln) in *.
  set (h1 := <[L := ln1]> (heap s) ++ [newPositionGroup None L]) in *.
  set (s1 := with_heap h1 s) in *.
  assert (Hlen1 : List.length h1 = g2).
  { unfold h1. rewrite length_app, length_insert. cbn. unfold g2, g1. lia. }
  assert (Hln1 : heap s1 !! L = Some ln1).
  { apply lookup_app_l_Some, list_lookup_insert_eq. exact HLlt. }
  assert (Hall1 : Forall (fun c => is_Some (heap s1 !! c)) (Konva.children ln1)).
  { cbn [ln1 Konva.children Konva.with_children]. apply Forall_app. split.
    - eapply Forall_impl; [exact Hall|]. intros c Hc. cbn beta in Hc.
      apply lookup_lt_is_Some. apply lookup_lt_is_Some in Hc.
      change (heap s1) with h1. lia.
    - constructor; [|constructor]. apply lookup_lt_is_Some.
      change (heap s1) with h1. unfold g2 in Hlen1. lia. }
  pose proof (getCurrentPosGroup_created s1 L ln1 HL Hln1 Hall1) as Hrun2.
  change (currentPosGroupId s1) with (currentPosGroupId s) in Hrun2.
  rewrite HK in Hrun2. specialize (Hrun2 (nodesWhere_never _ _)).
  cbv zeta in Hrun2. change (heap s1) with h1 in Hrun2.
  rewrite Hlen1 in Hrun2.
  eexists _, _. split; [exact Hrun1|]. split; [exact Hrun2|].
  assert (HLlt1 : L < List.length h1) by lia.
  split.
  { unfold layerChildren. cbn [konvaLayer with_heap heap].
    change (konvaLayer s1) with (konvaLayer s). rewrite HL.
    unfold childrenOf.
    rewrite lookup_app_l by (rewrite length_insert; exact HLlt1).
    rewrite list_lookup_insert_eq by exact HLlt1. rewrite Hln.
    cbn [ln1 Konva.children Konva.with_children].
    now rewrite <- app_assoc. }
  cbn [heap with_heap]. split.
  - rewrite lookup_app_l by (rewrite length_insert, Hlen1; unfold g2; lia).
    rewrite list_lookup_insert_ne by (unfold g1; lia).
    unfold h1. rewrite lookup_app_r by (rewrite length_insert; unfold g1; lia).
    rewrite length_insert. unfold g1. now rewrite Nat.sub_diag.
  - rewrite lookup_app_r by (rewrite length_insert, Hlen1; lia).
    rewrite length_insert, Hlen1. now rewrite Nat.sub_diag.
Qed.

End MissingAndReset.

(* ===================================================================== *)
(** * [activateDrawLayer]: what changes, and calling it twice *)
(* ===================================================================== *)

Section ActivateFrame.
Context `{Ext : Externals}.

Lemma nodesWhere_ext h h' p l :
  (forall c, c ∈ l -> nodeSat h' p c = nodeSat h p c) ->
  nodesWhere h' p l = nodesWhere h p l.
Proof.
  induction l as [|c l IH]; intros H; [reflexivity|].
  rewrite !nodesWhere_cons, H by apply list_elem_of_here.
  rewrite IH; [reflexivity|].
  intros c' Hc'. apply H. now apply list_elem_of_further.
Qed.

Lemma visibility_pass_length l :
  always (fun s s' => List.length (heap s') = List.length (heap s))
    (forM_ l (fun g =>
                do n <- getNode g;
                do key <- gets currentPosGroupId;
                let visible := idIsKey key n in
                updNode g (Konva.with_visible visible))).
Proof.
  apply always_forM; [reflexivity|intros s1 s2 s3 H1 H2; congruence|].
  intros g. apply always_bind; [intros s1 s2 s3 H1 H2; congruence| |].
  { apply always_readonly; [reflexivity|apply readonly_getNode]. }
  intros n. apply always_bind; [intros s1 s2 s3 H1 H2; congruence| |].
  { apply always_readonly; [reflexivity|apply readonly_gets]. }
  intros key s. cbv zeta. unfold updNode, bind, getNode.
  destruct (heap s !! g); [|reflexivity].
  cbn [fst setNode modify]. rewrite with_heap_heap. apply length_insert.
Qed.

(** The run of [activateDrawLayer] on a layer whose children exist. *)
Lemma activateDrawLayer_run index scrollIndex K s L :
  Index_toStringId index (scrollIndex :: seq 3 (Index_length index - 3))
  = Some K ->
  konvaLayer s = Some L -> closedAt (heap s) L ->
  exists s',
    activateDrawLayer index scrollIndex s = (s', Ok tt)
    /\ konvaLayer s' = konvaLayer s
    /\ currentPosGroupId s' = Some K
    /\ log s' = log s
    /\ List.length (heap s') = List.length (heap s)
    /\ forall r n, heap s !! r = Some n ->
         heap s' !! r
         = Some (if bool_decide (r ∈ positionGroups s)
                 then Konva.with_visible (isNodeWithId K n) n else n).
Proof.
  intros Hkey HL (ln & Hln & Hclosed).
  unfold activateDrawLayer. cbn zeta. rewrite Hkey.
  unfold ret at 1, bind at 1. unfold modify at 1, bind at 1.
  set (s0 := mkState (heap s) (konvaLayer s) (Some K) (log s)).
  rewrite (bind_ok _ _ _ _ _ (thisLayer_ok L s0 HL)).
  erewrite bind_ok; [|apply getChildrenIf_ok; now exists ln].
  assert (Hpg : nodesWhere (heap s0) isPositionNode (childrenOf (heap s0) L)
                = positionGroups s).
  { unfold positionGroups, layerChildren. now rewrite HL. }
  rewrite Hpg.
  destruct (visibility_pass K (positionGroups s) s0)
    as (s' & Hrun & HL' & HK' & Hlog' & Hheap').
  { reflexivity. }
  { apply Forall_forall. intros c Hc. unfold positionGroups in Hc.
    apply list_elem_of_In, nodesWhere_In in Hc as (_ & n & Hn & _).
    now exists n. }
  pose proof (visibility_pass_length (positionGroups s) s0) as Hlen.
  cbv beta in Hlen. rewrite Hrun in Hlen. cbn [fst] in Hlen.
  rewrite (bind_ok _ _ _ _ _ Hrun). exists s'.
  split; [reflexivity|]. split; [exact HL'|]. split; [exact HK'|].
  split; [exact Hlog'|]. split; [exact Hlen|exact Hheap'].
Qed.

(** X10. [activateDrawLayer] stores the new key and rewrites the [visible] flag
    of the Position Groups under the layer (to "the identifier is the new
    key"); it changes nothing else: no other node, no other attribute, not
    the tree, not the log. *)
Theorem activateDrawLayer_frame (index : Index) (scrollIndex : nat)
    (K : string) (s : State) (L : Konva.ref) :
  Index_toStringId index (scrollIndex :: seq 3 (Index_length index - 3))
  = Some K ->
  konvaLayer s = Some L -> closedAt (heap s) L ->
  exists s',
    activateDrawLayer index scrollIndex s = (s', Ok tt)
    /\ konvaLayer s' = konvaLayer s
    /\ currentPosGroupId s' = Some K
    /\ log s' = log s
    /\ List.length (heap s') = List.length (heap s)
    /\ (forall r n, heap s !! r = Some n -> r ∈ positionGroups s ->
          heap s' !! r = Some (Konva.with_visible (String.eqb (Konva.id n) K) n))
    /\ (forall r, r ∉ positionGroups s -> heap s' !! r = heap s !! r).
Proof.
  intros Hkey HL Hclosed.
  destruct (activateDrawLayer_run index scrollIndex K s L Hkey HL Hclosed)
    as (s' & Hrun & HL' & HK' & Hlog' & Hlen & Hheap').
  exists s'. split; [exact Hrun|]. split; [exact HL'|]. split; [exact HK'|].
  split; [exact Hlog'|]. split; [exact Hlen|]. split.
  - intros r n Hn Hin. rewrite (Hheap' _ _ Hn).
    now rewrite bool_decide_eq_true_2 by exact Hin.
  - intros r Hnin. destruct (heap s !! r) as [n|] eqn:Hn.
    + rewrite (Hheap' _ _ Hn).
      now rewrite bool_decide_eq_false_2 by exact Hnin.
    + apply lookup_ge_None. rewrite Hlen. now apply lookup_ge_None.
Qed.

(** X11. Activating the same position twice in a row: the second call returns
    and changes nothing. *)
Theorem activateDrawLayer_twice (index : Index) (scrollIndex : nat)
    (K : string) (s : State) (L : Konva.ref) :
  Index_toStringId index (scrollIndex :: seq 3 (Index_length index - 3))
  = Some K ->
  konvaLayer s = Some L -> closedAt (heap s) L ->
  exists s',
    activateDrawLayer index scrollIndex s = (s', Ok tt)
    /\ activateDrawLayer index scrollIndex s' = (s', Ok tt).
Proof.
  intros Hkey HL Hclosed.
  destruct (activateDrawLayer_run index scrollIndex K s L Hkey HL Hclosed)
    as (s' & Hrun & HL' & HK' & Hlog' & Hlen & Hheap').
  exists s'. split; [exact Hrun|].
  destruct Hclosed as (ln & Hln & Hall).
  assert (Hln' : heap s' !! L
                 = Some (if bool_decide (L ∈ positionGroups s)
                         then Konva.with_visible (isNodeWithId K ln) ln
                         else ln)) by (now apply Hheap').
  assert (Hkids : childrenOf (heap s') L = Konva.children ln).
  { unfold childrenOf. rewrite Hln'. now destruct (bool_decide _). }
  assert (Hclosed' : closedAt (heap s') L).
  { eexists. split; [exact Hln'|].
    replace (Konva.children _) with (Konva.children ln)
      by (now destruct (bool_decide _)).
    eapply Forall_impl; [exact Hall|]. intros c Hc. cbn beta in Hc.
    apply lookup_lt_is_Some. rewrite Hlen. now apply lookup_lt_is_Some. }
  assert (Hpg : positionGroups s' = positionGroups s).
  { unfold positionGroups, layerChildren. rewrite HL', HL, Hkids.
    unfold childrenOf. rewrite Hln. apply nodesWhere_ext.
    intros c Hc. rewrite Forall_forall in Hall.
    destruct (Hall c Hc) as [n Hn]. unfold nodeSat.
    rewrite (Hheap' _ _ Hn), Hn.
    destruct (bool_decide (c ∈ positionGroups s)); reflexivity. }
  assert (HLs' : konvaLayer s' = Some L) by congruence.
  destruct (activateDrawLayer_run index scrollIndex K s' L Hkey HLs' Hclosed')
    as (s'' & Hrun' & HL'' & HK'' & Hlog'' & Hlen' & Hheap'').
  rewrite Hrun'. f_equal.
  assert (Hheap : heap s'' = heap s').
  { apply list_eq. intros r. destruct (heap s' !! r) as [n'|] eqn:Hn'.
    - rewrite (Hheap'' _ _ Hn'), Hpg.
      assert (Hr : is_Some (heap s !! r)).
      { apply lookup_lt_is_Some. rewrite <- Hlen. eapply lookup_lt_Some, Hn'. }
      destruct Hr as [n Hn]. rewrite (Hheap' _ _ Hn) in Hn'.
      destruct (bool_decide (r ∈ positionGroups s)); inversion Hn'; subst n';
        reflexivity.
    - apply lookup_ge_None. rewrite Hlen'. now apply lookup_ge_None. }
  destruct s'' as [h2 l2 k2 g2], s' as [h1 l1 k1 g1]. cbn in *. congruence.
Qed.

End ActivateFrame.

(* ===================================================================== *)
(** * After [deleteDraws] *)
(* ===================================================================== *)

Section AfterDelete.
Context `{Ext : Externals}.

(** X12. Once [deleteDraws] has emptied the layer, the queries have nothing to
    report: the display list and the stored details are empty, and no
    identifier is found.  This holds whenever [deleteDraws] returns, with
    callbacks that observe; and it returns on a well formed scene in which
    the children of the layer are containers (on a shape the code stops at
    [group.getChildren]), with one more test of the loop than the layer has
    children. *)
Theorem deleteDraws_then_queries (fuel fuel' : nat)
    (cmdCallback exeCallback : Callback) (s : State) (L : Konva.ref) :
  observer cmdCallback -> observer exeCallback ->
  konvaLayer s = Some L ->
  (forall s',
     deleteDraws fuel cmdCallback exeCallback s = (s', Ok tt) ->
     getDrawDisplayDetails s' = (s', Ok [])
     /\ getDrawStoreDetails fuel' s' = (s', Ok ∅)
     /\ forall i,
          getGroup (S fuel') i s'
          = (mkState (heap s') (konvaLayer s') (currentPosGroupId s')
               (log s' ++ [("Cannot find node with id: " ++ i)%string]),
             Ok None))
  /\ (wf (heap s) -> is_Some (heap s !! L) ->
      Forall (containerAt (heap s)) (layerChildren s) ->
      List.length (layerChildren s) < fuel ->
      exists s', deleteDraws fuel cmdCallback exeCallback s = (s', Ok tt)).
Proof.
  intros Hcmd Hexe HL. split.
  - intros s' Hrun. unfold deleteDraws in Hrun.
    rewrite (bind_ok _ _ _ _ _ (thisLayer_ok _ _ HL)) in Hrun.
    apply (deleteDraws_loop_returns _ _ _ Hcmd Hexe) in Hrun
      as ([ln' Hln'] & Hempty & Hlayer).
    assert (HL' : konvaLayer s' = Some L) by congruence.
    assert (Hkids : Konva.children ln' = []).
    { unfold childrenOf in Hempty. now rewrite Hln' in Hempty. }
    split.
    { unfold getDrawDisplayDetails.
      rewrite (bind_ok _ _ _ _ _ (thisLayer_ok _ _ HL')).
      rewrite (bind_ok _ _ _ _ _ (getChildren_ok _ _ _ Hln')).
      now rewrite Hkids. }
    split.
    { unfold getDrawStoreDetails.
      rewrite (bind_ok _ _ _ _ _ (thisLayer_ok _ _ HL')).
      erewrite bind_ok.
      2:{ apply getChildrenIf_ok. exists ln'. split; [exact Hln'|].
          rewrite Hkids. constructor. }
      unfold childrenOf. now rewrite Hln', Hkids. }
    intros i. apply (getGroup_none (S fuel') i s' L []); [exact HL'| |easy].
    rewrite (descendants_step _ _ _ _ Hln'). now rewrite Hkids.
  - intros Hwf [ln Hln] Hcont Hfuel. unfold deleteDraws.
    rewrite (bind_ok _ _ _ _ _ (thisLayer_ok _ _ HL)).
    unfold layerChildren in Hfuel, Hcont. rewrite HL in Hfuel, Hcont.
    unfold childrenOf in Hfuel, Hcont. rewrite Hln in Hfuel, Hcont.
    destruct (deleteDraws_loop_empties cmdCallback exeCallback L Hcmd Hexe
                (Konva.children ln) fuel s ln)
      as (s' & Hrun & _); try easy.
    + now apply wf_closedHeap.
    + eapply wf_NoDup; eauto.
    + intros c Hc.
      destruct (wf_children _ _ _ _ Hwf Hln Hc) as (cn & Hcn & Hpar).
      exists cn. split; [exact Hcn|]. split; [exact Hpar|].
      rewrite Forall_forall in Hcont.
      exact (proj1 (containerAt_Some _ _ _ Hcn) (Hcont c Hc)).
    + now exists s'.
Qed.

End AfterDelete.

(* ===================================================================== *)
(** * [updateDraw]: the colours, and what stays *)
(* ===================================================================== *)

Section Colours.
Context `{Ext : Externals}.
Variables c sh : string.

Lemma paintedNode_refl n : paintedNode c sh n n.
Proof. repeat split; auto. Qed.

Lemma paintedNode_trans n1 n2 n3 :
  paintedNode c sh n1 n2 -> paintedNode c sh n2 n3 -> paintedNode c sh n1 n3.
Proof.
  intros (Hn & Hc & Hk & Hs & Hf & Hd) (Hn' & Hc' & Hk' & Hs' & Hf' & Hd').
  split; [congruence|]. split; [congruence|]. split; [congruence|].
  assert (Hshape : isNodeNameShape n2 = isNodeNameShape n1)
    by (unfold isNodeNameShape; now rewrite Hn).
  split; [|split].
  - destruct Hs' as [Hs'|[Hs' Hwhy']].
    + rewrite Hs'. exact Hs.
    + right. split; [exact Hs'|]. rewrite Hshape in Hwhy'.
      destruct Hwhy' as [Hwhy'|Hwhy']; [|now right].
      destruct Hs as [Hs|[_ Hs]]; [left; congruence|exact Hs].
  - destruct Hf' as [Hf'|Hf']; [rewrite Hf'; exact Hf|now right].
  - destruct Hd' as [Hd'|Hd']; [rewrite Hd'; exact Hd|now right].
Qed.

Lemma paintOnly_refl s : paintOnly c sh s s.
Proof. intros x n Hn. exists n. split; [exact Hn|apply paintedNode_refl]. Qed.

Lemma paintOnly_trans s1 s2 s3 :
  paintOnly c sh s1 s2 -> paintOnly c sh s2 s3 -> paintOnly c sh s1 s3.
Proof.
  intros H12 H23 x n Hn. destruct (H12 _ _ Hn) as (n2 & Hn2 & Hp).
  destruct (H23 _ _ Hn2) as (n3 & Hn3 & Hp'). exists n3.
  split; [exact Hn3|]. eapply paintedNode_trans; eassumption.
Qed.

Lemma paintOnly_readonly {A} (m : M A) :
  readonly m -> always (paintOnly c sh) m.
Proof. apply always_readonly, paintOnly_refl. Qed.

Lemma paintOnly_ret {A} (a : A) : always (paintOnly c sh) (ret a).
Proof. apply always_ret, paintOnly_refl. Qed.

Lemma paintOnly_throw {A} (e : exn) : always (paintOnly c sh) (@throw _ A e).
Proof. apply always_throw, paintOnly_refl. Qed.

Lemma paintOnly_bind {A B} (m : M A) (k : A -> M B) :
  always (paintOnly c sh) m -> (forall a, always (paintOnly c sh) (k a)) ->
  always (paintOnly c sh) (bind m k).
Proof. apply always_bind, paintOnly_trans. Qed.

Lemma paintOnly_bind_run {A B} (m : M A) (k : A -> M B) :
  always (paintOnly c sh) m ->
  (forall a s s', m s = (s', Ok a) -> paintOnly c sh s' (fst (k a s'))) ->
  always (paintOnly c sh) (bind m k).
Proof. apply always_bind_run, paintOnly_trans. Qed.

Lemma paintOnly_forM {A} (f : A -> M unit) (l : list A) :
  (forall x, always (paintOnly c sh) (f x)) ->
  always (paintOnly c sh) (forM_ l f).
Proof. apply always_forM; [apply paintOnly_refl|apply paintOnly_trans]. Qed.

(** One node is replaced by a painted version of itself. *)
Lemma paintOnly_insert s r n n' :
  heap s !! r = Some n -> paintedNode c sh n n' ->
  paintOnly c sh s (with_heap (<[r := n']> (heap s)) s).
Proof.
  intros Hr Hp x nx Hx. rewrite with_heap_heap.
  destruct (decide (x = r)) as [->|Hne].
  - assert (nx = n) as -> by congruence. exists n'. split; [|exact Hp].
    apply list_lookup_insert_eq. eapply lookup_lt_Some, Hr.
  - exists nx. rewrite list_lookup_insert_ne by congruence.
    split; [exact Hx|apply paintedNode_refl].
Qed.

Lemma paintOnly_updNode r f :
  (forall n, paintedNode c sh n (f n)) -> always (paintOnly c sh) (updNode r f).
Proof.
  intros Hf s. unfold updNode, bind, getNode.
  destruct (heap s !! r) as [n|] eqn:Hn; [|apply paintOnly_refl].
  cbn [fst setNode modify]. now apply paintOnly_insert with (n := n).
Qed.

(** What a loop establishes for each of its elements, when the rest of the
    loop keeps it. *)
Lemma forM_post {A} (R : State -> State -> Prop) (body : A -> M unit)
    (Q : A -> State -> Prop) :
  (forall s, R s s) -> (forall s1 s2 s3, R s1 s2 -> R s2 s3 -> R s1 s3) ->
  (forall a, always R (body a)) ->
  (forall a s t, body a s = (t, Ok tt) -> Q a t) ->
  (forall a s t, R s t -> Q a s -> Q a t) ->
  forall l s s', forM_ l body s = (s', Ok tt) ->
    forall a, a ∈ l -> Q a s'.
Proof.
  intros Hrefl Htrans Hbody Hpost Hstable.
  induction l as [|x l IH]; intros s s' Hrun a Ha.
  - now apply elem_of_nil in Ha.
  - cbn [forM_] in Hrun. apply bind_inv in Hrun as ([] & t & Hx & Hrest).
    apply elem_of_cons in Ha as [->|Ha].
    + apply (Hstable x t s'); [|now apply (Hpost x s t)].
      pose proof (always_forM R Hrefl Htrans body l Hbody t) as HR.
      now rewrite Hrest in HR.
    + now apply (IH t s').
Qed.

(** The loop over the shapes. *)
Lemma shapes_loop_paint l :
  forall s s1,
    forM_ l (fun x => updNode x (Konva.with_stroke (Some c))) s = (s1, Ok tt) ->
    (forall x, x ∈ l -> nodeSat (heap s) isNodeNameShape x = true) ->
    paintOnly c sh s s1
    /\ forall x, x ∈ l ->
         exists n', heap s1 !! x = Some n' /\ Konva.stroke n' = Some c.
Proof.
  induction l as [|x l IH]; intros s s1 Hrun Hshape.
  - cbn in Hrun. inversion Hrun; subst. split; [apply paintOnly_refl|].
    intros x Hx. now apply elem_of_nil in Hx.
  - cbn [forM_] in Hrun. apply bind_inv in Hrun as ([] & t & Hx & Hrest).
    apply updNode_inv in Hx as (n & Hn & ->).
    assert (Hsx : isNodeNameShape n = true).
    { specialize (Hshape x (list_elem_of_here _ _)).
      now rewrite (nodeSat_Some _ _ _ _ Hn) in Hshape. }
    assert (Hstep : paintOnly c sh s
                      (with_heap (<[x := Konva.with_stroke (Some c) n]> (heap s)) s)).
    { apply paintOnly_insert with (n := n); [exact Hn|].
      repeat split; auto. }
    destruct (IH _ _ Hrest) as [Hp Hstroke].
    { intros y Hy. specialize (Hshape y (list_elem_of_further _ _ _ Hy)).
      unfold nodeSat in *. destruct (heap s !! y) as [ny|] eqn:Hny;
        [|discriminate].
      destruct (Hstep _ _ Hny) as (ny' & Hny' & Hname & _).
      rewrite Hny'. unfold isNodeNameShape in *. now rewrite Hname. }
    split; [eapply paintOnly_trans; eassumption|].
    intros y Hy. apply elem_of_cons in Hy as [->|Hy]; [|now apply Hstroke].
    assert (Hxt : heap (with_heap
                          (<[x := Konva.with_stroke (Some c) n]> (heap s)) s)
                  !! x = Some (Konva.with_stroke (Some c) n)).
    { rewrite with_heap_heap. apply list_lookup_insert_eq.
      eapply lookup_lt_Some, Hn. }
    destruct (Hp _ _ Hxt) as (n' & Hn' & _ & _ & _ & Hs & _).
    exists n'. split; [exact Hn'|].
    destruct Hs as [Hs|[Hs _]]; [now rewrite Hs|exact Hs].
Qed.

Lemma painted_attr n n' :
  Konva.name n' = Konva.name n ->
  Konva.className n' = Konva.className n ->
  Konva.children n' = Konva.children n ->
  Konva.stroke n' = Konva.stroke n ->
  Konva.fill n' = Konva.fill n ->
  Konva.shadowColor n' = Konva.shadowColor n ->
  paintedNode c sh n n'.
Proof. intros. repeat split; auto. Qed.

Lemma painted_fill n : paintedNode c sh n (Konva.with_fill (Some c) n).
Proof.
  split; [reflexivity|]. split; [reflexivity|]. split; [reflexivity|].
  split; [now left|]. split; [now right|now left].
Qed.

Lemma painted_shadow n :
  paintedNode c sh n (Konva.with_shadowColor (Some sh) n).
Proof.
  split; [reflexivity|]. split; [reflexivity|]. split; [reflexivity|].
  split; [now left|]. split; [now left|now right].
Qed.

(** The body of the loop over the decorations. *)
Lemma extras_body_paint ex :
  always (paintOnly c sh)
    (do e <- getNode ex;
     match Konva.stroke e, Konva.fill e with
     | Some _, _ => updNode ex (Konva.with_stroke (Some c))
     | None, Some _ => updNode ex (Konva.with_fill (Some c))
     | None, None => ret tt
     end).
Proof.
  apply paintOnly_bind_run; [apply paintOnly_readonly, readonly_getNode|].
  intros e s0 s Hrun. apply getNode_inv in Hrun as [-> He].
  destruct (Konva.stroke e) as [st|] eqn:Hst.
  - rewrite (updNode_ok _ _ _ _ He). cbn [fst].
    apply paintOnly_insert with (n := e); [exact He|].
    split; [reflexivity|]. split; [reflexivity|]. split; [reflexivity|].
    split; [|split; now left].
    right. split; [reflexivity|]. left. congruence.
  - destruct (Konva.fill e).
    + apply paintOnly_updNode. intros n. apply painted_fill.
    + apply paintOnly_refl.
Qed.

Lemma decorationPainted_keeps n n' :
  paintedNode c sh n n' -> decorationPainted c n -> decorationPainted c n'.
Proof.
  intros (_ & _ & _ & Hs & Hf & _) Hd. unfold decorationPainted in *.
  destruct Hs as [Hs|[Hs _]]; [|now left]. rewrite Hs.
  destruct Hd as [Hd|[Hd Hfill]]; [now left|]. right. split; [exact Hd|].
  destruct Hf as [Hf|Hf]; [now rewrite Hf|now left].
Qed.

Lemma extras_body_post ex s t :
  (do e <- getNode ex;
   match Konva.stroke e, Konva.fill e with
   | Some _, _ => updNode ex (Konva.with_stroke (Some c))
   | None, Some _ => updNode ex (Konva.with_fill (Some c))
   | None, None => ret tt
   end) s = (t, Ok tt) ->
  exists n, heap t !! ex = Some n /\ decorationPainted c n.
Proof.
  intros H. apply bind_inv in H as (e & s0 & He & H).
  apply getNode_inv in He as [-> He].
  assert (Hlt : ex < List.length (heap s)) by (eapply lookup_lt_Some, He).
  destruct (Konva.stroke e) as [st|] eqn:Hst;
    [|destruct (Konva.fill e) as [fl|] eqn:Hfl].
  - rewrite (updNode_ok _ _ _ _ He) in H. inversion H; subst t.
    eexists. split; [apply list_lookup_insert_eq; exact Hlt|]. now left.
  - rewrite (updNode_ok _ _ _ _ He) in H. inversion H; subst t.
    eexists. split; [apply list_lookup_insert_eq; exact Hlt|].
    right. split; [exact Hst|now left].
  - unfold ret in H. inversion H; subst t. exists e. split; [exact He|].
    right. split; [exact Hst|now right].
Qed.

Lemma labelKidPainted_keeps n n' :
  paintedNode c sh n n' -> labelKidPainted c sh n -> labelKidPainted c sh n'.
Proof.
  intros (_ & Hc & _ & _ & Hf & Hd) [Hfill Hshadow]. split.
  - destruct Hf as [Hf|Hf]; [now rewrite Hf|exact Hf].
  - intros Htext. rewrite Hc in Htext. specialize (Hshadow Htext).
    destruct Hd as [Hd|Hd]; [now rewrite Hd|exact Hd].
Qed.

End Colours.

Section UpdateColours.
Context `{Ext : Externals}.

(** The tail of the body of the loop over the children of the label. *)
Lemma kid_tail_paint (d : DrawDetails) label kid :
  always (paintOnly (ud_color d) (getShadowColour (ud_color d)))
    (match ud_meta d with
     | Some m =>
         do _ <- updNode kid (Konva.with_meta (Some m));
         do _ <- updNode kid
                   (Konva.with_text
                      (replaceFlags (Konva.textExpr m)
                         (Konva.quantification m)));
         updNode label
           (Konva.with_visible
              (negb (Nat.eqb (JS.length (Konva.textExpr m)) 0)))
     | None => ret tt
     end).
Proof.
  destruct (ud_meta d) as [m|]; [|apply paintOnly_ret].
  repeat (apply paintOnly_bind; [|intros _]);
    apply paintOnly_updNode; intros n; now apply painted_attr.
Qed.

Lemma kid_body_paint (d : DrawDetails) label kid :
  always (paintOnly (ud_color d) (getShadowColour (ud_color d)))
    (do _ <- updNode kid (Konva.with_fill (Some (ud_color d)));
     do k <- getNode kid;
     if String.eqb (Konva.className k) "Text" then
       do _ <- updNode kid
                 (Konva.with_shadowColor
                    (Some (getShadowColour (ud_color d))));
       match ud_meta d with
       | Some m =>
           do _ <- updNode kid (Konva.with_meta (Some m));
           do _ <- updNode kid
                     (Konva.with_text
                        (replaceFlags (Konva.textExpr m)
                           (Konva.quantification m)));
           updNode label
             (Konva.with_visible
                (negb (Nat.eqb (JS.length (Konva.textExpr m)) 0)))
       | None => ret tt
       end
     else ret tt).
Proof.
  apply paintOnly_bind; [|intros _].
  { apply paintOnly_updNode. intros n. apply painted_fill. }
  apply paintOnly_bind; [apply paintOnly_readonly, readonly_getNode|].
  intros k. destruct (String.eqb (Konva.className k) "Text");
    [|apply paintOnly_ret].
  apply paintOnly_bind; [|intros _; apply kid_tail_paint].
  apply paintOnly_updNode. intros n. apply painted_shadow.
Qed.

Lemma kid_body_post (d : DrawDetails) label kid s t :
  (do _ <- updNode kid (Konva.with_fill (Some (ud_color d)));
   do k <- getNode kid;
   if String.eqb (Konva.className k) "Text" then
     do _ <- updNode kid
               (Konva.with_shadowColor
                  (Some (getShadowColour (ud_color d))));
     match ud_meta d with
     | Some m =>
         do _ <- updNode kid (Konva.with_meta (Some m));
         do _ <- updNode kid
                   (Konva.with_text
                      (replaceFlags (Konva.textExpr m)
                         (Konva.quantification m)));
         updNode label
           (Konva.with_visible
              (negb (Nat.eqb (JS.length (Konva.textExpr m)) 0)))
     | None => ret tt
     end
   else ret tt) s = (t, Ok tt) ->
  exists n, heap t !! kid = Some n
            /\ labelKidPainted (ud_color d) (getShadowColour (ud_color d)) n.
Proof.
  intros H. apply bind_inv in H as (u1 & s1 & H1 & H).
  apply updNode_inv in H1 as (n & Hn & ->).
  assert (Hlt : kid < List.length (heap s)) by (eapply lookup_lt_Some, Hn).
  apply bind_inv in H as (k & s1' & Hk & H).
  apply getNode_inv in Hk as [-> Hk]. rewrite with_heap_heap in Hk.
  rewrite list_lookup_insert_eq in Hk by exact Hlt. inversion Hk; subst k.
  cbn [Konva.className Konva.with_fill] in H.
  destruct (String.eqb (Konva.className n) "Text") eqn:Hcls.
  - apply bind_inv in H as (u2 & s2 & H2 & H).
    apply updNode_inv in H2 as (k & Hk' & ->).
    rewrite with_heap_heap in Hk'.
    rewrite list_lookup_insert_eq in Hk' by exact Hlt. inversion Hk'; subst k.
    pose proof (kid_tail_paint d label kid) as Htail.
    match type of H with
    | _ ?st = _ => specialize (Htail st)
    end.
    rewrite H in Htail. cbn [fst] in Htail.
    destruct (Htail kid (Konva.with_shadowColor
                           (Some (getShadowColour (ud_color d)))
                           (Konva.with_fill (Some (ud_color d)) n)))
      as (n' & Hn' & Hp).
    { rewrite !with_heap_heap. apply list_lookup_insert_eq.
      now rewrite length_insert. }
    exists n'. split; [exact Hn'|].
    eapply labelKidPainted_keeps; [exact Hp|]. now split.
  - unfold ret in H. inversion H; subst t. eexists. split.
    + rewrite with_heap_heap. apply list_lookup_insert_eq. exact Hlt.
    + split; [reflexivity|]. cbn [Konva.className Konva.with_fill].
      intros Htext. rewrite Htext in Hcls. discriminate Hcls.
Qed.

Lemma paintOnly_childrenOf c sh s s' x :
  paintOnly c sh s s' -> is_Some (heap s !! x) ->
  childrenOf (heap s') x = childrenOf (heap s) x.
Proof.
  intros Hp [n Hn]. destruct (Hp _ _ Hn) as (n' & Hn' & _ & _ & Hk & _).
  unfold childrenOf. now rewrite Hn, Hn'.
Qed.

Lemma paintOnly_nodesWhere c sh s s' (p : Konva.Node -> bool) l :
  (forall n n', Konva.name n' = Konva.name n -> p n' = p n) ->
  paintOnly c sh s s' ->
  Forall (fun x => is_Some (heap s !! x)) l ->
  nodesWhere (heap s') p l = nodesWhere (heap s) p l.
Proof.
  intros Hname Hp Hall. apply nodesWhere_ext. intros x Hx.
  rewrite Forall_forall in Hall. destruct (Hall x Hx) as [n Hn].
  destruct (Hp _ _ Hn) as (n' & Hn' & Hnm & _).
  unfold nodeSat. rewrite Hn, Hn'. now apply Hname.
Qed.

Lemma paintOnly_shapeAt c sh s s' x :
  paintOnly c sh s s' -> shapeAt (heap s) x -> shapeAt (heap s') x.
Proof.
  intros Hp Hx. destruct (shapeAt_allocated _ _ Hx) as [n Hn].
  destruct (Hp _ _ Hn) as (n' & Hn' & _ & Hc & _).
  apply (shapeAt_Some _ _ _ Hn'). apply (shapeAt_Some _ _ _ Hn) in Hx.
  now rewrite (isContainer_class _ _ Hc).
Qed.

Lemma shape_not_extra n :
  isNodeNameShapeExtra n = true -> isNodeNameShape n = false.
Proof.
  unfold isNodeNameShapeExtra, isNodeNameShape, JS.startsWith. intros H.
  destruct (String.eqb_spec (Konva.name n) "shape") as [E|_]; [|reflexivity].
  rewrite E in H. discriminate H.
Qed.

(** X13. What [updateDraw] does to the colours of an annotation found by the
    selector ['#' + id], whose group is a container with a label that is a
    container, and whose [shape] children, decorations and label children
    are shapes: every [shape] child of the group gets the colour as stroke;
    a decoration ([shape-...] child) that had a stroke gets it as stroke,
    one that had a fill and no stroke gets it as fill; every child of the
    label gets it as fill, and the [Text] children of the label get the
    shadow colour computed from it. *)
Theorem updateDraw_colours (fuel : nat) (d : DrawDetails) (s : State)
    (L : Konva.ref) (ds : list Konva.ref) (g label : Konva.ref) :
  konvaLayer s = Some L -> closedHeap (heap s) ->
  Konva.descendants fuel (heap s) L = Some ds ->
  head (nodesWhere (heap s) (selectsId (ud_id d)) ds) = Some g ->
  head (nodesWhere (heap s) isNodeNameLabel (childrenOf (heap s) g))
  = Some label ->
  paintable (heap s) g label ->
  exists s',
    updateDraw fuel d s = (s', Ok tt)
    /\ (forall x, x ∈ nodesWhere (heap s) isNodeNameShape (childrenOf (heap s) g) ->
          exists n', heap s' !! x = Some n'
                     /\ Konva.stroke n' = Some (ud_color d))
    /\ (forall x n,
          x ∈ nodesWhere (heap s) isNodeNameShapeExtra (childrenOf (heap s) g) ->
          heap s !! x = Some n ->
          exists n', heap s' !! x = Some n'
            /\ match Konva.stroke n, Konva.fill n with
               | Some _, _ => Konva.stroke n' = Some (ud_color d)
               | None, Some _ =>
                   Konva.stroke n' = None
                   /\ Konva.fill n' = Some (ud_color d)
               | None, None => Konva.stroke n' = None
               end)
    /\ (forall x, x ∈ childrenOf (heap s) label ->
          exists n', heap s' !! x = Some n'
            /\ Konva.fill n' = Some (ud_color d)
            /\ (Konva.className n' = "Text" ->
                Konva.shadowColor n'
                = Some (getShadowColour (ud_color d)))).
Proof.
  intros HL Hclosed Hds Hg Hlabel Hpaint.
  destruct (updateDraw_effect fuel d s L ds g label HL Hclosed Hds Hg Hlabel
              Hpaint)
    as (s' & Hrun & _).
  destruct Hpaint as (_ & Hpshapes & Hpextras & _ & Hpkids).
  exists s'. split; [exact Hrun|].
  pose proof (head_nodesWhere_closed _ _ _ _ Hg) as Hgalloc.
  pose proof (head_nodesWhere_closed _ _ _ _ Hlabel) as Hlalloc.
  assert (Hgkids : Forall (fun x => is_Some (heap s !! x))
                     (childrenOf (heap s) g)).
  { destruct Hgalloc as [gn Hgn]. unfold childrenOf. rewrite Hgn.
    exact (Hclosed _ _ Hgn). }
  (* the run, step by step *)
  unfold updateDraw in Hrun.
  rewrite (bind_ok _ _ _ _ _ (thisLayer_ok _ _ HL)) in Hrun.
  rewrite (bind_ok _ _ _ _ _ (Node_findOne_ok _ _ _ _ _ Hds)), Hg in Hrun.
  cbn zeta in Hrun.
  apply bind_inv in Hrun as (shapes & s0 & Hshapes & Hrun).
  apply Container_getChildrenIf_inv in Hshapes as (-> & _ & _ & ->).
  apply bind_inv in Hrun as ([] & s1 & Hloop1 & Hrun).
  rewrite (shapes_loop_shapes _ _ _ Hpshapes) in Hloop1.
  destruct (shapes_loop_paint (ud_color d) (getShadowColour (ud_color d)) _ _ _ Hloop1) as [Hp1 Hstrokes].
  { intros x Hx. apply list_elem_of_In, nodesWhere_In in Hx
      as (_ & n & Hn & Hsat). now rewrite (nodeSat_Some _ _ _ _ Hn). }
  apply bind_inv in Hrun as (extras & s1' & Hextras & Hrun).
  apply Container_getChildrenIf_inv in Hextras as (-> & _ & _ & ->).
  rewrite (paintOnly_childrenOf _ _ _ _ _ Hp1 Hgalloc) in Hrun.
  rewrite (paintOnly_nodesWhere (ud_color d) (getShadowColour (ud_color d)) s s1 isNodeNameShapeExtra) in Hrun;
    [|intros n n' E; unfold isNodeNameShapeExtra; now rewrite E
     |exact Hp1|exact Hgkids].
  apply bind_inv in Hrun as ([] & s2 & Hloop2 & Hrun).
  assert (Hextras1 : Forall (shapeAt (heap s1))
                       (nodesWhere (heap s) isNodeNameShapeExtra
                          (childrenOf (heap s) g))).
  { eapply Forall_impl; [exact Hpextras|]. intros x.
    now apply (paintOnly_shapeAt _ _ _ _ _ Hp1). }
  rewrite (extras_loop_shapes _ _ _ Hextras1) in Hloop2.
  assert (Hp2 : paintOnly (ud_color d) (getShadowColour (ud_color d)) s1 s2).
  { pose proof (paintOnly_forM (ud_color d) (getShadowColour (ud_color d)) _ (nodesWhere (heap s) isNodeNameShapeExtra
                                         (childrenOf (heap s) g))
                  (extras_body_paint (ud_color d) (getShadowColour (ud_color d))) s1) as H.
    now rewrite Hloop2 in H. }
  pose proof (paintOnly_trans _ _ _ _ _ Hp1 Hp2) as Hp12.
  apply bind_inv in Hrun as (labels & s2' & Hlabels & Hrun).
  apply Container_getChildrenIf_inv in Hlabels as (-> & _ & _ & ->).
  rewrite (paintOnly_childrenOf _ _ _ _ _ Hp12 Hgalloc) in Hrun.
  rewrite (paintOnly_nodesWhere (ud_color d) (getShadowColour (ud_color d)) s s2 isNodeNameLabel) in Hrun;
    [|intros n n' E; unfold isNodeNameLabel; now rewrite E
     |exact Hp12|exact Hgkids].
  rewrite Hlabel in Hrun. unfold ret at 1, bind at 1 in Hrun.
  apply bind_inv in Hrun as (kids & s2' & Hkids & Hrun).
  apply Container_getChildren_inv in Hkids as (-> & _ & ->).
  rewrite (paintOnly_childrenOf _ _ _ _ _ Hp12 Hlalloc) in Hrun.
  apply bind_inv in Hrun as ([] & s3 & Hloop3 & Hrun).
  assert (Hkids2 : Forall (shapeAt (heap s2)) (childrenOf (heap s) label)).
  { eapply Forall_impl; [exact Hpkids|]. intros x.
    now apply (paintOnly_shapeAt _ _ _ _ _ Hp12). }
  rewrite (kids_loop_shapes (ud_color d) (ud_meta d) label _ s2 Hkids2)
    in Hloop3.
  assert (Hp3 : paintOnly (ud_color d) (getShadowColour (ud_color d)) s2 s3).
  { pose proof (paintOnly_forM (ud_color d) (getShadowColour (ud_color d)) _ (childrenOf (heap s) label)
                  (kid_body_paint d label) s2) as H.
    now rewrite Hloop3 in H. }
  apply bind_inv in Hrun as (layer & s3' & Hlayer & Hrun).
  apply thisLayer_inv in Hlayer as [-> _].
  unfold Node_draw, ret in Hrun. inversion Hrun; subst s'. clear Hrun.
  pose proof (paintOnly_trans _ _ _ _ _ Hp2 Hp3) as Hp23.
  pose proof (paintOnly_trans _ _ _ _ _ Hp1 Hp23) as Hp.
  split; [|split].
  - (* shapes *)
    intros x Hx. destruct (Hstrokes x Hx) as (n1 & Hn1 & Hs1).
    destruct (Hp23 _ _ Hn1) as (n' & Hn' & _ & _ & _ & Hs & _).
    exists n'. split; [exact Hn'|].
    destruct Hs as [Hs|[Hs _]]; [now rewrite Hs|exact Hs].
  - (* decorations *)
    intros x n Hx Hn.
    destruct (forM_post (paintOnly (ud_color d) (getShadowColour (ud_color d))) _
                (fun a t => exists m, heap t !! a = Some m
                                      /\ decorationPainted (ud_color d) m)
                (paintOnly_refl (ud_color d) (getShadowColour (ud_color d))) (paintOnly_trans (ud_color d) (getShadowColour (ud_color d)))
                (extras_body_paint (ud_color d) (getShadowColour (ud_color d))) (extras_body_post (ud_color d))) with
      (l := nodesWhere (heap s) isNodeNameShapeExtra (childrenOf (heap s) g))
      (s := s1) (s' := s2) (a := x) as (n2 & Hn2 & Hd2);
      [|exact Hloop2|exact Hx|].
    { intros a t t' HR (m & Hm & Hd). destruct (HR _ _ Hm) as (m' & Hm' & Hpm).
      exists m'. split; [exact Hm'|].
      eapply decorationPainted_keeps; eassumption. }
    destruct (Hp3 _ _ Hn2) as (n' & Hn' & Hp').
    pose proof (decorationPainted_keeps _ _ _ _ Hp' Hd2) as Hd.
    destruct (Hp _ _ Hn) as (n'' & Hn'' & _ & _ & _ & Hs & Hf & _).
    assert (n'' = n') as -> by congruence.
    exists n'. split; [exact Hn'|].
    assert (Hnotshape : isNodeNameShape n = false).
    { apply shape_not_extra.
      apply list_elem_of_In, nodesWhere_In in Hx as (_ & m & Hm & Hsat).
      congruence. }
    unfold decorationPainted in Hd.
    destruct (Konva.stroke n) as [st|] eqn:Hst.
    + destruct Hs as [Hs|[Hs _]]; [|exact Hs].
      destruct Hd as [Hd|[Hd _]]; [exact Hd|congruence].
    + assert (Hnone : Konva.stroke n' = None).
      { destruct Hs as [Hs|[_ [Hs|Hs]]]; [exact Hs|now destruct Hs|congruence]. }
      destruct (Konva.fill n) as [fl|] eqn:Hfl; [|exact Hnone].
      split; [exact Hnone|].
      destruct Hd as [Hd|[_ [Hd|Hd]]]; [congruence|exact Hd|].
      destruct Hf as [Hf|Hf]; [congruence|exact Hf].
  - (* the children of the label *)
    intros x Hx.
    destruct (forM_post (paintOnly (ud_color d) (getShadowColour (ud_color d))) _
                (fun a t => exists m, heap t !! a = Some m
                                      /\ labelKidPainted (ud_color d) (getShadowColour (ud_color d)) m)
                (paintOnly_refl (ud_color d) (getShadowColour (ud_color d))) (paintOnly_trans (ud_color d) (getShadowColour (ud_color d)))
                (kid_body_paint d label) (kid_body_post d label)) with
      (l := childrenOf (heap s) label) (s := s2) (s' := s3) (a := x)
      as (n' & Hn' & Hfill & Hshadow); [|exact Hloop3|exact Hx|].
    { intros a t t' HR (m & Hm & Hd). destruct (HR _ _ Hm) as (m' & Hm' & Hpm).
      exists m'. split; [exact Hm'|].
      eapply labelKidPainted_keeps; eassumption. }
    exists n'. now repeat split.
Qed.

End UpdateColours.

Section UpdateFrame.
Context `{Ext : Externals}.

Lemma relabel_keeps m label texts x n :
  let n' := relabel m label texts x n in
  Konva.name n' = Konva.name n /\ Konva.id n' = Konva.id n
  /\ Konva.className n' = Konva.className n
  /\ Konva.closed n' = Konva.closed n
  /\ Konva.parent n' = Konva.parent n
  /\ Konva.children n' = Konva.children n
  /\ (x <> label -> Konva.visible n' = Konva.visible n)
  /\ (x ∉ texts -> Konva.text n' = Konva.text n
                   /\ Konva.meta n' = Konva.meta n).
Proof.
  unfold relabel.
  destruct (bool_decide_reflect (x ∈ texts)) as [Hin|Hnin];
    destruct (bool_decide_reflect (x = label)) as [Heq|Hne];
    destruct (negb (bool_decide (texts = []))); cbn [andb];
    repeat split; try reflexivity; try contradiction;
    try (intros H; contradiction).
Qed.

(** X14. On an annotation found by the selector ['#' + id], whose group is a
    container with a label that is a container, and whose [shape] children,
    decorations and label children are shapes, [updateDraw] keeps the tree
    and the roles: no node is added, removed or moved, no name,
    identifier or class changes; the only visibility flag it may write is
    the one of the label, and the only texts and metadata the ones of the
    [Text] children of the label.  The controller fields and the log stay. *)
Theorem updateDraw_frame (fuel : nat) (d : DrawDetails) (s : State)
    (L : Konva.ref) (ds : list Konva.ref) (g label : Konva.ref) :
  konvaLayer s = Some L -> closedHeap (heap s) ->
  Konva.descendants fuel (heap s) L = Some ds ->
  head (nodesWhere (heap s) (selectsId (ud_id d)) ds) = Some g ->
  head (nodesWhere (heap s) isNodeNameLabel (childrenOf (heap s) g))
  = Some label ->
  paintable (heap s) g label ->
  let texts := nodesWhere (heap s) (hasClass "Text")
                 (childrenOf (heap s) label) in
  exists s',
    updateDraw fuel d s = (s', Ok tt)
    /\ konvaLayer s' = konvaLayer s
    /\ currentPosGroupId s' = currentPosGroupId s
    /\ log s' = log s
    /\ List.length (heap s') = List.length (heap s)
    /\ forall x n, heap s !! x = Some n ->
         exists n', heap s' !! x = Some n'
           /\ Konva.name n' = Konva.name n /\ Konva.id n' = Konva.id n
           /\ Konva.className n' = Konva.className n
           /\ Konva.closed n' = Konva.closed n
           /\ Konva.parent n' = Konva.parent n
           /\ Konva.children n' = Konva.children n
           /\ (x <> label -> Konva.visible n' = Konva.visible n)
           /\ (x ∉ texts -> Konva.text n' = Konva.text n
                            /\ Konva.meta n' = Konva.meta n).
Proof.
  intros HL Hclosed Hds Hg Hlabel Hpaint texts.
  destruct (updateDraw_effect fuel d s L ds g label HL Hclosed Hds Hg Hlabel
              Hpaint)
    as (s' & Hrun & Heffect).
  exists s'. split; [exact Hrun|].
  assert (Hch : exists f,
             changedBy f s s'
             /\ forall x n,
                  Konva.name (f x n) = Konva.name n
                  /\ Konva.id (f x n) = Konva.id n
                  /\ Konva.className (f x n) = Konva.className n
                  /\ Konva.closed (f x n) = Konva.closed n
                  /\ Konva.parent (f x n) = Konva.parent n
                  /\ Konva.children (f x n) = Konva.children n
                  /\ (x <> label -> Konva.visible (f x n) = Konva.visible n)
                  /\ (x ∉ texts -> Konva.text (f x n) = Konva.text n
                                   /\ Konva.meta (f x n) = Konva.meta n)).
  { destruct (ud_meta d) as [m|].
    - exists (relabel m label texts). split; [exact Heffect|].
      intros x n. apply relabel_keeps.
    - exists (fun _ n => n). split; [exact Heffect|].
      intros x n. now repeat split. }
  destruct Hch as (f & ((HLs & HKs & Hlog & Hlen) & Hnodes) & Hf).
  split; [exact HLs|]. split; [exact HKs|]. split; [exact Hlog|].
  split; [exact Hlen|].
  intros x n Hn. destruct (Hnodes _ _ Hn) as (n' & Hn' & E).
  destruct (Hf x n) as (Hname & Hid & Hcls & Hcl & Hpar & Hkids & Hvis & Htxt).
  exists n'. split; [exact Hn'|].
  split; [rewrite <- Hname; exact (f_equal Konva.name E)|].
  split; [rewrite <- Hid; exact (f_equal Konva.id E)|].
  split; [rewrite <- Hcls; exact (f_equal Konva.className E)|].
  split; [rewrite <- Hcl; exact (f_equal Konva.closed E)|].
  split; [rewrite <- Hpar; exact (f_equal Konva.parent E)|].
  split; [rewrite <- Hkids; exact (f_equal Konva.children E)|].
  split.
  - intros Hne. rewrite <- (Hvis Hne). exact (f_equal Konva.visible E).
  - intros Hnin. destruct (Htxt Hnin) as [Ht Hm]. split.
    + rewrite <- Ht. exact (f_equal Konva.text E).
    + rewrite <- Hm. exact (f_equal Konva.meta E).
Qed.

End UpdateFrame.

Section UpdateStops.
Context `{Ext : Externals}.

(** X24. A decoration that is a container stops [updateDraw]: the [shape]
    children have been given the colour, then [stroke()] is not a function
    on the first decoration and the call ends on a [TypeError].  Colours
    apart, no node has changed: the label keeps its visibility and the text
    nodes keep their text and their metadata, also when the details hold
    new metadata. *)
Theorem updateDraw_container_decoration (fuel : nat) (d : DrawDetails)
    (s : State) (L : Konva.ref) (ds : list Konva.ref) (g e : Konva.ref)
    (rest : list Konva.ref) :
  konvaLayer s = Some L -> closedHeap (heap s) ->
  Konva.descendants fuel (heap s) L = Some ds ->
  head (nodesWhere (heap s) (selectsId (ud_id d)) ds) = Some g ->
  containerAt (heap s) g ->
  Forall (shapeAt (heap s))
    (nodesWhere (heap s) isNodeNameShape (childrenOf (heap s) g)) ->
  nodesWhere (heap s) isNodeNameShapeExtra (childrenOf (heap s) g)
  = e :: rest ->
  containerAt (heap s) e ->
  exists s',
    updateDraw fuel d s = (s', Throw TypeError)
    /\ repainted s s'
    /\ (forall x, x ∈ nodesWhere (heap s) isNodeNameShape (childrenOf (heap s) g) ->
          exists n', heap s' !! x = Some n'
                     /\ Konva.stroke n' = Some (ud_color d))
    /\ forall x n, heap s !! x = Some n ->
         exists n', heap s' !! x = Some n'
           /\ Konva.visible n' = Konva.visible n
           /\ Konva.text n' = Konva.text n
           /\ Konva.meta n' = Konva.meta n
           /\ Konva.parent n' = Konva.parent n
           /\ Konva.children n' = Konva.children n.
Proof.
  intros HL Hclosed Hds Hg Hgc Hshapes Hextras Hec.
  unfold updateDraw.
  rewrite (bind_ok _ _ _ _ _ (thisLayer_ok _ _ HL)).
  rewrite (bind_ok _ _ _ _ _ (Node_findOne_ok _ _ _ _ _ Hds)), Hg.
  cbn zeta.
  pose proof (head_nodesWhere_closed _ _ _ _ Hg) as Hgalloc.
  rewrite (bind_ok _ _ _ _ _
             (Container_getChildrenIf_ok _ _ _ Hgc
                (closedHeap_closedAt _ _ Hclosed Hgalloc))).
  rewrite (bind_ext_at _ _ _ _ (shapes_loop_shapes (ud_color d) _ s Hshapes)).
  destruct (shapes_loop_repaints (ud_color d) _ s
              (nodesWhere_allocated (heap s) isNodeNameShape
                 (childrenOf (heap s) g))) as (sa & Hruna & Hrea).
  rewrite (bind_ok _ _ _ _ _ Hruna).
  pose proof (repainted_closedHeap _ _ Hrea Hclosed) as Hcloseda.
  assert (Hgalloc0 : Forall (fun x => is_Some (heap s !! x))
                       (childrenOf (heap s) g)).
  { destruct Hgalloc as [gn Hgn]. unfold childrenOf. rewrite Hgn.
    exact (Hclosed _ _ Hgn). }
  rewrite (bind_ok _ _ _ _ _
             (Container_getChildrenIf_ok _ _ _
                (changedBy_containerAt _ _ _ _ (fun _ _ => eq_refl) Hrea Hgc)
                (closedHeap_closedAt _ _ Hcloseda
                   (changedBy_allocated _ _ _ _ Hrea Hgalloc)))).
  rewrite (repainted_children _ _ g Hrea).
  rewrite (repainted_nodesWhere isNodeNameShapeExtra s sa);
    [|intros n n' E; unfold isNodeNameShapeExtra;
      now rewrite (f_equal Konva.name E : Konva.name n' = Konva.name n)
     |exact Hrea|exact Hgalloc0].
  rewrite Hextras. cbn [forM_].
  assert (Hstop : Shape_stroke e sa = (sa, Throw TypeError)).
  { apply asShape_container.
    exact (changedBy_containerAt _ _ _ _ (fun _ _ => eq_refl) Hrea Hec). }
  rewrite (bind_throw _ _ _ _ _
             (bind_throw _ _ _ _ _ (bind_throw _ _ _ _ _ Hstop))).
  exists sa. split; [reflexivity|]. split; [exact Hrea|]. split.
  - intros x Hx.
    destruct (shapes_loop_paint (ud_color d) (getShadowColour (ud_color d))
                _ _ _ Hruna) as [_ Hstrokes].
    { intros y Hy. apply list_elem_of_In, nodesWhere_In in Hy
        as (_ & n & Hn & Hsat). now rewrite (nodeSat_Some _ _ _ _ Hn). }
    exact (Hstrokes x Hx).
  - intros x n Hn. destruct Hrea as [_ Hnodes].
    destruct (Hnodes _ _ Hn) as (n' & Hn' & E). exists n'.
    split; [exact Hn'|].
    split; [exact (f_equal Konva.visible E)|].
    split; [exact (f_equal Konva.text E)|].
    split; [exact (f_equal Konva.meta E)|].
    split; [exact (f_equal Konva.parent E)|exact (f_equal Konva.children E)].
Qed.

End UpdateStops.

(* ===================================================================== *)
(** * [getDrawDisplayDetails]: the list it returns *)
(* ===================================================================== *)

Section DisplayRun.
Context `{Ext : Externals}.

Lemma displayDetailsOf_run position pg g s :
  closedHeap (heap s) -> displayable (heap s) g ->
  getIndexFromStringId (idOf (heap s) pg) = Some position ->
  exists d,
    displayDetailsOf position g s = (s, Ok d)
    /\ describes (heap s) pg g d.
Proof.
  intros Hclosed
    (Hgc & sh & label & t & Hsh & Hshs & Hlabel & Hlc & Ht & [tn Htn]) Hpos.
  destruct (containerAt_allocated _ _ Hgc) as [gn Hgn].
  assert (Hgclosed : closedAt (heap s) g).
  { exists gn. split; [exact Hgn|exact (Hclosed _ _ Hgn)]. }
  destruct (head_nodesWhere_closed _ _ _ _ Hsh) as [shape Hshape].
  destruct (head_nodesWhere_closed _ _ _ _ Hlabel) as [ln Hln].
  assert (Hrun : exists d, displayDetailsOf position g s = (s, Ok d)
                           /\ dd_id d = Konva.id gn
                           /\ dd_position d = Index_toString position
                           /\ dd_color d = Konva.stroke shape
                           /\ dd_meta d = Konva.meta tn).
  { unfold displayDetailsOf.
    rewrite (bind_ok _ _ _ _ _ (Container_getChildrenIf_ok _ _ _ Hgc Hgclosed)).
    rewrite (bind_ok _ _ _ _ _ (Container_getChildrenIf_ok _ _ _ Hgc Hgclosed)).
    rewrite Hlabel, Hsh.
    rewrite (bind_ok _ _ _ _ _
               (Container_getChildren_ok _ _ _ Hln
                  (proj1 (containerAt_Some _ _ _ Hln) Hlc))).
    unfold ret at 1, bind at 1.
    rewrite (bind_ok _ _ _ _ _ (getNode_ok _ _ _ Hshape)).
    cbv zeta.
    assert (Hty : exists ty,
               (if String.eqb (Konva.className shape) "Line" then
                  do shapeExtrakids <- Container_getChildrenIf g isNodeNameShapeExtra;
                  if Konva.closed shape then ret "Roi"%string
                  else match shapeExtrakids with
                       | extra0 :: _ =>
                           do e <- getNode extra0;
                           let extraName0 := Konva.name e in
                           if negb (Z.eqb (JS.indexOf extraName0 "triangle") (-1))
                           then ret "Arrow"%string
                           else if negb (Z.eqb (JS.indexOf extraName0 "arc") (-1))
                           then ret "Protractor"%string
                           else ret "Ruler"%string
                       | [] => ret (Konva.className shape)
                       end
                else ret (Konva.className shape)) s = (s, Ok ty)).
    { destruct (String.eqb (Konva.className shape) "Line"); [|now eexists].
      rewrite (bind_ok _ _ _ _ _
                 (Container_getChildrenIf_ok _ _ _ Hgc Hgclosed)).
      destruct (Konva.closed shape); [now eexists|].
      destruct (nodesWhere (heap s) isNodeNameShapeExtra (childrenOf (heap s) g))
        as [|e0 rest] eqn:Hextras; [now eexists|].
      assert (He0 : is_Some (heap s !! e0)).
      { eapply (head_nodesWhere_closed _ isNodeNameShapeExtra
                  (childrenOf (heap s) g)). now rewrite Hextras. }
      destruct He0 as [en Hen].
      rewrite (bind_ok _ _ _ _ _ (getNode_ok _ _ _ Hen)). cbv zeta.
      destruct (negb _); [now eexists|]. destruct (negb _); now eexists. }
    destruct Hty as [ty Hty]. rewrite (bind_ok _ _ _ _ _ Hty).
    rewrite (bind_ok _ _ _ _ _ (getNode_ok _ _ _ Hgn)).
    rewrite (bind_ok _ _ _ _ _
               (Shape_stroke_ok _ _ _ Hshape
                  (proj1 (shapeAt_Some _ _ _ Hshape) Hshs))).
    rewrite (childrenOf_Some _ _ _ Hln) in Ht. rewrite Ht.
    rewrite (bind_ok _ _ _ _ _ (getNode_ok _ _ _ Htn)).
    eexists. split; [reflexivity|]. now repeat split. }
  destruct Hrun as (d & Hrun & Hid & Hposition & Hcolor & Hmeta).
  exists d. split; [exact Hrun|].
  split; [unfold idOf; now rewrite Hgn|].
  split; [now exists position|].
  split; [exact (displayDetailsOf_type _ _ _ _ _ Hrun)|].
  split; [now exists sh, shape|now exists label, t, tn].
Qed.

Lemma display_inner_run position pg collec :
  forall acc s,
    closedHeap (heap s) -> Forall (displayable (heap s)) collec ->
    getIndexFromStringId (idOf (heap s) pg) = Some position ->
    exists ds,
      foldM (fun list_ group =>
               do d <- displayDetailsOf position group;
               ret (list_ ++ [d])) collec acc s = (s, Ok (acc ++ ds))
      /\ Forall2 (fun d g => describes (heap s) pg g d) ds collec.
Proof.
  induction collec as [|g collec IH]; intros acc s Hclosed Hall Hpos.
  - exists []. rewrite app_nil_r. split; [reflexivity|constructor].
  - apply Forall_cons in Hall as [Hg Hall]. cbn [foldM].
    destruct (displayDetailsOf_run position pg g s Hclosed Hg Hpos)
      as (d & Hrun & Hd).
    assert (Hstep : (do d <- displayDetailsOf position g;
                     ret (acc ++ [d])) s = (s, Ok (acc ++ [d])))
      by (now rewrite (bind_ok _ _ _ _ _ Hrun)).
    rewrite (bind_ok _ _ _ _ _ Hstep).
    destruct (IH (acc ++ [d]) s Hclosed Hall Hpos) as (ds & Hrest & Hds).
    exists (d :: ds). rewrite Hrest, <- app_assoc.
    split; [reflexivity|now constructor].
Qed.

Lemma display_outer_run groups :
  forall acc s,
    closedHeap (heap s) ->
    Forall (fun pg =>
              containerAt (heap s) pg
              /\ is_Some (getIndexFromStringId (idOf (heap s) pg))
              /\ Forall (displayable (heap s)) (childrenOf (heap s) pg))
      groups ->
    exists ds,
      foldM (fun list_ posGroup =>
               do pg <- getNode posGroup;
               do position <- match getIndexFromStringId (Konva.id pg) with
                              | Some p => ret p
                              | None => throw ExternalError
                              end;
               do collec <- Container_getChildren posGroup;
               foldM (fun list_ group =>
                        do d <- displayDetailsOf position group;
                        ret (list_ ++ [d]))
                     collec list_) groups acc s = (s, Ok (acc ++ ds))
      /\ Forall2 (fun d pair => describes (heap s) (fst pair) (snd pair) d)
           ds (annotationPairs (heap s) groups).
Proof.
  induction groups as [|pg groups IH]; intros acc s Hclosed Hscene.
  - exists []. split; [now rewrite app_nil_r|constructor].
  - apply Forall_cons in Hscene as [(Hpc & [position Hpos] & Hkids) Hscene].
    destruct (containerAt_allocated _ _ Hpc) as [pn Hpn].
    cbn [foldM].
    assert (Hid : idOf (heap s) pg = Konva.id pn)
      by (unfold idOf; now rewrite Hpn).
    rewrite (childrenOf_Some _ _ _ Hpn) in Hkids.
    destruct (display_inner_run position pg (Konva.children pn) acc s
                Hclosed Hkids Hpos) as (ds & Hinner & Hds).
    assert (Hstep :
              (do pn0 <- getNode pg;
               do position <- match getIndexFromStringId (Konva.id pn0) with
                              | Some p => ret p
                              | None => throw ExternalError
                              end;
               do collec <- Container_getChildren pg;
               foldM (fun list_ group =>
                        do d <- displayDetailsOf position group;
                        ret (list_ ++ [d])) collec acc) s
              = (s, Ok (acc ++ ds))).
    { rewrite (bind_ok _ _ _ _ _ (getNode_ok _ _ _ Hpn)).
      rewrite <- Hid, Hpos. unfold ret at 1, bind at 1.
      now rewrite (bind_ok _ _ _ _ _
                     (Container_getChildren_ok _ _ _ Hpn
                        (proj1 (containerAt_Some _ _ _ Hpn) Hpc))). }
    rewrite (bind_ok _ _ _ _ _ Hstep).
    destruct (IH (acc ++ ds) s Hclosed Hscene) as (rest & Hrest & Hall).
    exists (ds ++ rest). rewrite app_assoc. split; [exact Hrest|].
    cbn [annotationPairs flat_map]. apply Forall2_app; [|exact Hall].
    rewrite (childrenOf_Some _ _ _ Hpn).
    apply Forall2_fmap_r. exact Hds.
Qed.

(** X15. On a scene that can be displayed (the children of the layer are
    containers whose identifier parses; each of their children is a
    container with a [shape] child that is a shape and a [label] child that
    is a container and has a child), [getDrawDisplayDetails] returns one
    entry per Annotation Group, in the order of the tree, and each entry
    describes its group: identifier, position of its Position Group, type,
    stroke colour of its shape, metadata of its text.  The state is what it
    was. *)
Theorem getDrawDisplayDetails_entries (s : State) (L : Konva.ref) :
  konvaLayer s = Some L -> is_Some (heap s !! L) ->
  closedHeap (heap s) -> displayableScene s ->
  exists l,
    getDrawDisplayDetails s = (s, Ok l)
    /\ Forall2 (fun d pair => describes (heap s) (fst pair) (snd pair) d)
         l (annotationPairs (heap s) (layerChildren s)).
Proof.
  intros HL [ln Hln] Hclosed Hscene. unfold getDrawDisplayDetails.
  rewrite (bind_ok _ _ _ _ _ (thisLayer_ok _ _ HL)).
  rewrite (bind_ok _ _ _ _ _ (getChildren_ok _ _ _ Hln)).
  unfold displayableScene, layerChildren in *. rewrite HL in *.
  rewrite (childrenOf_Some _ _ _ Hln) in *.
  destruct (display_outer_run (Konva.children ln) [] s Hclosed Hscene)
    as (ds & Hrun & Hall).
  exists ds. split; [exact Hrun|exact Hall].
Qed.

Lemma displayDetailsOf_inv position g s s' d :
  displayDetailsOf position g s = (s', Ok d) -> displayable (heap s) g.
Proof.
  unfold displayDetailsOf. intros H.
  apply bind_inv in H as (shapes & s1 & Hshapes & H).
  apply Container_getChildrenIf_inv in Hshapes as (-> & Hgc & _ & ->).
  apply bind_inv in H as (labels & s1 & Hlabels & H).
  apply Container_getChildrenIf_inv in Hlabels as (-> & _ & _ & ->).
  apply bind_inv in H as (kids & s1 & Hkids & H).
  destruct (head (nodesWhere (heap s) isNodeNameLabel (childrenOf (heap s) g)))
    as [label|] eqn:Hlabel; [|discriminate].
  apply Container_getChildren_inv in Hkids as (-> & Hlc & ->).
  apply bind_inv in H as (sh0 & s1 & Hsh0 & H).
  destruct (head (nodesWhere (heap s) isNodeNameShape (childrenOf (heap s) g)))
    as [sh|] eqn:Hsh; [|discriminate].
  unfold ret in Hsh0. inversion Hsh0; subst s1 sh0. clear Hsh0.
  apply bind_inv in H as (shape & s1 & Hshape & H).
  apply getNode_inv in Hshape as [-> Hshape].
  apply bind_inv in H as (type & s1 & Htype & H).
  assert (s1 = s) as ->.
  { eapply readonly_inv; [|exact Htype]. repeat readonly_step. }
  apply bind_inv in H as (gn' & s1 & Hg & H).
  apply getNode_inv in Hg as [-> Hg].
  apply bind_inv in H as (color & s1 & Hcolor & H).
  apply Shape_stroke_inv in Hcolor as (-> & shn & Hshn & Hshc & _).
  apply bind_inv in H as (text & s1 & Htext & H).
  destruct (head (childrenOf (heap s) label)) as [t|] eqn:Ht; [|discriminate].
  apply getNode_inv in Htext as [-> Htext].
  split; [exact Hgc|]. exists sh, label, t.
  split; [exact Hsh|].
  split; [exact (proj2 (shapeAt_Some _ _ _ Hshn) Hshc)|].
  split; [exact Hlabel|]. split; [exact Hlc|]. split; [exact Ht|].
  now exists text.
Qed.

Lemma display_inner_inv position collec :
  forall acc s s' l,
    foldM (fun list_ group =>
             do d <- displayDetailsOf position group;
             ret (list_ ++ [d])) collec acc s = (s', Ok l) ->
    Forall (displayable (heap s)) collec.
Proof.
  induction collec as [|g collec IH]; intros acc s s' l H; cbn [foldM] in H;
    [constructor|].
  apply bind_inv in H as (acc' & s1 & Hstep & H).
  apply bind_inv in Hstep as (d & s2 & Hd & Hstep).
  pose proof (readonly_inv _ _ _ _ (readonly_displayDetailsOf _ _) Hd) as ->.
  unfold ret in Hstep. inversion Hstep; subst.
  constructor; [eapply displayDetailsOf_inv, Hd|eapply IH, H].
Qed.

Lemma display_outer_inv groups :
  forall acc s s' l,
    foldM (fun list_ posGroup =>
             do pg <- getNode posGroup;
             do position <- match getIndexFromStringId (Konva.id pg) with
                            | Some p => ret p
                            | None => throw ExternalError
                            end;
             do collec <- Container_getChildren posGroup;
             foldM (fun list_ group =>
                      do d <- displayDetailsOf position group;
                      ret (list_ ++ [d]))
                   collec list_) groups acc s = (s', Ok l) ->
    Forall (fun pg =>
              containerAt (heap s) pg
              /\ is_Some (getIndexFromStringId (idOf (heap s) pg))
              /\ Forall (displayable (heap s)) (childrenOf (heap s) pg))
      groups.
Proof.
  induction groups as [|pg groups IH]; intros acc s s' l H; [constructor|].
  cbn [foldM] in H. apply bind_inv in H as (acc' & s1 & Hstep & H).
  apply bind_inv in Hstep as (n & s2 & Hn & Hstep).
  apply getNode_inv in Hn as [-> Hn].
  apply bind_inv in Hstep as (position & s2 & Hpos & Hstep).
  destruct (getIndexFromStringId (Konva.id n)) as [p|] eqn:Hparse;
    [|discriminate].
  unfold ret in Hpos. inversion Hpos; subst s2 position.
  apply bind_inv in Hstep as (collec & s2 & Hcollec & Hstep).
  apply Container_getChildren_inv in Hcollec as (-> & Hpc & ->).
  pose proof (display_inner_inv _ _ _ _ _ _ Hstep) as Hinner.
  apply displayDetails_inner in Hstep as (-> & _).
  constructor; [|eapply IH, H].
  split; [exact Hpc|]. split; [|exact Hinner].
  unfold idOf. rewrite Hn, Hparse. now eexists.
Qed.

(** X16. [getDrawDisplayDetails] returns normally on a scene that can be
    displayed only: if a child of the layer has an identifier that cannot
    be parsed or is not a container, or if an Annotation Group is not a
    container, has no [shape] child or one that is not a shape, no [label]
    child or one that is not a container, or a label without child, the
    call ends on an exception. *)
Theorem getDrawDisplayDetails_requires (s s' : State)
    (l : list DisplayDetails) :
  getDrawDisplayDetails s = (s', Ok l) -> displayableScene s.
Proof.
  unfold getDrawDisplayDetails. intros H.
  apply bind_inv in H as (layer & s1 & Hlayer & H).
  apply thisLayer_inv in Hlayer as [-> Hlayer].
  apply bind_inv in H as (groups & s1 & Hgroups & H).
  apply getChildren_inv in Hgroups as (-> & _ & ->).
  unfold displayableScene, layerChildren. rewrite Hlayer.
  eapply display_outer_inv, H.
Qed.

End DisplayRun.

(* ===================================================================== *)
(** * [getDrawStoreDetails], a second time *)
(* ===================================================================== *)

Section StoreTwice.
Context `{Ext : Externals}.



End StoreTwice.

(* ===================================================================== *)
(** * The hierarchy log *)
(* ===================================================================== *)

Section HierarchyLogFacts.
Context `{Ext : Externals}.

Lemma append_empty_r (s : string) : (s ++ "")%string = s.
Proof. induction s as [|a s IH]; [reflexivity|]. now rewrite append_cons, IH. Qed.

Lemma joinLines_app l1 l2 :
  joinLines (l1 ++ l2) = (joinLines l1 ++ joinLines l2)%string.
Proof.
  induction l1 as [|x l1 IH]; [reflexivity|].
  cbn [app joinLines fold_right]. fold (joinLines (l1 ++ l2)).
  fold (joinLines l1). now rewrite IH, append_assoc.
Qed.

Lemma hierarchy_fold_throw (f : Konva.ref -> string -> result string) e kids :
  foldl (fun log kid =>
           match log with
           | Ok l => f kid l
           | Throw e => Throw e
           end) (Throw e) kids
  = Throw e.
Proof. induction kids as [|k kids IH]; [reflexivity|exact IH]. Qed.

(** The log under a prefix extended by the indentation of a depth, on a
    tree that the walk covers: the lines of the walk when every node is a
    container, a [TypeError] otherwise. *)
Lemma getHierarchyLog_lines h prefix fuel :
  forall r depth l,
    walkDepth fuel h r depth = Some l ->
    getHierarchyLog fuel h r (Some (prefix ++ indent depth)%string)
    = if forallb (fun e => nodeSat h Konva.isContainer (fst e)) l
      then Ok (joinLines (map (hierarchyLine h prefix) l))
      else Throw TypeError.
Proof.
  induction fuel as [|f IH]; intros r depth l Hwalk; [discriminate|].
  cbn [getHierarchyLog walkDepth default from_option] in Hwalk |- *.
  unfold id.
  destruct (h !! r) as [n|] eqn:Hn; [|discriminate].
  destruct (foldr _ _ (Konva.children n)) as [rest|] eqn:Hrest;
    [|discriminate].
  cbn [option_map] in Hwalk. inversion Hwalk; subst l. clear Hwalk.
  cbn [forallb fst]. rewrite (nodeSat_Some _ _ _ _ Hn).
  destruct (Konva.isContainer n); [|reflexivity]. cbn [andb]. cbv zeta.
  set (own := (prefix ++ indent depth ++ "|__ " ++ Konva.name n ++ ": "
               ++ Konva.id n ++ newline)%string).
  assert (Hown : ((prefix ++ indent depth) ++ "|__ " ++ Konva.name n ++ ": "
                  ++ Konva.id n ++ newline)%string = own)
    by (unfold own; now rewrite append_assoc).
  rewrite Hown.
  assert (Hline : hierarchyLine h prefix (r, depth) = own).
  { unfold hierarchyLine. cbn [fst snd]. now rewrite Hn. }
  assert (Hkids : forall kids acc rest,
             foldr (fun c acc =>
                      match walkDepth f h c (S depth), acc with
                      | Some ds, Some rest => Some (ds ++ rest)
                      | _, _ => None
                      end) (Some []) kids = Some rest ->
             foldl (fun log kid =>
                      match log with
                      | Ok l =>
                          match getHierarchyLog f h kid
                                  (Some ((prefix ++ indent depth) ++ "    ")%string)
                          with
                          | Ok k => Ok (l ++ k)%string
                          | Throw e => Throw e
                          end
                      | Throw e => Throw e
                      end) (Ok acc) kids
             = if forallb (fun e => nodeSat h Konva.isContainer (fst e)) rest
               then Ok (acc ++ joinLines (map (hierarchyLine h prefix) rest))%string
               else Throw TypeError).
  { clear Hrest rest. induction kids as [|k kids IHk]; intros acc rest Hrest.
    - cbn in Hrest. inversion Hrest; subst rest. cbn.
      now rewrite append_empty_r.
    - cbn [foldl foldr] in Hrest |- *.
      destruct (walkDepth f h k (S depth)) as [ds|] eqn:Hds; [|discriminate].
      destruct (foldr _ _ kids) as [rest'|] eqn:Hrest'; [|discriminate].
      inversion Hrest; subst rest. clear Hrest.
      replace ((prefix ++ indent depth) ++ "    ")%string
        with (prefix ++ indent (S depth))%string
        by (cbn [indent]; now rewrite append_assoc).
      rewrite (IH _ _ _ Hds). rewrite forallb_app.
      destruct (forallb _ ds); cbn [andb].
      + replace ((prefix ++ indent (S depth)))%string
          with ((prefix ++ indent depth) ++ "    ")%string
          by (cbn [indent]; now rewrite append_assoc).
        rewrite (IHk _ _ eq_refl).
        destruct (forallb _ rest'); [|reflexivity].
        now rewrite map_app, joinLines_app, append_assoc.
      + apply (hierarchy_fold_throw
                 (fun kid l =>
                    match getHierarchyLog f h kid
                            (Some (prefix ++ indent (S depth))%string) with
                    | Ok k => Ok (l ++ k)%string
                    | Throw e => Throw e
                    end)). }
  rewrite (Hkids _ _ _ Hrest).
  destruct (forallb _ rest); [|reflexivity].
  cbn [map joinLines fold_right]. now rewrite Hline.
Qed.

(** When the log is returned, the walk covers the tree. *)
Lemma getHierarchyLog_walk h fuel :
  forall r p depth log,
    getHierarchyLog fuel h r p = Ok log ->
    is_Some (walkDepth fuel h r depth).
Proof.
  induction fuel as [|f IH]; intros r p depth log H; [discriminate|].
  cbn [getHierarchyLog walkDepth] in H |- *.
  destruct (h !! r) as [n|]; [|discriminate].
  destruct (Konva.isContainer n); [|discriminate]. cbv zeta in H.
  revert H.
  generalize (default ""%string p ++ "|__ " ++ Konva.name n ++ ": "
              ++ Konva.id n ++ newline)%string.
  generalize (Some (default ""%string p ++ "    ")%string).
  intros p' acc H.
  assert (Hkids : is_Some
            (foldr (fun c acc =>
                      match walkDepth f h c (S depth), acc with
                      | Some ds, Some rest => Some (ds ++ rest)
                      | _, _ => None
                      end) (Some []) (Konva.children n))).
  { revert acc H. induction (Konva.children n) as [|k kids IHk];
      intros acc H; [now eexists|].
    cbn [foldl foldr] in H |- *.
    destruct (getHierarchyLog f h k p') as [lk|e] eqn:Hk.
    - destruct (IH k p' (S depth) lk Hk) as [ds Hds]. rewrite Hds.
      destruct (IHk _ H) as [rest Hrest]. rewrite Hrest. now eexists.
    - rewrite (hierarchy_fold_throw
                 (fun kid l =>
                    match getHierarchyLog f h kid p' with
                    | Ok k => Ok (l ++ k)%string
                    | Throw e => Throw e
                    end)) in H. discriminate H. }
  destruct Hkids as [rest Hrest]. rewrite Hrest. now eexists.
Qed.

Lemma walkDepth_descendants h fuel :
  forall r depth,
    option_map (map fst) (walkDepth fuel h r depth)
    = option_map (cons r) (Konva.descendants fuel h r).
Proof.
  induction fuel as [|f IH]; intros r depth; [reflexivity|].
  cbn [walkDepth Konva.descendants]. destruct (h !! r) as [n|]; [|reflexivity].
  induction (Konva.children n) as [|k kids IHk]; [reflexivity|].
  cbn [foldr]. specialize (IH k (S depth)).
  destruct (walkDepth f h k (S depth)) as [ds|],
           (Konva.descendants f h k) as [dk|]; cbn [option_map] in IH;
    try discriminate IH; [|reflexivity].
  destruct (foldr _ _ kids) as [rest|], (foldr _ _ kids) as [rest'|];
    cbn [option_map] in IHk |- *; try discriminate IHk; [|reflexivity].
  inversion IH as [Hds]. inversion IHk as [Hrest].
  cbn [map fst]. now rewrite map_app, Hds, Hrest.
Qed.

(** X18. The hierarchy log calls [getChildren] on every node it meets.  On a
    tree that the walk covers, it is returned exactly when every node of
    the tree is a container, and a shape in the tree ends it on a
    [TypeError]; when it is returned it has one line per node: the line of
    the root, then the lines of the nodes below it in the order of the walk
    that [find] uses, each indented by four spaces per level.  An omitted
    prefix is the empty prefix. *)
Theorem getHierarchyLog_one_line_per_node (fuel : nat) (h : list Konva.Node)
    (r : Konva.ref) (prefix : string) :
  (forall l,
     walkDepth fuel h r 0 = Some l ->
     getHierarchyLog fuel h r (Some prefix)
     = if forallb (fun e => nodeSat h Konva.isContainer (fst e)) l
       then Ok (joinLines (map (hierarchyLine h prefix) l))
       else Throw TypeError)
  /\ (forall log,
        getHierarchyLog fuel h r (Some prefix) = Ok log ->
        exists l,
          walkDepth fuel h r 0 = Some l
          /\ Forall (fun e => containerAt h (fst e)) l
          /\ log = joinLines (map (hierarchyLine h prefix) l))
  /\ option_map (map fst) (walkDepth fuel h r 0)
     = option_map (cons r) (Konva.descendants fuel h r)
  /\ getHierarchyLog fuel h r None = getHierarchyLog fuel h r (Some ""%string).
Proof.
  assert (Hlines : forall l,
             walkDepth fuel h r 0 = Some l ->
             getHierarchyLog fuel h r (Some prefix)
             = if forallb (fun e => nodeSat h Konva.isContainer (fst e)) l
               then Ok (joinLines (map (hierarchyLine h prefix) l))
               else Throw TypeError).
  { intros l Hl. rewrite <- (getHierarchyLog_lines h prefix fuel r 0 l Hl).
    cbn [indent]. now rewrite append_empty_r. }
  split; [exact Hlines|]. split; [|split].
  - intros log Hlog.
    destruct (getHierarchyLog_walk h fuel r (Some prefix) 0 log Hlog)
      as [l Hl].
    exists l. split; [exact Hl|]. rewrite (Hlines l Hl) in Hlog.
    destruct (forallb _ l) eqn:Hall; [|discriminate].
    split; [|now inversion Hlog].
    apply Forall_forall. intros e He.
    rewrite forallb_forall in Hall. apply Hall. now apply list_elem_of_In.
  - apply walkDepth_descendants.
  - now destruct fuel.
Qed.

End HierarchyLogFacts.

(* ===================================================================== *)
(** * One Position Group per identifier *)
(* ===================================================================== *)

Section KeepsUnique.
Context `{Ext : Externals}.
Variable L : Konva.ref.

Lemma keepsUnique_refl s : keepsUnique L s s.
Proof. now intros H. Qed.

Lemma keepsUnique_trans s1 s2 s3 :
  keepsUnique L s1 s2 -> keepsUnique L s2 s3 -> keepsUnique L s1 s3.
Proof. intros H12 H23 H. now apply H23, H12. Qed.

Lemma keepsUnique_readonly {A} (m : M A) :
  readonly m -> always (keepsUnique L) m.
Proof. apply always_readonly, keepsUnique_refl. Qed.

Lemma keepsUnique_ret {A} (a : A) : always (keepsUnique L) (ret a).
Proof. apply always_ret, keepsUnique_refl. Qed.

Lemma keepsUnique_throw {A} (e : exn) : always (keepsUnique L) (@throw _ A e).
Proof. apply always_throw, keepsUnique_refl. Qed.

Lemma keepsUnique_bind_run {A B} (m : M A) (k : A -> M B) :
  always (keepsUnique L) m ->
  (forall a s s', m s = (s', Ok a) -> keepsUnique L s' (fst (k a s'))) ->
  always (keepsUnique L) (bind m k).
Proof. apply always_bind_run, keepsUnique_trans. Qed.

Lemma keepsUnique_bind {A B} (m : M A) (k : A -> M B) :
  always (keepsUnique L) m -> (forall a, always (keepsUnique L) (k a)) ->
  always (keepsUnique L) (bind m k).
Proof. apply always_bind, keepsUnique_trans. Qed.

Lemma keepsUnique_forM {A} (f : A -> M unit) (l : list A) :
  (forall x, always (keepsUnique L) (f x)) ->
  always (keepsUnique L) (forM_ l f).
Proof. apply always_forM; [apply keepsUnique_refl|apply keepsUnique_trans]. Qed.

Lemma keepsUnique_bind_ready {A B} (m : M A) (k : A -> M B) :
  always (keepsUnique L) m ->
  (forall a s s', layerReady L s -> m s = (s', Ok a) ->
     keepsUnique L s' (fst (k a s'))) ->
  always (keepsUnique L) (bind m k).
Proof.
  intros Hm Hk s Hu. unfold bind. specialize (Hm s).
  destruct (m s) as [s1 [a|e]] eqn:Hrun; cbn [fst] in Hm |- *.
  - exact (Hk _ _ _ (proj1 Hu) Hrun (Hm Hu)).
  - exact (Hm Hu).
Qed.

Lemma keepsUnique_after_read {A B} (m : M A) (k : A -> M B) s :
  readonly m ->
  (forall a, m s = (s, Ok a) -> keepsUnique L s (fst (k a s))) ->
  keepsUnique L s (fst (bind m k s)).
Proof.
  intros Hm Hk. unfold bind. destruct (m s) as [s1 [a|e]] eqn:Hrun;
    pose proof (readonly_inv _ _ _ _ Hm Hrun) as ->; cbn [fst].
  - now apply Hk.
  - apply keepsUnique_refl.
Qed.

Lemma splice_out_sublist c l : Konva.splice_out c l `sublist_of` l.
Proof.
  induction l as [|x l IH]; cbn; [constructor|].
  destruct (Nat.eqb x c); [now apply sublist_cons|now apply sublist_skip].
Qed.

Lemma NoDup_map_sublist {A B} (f : A -> B) (l1 l2 : list A) :
  l1 `sublist_of` l2 -> NoDup (map f l2) -> NoDup (map f l1).
Proof.
  induction 1 as [|x l1 l2 Hsub IH|x l1 l2 Hsub IH]; cbn [map]; intros Hnd.
  - constructor.
  - apply NoDup_cons in Hnd as [Hx Hnd]. apply NoDup_cons. split; [|auto].
    intros Hin. apply Hx. apply list_elem_of_In, in_map_iff in Hin
      as (y & Hy & Hin). apply list_elem_of_In, in_map_iff. exists y.
    split; [exact Hy|]. apply list_elem_of_In.
    eapply elem_of_sublist; [|exact Hsub]. now apply list_elem_of_In.
  - apply NoDup_cons in Hnd as [_ Hnd]. auto.
Qed.

Lemma idOf_insert h r n n' x :
  h !! r = Some n -> Konva.id n' = Konva.id n ->
  idOf (<[r := n']> h) x = idOf h x.
Proof.
  intros Hr Hid. unfold idOf. destruct (decide (x = r)) as [->|Hne].
  - rewrite list_lookup_insert_eq by (eapply lookup_lt_Some, Hr).
    now rewrite Hr.
  - now rewrite list_lookup_insert_ne by congruence.
Qed.

(** An update that keeps the identifier and, on the layer, drops children
    at most. *)
Lemma keepsUnique_updNode r f :
  (forall n, Konva.id (f n) = Konva.id n) ->
  (r = L -> forall n, Konva.children (f n) `sublist_of` Konva.children n) ->
  always (keepsUnique L) (updNode r f).
Proof.
  intros Hid Hkids s. unfold updNode, bind, getNode.
  destruct (heap s !! r) as [n|] eqn:Hn; [|apply keepsUnique_refl].
  cbn [fst setNode modify].
  intros ((HL & Hal & Hself) & (ln & Hln & Hall) & Hnd).
  set (h' := <[r := f n]> (heap s)).
  assert (Hlen : List.length h' = List.length (heap s))
    by apply length_insert.
  assert (Hsub : exists ln', h' !! L = Some ln'
                   /\ Konva.children ln' `sublist_of` Konva.children ln).
  { destruct (decide (r = L)) as [->|Hne].
    - exists (f n). split.
      + apply list_lookup_insert_eq. eapply lookup_lt_Some, Hn.
      + assert (n = ln) as -> by congruence. now apply Hkids.
    - exists ln. split; [|reflexivity]. unfold h'.
      now rewrite list_lookup_insert_ne by exact Hne. }
  destruct Hsub as (ln' & Hln' & Hsub).
  unfold layerUnique, layerReady, closedAt. rewrite with_heap_heap. fold h'.
  rewrite (childrenOf_Some _ _ _ Hln').
  rewrite (childrenOf_Some _ _ _ Hln) in Hself, Hnd.
  split; [split; [exact HL|split]|split].
  - now exists ln'.
  - intros Hin. apply Hself. eapply elem_of_sublist; eassumption.
  - exists ln'. split; [exact Hln'|]. apply Forall_forall. intros x Hx.
    apply lookup_lt_is_Some. rewrite Hlen. apply lookup_lt_is_Some.
    rewrite Forall_forall in Hall. apply Hall.
    eapply elem_of_sublist; eassumption.
  - apply (NoDup_map_sublist _ _ _ Hsub).
    erewrite map_ext; [exact Hnd|].
    intros x. cbv beta. apply (idOf_insert _ _ _ _ _ Hn), Hid.
Qed.

Lemma keepsUnique_remove r : always (keepsUnique L) (Node_remove r).
Proof.
  unfold Node_remove.
  apply keepsUnique_bind; [apply keepsUnique_readonly, readonly_getNode|].
  intros n. destruct (Konva.parent n) as [p|]; [|apply keepsUnique_ret].
  apply keepsUnique_bind; [|intros _]; apply keepsUnique_updNode.
  - intros m. reflexivity.
  - intros _ m. cbn. apply splice_out_sublist.
  - intros m. reflexivity.
  - intros _ m. reflexivity.
Qed.

Lemma keepsUnique_add p c : p <> L -> always (keepsUnique L) (Node_add p c).
Proof.
  intros Hp. unfold Node_add. cbv zeta.
  assert (Hattach : always (keepsUnique L)
            (do _ <- updNode c (Konva.with_parent (Some p));
             updNode p (fun pn =>
               Konva.with_children (Konva.children pn ++ [c]) pn))).
  { apply keepsUnique_bind; [|intros _]; apply keepsUnique_updNode.
    - intros m. reflexivity.
    - intros _ m. reflexivity.
    - intros m. reflexivity.
    - intros E. now destruct Hp. }
  apply keepsUnique_bind; [apply keepsUnique_readonly, readonly_getNode|].
  intros cn. destruct (Konva.parent cn) as [q|]; [|exact Hattach].
  destruct (Nat.eqb q p); [apply keepsUnique_ret|].
  apply keepsUnique_bind; [apply keepsUnique_remove|intros _; exact Hattach].
Qed.

Lemma keepsUnique_Container_add p c :
  p <> L -> always (keepsUnique L) (Container_add p c).
Proof.
  intros Hp. apply keepsUnique_bind;
    [apply keepsUnique_readonly, readonly_asContainer|intros _].
  now apply keepsUnique_add.
Qed.

Lemma keepsUnique_observer cb c : observer cb -> always (keepsUnique L) (cb c).
Proof.
  intros Hcb s. destruct (Hcb c s) as (s' & Hrun & Hheap & HL & HK).
  rewrite Hrun. cbn [fst]. unfold keepsUnique, layerUnique, layerReady.
  now rewrite Hheap, HL.
Qed.

End KeepsUnique.

Ltac keepsUnique_step :=
  first
    [ apply keepsUnique_ret
    | apply keepsUnique_throw
    | apply keepsUnique_remove
    | apply keepsUnique_readonly; solve [repeat readonly_step]
    | apply keepsUnique_forM; intros
    | apply keepsUnique_bind; [|intros]
    | progress cbv zeta
    | match goal with
      | |- always (keepsUnique _) (match ?x with _ => _ end) => destruct x
      end ].

Section LoadUnique.
Context `{Ext : Externals}.

(** A new child of the layer whose identifier no child has. *)
Lemma layerUnique_new_child L s ln N :
  layerUnique L s -> heap s !! L = Some ln ->
  nodesWhere (heap s) (isNodeWithId (Konva.id N)) (Konva.children ln) = [] ->
  let g := List.length (heap s) in
  layerUnique L
    (with_heap
       (<[L := Konva.with_children (Konva.children ln ++ [g]) ln]>
          (<[g := Konva.with_parent (Some L) N]> (heap s ++ [N])))
       (with_heap (heap s ++ [N]) s)).
Proof.
  intros ((HL & Hal & Hself) & (ln0 & Hln0 & Hall) & Hnd) Hln Hnone g.
  assert (ln0 = ln) as -> by congruence.
  rewrite (childrenOf_Some _ _ _ Hln) in Hself, Hnd.
  assert (HLlt : L < g) by (eapply lookup_lt_Some, Hln).
  set (h' := <[L := Konva.with_children (Konva.children ln ++ [g]) ln]>
               (<[g := Konva.with_parent (Some L) N]> (heap s ++ [N]))).
  assert (Hlen : List.length h' = S g).
  { unfold h'. rewrite !length_insert, length_app. cbn. unfold g. lia. }
  assert (Hln' : h' !! L
                 = Some (Konva.with_children (Konva.children ln ++ [g]) ln)).
  { apply list_lookup_insert_eq. rewrite length_insert, length_app. cbn.
    unfold g in HLlt. lia. }
  assert (Hg' : h' !! g = Some (Konva.with_parent (Some L) N)).
  { unfold h'. rewrite list_lookup_insert_ne by lia.
    apply list_lookup_insert_eq. rewrite length_app. cbn. unfold g. lia. }
  assert (Hold : forall x, x ∈ Konva.children ln ->
                   idOf h' x = idOf (heap s) x /\ idOf (heap s) x <> Konva.id N).
  { intros x Hx. rewrite Forall_forall in Hall.
    destruct (Hall x Hx) as [nx Hnx].
    assert (Hxlt : x < g) by (eapply lookup_lt_Some, Hnx).
    assert (HxL : x <> L) by (intros ->; now apply Hself).
    split.
    - unfold idOf, h'. rewrite !list_lookup_insert_ne by lia.
      now rewrite lookup_app_l by exact Hxlt.
    - unfold idOf. rewrite Hnx. intros E.
      assert (Hin : In x (nodesWhere (heap s) (isNodeWithId (Konva.id N))
                            (Konva.children ln))).
      { apply nodesWhere_In. split; [now apply list_elem_of_In|].
        exists nx. split; [exact Hnx|]. now apply String.eqb_eq. }
      rewrite Hnone in Hin. destruct Hin. }
  unfold layerUnique, layerReady, closedAt. rewrite !with_heap_heap. fold h'.
  rewrite (childrenOf_Some _ _ _ Hln').
  cbn [Konva.children Konva.with_children].
  split; [split; [exact HL|split]|split].
  - rewrite Hln'. now eexists.
  - intros Hin. apply elem_of_app in Hin as [Hin|Hin]; [now apply Hself|].
    apply list_elem_of_singleton in Hin. lia.
  - eexists. split; [exact Hln'|]. cbn [Konva.children Konva.with_children].
    apply Forall_app. split.
    + apply Forall_forall. intros x Hx. apply lookup_lt_is_Some.
      rewrite Forall_forall in Hall. specialize (Hall x Hx).
      apply lookup_lt_is_Some in Hall. fold g in Hall. lia.
    + constructor; [rewrite Hg'; now eexists|constructor].
  - rewrite map_app. apply NoDup_app. split; [|split].
    + erewrite map_ext_in; [exact Hnd|].
      intros x Hx. apply Hold. now apply list_elem_of_In.
    + intros i Hi Hi'. cbn [map] in Hi'.
      apply list_elem_of_singleton in Hi'.
      apply list_elem_of_In, in_map_iff in Hi as (x & Hx & Hin).
      apply list_elem_of_In in Hin. destruct (Hold x Hin) as [Hsame Hne].
      apply Hne. rewrite <- Hsame, Hx, Hi'. unfold idOf. now rewrite Hg'.
    + cbn [map]. apply NoDup_singleton.
Qed.

Lemma keepsUnique_setDrawings_posGroup L sp :
  always (keepsUnique L) (setDrawings_posGroup sp).
Proof.
  intros s Hu. pose proof Hu as ((HL & [ln Hln] & Hself) & Hclosed & Hnd).
  revert Hu. change (keepsUnique L s (fst (setDrawings_posGroup sp s))).
  unfold setDrawings_posGroup.
  rewrite (bind_ok _ _ _ _ _ (thisLayer_ok _ _ HL)).
  apply keepsUnique_after_read; [apply readonly_getNode|intros spn _].
  apply keepsUnique_after_read; [apply readonly_getChildrenIf|].
  intros found Hfound. apply getChildrenIf_inv in Hfound as (_ & _ & ->).
  destruct (head _) as [g|] eqn:Hhead; [apply keepsUnique_refl|].
  assert (Hnone : nodesWhere (heap s) (isNodeWithId (Konva.id spn))
                    (Konva.children ln) = []).
  { rewrite (childrenOf_Some _ _ _ Hln) in Hhead.
    now destruct (nodesWhere _ _ _). }
  set (N := Konva.with_visible false _).
  assert (Hlt : L < List.length (heap s)) by (eapply lookup_lt_Some, Hln).
  rewrite (bind_ok _ _ _ _ _
             (eq_refl : newNode N s
                        = (with_heap (heap s ++ [N]) s,
                           Ok (List.length (heap s))))).
  rewrite (bind_ok _ _ _ _ _
             (Node_add_detached L (List.length (heap s)) ln N
                (with_heap (heap s ++ [N]) s)
                ltac:(lia) (lookup_snoc_old _ N _ _ Hln)
                (lookup_snoc _ _) eq_refl)).
  cbn [fst ret]. intros Hu. rewrite with_heap_heap.
  now apply layerUnique_new_child.
Qed.

Lemma keepsUnique_setDrawings_group L fuel drawingsDetails cmdCallback
    exeCallback statePosGroup posGroup :
  observer cmdCallback -> observer exeCallback -> posGroup <> L ->
  always (keepsUnique L)
    (setDrawings_group fuel drawingsDetails cmdCallback exeCallback
       statePosGroup posGroup).
Proof.
  intros Hcmd Hexe Hne. unfold setDrawings_group.
  apply keepsUnique_bind;
    [apply keepsUnique_readonly, readonly_getChildren|intros kids].
  apply keepsUnique_bind;
    [destruct (head kids); [apply keepsUnique_ret|apply keepsUnique_throw]|].
  intros stateGroup.
  apply keepsUnique_bind_run; [now apply keepsUnique_Container_add|].
  intros u s0 s Hadd. apply Container_add_parent in Hadd as (gn & Hgn & Hpar).
  apply keepsUnique_after_read;
    [apply readonly_Container_getChildrenIf|intros shapes _].
  apply keepsUnique_after_read;
    [destruct (head shapes); [apply readonly_getNode|apply readonly_throw]|].
  intros shape _.
  apply keepsUnique_after_read; [apply readonly_gets|intros layer _].
  apply keepsUnique_after_read;
    [unfold newCommand; repeat readonly_step|intros cmd Hrun].
  rewrite (newCommand_ok _ _ _ _ _ _ Hgn) in Hrun.
  inversion Hrun; subst cmd. rewrite Hpar.
  apply keepsUnique_bind; [|intros _].
  { destruct drawingsDetails as [dd|]; [|apply keepsUnique_ret].
    repeat first [ apply keepsUnique_updNode;
                     [intros ?; reflexivity|intros _ ?; reflexivity]
                 | keepsUnique_step ]. }
  unfold DrawGroupCommand_execute. cbn [cmd_parent cmd_group].
  apply keepsUnique_bind; [|intros _; now apply keepsUnique_observer].
  apply keepsUnique_bind; [now apply keepsUnique_add|].
  intros _. now apply keepsUnique_observer.
Qed.

Lemma keepsUnique_load L fuel drawingsDetails cmdCallback exeCallback
    stateLayer :
  observer cmdCallback -> observer exeCallback ->
  always (keepsUnique L)
    (do statePosGroups <- Container_getChildrenIf stateLayer isPositionNode;
     forM_ statePosGroups (fun statePosGroup =>
       do posGroup <- setDrawings_posGroup statePosGroup;
       do statePosKids <- Container_getChildren statePosGroup;
       forM_ (seq 0 (List.length statePosKids)) (fun _ =>
         setDrawings_group fuel drawingsDetails cmdCallback exeCallback
           statePosGroup posGroup))).
Proof.
  intros Hcmd Hexe.
  apply keepsUnique_bind;
    [apply keepsUnique_readonly, readonly_Container_getChildrenIf|intros sps].
  apply keepsUnique_forM. intros sp.
  apply keepsUnique_bind_ready; [apply keepsUnique_setDrawings_posGroup|].
  intros g s s' Hr Hrun.
  pose proof (setDrawings_posGroup_not_layer _ _ _ _ _ Hr Hrun) as Hne.
  apply keepsUnique_bind;
    [apply keepsUnique_readonly, readonly_Container_getChildren|intros kids].
  apply keepsUnique_forM. intros _. now apply keepsUnique_setDrawings_group.
Qed.

(** X19. [setDrawings] gets or creates: it adds a Position Group under the layer
    for an identifier only when no child of the layer has that identifier.
    If no two children of the layer had the same identifier before the
    call, no two have the same identifier after it, whatever the incoming
    scene and whatever the outcome of the call. *)
Theorem setDrawings_unique_ids (fuel : nat) (drawings : Konva.Json)
    (drawingsDetails : option (gmap string StoreDetails))
    (cmdCallback exeCallback : Callback) (s : State) :
  observer cmdCallback -> observer exeCallback ->
  layerOK s -> uniqueIds s ->
  uniqueIds (fst (setDrawings fuel drawings drawingsDetails cmdCallback
                    exeCallback s)).
Proof.
  intros Hcmd Hexe Hok Hnd.
  pose proof (setDrawings_quiet fuel drawings drawingsDetails cmdCallback
                exeCallback s Hcmd Hexe) as (HLq & _).
  destruct (Node_create_extends drawings s) as [(HL0 & _ & Hlen0 & Hold0) _].
  destruct (konvaLayer s) as [L|] eqn:HL.
  2:{ unfold uniqueIds, layerChildren. rewrite HLq, HL0. constructor. }
  destruct (Hok L HL) as ((ln & Hln & Hall) & Hself).
  assert (HLlt : L < List.length (heap s)) by (eapply lookup_lt_Some, Hln).
  assert (Hu0 : layerUnique L (fst (Node_create drawings s))).
  { assert (Hln0 : heap (fst (Node_create drawings s)) !! L = Some ln)
      by (rewrite Hold0 by exact HLlt; exact Hln).
    unfold layerUnique, layerReady, closedAt.
    rewrite (childrenOf_Some _ _ _ Hln0).
    rewrite (childrenOf_Some _ _ _ Hln) in Hself.
    split; [split; [congruence|split; [rewrite Hln0; now eexists
                                      |exact Hself]]|split].
    - exists ln. split; [exact Hln0|]. eapply Forall_impl; [exact Hall|].
      intros x Hx. cbn beta in Hx. apply lookup_lt_is_Some.
      apply lookup_lt_is_Some in Hx. lia.
    - unfold uniqueIds, layerChildren in Hnd. rewrite HL in Hnd.
      rewrite (childrenOf_Some _ _ _ Hln) in Hnd.
      erewrite map_ext_in; [exact Hnd|]. intros x Hx. unfold idOf.
      rewrite Forall_forall in Hall.
      destruct (Hall x (proj2 (list_elem_of_In _ _) Hx)) as [nx Hnx].
      rewrite Hold0 by (eapply lookup_lt_Some, Hnx). reflexivity. }
  assert (Hu : layerUnique L
                 (fst (setDrawings fuel drawings drawingsDetails cmdCallback
                         exeCallback s))).
  { revert Hu0. unfold setDrawings, bind at 1.
    destruct (Node_create drawings s) as [s0 [stateLayer|e]]; cbn [fst];
      [|auto].
    now apply keepsUnique_load. }
  destruct Hu as ((HL' & _) & _ & Hnd').
  unfold uniqueIds, layerChildren. now rewrite HL'.
Qed.

(** X20. With an active key, [getCurrentPosGroup] creates a Position Group only
    when no child of the layer has the key as identifier: identifiers that
    were pairwise distinct under the layer stay so. *)
Theorem getCurrentPosGroup_unique_ids (s : State) (K : string) :
  currentPosGroupId s = Some K -> layerOK s -> uniqueIds s ->
  uniqueIds (fst (getCurrentPosGroup s)).
Proof.
  intros HK Hok Hnd.
  destruct (konvaLayer s) as [L|] eqn:HL.
  2:{ unfold getCurrentPosGroup.
      now rewrite (bind_throw _ _ _ _ _ (thisLayer_none _ HL)). }
  destruct (Hok L HL) as (Hclosed & Hself).
  pose proof Hclosed as (ln & Hln & Hall).
  destruct (nodesWhere (heap s) (idIsKey (currentPosGroupId s))
              (childrenOf (heap s) L)) as [|g [|g' rest]] eqn:Hfound.
  - rewrite (childrenOf_Some _ _ _ Hln) in Hfound.
    rewrite (getCurrentPosGroup_created s L ln HL Hln Hall Hfound).
    cbn [fst].
    assert (Hu : layerUnique L s).
    { split; [split; [exact HL|split; [rewrite Hln; now eexists
                                      |exact Hself]]|].
      split; [exact Hclosed|].
      unfold uniqueIds, layerChildren in Hnd. now rewrite HL in Hnd. }
    pose proof (layerUnique_new_child L s ln
                  (Konva.with_visible true
                     (Konva.with_id K
                        (Konva.with_name "position-group" Konva.Group)))
                  Hu Hln) as Hnew.
    cbn [Konva.id Konva.with_visible Konva.with_id] in Hnew.
    rewrite HK in Hfound. specialize (Hnew Hfound). cbv zeta in Hnew.
    destruct Hnew as (_ & _ & Hnd').
    rewrite with_heap_heap in Hnd'.
    unfold uniqueIds, layerChildren.
    cbn [konvaLayer with_heap heap]. rewrite HL.
    assert (Hsame :
              <[L := Konva.with_children
                       (Konva.children ln ++ [List.length (heap s)]) ln]>
                (heap s) ++ [newPositionGroup (currentPosGroupId s) L]
              = <[L := Konva.with_children
                         (Konva.children ln ++ [List.length (heap s)]) ln]>
                  (<[List.length (heap s)
                     := Konva.with_parent (Some L)
                          (Konva.with_visible true
                             (Konva.with_id K
                                (Konva.with_name "position-group"
                                   Konva.Group)))]>
                     (heap s ++ [Konva.with_visible true
                                   (Konva.with_id K
                                      (Konva.with_name "position-group"
                                         Konva.Group))]))).
    { rewrite insert_snoc. rewrite HK.
      rewrite insert_app_l by (eapply lookup_lt_Some, Hln). reflexivity. }
    rewrite Hsame. exact Hnd'.
  - rewrite (getCurrentPosGroup_found s L g HL Hclosed Hfound). exact Hnd.
  - rewrite (getCurrentPosGroup_several s L HL Hclosed).
    + exact Hnd.
    + rewrite Hfound. cbn. lia.
Qed.

End LoadUnique.

(* ===================================================================== *)
(** * Deleting, then looking up *)
(* ===================================================================== *)

Section DeleteThenLookup.
Context `{Ext : Externals}.

(** A walk in an arena whose child lists have shrunk meets a part of what
    it met before. *)
Lemma descendants_shrink h h' :
  (forall r n, h !! r = Some n ->
     exists n', h' !! r = Some n'
                /\ Konva.children n' `sublist_of` Konva.children n) ->
  forall fuel r ds,
    Konva.descendants fuel h r = Some ds ->
    exists ds', Konva.descendants fuel h' r = Some ds'
                /\ ds' `sublist_of` ds.
Proof.
  intros Hshrink. induction fuel as [|f IH]; intros r ds H; [discriminate|].
  cbn [Konva.descendants] in H |- *.
  destruct (h !! r) as [n|] eqn:Hn; [|discriminate].
  destruct (Hshrink _ _ Hn) as (n' & -> & Hsub).
  revert ds H. induction Hsub as [|x cs' cs Hsub IHs|x cs' cs Hsub IHs];
    intros ds H.
  - exists []. split; [reflexivity|]. apply sublist_nil_l.
  - cbn [foldr] in H |- *.
    destruct (Konva.descendants f h x) as [dx|] eqn:Hx; [|discriminate].
    destruct (foldr _ _ cs) as [rest|] eqn:Hrest; [|discriminate].
    inversion H; subst ds.
    destruct (IH _ _ Hx) as (dx' & -> & Hdx).
    destruct (IHs _ eq_refl) as (rest' & -> & Hr).
    eexists. split; [reflexivity|].
    apply sublist_skip. now apply sublist_app.
  - cbn [foldr] in H.
    destruct (Konva.descendants f h x) as [dx|] eqn:Hx; [|discriminate].
    destruct (foldr _ _ cs) as [rest|] eqn:Hrest; [|discriminate].
    inversion H; subst ds.
    destruct (IHs _ eq_refl) as (rest' & Hrun & Hr).
    exists rest'. split; [exact Hrun|].
    apply sublist_cons. now apply sublist_inserts_l.
Qed.

Lemma splice_out_NoDup c l : NoDup l -> c ∉ Konva.splice_out c l.
Proof.
  induction 1 as [|x l Hx Hnd IH]; cbn [Konva.splice_out].
  - apply not_elem_of_nil.
  - destruct (Nat.eqb x c) eqn:E.
    + apply Nat.eqb_eq in E. now subst x.
    + apply Nat.eqb_neq in E. intros Hin.
      apply elem_of_cons in Hin as [Hin|Hin]; [congruence|now apply IH].
Qed.

(** Once the child [g] of [p] is unlinked, no walk of a well formed arena
    meets it. *)
Lemma detached_unreachable h g p gn fuel r ds :
  wf h -> h !! g = Some gn -> Konva.parent gn = Some p ->
  Konva.descendants fuel (detach g p h) r = Some ds -> g ∉ ds.
Proof.
  intros Hwf Hg Hpar Hds Hin.
  destruct (descendants_child _ _ _ _ Hds g Hin) as (q & qn' & Hq & Hgq).
  rewrite lookup_detach in Hq.
  destruct (h !! q) as [qn|] eqn:Hqn; [|discriminate].
  cbn [fmap option_fmap option_map] in Hq. inversion Hq; subst qn'; clear Hq.
  assert (Hkids : g ∈ (if decide (q = p)
                       then Konva.splice_out g (Konva.children qn)
                       else Konva.children qn)).
  { destruct (decide (q = p)); destruct (decide (q = g)); exact Hgq. }
  destruct (decide (q = p)) as [->|Hne].
  - revert Hkids. apply splice_out_NoDup. eapply wf_NoDup; eassumption.
  - destruct (wf_children _ _ _ _ Hwf Hqn Hkids) as (gn' & Hg' & Hpar').
    congruence.
Qed.

Lemma matchesOne_attr sel n n' :
  Konva.id n' = Konva.id n -> Konva.name n' = Konva.name n ->
  Konva.className n' = Konva.className n ->
  Konva.matchesOne sel n' = Konva.matchesOne sel n.
Proof.
  intros Hi Hn Hc.
  unfold Konva.matchesOne, Konva.hasName, Konva.nodeType, Konva.isContainer.
  now rewrite Hi, Hn, Hc.
Qed.

(** The selector reads the identifier, the name and the class of a node. *)
Lemma selectsId_attr i n n' :
  Konva.id n' = Konva.id n -> Konva.name n' = Konva.name n ->
  Konva.className n' = Konva.className n ->
  selectsId i n' = selectsId i n.
Proof.
  intros Hi Hn Hc. unfold selectsId, Konva.isMatch.
  destruct (String.eqb _ ""); [reflexivity|].
  induction (JS.splitOn _ _) as [|sel sels IH]; [reflexivity|].
  cbn [existsb]. now rewrite IH, (matchesOne_attr sel n n' Hi Hn Hc).
Qed.

(** X21. Delete, then look up.  In a well formed scene where the selector
    ['#' + id] matches one node below the layer, and that node is a
    container, [deleteDraw] unlinks that node; from then on the selector
    finds nothing: [getGroup] returns [undefined] with a warning, and a
    second [deleteDraw] returns [false] and changes no node. *)
Theorem deleteDraw_then_missing (fuel : nat) (i : string)
    (cmdCallback exeCallback : Callback) (s : State) (L : Konva.ref)
    (ds : list Konva.ref) (g : Konva.ref) :
  observer cmdCallback -> observer exeCallback ->
  wf (heap s) ->
  konvaLayer s = Some L ->
  Konva.descendants fuel (heap s) L = Some ds ->
  nodesWhere (heap s) (selectsId i) ds = [g] ->
  containerAt (heap s) g ->
  exists s',
    deleteDraw fuel i cmdCallback exeCallback s = (s', Ok true)
    /\ getGroup fuel i s'
       = (mkState (heap s') (konvaLayer s') (currentPosGroupId s')
            (log s' ++ [("Cannot find node with id: " ++ i)%string]),
          Ok None)
    /\ deleteDraw fuel i cmdCallback exeCallback s'
       = (mkState (heap s') (konvaLayer s') (currentPosGroupId s')
            (log s' ++ [("Cannot find node with id: " ++ i)%string]),
          Ok false).
Proof.
  intros Hcmd Hexe Hwf HL Hds Hfound Hgc.
  assert (Hin : g ∈ ds).
  { assert (Hin : In g (nodesWhere (heap s) (selectsId i) ds))
      by (rewrite Hfound; now left).
    apply nodesWhere_In in Hin as [Hin _]. now apply list_elem_of_In. }
  destruct (descendants_child _ _ _ _ Hds g Hin) as (p & pn & Hp & Hgp).
  destruct (wf_children _ _ _ _ Hwf Hp Hgp) as (gn & Hg & Hpar).
  destruct (deleteDrawGroup_attached g p gn cmdCallback exeCallback s
              Hcmd Hexe (wf_closedHeap _ Hwf) Hg
              (proj1 (containerAt_Some _ _ _ Hg) Hgc) Hpar
              (ex_intro _ pn Hp))
    as (s' & Hrun & Hheap & Hlayer & Hkey).
  assert (Hshrink : forall r n, heap s !! r = Some n ->
            exists n', heap s' !! r = Some n'
                       /\ selectsId i n' = selectsId i n
                       /\ Konva.children n' `sublist_of` Konva.children n).
  { intros r n Hn. rewrite Hheap, lookup_detach, Hn.
    cbn [fmap option_fmap option_map]. eexists. split; [reflexivity|].
    destruct (decide (r = p)); destruct (decide (r = g));
      (split; [now apply selectsId_attr|]); cbn; try reflexivity;
      apply splice_out_sublist. }
  destruct (descendants_shrink (heap s) (heap s')
              (fun r n Hn =>
                 match Hshrink r n Hn with
                 | ex_intro _ n' (conj Hn' (conj _ Hsub)) =>
                     ex_intro _ n' (conj Hn' Hsub)
                 end) fuel L ds Hds) as (ds' & Hds' & Hsub).
  assert (Hnone : nodesWhere (heap s') (selectsId i) ds' = []).
  { destruct (nodesWhere (heap s') (selectsId i) ds') as [|x l] eqn:Hl;
      [reflexivity|exfalso].
    assert (Hx : In x (nodesWhere (heap s') (selectsId i) ds'))
      by (rewrite Hl; now left).
    apply nodesWhere_In in Hx as (Hxin & n' & Hn' & Hid).
    apply list_elem_of_In in Hxin.
    assert (Hxds : x ∈ ds) by (eapply elem_of_sublist; eassumption).
    pose proof (descendants_allocated _ _ _ _ Hds) as Hall.
    rewrite Forall_forall in Hall. destruct (Hall x Hxds) as [n Hn].
    destruct (Hshrink _ _ Hn) as (n0 & Hn0 & Hid0 & _).
    assert (n0 = n') as -> by congruence.
    assert (Hxg : In x (nodesWhere (heap s) (selectsId i) ds)).
    { apply nodesWhere_In. split; [now apply list_elem_of_In|].
      exists n. split; [exact Hn|]. now rewrite <- Hid0. }
    rewrite Hfound in Hxg. destruct Hxg as [<-|[]].
    rewrite Hheap in Hds'.
    exact (detached_unreachable _ _ _ _ _ _ _ Hwf Hg Hpar Hds' Hxin). }
  assert (HL' : konvaLayer s' = Some L) by congruence.
  exists s'. split; [|split].
  - unfold deleteDraw.
    rewrite (bind_ok _ _ _ _ _ (getGroup_some _ _ _ _ _ _ _ HL Hds Hfound)).
    now rewrite (bind_ok _ _ _ _ _ Hrun).
  - exact (getGroup_none _ _ _ _ _ HL' Hds' Hnone).
  - unfold deleteDraw.
    now rewrite (bind_ok _ _ _ _ _ (getGroup_none _ _ _ _ _ HL' Hds' Hnone)).
Qed.

End DeleteThenLookup.

(* ===================================================================== *)
(** * What the operations never do *)
(* ===================================================================== *)

Section NeverDone.
Context `{Ext : Externals}.

(** X22. Whatever the incoming scene and the details are, and whether the call
    returns or stops on an exception, [setDrawings] with callbacks that
    observe frees no node and leaves the name, the identifier and the
    [visible] flag of every node there was; the layer field and the active
    key are what they were.  Besides the nodes of the incoming scene, the
    only nodes it allocates are invisible Position Groups. *)
Theorem setDrawings_keeps_existing (fuel : nat) (drawings : Konva.Json)
    (drawingsDetails : option (gmap string StoreDetails))
    (cmdCallback exeCallback : Callback) (s : State) :
  observer cmdCallback -> observer exeCallback ->
  let s' := fst (setDrawings fuel drawings drawingsDetails cmdCallback
                   exeCallback s) in
  konvaLayer s' = konvaLayer s
  /\ currentPosGroupId s' = currentPosGroupId s
  /\ List.length (heap s) <= List.length (heap s')
  /\ (forall x n, heap s !! x = Some n ->
        exists n', heap s' !! x = Some n'
                   /\ Konva.name n' = Konva.name n
                   /\ Konva.id n' = Konva.id n
                   /\ Konva.visible n' = Konva.visible n)
  /\ (forall x n', heap s' !! x = Some n' ->
        heap (fst (Node_create drawings s)) !! x = None ->
        Konva.visible n' = false /\ isPositionNode n' = true).
Proof.
  intros Hcmd Hexe s'.
  destruct (Node_create_extends drawings s) as [(HL0 & HK0 & Hlen0 & Hold0) _].
  pose proof (setDrawings_quiet fuel drawings drawingsDetails cmdCallback
                exeCallback s Hcmd Hexe) as (HL & HK & Hold & Hnew).
  fold s' in HL, HK, Hold, Hnew.
  split; [congruence|]. split; [congruence|]. split.
  { destruct (Nat.eq_dec (List.length (heap s)) 0) as [E|E]; [lia|].
    assert (Hlast : is_Some (heap s !! (List.length (heap s) - 1)))
      by (apply lookup_lt_is_Some; lia).
    destruct Hlast as [n Hn].
    rewrite <- Hold0 in Hn by lia.
    destruct (Hold _ _ Hn) as (n' & Hn' & _).
    apply lookup_lt_Some in Hn'. lia. }
  split; [|exact Hnew].
  intros x n Hn. apply Hold. rewrite Hold0; [exact Hn|].
  eapply lookup_lt_Some, Hn.
Qed.

(** X23. [updateDraw], [getDrawStoreDetails], [deleteDraw] and [deleteDraws]
    never allocate a node and never give a node a child it did not have;
    they keep every name and identifier, the [visible] flag of every
    Position Group, the layer field and the active key.  This holds for
    every scene and every argument, also when the call stops on an
    exception half way. *)
Theorem unloading_operations_add_nothing (fuel : nat) (d : DrawDetails)
    (i : string) (cmdCallback exeCallback : Callback) (s : State) :
  observer cmdCallback -> observer exeCallback ->
  gentle s (fst (updateDraw fuel d s))
  /\ gentle s (fst (getDrawStoreDetails fuel s))
  /\ gentle s (fst (deleteDraw fuel i cmdCallback exeCallback s))
  /\ gentle s (fst (deleteDraws fuel cmdCallback exeCallback s)).
Proof.
  intros Hcmd Hexe. split; [apply gentle_updateDraw|].
  split; [apply gentle_getDrawStoreDetails|].
  split; [now apply gentle_deleteDraw|now apply gentle_deleteDraws].
Qed.

End NeverDone.

(* ===================================================================== *)
(** * The theorems at work on the sample scenes *)
(* ===================================================================== *)

Lemma getDrawDisplayDetails_types_witness :
  exists l,
    getDrawDisplayDetails sample_state = (sample_state, Ok l)
    /\ Forall2 (fun d g => groupType (heap sample_state) g = Some (dd_type d))
         l (groupsUnder (heap sample_state) (layerChildren sample_state)).
Proof.
  eexists. split; [vm_compute; reflexivity|].
  apply (getDrawDisplayDetails_types sample_state sample_state).
  vm_compute. reflexivity.
Defined.

Lemma closedAt_duplicate : closedAt (heap duplicate_state) 0.
Proof.
  eexists. split; [reflexivity|]. repeat constructor; eexists; reflexivity.
Qed.

Lemma getCurrentPosGroup_duplicates_null_witness :
  1 < List.length (positionGroupsWithId duplicate_state "#2-0")
  /\ getCurrentPosGroup duplicate_state
     = (mkState duplicate_heap (Some 0) (Some "#2-0")
          ["Unexpected number of draw position groups."], Ok None).
Proof.
  split; [vm_compute; lia|].
  apply (getCurrentPosGroup_duplicates_null duplicate_state 0 "#2-0").
  - reflexivity.
  - reflexivity.
  - exact closedAt_duplicate.
  - vm_compute. lia.
Defined.

(** With two Position Groups of the active key the call returns [null]
    where the first of them was expected. *)
Lemma getCurrentPosGroup_first_match_counterexample :
  1 < List.length (positionGroupsWithId duplicate_state "#2-0")
  /\ ~ returnsFirstMatchAt duplicate_state "#2-0".
Proof.
  split; [vm_compute; lia|].
  intros (g & s1 & Hrun & _). vm_compute in Hrun. discriminate.
Qed.

(** On a layer with two Position Groups of the active key, the calls return
    no node and two groups with that key remain. *)
Lemma getCurrentPosGroup_idempotent_counterexample :
  konvaLayer duplicate_state = Some 0
  /\ currentPosGroupId duplicate_state = Some "#2-0"%string
  /\ positionGroupsWithId duplicate_state "#2-0" = [1; 2]
  /\ getCurrentPosGroup duplicate_state
     = (mkState duplicate_heap (Some 0) (Some "#2-0"%string)
          ["Unexpected number of draw position groups."%string], Ok None)
  /\ ~ sameNodeTwiceAt duplicate_state "#2-0".
Proof.
  split; [reflexivity|]. split; [reflexivity|]. split; [reflexivity|].
  split; [reflexivity|].
  intros (g & s1 & s2 & Hrun & _). vm_compute in Hrun. discriminate.
Qed.

Lemma closedAt_sample : closedAt (heap sample_state) 0.
Proof.
  eexists. split; [reflexivity|]. repeat constructor; eexists; reflexivity.
Qed.

Lemma getCurrentPosGroup_idempotent_witness :
  idempotentAt sample_state "#2-0" /\ sameNodeTwiceAt sample_state "#2-0".
Proof.
  apply (getCurrentPosGroup_idempotent sample_state 0 "#2-0").
  - reflexivity.
  - reflexivity.
  - exact closedAt_sample.
  - vm_compute. lia.
  - reflexivity.
Defined.

Lemma wf_sample : wf (heap sample_state).
Proof. vm_compute. reflexivity. Qed.

Lemma observer_silent : observer silent.
Proof. intros c s. exists s. now repeat split. Qed.

Lemma activateDrawLayer_one_visible_witness :
  exists s',
    activateDrawLayer ([0; 0; 1]%Z : @Index SampleExternals) 2 sample_state
    = (s', Ok tt)
    /\ currentPosGroupId s' = Some "#2-1"
    /\ positionGroupsWithId s' "#2-1"
       = positionGroupsWithId sample_state "#2-1"
    /\ (positionGroupsWithId sample_state "#2-1" <> [] ->
        exists g, visiblePositionGroups s' = [g]
                  /\ idOf (heap s') g = "#2-1")
    /\ (positionGroupsWithId sample_state "#2-1" = [] ->
        visiblePositionGroups s' = []).
Proof.
  apply (activateDrawLayer_one_visible
           ([0; 0; 1]%Z : @Index SampleExternals) 2 "#2-1" sample_state 0).
  - reflexivity.
  - reflexivity.
  - exact closedAt_sample.
  - vm_compute. repeat constructor; [|apply not_elem_of_nil].
    intros H. apply elem_of_cons in H as [H|H]; [discriminate|].
    now apply elem_of_nil in H.
Defined.

Lemma containers_sample :
  Forall (containerAt (heap sample_state)) (layerChildren sample_state).
Proof. change (Forall (containerAt (heap sample_state)) [1; 2]). now repeat constructor. Qed.

Lemma layer_fuel_sample : List.length (layerChildren sample_state) < 3.
Proof. vm_compute. lia. Qed.

Lemma deleteDraws_removes_all_witness :
  exists s',
    deleteDraws 3 silent silent sample_state = (s', Ok tt)
    /\ konvaLayer s' = Some 0
    /\ childrenOf (heap s') 0 = []
    /\ groupsUnder (heap s') (layerChildren s') = []
    /\ forall c, c ∈ layerChildren sample_state ->
         exists cn, heap s' !! c = Some cn /\ Konva.parent cn = None.
Proof.
  destruct (deleteDraws_removes_all 3 silent silent sample_state 0
              observer_silent observer_silent eq_refl) as [Hreturns Hruns].
  destruct (Hruns wf_sample (ex_intro _ _ eq_refl) containers_sample
              layer_fuel_sample) as (s' & Hrun & Hdetached).
  destruct (Hreturns s' Hrun) as (HL & _ & Hkids & _ & Hgroups).
  exists s'. split; [exact Hrun|]. split; [exact HL|].
  split; [exact Hkids|]. split; [exact Hgroups|exact Hdetached].
Defined.

Lemma paintable_sample : paintable (heap sample_state) 3 6.
Proof.
  split; [reflexivity|].
  split; [change (Forall (shapeAt (heap sample_state)) [4]);
          now repeat constructor|].
  split; [change (Forall (shapeAt (heap sample_state)) [5]);
          now repeat constructor|].
  split; [reflexivity|].
  change (Forall (shapeAt (heap sample_state)) [7; 8]). now repeat constructor.
Qed.

Lemma updateDraw_label_visibility_witness :
  exists s' ln ln',
    updateDraw 5 sample_update sample_state = (s', Ok tt)
    /\ heap sample_state !! 6 = Some ln /\ heap s' !! 6 = Some ln'
    /\ Konva.visible ln' = false
    /\ Forall (fun t =>
                 exists tn, heap s' !! t = Some tn
                   /\ Konva.meta tn = Some (sample_meta "")
                   /\ Konva.text tn = "") [7].
Proof.
  apply (updateDraw_label_visibility 5 sample_update sample_state 0
           [1; 3; 4; 5; 6; 7; 8; 9; 2] 3 6).
  - reflexivity.
  - exact (wf_closedHeap _ wf_sample).
  - reflexivity.
  - reflexivity.
  - reflexivity.
  - exact paintable_sample.
  - vm_compute. discriminate.
Defined.



Lemma visibleIffActive_sample : visibleIffActive sample_state.
Proof.
  intros c n Hc Hn _. change (c ∈ [1; 2]) in Hc.
  apply elem_of_cons in Hc as [->|Hc];
    [|apply list_elem_of_singleton in Hc as ->];
    vm_compute in Hn; inversion Hn; subst n; reflexivity.
Qed.

Lemma layerOK_sample : layerOK sample_state.
Proof.
  intros L HL. cbn in HL. inversion HL; subst L.
  split; [exact closedAt_sample|].
  change (0 ∉ [1; 2]). intros Hin.
  apply elem_of_cons in Hin as [Hin|Hin]; [discriminate|].
  apply list_elem_of_singleton in Hin. discriminate.
Qed.

Lemma visibility_invariant_by_operation_witness :
  visibleIffActive sample_state
  /\ visibleIffActive (fst (getCurrentPosGroup sample_state))
  /\ visibleIffActive (fst (updateDraw 5 sample_update sample_state))
  /\ visibleIffActive (fst (getDrawStoreDetails 5 sample_state))
  /\ visibleIffActive (fst (deleteDraws 5 silent silent sample_state)).
Proof.
  destruct (visibility_invariant_by_operation 5 sample_state
              silent silent visibleIffActive_sample layerOK_sample
              observer_silent observer_silent)
    as (Hcurrent & _ & _ & _ & _ & Hstore & Hupdate & _ & _ & Hdelete & _).
  split; [exact visibleIffActive_sample|]. split; [exact (Hcurrent "#2-0" eq_refl)|].
  split; [exact (Hupdate sample_update)|]. split; [exact Hstore|].
  exact Hdelete.
Defined.

(** On an empty layer with the key [#2-0] active, loading a scene that has a
    Position Group [#2-0] leaves that group under the layer, invisible: the
    invariant held before the call and does not hold after it. *)
Lemma setDrawings_visibility_counterexample :
  let s' := fst (setDrawings 5 incoming_scene None silent silent empty_state) in
  visibleIffActive empty_state
  /\ snd (setDrawings 5 incoming_scene None silent silent empty_state) = Ok tt
  /\ currentPosGroupId s' = Some "#2-0"
  /\ layerChildren s' = [3]
  /\ (exists n, heap s' !! 3 = Some n
                /\ heap empty_state !! 3 = None
                /\ isPositionNode n = true
                /\ Konva.id n = "#2-0"
                /\ Konva.visible n = false)
  /\ ~ visibleIffActive s'.
Proof.
  intros s'. split.
  { intros c n Hc. change (c ∈ []) in Hc. now apply elem_of_nil in Hc. }
  split; [reflexivity|]. split; [reflexivity|]. split; [reflexivity|].
  split.
  { eexists. split; [reflexivity|]. now repeat split. }
  intros Hinv.
  assert (Hin : 3 ∈ layerChildren s') by (change (3 ∈ [3]); apply list_elem_of_here).
  specialize (Hinv 3 _ Hin eq_refl eq_refl). vm_compute in Hinv. discriminate.
Qed.

(* ===================================================================== *)
(** * Further theorems at work on the sample scenes *)
(* ===================================================================== *)

Lemma getPositionFromGroupId_no_separator_witness :
  snd (getPositionFromGroupId "slice-3")
  = ["Badly formed PositionGroupId: slice-3"%string]
  /\ (sliceNumber (fst (getPositionFromGroupId "slice-3"))
      ++ frameNumber (fst (getPositionFromGroupId "slice-3")))%string
     = "slice-3"%string
  /\ String.length (sliceNumber (fst (getPositionFromGroupId "slice-3")))
     = Nat.min 6 (String.length "slice-3").
Proof.
  apply (getPositionFromGroupId_no_separator "slice-3"). reflexivity.
Defined.

Lemma getPositionFromGroupId_skips_six_witness :
  getPositionFromGroupId "abcdef3_ghijkl0"
  = ({| sliceNumber := "3"; frameNumber := "0" |}, []).
Proof.
  apply (getPositionFromGroupId_skips_six "abcdef" "3" "ghijkl" "0");
    reflexivity.
Defined.

Lemma getDrawPositionGroupId_injective_witness :
  Point_get [1; 2; 3]%Z 2 = Point_get [7; 8; 3; 0]%Z 2
  /\ (if Nat.eqb (Point_length [1; 2; 3]%Z) 4
      then Point_get [1; 2; 3]%Z 3 else Some 0%Z)
     = (if Nat.eqb (Point_length [7; 8; 3; 0]%Z) 4
        then Point_get [7; 8; 3; 0]%Z 3 else Some 0%Z).
Proof.
  apply (getDrawPositionGroupId_injective [1; 2; 3]%Z [7; 8; 3; 0]%Z).
  vm_compute. reflexivity.
Defined.

Lemma getGroup_first_match_witness :
  (getGroup 5 "g1" sample_state = (sample_state, Ok (Some 3))
   /\ 3 ∈ [1; 3; 4; 5; 6; 7; 8; 9; 2]
   /\ idOf (heap sample_state) 3 = "g1"%string)
  /\ getGroup 5 "g 1" sample_state = (sample_state, Ok (Some 3)).
Proof.
  split.
  - pose proof (proj1 (getGroup_first_match 5 "g1" sample_state 0
                         [1; 3; 4; 5; 6; 7; 8; 9; 2] eq_refl eq_refl)) as H.
    change (getGroup 5 "g1" sample_state = (sample_state, Ok (Some 3))
            /\ 3 ∈ [1; 3; 4; 5; 6; 7; 8; 9; 2]
            /\ (plainId "g1" = true
                -> idOf (heap sample_state) 3 = "g1"%string)) in H.
    destruct H as (Hrun & Hin & Hid).
    split; [exact Hrun|]. split; [exact Hin|exact (Hid eq_refl)].
  - pose proof (proj1 (getGroup_first_match 5 "g 1" sample_state 0
                         [1; 3; 4; 5; 6; 7; 8; 9; 2] eq_refl eq_refl)) as H.
    change (getGroup 5 "g 1" sample_state = (sample_state, Ok (Some 3))
            /\ 3 ∈ [1; 3; 4; 5; 6; 7; 8; 9; 2]
            /\ (plainId "g 1" = true
                -> idOf (heap sample_state) 3 = "g 1"%string)) in H.
    exact (proj1 H).
Defined.

Lemma deleteDraw_missing_witness :
  deleteDraw 5 "g2" silent silent sample_state
  = (mkState sample_heap (Some 0) (Some "#2-0"%string)
       ["Cannot find node with id: g2"%string], Ok false).
Proof.
  apply (deleteDraw_missing 5 "g2" silent silent sample_state 0
           [1; 3; 4; 5; 6; 7; 8; 9; 2]); [reflexivity|reflexivity|].
  left. reflexivity.
Defined.

Lemma deleteDraw_unlinks_witness :
  deleteDraw 5 "" silent silent sample_state = (sample_state, Throw TypeError)
  /\ exists s' p gn,
    deleteDraw 5 "g1" silent silent sample_state = (s', Ok true)
    /\ heap sample_state !! 3 = Some gn /\ Konva.parent gn = Some p
    /\ 3 ∈ childrenOf (heap sample_state) p
    /\ heap s' = detach 3 p (heap sample_state)
    /\ heap s' !! 3 = Some (Konva.with_parent None
                              (if decide (3 = p)
                               then Konva.with_children
                                      (Konva.splice_out 3 (Konva.children gn))
                                      gn
                               else gn))
    /\ childrenOf (heap s') p
       = Konva.splice_out 3 (childrenOf (heap sample_state) p)
    /\ (forall x, x <> 3 -> x <> p -> heap s' !! x = heap sample_state !! x)
    /\ konvaLayer s' = konvaLayer sample_state
    /\ currentPosGroupId s' = currentPosGroupId sample_state.
Proof.
  split.
  - apply (deleteDraw_unlinks 5 "" silent silent sample_state 0
             [1; 3; 4; 5; 6; 7; 8; 9; 2] 4 [5; 6; 7; 8; 9]
             observer_silent observer_silent wf_sample eq_refl eq_refl
             eq_refl).
    reflexivity.
  - apply (deleteDraw_unlinks 5 "g1" silent silent sample_state 0
             [1; 3; 4; 5; 6; 7; 8; 9; 2] 3 []
             observer_silent observer_silent wf_sample eq_refl eq_refl
             eq_refl).
    reflexivity.
Defined.

Lemma updateDraw_missing_witness :
  updateDraw 5 (mkDrawDetails "g2" "red" None) sample_state
  = (mkState sample_heap (Some 0) (Some "#2-0"%string)
       ["[updateDraw] Cannot find group with id: g2"%string], Ok tt).
Proof.
  apply (updateDraw_missing 5 (mkDrawDetails "g2" "red" None) sample_state 0
           [1; 3; 4; 5; 6; 7; 8; 9; 2]); [reflexivity|reflexivity|].
  left. reflexivity.
Defined.

Lemma getCurrentPosGroup_without_key_witness :
  exists s1 s2,
    getCurrentPosGroup (DrawController sample_heap 0) = (s1, Ok (Some 10))
    /\ getCurrentPosGroup s1 = (s2, Ok (Some 11))
    /\ layerChildren s2 = [1; 2; 10; 11]
    /\ heap s2 !! 10 = Some (newPositionGroup None 0)
    /\ heap s2 !! 11 = Some (newPositionGroup None 0).
Proof.
  apply (getCurrentPosGroup_without_key (DrawController sample_heap 0) 0).
  - reflexivity.
  - exact closedAt_sample.
  - reflexivity.
Defined.

Lemma activateDrawLayer_frame_witness :
  exists s',
    activateDrawLayer ([0; 0; 1]%Z : @Index SampleExternals) 2 sample_state
    = (s', Ok tt)
    /\ konvaLayer s' = konvaLayer sample_state
    /\ currentPosGroupId s' = Some "#2-1"%string
    /\ log s' = log sample_state
    /\ List.length (heap s') = List.length (heap sample_state)
    /\ (forall r n, heap sample_state !! r = Some n ->
          r ∈ positionGroups sample_state ->
          heap s' !! r
          = Some (Konva.with_visible (String.eqb (Konva.id n) "#2-1") n))
    /\ (forall r, r ∉ positionGroups sample_state ->
          heap s' !! r = heap sample_state !! r).
Proof.
  apply (activateDrawLayer_frame
           ([0; 0; 1]%Z : @Index SampleExternals) 2 "#2-1" sample_state 0).
  - reflexivity.
  - reflexivity.
  - exact closedAt_sample.
Defined.

Lemma activateDrawLayer_twice_witness :
  exists s',
    activateDrawLayer ([0; 0; 1]%Z : @Index SampleExternals) 2 sample_state
    = (s', Ok tt)
    /\ activateDrawLayer ([0; 0; 1]%Z : @Index SampleExternals) 2 s'
       = (s', Ok tt).
Proof.
  apply (activateDrawLayer_twice
           ([0; 0; 1]%Z : @Index SampleExternals) 2 "#2-1" sample_state 0).
  - reflexivity.
  - reflexivity.
  - exact closedAt_sample.
Defined.

Lemma deleteDraws_then_queries_witness :
  exists s',
    deleteDraws 3 silent silent sample_state = (s', Ok tt)
    /\ getDrawDisplayDetails s' = (s', Ok [])
    /\ getDrawStoreDetails 5 s' = (s', Ok ∅)
    /\ forall i,
         getGroup 6 i s'
         = (mkState (heap s') (konvaLayer s') (currentPosGroupId s')
              (log s' ++ [("Cannot find node with id: " ++ i)%string]),
            Ok None).
Proof.
  destruct (deleteDraws_then_queries 3 5 silent silent sample_state 0
              observer_silent observer_silent eq_refl) as [Hqueries Hruns].
  destruct (Hruns wf_sample (ex_intro _ _ eq_refl) containers_sample
              layer_fuel_sample) as [s' Hrun].
  exists s'. split; [exact Hrun|exact (Hqueries s' Hrun)].
Defined.

Lemma updateDraw_colours_witness :
  exists s',
    updateDraw 5 sample_update sample_state = (s', Ok tt)
    /\ (exists n', heap s' !! 4 = Some n' /\ Konva.stroke n' = Some "red"%string)
    /\ (exists n', heap s' !! 5 = Some n' /\ Konva.stroke n' = Some "red"%string)
    /\ (exists n', heap s' !! 7 = Some n'
                   /\ Konva.fill n' = Some "red"%string
                   /\ Konva.shadowColor n' = Some "#000"%string)
    /\ (exists n', heap s' !! 8 = Some n' /\ Konva.fill n' = Some "red"%string).
Proof.
  destruct (updateDraw_colours 5 sample_update sample_state 0
              [1; 3; 4; 5; 6; 7; 8; 9; 2] 3 6 eq_refl
              (wf_closedHeap _ wf_sample) eq_refl eq_refl eq_refl
              paintable_sample)
    as (s' & Hrun & Hshapes & Hextras & Hkids).
  exists s'. split; [exact Hrun|]. split; [|split; [|split]].
  - apply Hshapes. change (4 ∈ [4]). apply list_elem_of_here.
  - destruct (Hextras 5 _ ltac:(change (5 ∈ [5]); apply list_elem_of_here)
                eq_refl) as (n' & Hn' & Hstroke).
    exists n'. split; [exact Hn'|exact Hstroke].
  - destruct (Hkids 7 ltac:(change (7 ∈ [7; 8]); apply list_elem_of_here))
      as (n' & Hn' & Hfill & Hshadow).
    exists n'. split; [exact Hn'|]. split; [exact Hfill|].
    apply Hshadow. vm_compute in Hrun. inversion Hrun; subst s'.
    vm_compute in Hn'. inversion Hn'; subst n'. reflexivity.
  - destruct (Hkids 8 ltac:(change (8 ∈ [7; 8]); apply list_elem_of_further,
                              list_elem_of_here))
      as (n' & Hn' & Hfill & _).
    exists n'. split; [exact Hn'|exact Hfill].
Defined.

Lemma updateDraw_frame_witness :
  exists s',
    updateDraw 5 sample_update sample_state = (s', Ok tt)
    /\ konvaLayer s' = konvaLayer sample_state
    /\ currentPosGroupId s' = currentPosGroupId sample_state
    /\ log s' = log sample_state
    /\ List.length (heap s') = List.length (heap sample_state)
    /\ forall x n, heap sample_state !! x = Some n ->
         exists n', heap s' !! x = Some n'
           /\ Konva.name n' = Konva.name n /\ Konva.id n' = Konva.id n
           /\ Konva.className n' = Konva.className n
           /\ Konva.closed n' = Konva.closed n
           /\ Konva.parent n' = Konva.parent n
           /\ Konva.children n' = Konva.children n
           /\ (x <> 6 -> Konva.visible n' = Konva.visible n)
           /\ (x ∉ [7] -> Konva.text n' = Konva.text n
                          /\ Konva.meta n' = Konva.meta n).
Proof.
  apply (updateDraw_frame 5 sample_update sample_state 0
           [1; 3; 4; 5; 6; 7; 8; 9; 2] 3 6).
  - reflexivity.
  - exact (wf_closedHeap _ wf_sample).
  - reflexivity.
  - reflexivity.
  - reflexivity.
  - exact paintable_sample.
Defined.

Lemma closedHeap_grouped : closedHeap (heap grouped_state).
Proof. apply wf_closedHeap. vm_compute. reflexivity. Qed.

Lemma updateDraw_container_decoration_witness :
  exists s',
    updateDraw 5 sample_update grouped_state = (s', Throw TypeError)
    /\ (exists n', heap s' !! 4 = Some n'
                   /\ Konva.stroke n' = Some "red"%string)
    /\ (exists n', heap s' !! 6 = Some n' /\ Konva.visible n' = true)
    /\ (exists n', heap s' !! 7 = Some n'
                   /\ Konva.text n' = "12 mm"%string
                   /\ Konva.meta n' = Some (sample_meta "{length}")).
Proof.
  destruct (updateDraw_container_decoration 5 sample_update grouped_state 0
              [1; 3; 4; 5; 6; 7; 8; 9; 2] 3 5 [] eq_refl closedHeap_grouped
              eq_refl eq_refl eq_refl)
    as (s' & Hrun & _ & Hshapes & Hkeeps).
  { change (Forall (shapeAt (heap grouped_state)) [4]). now repeat constructor. }
  { reflexivity. }
  { reflexivity. }
  exists s'. split; [exact Hrun|]. split; [|split].
  - apply Hshapes. change (4 ∈ [4]). apply list_elem_of_here.
  - destruct (Hkeeps 6 _ eq_refl) as (n' & Hn' & Hvis & _).
    exists n'. split; [exact Hn'|exact Hvis].
  - destruct (Hkeeps 7 _ eq_refl) as (n' & Hn' & _ & Htext & Hmeta & _).
    exists n'. split; [exact Hn'|]. split; [exact Htext|exact Hmeta].
Defined.

Lemma displayableScene_sample : displayableScene sample_state.
Proof.
  change (Forall (fun pg =>
            containerAt (heap sample_state) pg
            /\ is_Some (getIndexFromStringId (idOf (heap sample_state) pg))
            /\ Forall (displayable (heap sample_state))
                 (childrenOf (heap sample_state) pg)) [1; 2]).
  constructor; [|constructor; [|constructor]].
  - split; [reflexivity|]. split; [eexists; reflexivity|].
    change (Forall (displayable (heap sample_state)) [3]).
    constructor; [|constructor].
    split; [reflexivity|]. exists 4, 6, 7.
    repeat split; try reflexivity. eexists; reflexivity.
  - split; [reflexivity|]. split; [eexists; reflexivity|].
    change (Forall (displayable (heap sample_state)) []). constructor.
Qed.

Lemma getDrawDisplayDetails_entries_witness :
  exists l,
    getDrawDisplayDetails sample_state = (sample_state, Ok l)
    /\ Forall2 (fun d pair =>
                  describes (heap sample_state) (fst pair) (snd pair) d)
         l [(1, 3)].
Proof.
  apply (getDrawDisplayDetails_entries sample_state 0).
  - reflexivity.
  - eexists. reflexivity.
  - exact (wf_closedHeap _ wf_sample).
  - exact displayableScene_sample.
Defined.

Lemma getDrawDisplayDetails_requires_witness : displayableScene sample_state.
Proof.
  apply (getDrawDisplayDetails_requires sample_state sample_state
           [mkDisplayDetails "g1" "(0,0,0)" "Arrow" (Some "yellow"%string)
              (Some (sample_meta "{length}"))]).
  vm_compute. reflexivity.
Defined.


Lemma getHierarchyLog_one_line_per_node_witness :
  getHierarchyLog 5 sample_heap 2 (Some ""%string)
  = Ok ("|__ position-group: #2-1" ++ newline)%string
  /\ getHierarchyLog 5 sample_heap 0 (Some ""%string) = Throw TypeError.
Proof.
  split.
  - exact (proj1 (getHierarchyLog_one_line_per_node 5 sample_heap 2 "")
             [(2, 0)] eq_refl).
  - exact (proj1 (getHierarchyLog_one_line_per_node 5 sample_heap 0 "")
             [(0, 0); (1, 1); (3, 2); (4, 3); (5, 3); (6, 3); (7, 4); (8, 4);
              (9, 3); (2, 1)] eq_refl).
Defined.

Lemma uniqueIds_sample : uniqueIds sample_state.
Proof.
  change (NoDup ["#2-0"%string; "#2-1"%string]).
  repeat constructor; [|apply not_elem_of_nil].
  intros H. apply elem_of_cons in H as [H|H]; [discriminate|].
  now apply elem_of_nil in H.
Qed.

Lemma setDrawings_unique_ids_witness :
  uniqueIds (fst (setDrawings 5 incoming_scene None silent silent
                    sample_state)).
Proof.
  apply (setDrawings_unique_ids 5 incoming_scene None silent silent
           sample_state).
  - exact observer_silent.
  - exact observer_silent.
  - exact layerOK_sample.
  - exact uniqueIds_sample.
Defined.

Lemma getCurrentPosGroup_unique_ids_witness :
  uniqueIds (fst (getCurrentPosGroup sample_state)).
Proof.
  apply (getCurrentPosGroup_unique_ids sample_state "#2-0").
  - reflexivity.
  - exact layerOK_sample.
  - exact uniqueIds_sample.
Defined.

Lemma deleteDraw_then_missing_witness :
  exists s',
    deleteDraw 5 "g1" silent silent sample_state = (s', Ok true)
    /\ getGroup 5 "g1" s'
       = (mkState (heap s') (konvaLayer s') (currentPosGroupId s')
            (log s' ++ ["Cannot find node with id: g1"%string]),
          Ok None)
    /\ deleteDraw 5 "g1" silent silent s'
       = (mkState (heap s') (konvaLayer s') (currentPosGroupId s')
            (log s' ++ ["Cannot find node with id: g1"%string]),
          Ok false).
Proof.
  apply (deleteDraw_then_missing 5 "g1" silent silent sample_state 0
           [1; 3; 4; 5; 6; 7; 8; 9; 2] 3).
  - exact observer_silent.
  - exact observer_silent.
  - exact wf_sample.
  - reflexivity.
  - reflexivity.
  - reflexivity.
  - reflexivity.
Defined.

Lemma setDrawings_keeps_existing_witness :
  let s' := fst (setDrawings 5 incoming_scene None silent silent
                   sample_state) in
  konvaLayer s' = konvaLayer sample_state
  /\ currentPosGroupId s' = currentPosGroupId sample_state
  /\ List.length (heap sample_state) <= List.length (heap s')
  /\ (forall x n, heap sample_state !! x = Some n ->
        exists n', heap s' !! x = Some n'
                   /\ Konva.name n' = Konva.name n
                   /\ Konva.id n' = Konva.id n
                   /\ Konva.visible n' = Konva.visible n)
  /\ (forall x n', heap s' !! x = Some n' ->
        heap (fst (Node_create incoming_scene sample_state)) !! x = None ->
        Konva.visible n' = false /\ isPositionNode n' = true).
Proof.
  apply (setDrawings_keeps_existing 5 incoming_scene None silent silent
           sample_state).
  - exact observer_silent.
  - exact observer_silent.
Defined.

Lemma unloading_operations_add_nothing_witness :
  gentle sample_state (fst (updateDraw 5 sample_update sample_state))
  /\ gentle sample_state (fst (getDrawStoreDetails 5 sample_state))
  /\ gentle sample_state (fst (deleteDraw 5 "g1" silent silent sample_state))
  /\ gentle sample_state (fst (deleteDraws 5 silent silent sample_state)).
Proof.
  apply (unloading_operations_add_nothing 5 sample_update "g1" silent silent
           sample_state).
  - exact observer_silent.
  - exact observer_silent.
Defined.
